(** * ebook-to-mindmap: cache keys, chapter grouping and the processing pipeline

    A shallow embedding of [cacheService.ts], [bookProcessingService.ts],
    [aiService.ts] and of [SummaryPage.handleStartProcessing], with the
    properties of the orchestration layer stated over it.

    JavaScript strings are sequences of UTF-16 code units ([list Z]); the
    persistent store is a finite map from keys to JSON-like values; the
    asynchronous services are state-passing functions over the store, the
    number of requests sent to the provider, the clock and the page state. *)

From stdpp Require Import gmap list strings sorting.
From Stdlib Require Import ZArith Lia.

Local Open Scope Z_scope.

(** ** JavaScript strings *)

Abbreviation jsstring := (list Z).

(** An ASCII literal as code units. *)
Fixpoint js (s : string) : jsstring :=
  match s with
  | EmptyString => []
  | String a r => Z.of_nat (Ascii.nat_of_ascii a) :: js r
  end.

Module JsString.

(** [s.startsWith(p)], returning what follows the prefix. *)
Fixpoint strip_prefix (p s : jsstring) : option jsstring :=
  match p, s with
  | [], _ => Some s
  | a :: p', b :: s' => if decide (a = b) then strip_prefix p' s' else None
  | _ :: _, [] => None
  end.

Definition startsWith (s p : jsstring) : bool :=
  match strip_prefix p s with Some _ => true | None => false end.

Definition endsWith (s p : jsstring) : bool :=
  startsWith (rev s) (rev p).

(** [s.includes(p)] *)
Fixpoint includes (s p : jsstring) : bool :=
  startsWith s p ||
  match s with
  | [] => false
  | _ :: s' => includes s' p
  end.

(** [xs.join(sep)] *)
Fixpoint join (sep : jsstring) (xs : list jsstring) : jsstring :=
  match xs with
  | [] => []
  | [x] => x
  | x :: rest => x ++ sep ++ join sep rest
  end.

(** WhiteSpace and LineTerminator code units, as removed by [trim]
    and matched by [\s]. *)
Definition is_space (c : Z) : bool :=
  (c =? 9) || (c =? 10) || (c =? 11) || (c =? 12) || (c =? 13) || (c =? 32)
  || (c =? 160) || (c =? 5760) || ((8192 <=? c) && (c <=? 8202))
  || (c =? 8232) || (c =? 8233) || (c =? 8239) || (c =? 8287)
  || (c =? 12288) || (c =? 65279).

Fixpoint trimStart (s : jsstring) : jsstring :=
  match s with
  | c :: r => if is_space c then trimStart r else s
  | [] => []
  end.

Definition trim (s : jsstring) : jsstring :=
  rev (trimStart (rev (trimStart s))).

(** Code units that [.] does not match. *)
Definition is_line_terminator (c : Z) : bool :=
  (c =? 10) || (c =? 13) || (c =? 8232) || (c =? 8233).

(** Comparison of strings by code units, the order of [Array.prototype.sort]
    without a comparator. *)
Fixpoint leb (a b : jsstring) : bool :=
  match a, b with
  | [], _ => true
  | _ :: _, [] => false
  | x :: a', y :: b' => (x <? y) || ((x =? y) && leb a' b')
  end.

Fixpoint insert_sorted (x : jsstring) (l : list jsstring) : list jsstring :=
  match l with
  | [] => [x]
  | y :: r => if leb x y then x :: l else y :: insert_sorted x r
  end.

Definition sort (l : list jsstring) : list jsstring :=
  foldr insert_sorted [] l.

(** Digits of a non-negative integer in a radix up to 36,
    [Number.prototype.toString(radix)]. *)
Definition digit (d : Z) : Z :=
  if d <? 10 then 48 + d else 97 + (d - 10).

Fixpoint digits_aux (fuel : nat) (radix n : Z) (acc : jsstring) : jsstring :=
  let acc' := digit (n mod radix) :: acc in
  match fuel with
  | O => acc'
  | S f => if n <? radix then acc' else digits_aux f radix (n / radix) acc'
  end.

Definition toStringRadix (radix n : Z) : jsstring :=
  digits_aux (Z.to_nat (Z.log2 n)) radix n [].

(** Greedy [(.+)] followed by the rest of a pattern [k]: the group takes
    one code unit that is not a line terminator, then as many more as
    possible, giving one back at a time until the rest matches. *)
Fixpoint dot_plus {R} (s : jsstring)
    (k : jsstring -> jsstring -> option R) : option R :=
  match s with
  | [] => None
  | c :: rest =>
      if is_line_terminator c then None
      else match dot_plus rest (fun g post => k (c :: g) post) with
           | Some r => Some r
           | None => k [c] rest
           end
  end.

End JsString.

(** ** cacheService.ts: the key scheme *)

Module Kind.
Inductive CacheKeyType :=
  | summary | mindmap
  | connections | overall_summary | character_relationship
  | combined_mindmap | merged_mindmap | mindmap_arrows
  | selected_chapters | chapter_tags | custom_prompt | use_custom_only.
End Kind.
Export Kind.

#[global] Instance CacheKeyType_eq_dec : EqDecision CacheKeyType.
Proof. solve_decision. Defined.

Definition type_name (t : CacheKeyType) : jsstring :=
  match t with
  | summary => js "summary"
  | mindmap => js "mindmap"
  | connections => js "connections"
  | overall_summary => js "overall_summary"
  | character_relationship => js "character_relationship"
  | combined_mindmap => js "combined_mindmap"
  | merged_mindmap => js "merged_mindmap"
  | mindmap_arrows => js "mindmap_arrows"
  | selected_chapters => js "selected_chapters"
  | chapter_tags => js "chapter_tags"
  | custom_prompt => js "custom_prompt"
  | use_custom_only => js "use_custom_only"
  end.

Record ParsedKey := {
  bookName : jsstring;
  type : CacheKeyType;
  chapterId : option jsstring
}.

#[global] Instance ParsedKey_eq_dec : EqDecision ParsedKey.
Proof. solve_decision. Defined.

Module CacheKey.
Import JsString.

(** [filename.replace(/\.[^/.]+$/, '')]: the leftmost dot that is followed,
    up to the end, by one or more code units other than [/] and [.]. *)
Definition is_extension (t : jsstring) : bool :=
  match t with
  | [] => false
  | _ => forallb (fun c => negb (c =? 47) && negb (c =? 46)) t
  end.

Fixpoint remove_extension (s : jsstring) : jsstring :=
  match s with
  | [] => []
  | c :: t => if (c =? 46) && is_extension t then [] else c :: remove_extension t
  end.

(** The class [[a-zA-Z0-9一-龥]]. *)
Definition is_key_char (c : Z) : bool :=
  ((97 <=? c) && (c <=? 122)) || ((65 <=? c) && (c <=? 90))
  || ((48 <=? c) && (c <=? 57)) || ((19968 <=? c) && (c <=? 40869)).

(** [.replace(/[^a-zA-Z0-9一-龥]/g, '_')] *)
Definition replace_special (s : jsstring) : jsstring :=
  map (fun c => if is_key_char c then c else 95) s.

Definition cleanFilename (filename : jsstring) : jsstring :=
  replace_special (remove_extension filename).

(** [CacheService.generateKey]; an absent or empty [chapterId] is falsy. *)
Definition generateKey (filename : jsstring) (t : CacheKeyType)
    (chapterId : option jsstring) : jsstring :=
  match chapterId with
  | Some (c :: cs) =>
      js "book_" ++ cleanFilename filename ++ js "_chapter_" ++ (c :: cs)
        ++ js "_" ++ type_name t
  | _ => js "book_" ++ cleanFilename filename ++ js "_" ++ type_name t
  end.

(** The alternation at the end of a pattern: the first name, in the order
    written, that is all that remains. *)
Definition one_of (names : list CacheKeyType) (rest : jsstring)
    : option CacheKeyType :=
  List.find (fun t => bool_decide (rest = type_name t)) names.

(** [/^book_(.+)_chapter_(.+)_(summary|mindmap)$/] *)
Definition chapterMatch (key : jsstring) : option ParsedKey :=
  r0 ← strip_prefix (js "book_") key;
  dot_plus r0 (fun book r1 =>
    r2 ← strip_prefix (js "_chapter_") r1;
    dot_plus r2 (fun chap r3 =>
      r4 ← strip_prefix (js "_") r3;
      t ← one_of [summary; mindmap] r4;
      Some {| bookName := book; type := t; chapterId := Some chap |})).

(** [/^book_(.+)_(connections|overall_summary|...|use_custom_only)$/] *)
Definition bookMatch (key : jsstring) : option ParsedKey :=
  r0 ← strip_prefix (js "book_") key;
  dot_plus r0 (fun book r1 =>
    r2 ← strip_prefix (js "_") r1;
    t ← one_of [connections; overall_summary; character_relationship;
                combined_mindmap; merged_mindmap; mindmap_arrows;
                selected_chapters; chapter_tags; custom_prompt;
                use_custom_only] r2;
    Some {| bookName := book; type := t; chapterId := None |}).

(** [CacheService.parseKey] *)
Definition parseKey (key : jsstring) : option ParsedKey :=
  match chapterMatch key with
  | Some p => Some p
  | None => bookMatch key
  end.

End CacheKey.

(** ** Values kept in the store

    [CacheValue] is [string | MindElixirData | string[] | Record | boolean | null];
    a mind map is whatever [JSON.parse] made of the provider's answer, so the
    store holds JSON values. Numbers are never computed with; integers stand
    for them. *)

#[warnings="-register-all"]
Inductive JsValue :=
  | JNull
  | JBool (b : bool)
  | JNum (n : Z)
  | JStr (s : jsstring)
  | JArr (items : list JsValue)
  | JObj (fields : list (jsstring * JsValue)).

Module Js.

(** ToBoolean *)
Definition truthy (v : JsValue) : bool :=
  match v with
  | JNull => false
  | JBool b => b
  | JNum n => negb (n =? 0)
  | JStr s => match s with [] => false | _ => true end
  | JArr _ | JObj _ => true
  end.

Fixpoint assoc (name : jsstring) (fields : list (jsstring * JsValue))
    : option JsValue :=
  match fields with
  | [] => None
  | (k, v) :: rest => if decide (k = name) then Some v else assoc name rest
  end.

(** [v?.name] for a name that no prototype defines: [None] is [undefined]. *)
Definition prop (name : jsstring) (v : JsValue) : option JsValue :=
  match v with
  | JObj fields => assoc name fields
  | _ => None
  end.

(** [x?.name] on what may be [undefined]. *)
Definition chain (name : jsstring) (x : option JsValue) : option JsValue :=
  match x with
  | Some v => prop name v
  | None => None
  end.

(** [name in v] for an object or array [v]. *)
Definition has (name : jsstring) (v : JsValue) : bool :=
  match prop name v with Some _ => true | None => false end.

(** [x || []] *)
Definition or_empty (x : option JsValue) : JsValue :=
  match x with
  | Some v => if truthy v then v else JArr []
  | None => JArr []
  end.

(** [acc.concat(x)]: an array argument is spread, anything else appended. *)
Definition concat (acc : list JsValue) (x : JsValue) : list JsValue :=
  match x with
  | JArr items => acc ++ items
  | _ => acc ++ [x]
  end.

End Js.

(** ** bookProcessingService.ts: hashing and grouping *)

Record ChapterData := {
  id : jsstring;
  title : jsstring;
  content : jsstring;
  startPage : option Z;
  endPage : option Z;
  pageIndex : option Z
}.

Record TempChapterGroup := {
  tg_tag : option jsstring;
  tg_chapters : list ChapterData;
  tg_groupId : jsstring
}.

Module Grouping.
Import JsString.

(** ToInt32 *)
Definition toInt32 (z : Z) : Z := (z + 2 ^ 31) mod 2 ^ 32 - 2 ^ 31.

(** [hashString] *)
Definition hashString (str : jsstring) : jsstring :=
  let hash :=
    fold_left
      (fun hash char =>
         let hash := (toInt32 (Z.shiftl (toInt32 hash) 5) - hash) + char in
         Z.land (toInt32 hash) (toInt32 hash))
      str 0 in
  toStringRadix 36 (Z.abs hash).

(** [chapterTags.get(chapter.id) || null]: no entry and an empty tag are
    both [null]. *)
Definition tagOf (chapterTags : gmap jsstring jsstring) (chapter : ChapterData)
    : option jsstring :=
  match chapterTags !! id chapter with
  | Some (c :: t) => Some (c :: t)
  | _ => None
  end.

(** [chapters.filter(ch => chapterTags.get(ch.id) === tag)] *)
Definition sameTag (chapterTags : gmap jsstring jsstring) (tag : jsstring)
    (chapters : list ChapterData) : list ChapterData :=
  List.filter (fun ch => bool_decide (chapterTags !! id ch = Some tag)) chapters.

Definition taggedGroupId (members : list ChapterData) : jsstring :=
  hashString (join (js "_") (sort (map id members))).

(** One iteration of the loop of [groupChaptersByTag], on the pair of
    [groups] and [processedTags]. *)
Definition group_step (chapters : list ChapterData)
    (chapterTags : gmap jsstring jsstring)
    (acc : list TempChapterGroup * gset jsstring) (chapter : ChapterData)
    : list TempChapterGroup * gset jsstring :=
  let '(groups, processedTags) := acc in
  match tagOf chapterTags chapter with
  | None =>
      (groups ++ [ {| tg_tag := None; tg_chapters := [chapter];
                      tg_groupId := title chapter |} ], processedTags)
  | Some tag =>
      if bool_decide (tag ∈ processedTags) then (groups, processedTags)
      else
        let sameTagChapters := sameTag chapterTags tag chapters in
        (groups ++ [ {| tg_tag := Some tag; tg_chapters := sameTagChapters;
                        tg_groupId := taggedGroupId sameTagChapters |} ],
         {[ tag ]} ∪ processedTags)
  end.

(** [BookProcessingService.groupChaptersByTag] *)
Definition groupChaptersByTag (chapters : list ChapterData)
    (chapterTags : gmap jsstring jsstring) : list TempChapterGroup :=
  fst (fold_left (group_step chapters chapterTags) chapters ([], ∅)).

End Grouping.

(** ** Results of processing, as the page shows them *)

(** [Chapter]: the fields of the extracted chapter and what was generated
    for it; [None] is [undefined]. *)
Record Chapter := {
  c_source : ChapterData;
  c_summary : option jsstring;
  c_reasoning : option jsstring;
  c_mindMap : option JsValue;
  c_isLoading : option bool
}.

Record ChapterGroup := {
  groupId : jsstring;
  tag : option jsstring;
  chapterIds : list jsstring;
  chapterTitles : list jsstring;
  g_summary : option jsstring;
  g_reasoning : option jsstring;
  g_mindMap : option JsValue;
  g_isLoading : option bool
}.

Record BookSummary := {
  bs_title : jsstring;
  bs_author : jsstring;
  bs_groups : list ChapterGroup;
  bs_connections : jsstring;
  bs_characterRelationship : jsstring;
  bs_overallSummary : jsstring;
  bs_connectionsLoading : option bool;
  bs_overallSummaryLoading : option bool
}.

Record BookMindMap := {
  bm_title : jsstring;
  bm_author : jsstring;
  bm_groups : list ChapterGroup;
  bm_combinedMindMap : option JsValue
}.

Record RetryParams := {
  rp_selectedChapters : gset jsstring;
  rp_chapterTags : gmap jsstring jsstring;
  rp_customPrompt : jsstring;
  rp_useCustomOnly : bool
}.

(** The React state of [SummaryPage] that processing sets. The progress
    percentage and the step caption are display only and left out. *)
Record PageState := {
  currentStepIndex : Z;
  processing : bool;
  error : option jsstring;
  bookSummary : option BookSummary;
  bookMindMap : option BookMindMap;
  retryParams : option RetryParams
}.

(** ** Errors, the outside world and the state threaded through the services *)

Record JsError := {
  err_name : jsstring;
  err_message : jsstring
}.

(** [new Error(message)] *)
Definition Error (message : jsstring) : JsError :=
  {| err_name := js "Error"; err_message := message |}.

(** [new DOMException('Request was aborted', 'AbortError')] *)
Definition AbortError : JsError :=
  {| err_name := js "AbortError"; err_message := js "Request was aborted" |}.

Definition TypeError (message : jsstring) : JsError :=
  {| err_name := js "TypeError"; err_message := message |}.

Inductive Outcome (A : Type) :=
  | Return (a : A)
  | Throw (e : JsError).
Arguments Return {A} a.
Arguments Throw {A} e.

(** What [generateContent] and [generateContentStream] resolve to. *)
Record Message := {
  msg_content : jsstring;
  msg_reasoning : jsstring
}.

(** A streamed [delta]: its [content] and its
    [reasoning_content || reasoning], each [''] when missing. *)
Record Delta := {
  delta_content : jsstring;
  delta_reasoning : jsstring
}.

(** The body posted to [/chat/completions], without model and temperature. *)
Record Request := {
  req_content : jsstring;
  req_json : bool;
  req_stream : bool
}.

(** The exchange with the provider, seen from the service: [Rejected] when
    [fetch] or the decoding of the body throws (an [AbortError] when the
    signal fires while the request is in flight), [NotOk] for a response
    that is not [ok], [ProviderError] for [choices[0].error], and
    [Completed] with [message.content || ''] and
    [message.reasoning_content || '']. *)
Inductive Response :=
  | Rejected (e : JsError)
  | NotOk (status statusText errorBody : jsstring)
  | ProviderError (code message : jsstring)
  | Completed (content reasoning : jsstring).

(** The exchange for a request with [stream: true]; [SBody] has the deltas
    read from the body, then the end of the stream or the error that
    [reader.read()] throws. *)
Inductive StreamResponse :=
  | SRejected (e : JsError)
  | SNotOk (status statusText errorBody : jsstring)
  | SNoBody
  | SBody (deltas : list Delta) (failure : option JsError).

Inductive StoreOp := GetItem | SetItem | RemoveItem | Keys.

#[global] Instance StoreOp_eq_dec : EqDecision StoreOp.
Proof. solve_decision. Defined.

(** The prompt templates of [services/prompts] and the language instruction. *)
Record PromptLibrary := {
  getFictionChapterSummaryPrompt : jsstring -> jsstring -> jsstring -> bool -> jsstring;
  getNonFictionChapterSummaryPrompt : jsstring -> jsstring -> jsstring -> bool -> jsstring;
  getChapterConnectionsAnalysisPrompt : jsstring -> jsstring;
  getFictionChapterConnectionsAnalysisPrompt : jsstring -> jsstring;
  getOverallSummaryPrompt : jsstring -> jsstring -> jsstring;
  getFictionOverallSummaryPrompt : jsstring -> jsstring -> jsstring;
  getChapterMindMapPrompt : jsstring;
  getCharacterRelationshipPrompt : jsstring -> jsstring;
  getFictionCharacterRelationshipPrompt : jsstring -> jsstring;
  getLanguageInstruction : jsstring -> jsstring
}.

(** Everything the services do not decide: the provider's answer to the
    n-th request, the clock at its n-th reading, [JSON.parse], the failures
    of the persistence layer and the prompt texts. *)
Record World := {
  complete : nat -> Request -> Response;
  stream : nat -> Request -> StreamResponse;
  now : nat -> Z;
  JSON_parse : jsstring -> option JsValue;
  store_fault : StoreOp -> jsstring -> option JsError;
  prompts : PromptLibrary
}.

(** [AbortSignal]: whether [aborted] reads true when looked at after [n]
    requests have been sent. *)
Record AbortSignal := {
  aborted : nat -> bool
}.

Record State := {
  store : gmap jsstring JsValue;
  requests : nat;
  clockReads : nat;
  page : PageState
}.

Definition M (A : Type) : Type := State -> Outcome A * State.

Definition ret {A} (a : A) : M A := fun st => (Return a, st).

Definition throw {A} (e : JsError) : M A := fun st => (Throw e, st).

Definition bind {A B} (m : M A) (k : A -> M B) : M B :=
  fun st =>
    match m st with
    | (Return a, st') => k a st'
    | (Throw e, st') => (Throw e, st')
    end.

(** [try { m } catch (e) { h e }] *)
Definition try_catch {A} (m : M A) (h : JsError -> M A) : M A :=
  fun st =>
    match m st with
    | (Return a, st') => (Return a, st')
    | (Throw e, st') => h e st'
    end.

(** A setter of the page state, as called from a callback. *)
Definition set_page (f : PageState -> PageState) : M unit :=
  fun st =>
    (Return tt, {| store := store st; requests := requests st;
                   clockReads := clockReads st; page := f (page st) |}).

Notation "'let*' x ':=' m 'in' k" := (bind m (fun x => k))
  (at level 10, x name, m at level 100, k at level 200).

(** ** cacheService.ts: the store *)

Inductive ClearMode := ClearSummary | ClearMindmap | ClearCombinedMindmap.

Record CacheEntry := {
  ce_key : jsstring;
  ce_parsed : ParsedKey
}.

Module CacheService.
Import JsString CacheKey.

Section Store.
Context (w : World).

(** [localforage.getItem]: [null] when nothing is stored. *)
Definition getItem (key : jsstring) : M JsValue :=
  fun st =>
    match store_fault w GetItem key with
    | Some e => (Throw e, st)
    | None => (Return (default JNull (store st !! key)), st)
    end.

Definition setItem (key : jsstring) (value : JsValue) : M unit :=
  fun st =>
    match store_fault w SetItem key with
    | Some e => (Throw e, st)
    | None =>
        (Return tt, {| store := <[key := value]> (store st);
                       requests := requests st;
                       clockReads := clockReads st; page := page st |})
    end.

Definition removeItem (key : jsstring) : M unit :=
  fun st =>
    match store_fault w RemoveItem key with
    | Some e => (Throw e, st)
    | None =>
        (Return tt, {| store := delete key (store st);
                       requests := requests st;
                       clockReads := clockReads st; page := page st |})
    end.

(** [localforage.keys]: the database lists its keys in ascending order,
    strings by their code units. *)
Definition keys : M (list jsstring) :=
  fun st =>
    match store_fault w Keys [] with
    | Some e => (Throw e, st)
    | None => (Return (sort (map fst (map_to_list (store st)))), st)
    end.

(** [getString]: [None] is [null]. *)
Definition getString (filename : jsstring) (t : CacheKeyType)
    (chapterId : option jsstring) : M (option jsstring) :=
  let key := generateKey filename t chapterId in
  let* value := getItem key in
  ret (match value with JStr s => Some s | _ => None end).

(** [getMindMap]: a stored object or array with a [nodeData] member. *)
Definition getMindMap (filename : jsstring) (t : CacheKeyType)
    (chapterId : option jsstring) : M (option JsValue) :=
  let key := generateKey filename t chapterId in
  let* value := getItem key in
  ret (match value with
       | JObj _ | JArr _ => if Js.has (js "nodeData") value then Some value else None
       | _ => None
       end).

Definition setCache (filename : jsstring) (t : CacheKeyType)
    (value : JsValue) (chapterId : option jsstring) : M unit :=
  let key := generateKey filename t chapterId in
  setItem key value.

Definition deleteCache (filename : jsstring) (t : CacheKeyType)
    (chapterId : option jsstring) : M bool :=
  let key := generateKey filename t chapterId in
  try_catch (let* _ := removeItem key in ret true) (fun _ => ret false).

Definition getAllKeys : M (list jsstring) := keys.

(** [type] is ['summary'] or ['mindmap']. *)
Definition clearChapterCache (fileName chapterId : jsstring)
    (t : CacheKeyType) : M bool :=
  deleteCache fileName t (Some chapterId).

Definition clearSpecificCache (fileName : jsstring) (cacheType : CacheKeyType)
    : M bool :=
  deleteCache fileName cacheType None.

(** [if (await this.deleteCache(...)) deletedCount++] *)
Definition counted (deletion : M bool) (deletedCount : nat) : M nat :=
  let* deleted := deletion in
  ret (if deleted : bool then S deletedCount else deletedCount).

(** The loop over [chapterKeys] of [clearBookCache]: a failed removal
    is ignored. *)
Fixpoint removeCounting (chapterKeys : list jsstring) (deletedCount : nat)
    : M nat :=
  match chapterKeys with
  | [] => ret deletedCount
  | key :: rest =>
      let* n := try_catch (let* _ := removeItem key in ret (S deletedCount))
                          (fun _ => ret deletedCount) in
      removeCounting rest n
  end.

Definition chapterKeysOf (bookPrefix suffix : jsstring)
    (allKeys : list jsstring) : list jsstring :=
  List.filter (fun key => startsWith key bookPrefix
                          && includes key (js "_chapter_")
                          && endsWith key suffix) allKeys.

Definition clearBookCache (fileName : jsstring) (processingMode : ClearMode)
    : M nat :=
  let bookPrefix := js "book_" ++ cleanFilename fileName ++ js "_" in
  let* n := counted (deleteCache fileName selected_chapters None) 0%nat in
  let* n := counted (deleteCache fileName chapter_tags None) n in
  match processingMode with
  | ClearSummary =>
      let* n := counted (deleteCache fileName connections None) n in
      let* n := counted (deleteCache fileName character_relationship None) n in
      let* n := counted (deleteCache fileName overall_summary None) n in
      let* allKeys := getAllKeys in
      removeCounting (chapterKeysOf bookPrefix (js "_summary") allKeys) n
  | ClearMindmap =>
      let* n := counted (deleteCache fileName mindmap_arrows None) n in
      let* n := counted (deleteCache fileName merged_mindmap None) n in
      let* allKeys := getAllKeys in
      removeCounting (chapterKeysOf bookPrefix (js "_mindmap") allKeys) n
  | ClearCombinedMindmap =>
      counted (deleteCache fileName combined_mindmap None) n
  end.

Definition getAllCacheEntries : M (list CacheEntry) :=
  let* ks := keys in
  ret (omap (fun key =>
               match parseKey key with
               | Some parsed => Some {| ce_key := key; ce_parsed := parsed |}
               | None => None
               end) ks).

Definition getCacheValueByKey (key : jsstring) : M JsValue := getItem key.

Definition deleteCacheByKey (key : jsstring) : M bool :=
  try_catch (let* _ := removeItem key in ret true) (fun _ => ret false).

Fixpoint deleteEntries (book : jsstring) (entries : list CacheEntry)
    (deletedCount : nat) : M nat :=
  match entries with
  | [] => ret deletedCount
  | entry :: rest =>
      if decide (bookName (ce_parsed entry) = book)
      then let* n := counted (deleteCacheByKey (ce_key entry)) deletedCount in
           deleteEntries book rest n
      else deleteEntries book rest deletedCount
  end.

Definition deleteBookAllCache (book : jsstring) : M nat :=
  let* entries := getAllCacheEntries in
  deleteEntries book entries 0%nat.

End Store.
End CacheService.

(** ** aiService.ts *)

Inductive BookType := fiction | non_fiction.

Definition nl : jsstring := [10].

Definition nonempty (s : jsstring) : bool :=
  match s with [] => false | _ => true end.

(** [customPrompt && customPrompt.trim()] *)
Definition has_text (s : jsstring) : bool :=
  nonempty s && nonempty (JsString.trim s).

Module AIService.
Import JsString.

Section Service.
Context (w : World).

Definition count_request : M nat :=
  fun st =>
    (Return (requests st),
     {| store := store st; requests := S (requests st);
        clockReads := clockReads st; page := page st |}).

Definition requests_sent : M nat :=
  fun st => (Return (requests st), st).

(** [abortSignal?.aborted] *)
Definition is_aborted (abortSignal : option AbortSignal) : M bool :=
  let* n := requests_sent in
  ret (match abortSignal with Some s => aborted s n | None => false end).

Definition user_message (prompt : jsstring) (outputLanguage : option jsstring)
    : jsstring :=
  let language :=
    match outputLanguage with
    | Some (c :: l) => c :: l
    | _ => js "en"
    end in
  let systemPrompt := getLanguageInstruction (prompts w) language in
  prompt ++ nl ++ nl ++ systemPrompt.

(** [generateContent] *)
Definition generateContent (prompt : jsstring)
    (outputLanguage : option jsstring) (abortSignal : option AbortSignal)
    (requireJsonFormat : bool) : M Message :=
  let* stop := is_aborted abortSignal in
  if stop : bool then throw AbortError
  else
    let* n := count_request in
    match complete w n
            {| req_content := user_message prompt outputLanguage;
               req_json := requireJsonFormat; req_stream := false |} with
    | Rejected e => throw e
    | NotOk status statusText errorBody =>
        throw (Error (js "Error: " ++ status ++ js " " ++ statusText
                        ++ js " - " ++ errorBody))
    | ProviderError code message =>
        throw (Error (js "AI Provider Error: " ++ code ++ js " - " ++ message))
    | Completed content reasoning =>
        ret {| msg_content := content; msg_reasoning := reasoning |}
    end.

(** The read loop of [generateContentStream]: a delta with content or
    reasoning is added to the totals and handed to [onUpdate], which may
    change the locals [L] of the closure it was made in, read the clock
    and set page state. *)
Fixpoint deliver {L} (onUpdate : Delta -> L -> State -> L * State)
    (deltas : list Delta) (full : Message) (locals : L) (st : State)
    : Message * State :=
  match deltas with
  | [] => (full, st)
  | d :: rest =>
      if nonempty (delta_content d) || nonempty (delta_reasoning d)
      then
        let full' :=
          {| msg_content := msg_content full ++ delta_content d;
             msg_reasoning := msg_reasoning full ++ delta_reasoning d |} in
        let '(locals', st') := onUpdate d locals st in
        deliver onUpdate rest full' locals' st'
      else deliver onUpdate rest full locals st
  end.

(** [generateContentStream] *)
Definition generateContentStream {L} (prompt : jsstring)
    (onUpdate : Delta -> L -> State -> L * State) (locals : L)
    (outputLanguage : option jsstring) (abortSignal : option AbortSignal)
    : M Message :=
  let* stop := is_aborted abortSignal in
  if stop : bool then throw AbortError
  else
    try_catch
      (let* n := count_request in
       match stream w n
               {| req_content := user_message prompt outputLanguage;
                  req_json := false; req_stream := true |} with
       | SRejected e => throw e
       | SNotOk status statusText errorBody =>
           throw (Error (js "Error: " ++ status ++ js " " ++ statusText
                           ++ js " - " ++ errorBody))
       | SNoBody => throw (Error (js "Response body is null"))
       | SBody deltas failure =>
           fun st =>
             let '(full, st') :=
               deliver onUpdate deltas
                 {| msg_content := []; msg_reasoning := [] |} locals st in
             match failure with
             | Some e => (Throw e, st')
             | None => (Return full, st')
             end
       end)
      (fun error =>
         if decide (err_name error = js "AbortError") then throw error
         else throw (Error (js "Stream generation failed: "
                              ++ err_message error))).

(** [catch (error) { throw new Error(prefix + error.message) }] *)
Definition rethrow {A} (prefix : jsstring) (m : M A) : M A :=
  try_catch m (fun error => throw (Error (prefix ++ err_message error))).

(** [summarizeChapter] *)
Definition summarizeChapter {L} (title content : jsstring)
    (bookType : BookType) (outputLanguage customPrompt : jsstring)
    (useCustomOnly : bool) (abortSignal : option AbortSignal)
    (onStreamUpdate : option (Delta -> L -> State -> L * State)) (locals : L)
    : M Message :=
  rethrow []
    (let prompt :=
       match bookType with
       | fiction =>
           getFictionChapterSummaryPrompt (prompts w) title content
             customPrompt useCustomOnly
       | non_fiction =>
           getNonFictionChapterSummaryPrompt (prompts w) title content
             customPrompt useCustomOnly
       end in
     let* result :=
       match onStreamUpdate with
       | Some onUpdate =>
           generateContentStream prompt onUpdate locals
             (Some outputLanguage) abortSignal
       | None => generateContent prompt (Some outputLanguage) abortSignal false
       end in
     if nonempty (trim (msg_content result))
     then ret {| msg_content := trim (msg_content result);
                 msg_reasoning := trim (msg_reasoning result) |}
     else
       (* AI返回了空的总结 *)
       throw (Error [65; 73; 36820; 22238; 20102; 31354; 30340; 24635; 32467])).

(** [chapter.summary || '无总结'] *)
Definition summary_or_none (chapter : Chapter) : jsstring :=
  match c_summary chapter with
  | Some (c :: s) => c :: s
  | _ => [26080; 24635; 32467]
  end.

(** [chapters.map(chapter => `${chapter.title}:\n${...}`).join('\n\n')] *)
Definition chapterSummaries (chapters : list Chapter) : jsstring :=
  join (nl ++ nl)
    (map (fun chapter =>
            title (c_source chapter) ++ js ":" ++ nl ++ summary_or_none chapter)
         chapters).

(** [analyzeConnections] *)
Definition analyzeConnections {L} (chapters : list Chapter)
    (outputLanguage : jsstring) (bookType : BookType)
    (abortSignal : option AbortSignal)
    (onStreamUpdate : option (Delta -> L -> State -> L * State)) (locals : L)
    : M jsstring :=
  (* 章节关联分析失败: *)
  rethrow [31456; 33410; 20851; 32852; 20998; 26512; 22833; 36133; 58; 32]
    (let prompt :=
       match bookType with
       | fiction =>
           getFictionChapterConnectionsAnalysisPrompt (prompts w)
             (chapterSummaries chapters)
       | non_fiction =>
           getChapterConnectionsAnalysisPrompt (prompts w)
             (chapterSummaries chapters)
       end in
     let* result :=
       match onStreamUpdate with
       | Some onUpdate =>
           generateContentStream prompt onUpdate locals
             (Some outputLanguage) abortSignal
       | None => generateContent prompt (Some outputLanguage) abortSignal false
       end in
     let connections := msg_content result in
     if nonempty (trim connections) then ret (trim connections)
     else
       (* AI返回了空的关联分析 *)
       throw (Error [65; 73; 36820; 22238; 20102; 31354; 30340; 20851;
                     32852; 20998; 26512])).

(** [`第${index + 1}章：${chapter.title}，内容：${...}`] joined by newlines *)
Definition chapterInfo (chapters : list Chapter) : jsstring :=
  join nl
    (imap (fun index chapter =>
             [31532] ++ toStringRadix 10 (Z.of_nat index + 1)
             ++ [31456; 65306] ++ title (c_source chapter)
             ++ [65292; 20869; 23481; 65306] ++ summary_or_none chapter)
          chapters).

(** [generateOverallSummary] *)
Definition generateOverallSummary {L} (bookTitle : jsstring)
    (chapters : list Chapter) (outputLanguage : jsstring)
    (bookType : BookType) (abortSignal : option AbortSignal)
    (onStreamUpdate : option (Delta -> L -> State -> L * State)) (locals : L)
    : M jsstring :=
  (* 全书总结生成失败: *)
  rethrow [20840; 20070; 24635; 32467; 29983; 25104; 22833; 36133; 58; 32]
    (let prompt :=
       match bookType with
       | fiction =>
           getFictionOverallSummaryPrompt (prompts w) bookTitle
             (chapterInfo chapters)
       | non_fiction =>
           getOverallSummaryPrompt (prompts w) bookTitle (chapterInfo chapters)
       end in
     let* result :=
       match onStreamUpdate with
       | Some onUpdate =>
           generateContentStream prompt onUpdate locals
             (Some outputLanguage) abortSignal
       | None => generateContent prompt (Some outputLanguage) abortSignal false
       end in
     let summary := msg_content result in
     if nonempty (trim summary) then ret (trim summary)
     else
       (* AI返回了空的全书总结 *)
       throw (Error [65; 73; 36820; 22238; 20102; 31354; 30340; 20840;
                     20070; 24635; 32467])).

(** Lazy [([\s\S]*?)] followed by the closing fence: what stands before
    the first three backticks. *)
Fixpoint until_fence (s : jsstring) : option jsstring :=
  match strip_prefix (js "```") s with
  | Some _ => Some []
  | None =>
      match s with
      | [] => None
      | c :: r => cons c <$> until_fence r
      end
  end.

(** [\s*([\s\S]*?)```] after an opening fence. The white space is taken
    greedily; giving some back would not bring a closing fence nearer. *)
Definition fence_body (s : jsstring) : option jsstring :=
  until_fence (trimStart s).

(** [relationship.match(/```mermaid\s*([\s\S]*?)```/)], its group 1 *)
Fixpoint mermaidMatch (s : jsstring) : option jsstring :=
  match strip_prefix (js "```mermaid") s ≫= fence_body with
  | Some g => Some g
  | None =>
      match s with
      | [] => None
      | _ :: r => mermaidMatch r
      end
  end.

(** [response.match(/```(?:json)?\s*([\s\S]*?)```/)], its group 1 *)
Definition json_fence_at (s : jsstring) : option jsstring :=
  r ← strip_prefix (js "```") s;
  match strip_prefix (js "json") r ≫= fence_body with
  | Some g => Some g
  | None => fence_body r
  end.

Fixpoint jsonMatch (s : jsstring) : option jsstring :=
  match json_fence_at s with
  | Some g => Some g
  | None =>
      match s with
      | [] => None
      | _ :: r => jsonMatch r
      end
  end.

(** [generateCharacterRelationship] *)
Definition generateCharacterRelationship (chapters : list Chapter)
    (outputLanguage : jsstring) (bookType : BookType)
    (abortSignal : option AbortSignal) : M jsstring :=
  (* 人物关系图生成失败: *)
  rethrow [20154; 29289; 20851; 31995; 22270; 29983; 25104; 22833; 36133; 58; 32]
    (let prompt :=
       match bookType with
       | fiction =>
           getFictionCharacterRelationshipPrompt (prompts w)
             (chapterSummaries chapters)
       | non_fiction =>
           getCharacterRelationshipPrompt (prompts w) (chapterSummaries chapters)
       end in
     let* result :=
       generateContent prompt (Some outputLanguage) abortSignal false in
     let relationship := msg_content result in
     if nonempty (trim relationship)
     then
       match mermaidMatch relationship with
       | Some (c :: g) => ret (trim (c :: g))
       | _ => ret (trim relationship)
       end
     else
       (* AI返回了空的人物关系图 *)
       throw (Error [65; 73; 36820; 22238; 20102; 31354; 30340; 20154;
                     29289; 20851; 31995; 22270])).

(** [AI返回的${errorContext}数据格式不正确] *)
Definition malformed (errorContext : jsstring) : JsError :=
  Error ([65; 73; 36820; 22238; 30340] ++ errorContext
         ++ [25968; 25454; 26684; 24335; 19981; 27491; 30830]).

(** [parseJsonResponse] *)
Definition parseJsonResponse (response errorContext : jsstring) : M JsValue :=
  if nonempty (trim response)
  then
    match JSON_parse w (trim response) with
    | Some value => ret value
    | None =>
        match jsonMatch response with
        | Some (c :: g) =>
            match JSON_parse w (trim (c :: g)) with
            | Some value => ret value
            | None => throw (malformed errorContext)
            end
        | _ => throw (malformed errorContext)
        end
    end
  else
    (* AI返回了空的${errorContext}数据 *)
    throw (Error ([65; 73; 36820; 22238; 20102; 31354; 30340]
                  ++ errorContext ++ [25968; 25454])).

(** [prompt += `\n\n补充要求：${customPrompt.trim()}`] when there is one *)
Definition with_custom (prompt customPrompt : jsstring) : jsstring :=
  if has_text customPrompt
  then prompt ++ [10; 10; 34917; 20805; 35201; 27714; 65306] ++ trim customPrompt
  else prompt.

(** 思维导图 *)
Definition mindMapContext : jsstring := [24605; 32500; 23548; 22270].

(** [generateChapterMindMap] *)
Definition generateChapterMindMap (content outputLanguage customPrompt : jsstring)
    (abortSignal : option AbortSignal) : M JsValue :=
  (* 章节思维导图生成失败: *)
  rethrow [31456; 33410; 24605; 32500; 23548; 22270; 29983; 25104; 22833;
           36133; 58; 32]
    (let basePrompt := getChapterMindMapPrompt (prompts w) in
     (* 章节内容：\n *)
     let prompt :=
       with_custom (basePrompt ++ [31456; 33410; 20869; 23481; 65306; 10] ++ content)
                   customPrompt in
     let* result :=
       generateContent prompt (Some outputLanguage) abortSignal true in
     parseJsonResponse (msg_content result) mindMapContext).

(** [generateCombinedMindMap] *)
Definition generateCombinedMindMap (bookTitle : jsstring)
    (chapters : list Chapter) (customPrompt : jsstring)
    (abortSignal : option AbortSignal) : M JsValue :=
  (* 整书思维导图生成失败: *)
  rethrow [25972; 20070; 24605; 32500; 23548; 22270; 29983; 25104; 22833;
           36133; 58; 32]
    (let basePrompt := getChapterMindMapPrompt (prompts w) in
     let chaptersContent :=
       join (nl ++ nl ++ js " ------------- " ++ nl ++ nl)
            (map (fun item => content (c_source item)) chapters) in
     (* 请为整本书《${bookTitle}》生成一个完整的思维导图，
        将所有章节的内容整合在一起。 章节内容： *)
     let prompt :=
       with_custom
         (basePrompt
          ++ [10; 32; 32; 32; 32; 32; 32; 32; 32; 35831; 20026; 25972;
              26412; 20070; 12298]
          ++ bookTitle
          ++ [12299; 29983; 25104; 19968; 20010; 23436; 25972; 30340;
              24605; 32500; 23548; 22270; 65292; 23558; 25152; 26377;
              31456; 33410; 30340; 20869; 23481; 25972; 21512; 22312;
              19968; 36215; 12290; 10; 32; 32; 32; 32; 32; 32; 32; 32;
              31456; 33410; 20869; 23481; 65306; 10]
          ++ chaptersContent)
         customPrompt in
     let* result := generateContent prompt (Some (js "en")) abortSignal true in
     parseJsonResponse (msg_content result) mindMapContext).

End Service.
End AIService.

(** ** bookProcessingService.ts: the stages *)

(** What [processSummaryGroup] hands to its [onStreamUpdate]. *)
Record SummaryUpdate := {
  su_summary : jsstring;
  su_reasoning : option jsstring
}.

Record GroupResult := {
  gr_group : ChapterGroup;
  gr_chapters : list Chapter
}.

(** The locals that a [handleStreamUpdate] closure changes. *)
Record StreamLocals := {
  currentSummary : jsstring;
  currentReasoning : jsstring;
  lastUpdateTime : Z
}.

Module BookProcessingService.
Import JsString Grouping.

Section Stages.
Context (w : World).

(** [Date.now()], then the page setter [f]. *)
Definition read_clock (st : State) : Z * State :=
  (now w (clockReads st),
   {| store := store st; requests := requests st;
      clockReads := S (clockReads st); page := page st |}).

Definition update_page (f : PageState -> PageState) (st : State) : State :=
  {| store := store st; requests := requests st;
     clockReads := clockReads st; page := f (page st) |}.

(** [reasoning || undefined] *)
Definition or_undefined (s : jsstring) : option jsstring :=
  match s with [] => None | _ => Some s end.

(** [group.chapters.map(ch => `## ${ch.title}\n\n${ch.content}`).join('\n\n')] *)
Definition combinedContent (group : TempChapterGroup) : jsstring :=
  join (nl ++ nl)
    (map (fun ch => js "## " ++ title ch ++ nl ++ nl ++ content ch)
         (tg_chapters group)).

(** The title sent with a group; [group.chapters[0].title] of a group
    without chapters is a [TypeError]. *)
Definition combinedTitle (group : TempChapterGroup) : M jsstring :=
  match tg_tag group with
  | Some (c :: t) =>
      ret ((c :: t) ++ js " (" ++ join (js ", ") (map title (tg_chapters group))
             ++ js ")")
  | _ =>
      match tg_chapters group with
      | ch :: _ => ret (title ch)
      | [] => throw (TypeError (js "Cannot read properties of undefined (reading 'title')"))
      end
  end.

(** [handleStreamUpdate] of [processSummaryGroup] *)
Definition summaryStreamUpdate
    (onStreamUpdate : option (SummaryUpdate -> PageState -> PageState))
    (data : Delta) (locals : StreamLocals) (st : State)
    : StreamLocals * State :=
  let currentSummary := currentSummary locals ++ delta_content data in
  let currentReasoning :=
    if nonempty (delta_reasoning data)
    then currentReasoning locals ++ delta_reasoning data
    else currentReasoning locals in
  let '(now, st) := read_clock st in
  match onStreamUpdate with
  | Some notify =>
      if (now - lastUpdateTime locals >=? 1000) || (lastUpdateTime locals =? 0)
      then
        ({| currentSummary := currentSummary;
            currentReasoning := currentReasoning; lastUpdateTime := now |},
         update_page (notify {| su_summary := currentSummary;
                                su_reasoning := Some currentReasoning |}) st)
      else
        ({| currentSummary := currentSummary;
            currentReasoning := currentReasoning;
            lastUpdateTime := lastUpdateTime locals |}, st)
  | None =>
      ({| currentSummary := currentSummary;
          currentReasoning := currentReasoning;
          lastUpdateTime := lastUpdateTime locals |}, st)
  end.

Definition summaryResult (group : TempChapterGroup) (summary reasoning : jsstring)
    : GroupResult :=
  {| gr_group :=
       {| groupId := tg_groupId group; tag := tg_tag group;
          chapterIds := map id (tg_chapters group);
          chapterTitles := map title (tg_chapters group);
          g_summary := Some summary; g_reasoning := or_undefined reasoning;
          g_mindMap := None; g_isLoading := Some false |};
     gr_chapters :=
       map (fun chapter =>
              {| c_source := chapter; c_summary := Some summary;
                 c_reasoning := or_undefined reasoning;
                 c_mindMap := None; c_isLoading := Some false |})
           (tg_chapters group) |}.

(** [processSummaryGroup] *)
Definition processSummaryGroup (group : TempChapterGroup)
    (fileName : jsstring) (bookType : BookType)
    (outputLanguage customPrompt : jsstring) (useCustomOnly : bool)
    (abortSignal : AbortSignal)
    (onStreamUpdate : option (SummaryUpdate -> PageState -> PageState))
    : M GroupResult :=
  let* cached :=
    CacheService.getString w fileName summary (Some (tg_groupId group)) in
  match cached with
  | Some (c :: s) =>
      let summary := c :: s in
      let* _ :=
        match onStreamUpdate with
        | Some notify =>
            set_page (notify {| su_summary := summary; su_reasoning := None |})
        | None => ret tt
        end in
      ret (summaryResult group summary [])
  | _ =>
      let* combinedTitle := combinedTitle group in
      let* result :=
        AIService.summarizeChapter w combinedTitle (combinedContent group)
          bookType outputLanguage customPrompt useCustomOnly (Some abortSignal)
          (match onStreamUpdate with
           | Some _ => Some (summaryStreamUpdate onStreamUpdate)
           | None => None
           end)
          {| currentSummary := []; currentReasoning := []; lastUpdateTime := 0 |} in
      let summary := msg_content result in
      let reasoning := msg_reasoning result in
      let* _ :=
        match onStreamUpdate with
        | Some notify =>
            set_page (notify {| su_summary := summary;
                                su_reasoning := Some reasoning |})
        | None => ret tt
        end in
      let* _ :=
        CacheService.setCache w fileName Kind.summary (JStr summary)
          (Some (tg_groupId group)) in
      ret (summaryResult group summary reasoning)
  end.

Definition mindMapResult (group : TempChapterGroup) (mindMap : JsValue)
    : GroupResult :=
  {| gr_group :=
       {| groupId := tg_groupId group; tag := tg_tag group;
          chapterIds := map id (tg_chapters group);
          chapterTitles := map title (tg_chapters group);
          g_summary := None; g_reasoning := None;
          g_mindMap := Some mindMap; g_isLoading := Some false |};
     gr_chapters :=
       map (fun chapter =>
              {| c_source := chapter; c_summary := None; c_reasoning := None;
                 c_mindMap := Some mindMap; c_isLoading := Some false |})
           (tg_chapters group) |}.

(** [!mindMap.nodeData]; reading a member of [null] is a [TypeError]. *)
Definition lacks_nodeData (mindMap : JsValue) : M bool :=
  match mindMap with
  | JNull => throw (TypeError (js "Cannot read properties of null (reading 'nodeData')"))
  | _ =>
      ret (match Js.prop (js "nodeData") mindMap with
           | Some v => negb (Js.truthy v)
           | None => true
           end)
  end.

(** [processMindMapGroup] *)
Definition processMindMapGroup (group : TempChapterGroup)
    (fileName outputLanguage customPrompt : jsstring)
    (abortSignal : AbortSignal) : M GroupResult :=
  let* cached :=
    CacheService.getMindMap w fileName mindmap (Some (tg_groupId group)) in
  let* mindMap :=
    match cached with
    | Some mindMap => ret mindMap
    | None =>
        let* mindMap :=
          AIService.generateChapterMindMap w (combinedContent group)
            outputLanguage customPrompt (Some abortSignal) in
        let* _ :=
          CacheService.setCache w fileName mindmap mindMap
            (Some (tg_groupId group)) in
        ret mindMap
    end in
  let* missing := lacks_nodeData mindMap in
  if missing : bool
  then
    (* 生成思维导图失败 *)
    throw (Error [29983; 25104; 24605; 32500; 23548; 22270; 22833; 36133])
  else ret (mindMapResult group mindMap).

(** The [handleStreamUpdate] of [generateConnections] and of
    [generateOverallSummary]; its locals are [currentContent] and
    [lastUpdateTime]. *)
Definition contentStreamUpdate (onStreamUpdate : jsstring -> PageState -> PageState)
    (data : Delta) (locals : StreamLocals) (st : State)
    : StreamLocals * State :=
  let currentContent := currentSummary locals ++ delta_content data in
  let '(now, st) := read_clock st in
  if (now - lastUpdateTime locals >=? 1000) || (lastUpdateTime locals =? 0)
  then
    ({| currentSummary := currentContent;
        currentReasoning := currentReasoning locals; lastUpdateTime := now |},
     update_page (onStreamUpdate currentContent) st)
  else
    ({| currentSummary := currentContent;
        currentReasoning := currentReasoning locals;
        lastUpdateTime := lastUpdateTime locals |}, st).

(** The shape shared by the text stages that cover the whole book: read
    the cache; on a miss generate, notify, store; on a hit notify. *)
Definition notifyContent (onStreamUpdate : option (jsstring -> PageState -> PageState))
    (text : jsstring) : M unit :=
  match onStreamUpdate with
  | Some notify => set_page (notify text)
  | None => ret tt
  end.

(** [generateConnections] *)
Definition generateConnections (fileName : jsstring) (chapters : list Chapter)
    (outputLanguage : jsstring) (bookType : BookType)
    (abortSignal : AbortSignal)
    (onStreamUpdate : option (jsstring -> PageState -> PageState))
    : M jsstring :=
  let* cached := CacheService.getString w fileName connections None in
  match cached with
  | Some (c :: s) =>
      let* _ := notifyContent onStreamUpdate (c :: s) in
      ret (c :: s)
  | _ =>
      let* connections :=
        AIService.analyzeConnections w chapters outputLanguage bookType
          (Some abortSignal) (contentStreamUpdate <$> onStreamUpdate)
          {| currentSummary := []; currentReasoning := []; lastUpdateTime := 0 |} in
      let* _ := notifyContent onStreamUpdate connections in
      let* _ :=
        CacheService.setCache w fileName Kind.connections
          (JStr connections) None in
      ret connections
  end.

(** [generateOverallSummary] *)
Definition generateOverallSummary (fileName bookTitle : jsstring)
    (chapters : list Chapter) (outputLanguage : jsstring)
    (bookType : BookType) (abortSignal : AbortSignal)
    (onStreamUpdate : option (jsstring -> PageState -> PageState))
    : M jsstring :=
  let* cached := CacheService.getString w fileName overall_summary None in
  match cached with
  | Some (c :: s) =>
      let* _ := notifyContent onStreamUpdate (c :: s) in
      ret (c :: s)
  | _ =>
      let* overallSummary :=
        AIService.generateOverallSummary w bookTitle chapters outputLanguage
          bookType (Some abortSignal) (contentStreamUpdate <$> onStreamUpdate)
          {| currentSummary := []; currentReasoning := []; lastUpdateTime := 0 |} in
      let* _ := notifyContent onStreamUpdate overallSummary in
      let* _ :=
        CacheService.setCache w fileName overall_summary
          (JStr overallSummary) None in
      ret overallSummary
  end.

(** [generateCharacterRelationship] *)
Definition generateCharacterRelationship (fileName : jsstring)
    (chapters : list Chapter) (outputLanguage : jsstring)
    (bookType : BookType) (abortSignal : AbortSignal) : M jsstring :=
  let* cached :=
    CacheService.getString w fileName character_relationship None in
  match cached with
  | Some (c :: s) => ret (c :: s)
  | _ =>
      let* characterRelationship :=
        AIService.generateCharacterRelationship w chapters outputLanguage
          bookType (Some abortSignal) in
      let* _ :=
        CacheService.setCache w fileName character_relationship
          (JStr characterRelationship) None in
      ret characterRelationship
  end.

(** A child of the merged root:
    [{ topic: chapter.title, id: `chapter_${index + 1}`,
       children: chapter.mindMap?.nodeData?.children || [] }] *)
Definition chapterNode (index : nat) (chapter : Chapter) : JsValue :=
  JObj [ (js "topic", JStr (title (c_source chapter)));
         (js "id", JStr (js "chapter_" ++ toStringRadix 10 (Z.of_nat index + 1)));
         (js "children",
          Js.or_empty (Js.chain (js "children")
                         (Js.chain (js "nodeData") (c_mindMap chapter)))) ].

(** [chapters.reduce((acc, chapter) =>
       acc.concat(chapter.mindMap?.summaries || []), [])] *)
Definition mergedSummaries (chapters : list Chapter) : list JsValue :=
  fold_left
    (fun acc chapter =>
       Js.concat acc (Js.or_empty (Js.chain (js "summaries") (c_mindMap chapter))))
    chapters [].

Definition mergedMindMap (bookTitle : jsstring) (chapters : list Chapter)
    : JsValue :=
  let rootNode :=
    JObj [ (js "topic", JStr bookTitle);
           (js "id", JStr (js "0"));
           (* 全书 *)
           (js "tags", JArr [JStr [20840; 20070]]);
           (js "children", JArr (imap chapterNode chapters)) ] in
  JObj [ (js "nodeData", rootNode);
         (js "arrows", JArr []);
         (js "summaries", JArr (mergedSummaries chapters)) ].

(** [mergeMindMaps] *)
Definition mergeMindMaps (fileName bookTitle : jsstring)
    (chapters : list Chapter) : M JsValue :=
  let* cached := CacheService.getMindMap w fileName merged_mindmap None in
  match cached with
  | Some combinedMindMap => ret combinedMindMap
  | None =>
      let combinedMindMap := mergedMindMap bookTitle chapters in
      let* _ :=
        CacheService.setCache w fileName merged_mindmap combinedMindMap None in
      ret combinedMindMap
  end.

(** [generateCombinedMindMap] *)
Definition generateCombinedMindMap (fileName bookTitle : jsstring)
    (chapters : list Chapter) (customPrompt : jsstring)
    (abortSignal : AbortSignal) : M JsValue :=
  let* cached := CacheService.getMindMap w fileName combined_mindmap None in
  match cached with
  | Some combinedMindMap => ret combinedMindMap
  | None =>
      let* combinedMindMap :=
        AIService.generateCombinedMindMap w bookTitle chapters customPrompt
          (Some abortSignal) in
      let* _ :=
        CacheService.setCache w fileName combined_mindmap combinedMindMap None in
      ret combinedMindMap
  end.

End Stages.
End BookProcessingService.

(** ** SummaryPage.tsx: [handleStartProcessing] *)

Inductive ProcessingMode := ModeSummary | ModeMindmap | ModeCombinedMindmap.

Record BookData := {
  bd_title : jsstring;
  bd_author : jsstring
}.

(** What the callback closes over: the state and configuration of the page. *)
Record PageContext := {
  extractedChapters : option (list ChapterData);
  bookData : option BookData;
  apiKey : jsstring;
  file : option jsstring;
  processingMode : ProcessingMode;
  bookType : BookType;
  outputLanguage : jsstring
}.

(** How a call of [handleStartProcessing] ended: refused by its guards, run
    to the end, left through the [AbortError] branch of its [catch], or
    through the branch that shows the error. *)
Inductive RunStatus :=
  | Refused
  | Finished
  | Cancelled
  | Failed (message : jsstring).

Module SummaryPage.

Definition setBookSummary (f : option BookSummary -> option BookSummary)
    (p : PageState) : PageState :=
  {| currentStepIndex := currentStepIndex p; processing := processing p;
     error := error p; bookSummary := f (bookSummary p);
     bookMindMap := bookMindMap p; retryParams := retryParams p |}.

Definition setBookMindMap (f : option BookMindMap -> option BookMindMap)
    (p : PageState) : PageState :=
  {| currentStepIndex := currentStepIndex p; processing := processing p;
     error := error p; bookSummary := bookSummary p;
     bookMindMap := f (bookMindMap p); retryParams := retryParams p |}.

Definition setProcessing (b : bool) (p : PageState) : PageState :=
  {| currentStepIndex := currentStepIndex p; processing := b;
     error := error p; bookSummary := bookSummary p;
     bookMindMap := bookMindMap p; retryParams := retryParams p |}.

Definition setError (e : option jsstring) (p : PageState) : PageState :=
  {| currentStepIndex := currentStepIndex p; processing := processing p;
     error := e; bookSummary := bookSummary p;
     bookMindMap := bookMindMap p; retryParams := retryParams p |}.

(** The setters called before the [try]. *)
Definition startPage (params : RetryParams) (p : PageState) : PageState :=
  {| currentStepIndex := 2; processing := true; error := None;
     bookSummary := None; bookMindMap := None; retryParams := Some params |}.

(** [prev => ({ ...prev!, ... })]: the summary exists from the start of
    processing on; a page without one is left alone. *)
Definition onSummary (f : BookSummary -> BookSummary) : PageState -> PageState :=
  setBookSummary (fun prev => f <$> prev).

Definition onMindMap (f : BookMindMap -> BookMindMap) : PageState -> PageState :=
  setBookMindMap (fun prev => f <$> prev).

Definition withSummaryGroups (groups : list ChapterGroup) (s : BookSummary)
    : BookSummary :=
  {| bs_title := bs_title s; bs_author := bs_author s; bs_groups := groups;
     bs_connections := bs_connections s;
     bs_characterRelationship := bs_characterRelationship s;
     bs_overallSummary := bs_overallSummary s;
     bs_connectionsLoading := bs_connectionsLoading s;
     bs_overallSummaryLoading := bs_overallSummaryLoading s |}.

Definition withConnections (text : jsstring) (loading : bool) (s : BookSummary)
    : BookSummary :=
  {| bs_title := bs_title s; bs_author := bs_author s; bs_groups := bs_groups s;
     bs_connections := text;
     bs_characterRelationship := bs_characterRelationship s;
     bs_overallSummary := bs_overallSummary s;
     bs_connectionsLoading := Some loading;
     bs_overallSummaryLoading := bs_overallSummaryLoading s |}.

Definition withCharacterRelationship (text : jsstring) (s : BookSummary)
    : BookSummary :=
  {| bs_title := bs_title s; bs_author := bs_author s; bs_groups := bs_groups s;
     bs_connections := bs_connections s;
     bs_characterRelationship := text;
     bs_overallSummary := bs_overallSummary s;
     bs_connectionsLoading := bs_connectionsLoading s;
     bs_overallSummaryLoading := bs_overallSummaryLoading s |}.

Definition withOverallSummary (text : jsstring) (loading : bool) (s : BookSummary)
    : BookSummary :=
  {| bs_title := bs_title s; bs_author := bs_author s; bs_groups := bs_groups s;
     bs_connections := bs_connections s;
     bs_characterRelationship := bs_characterRelationship s;
     bs_overallSummary := text;
     bs_connectionsLoading := bs_connectionsLoading s;
     bs_overallSummaryLoading := Some loading |}.

Definition withMindMapGroups (groups : list ChapterGroup) (m : BookMindMap)
    : BookMindMap :=
  {| bm_title := bm_title m; bm_author := bm_author m; bm_groups := groups;
     bm_combinedMindMap := bm_combinedMindMap m |}.

Definition withCombinedMindMap (combinedMindMap : JsValue) (m : BookMindMap)
    : BookMindMap :=
  {| bm_title := bm_title m; bm_author := bm_author m; bm_groups := bm_groups m;
     bm_combinedMindMap := Some combinedMindMap |}.

Definition loadingGroup (group : TempChapterGroup) : ChapterGroup :=
  {| groupId := tg_groupId group; tag := tg_tag group;
     chapterIds := map id (tg_chapters group);
     chapterTitles := map title (tg_chapters group);
     g_summary := None; g_reasoning := None; g_mindMap := None;
     g_isLoading := Some true |}.

(** [newGroups[targetGroupIndex] = { ...newGroups[targetGroupIndex],
     summary: data.summary, reasoning: data.reasoning }] at the first group
    with the [groupId]. *)
Fixpoint updateFirst (gid : jsstring) (data : SummaryUpdate)
    (groups : list ChapterGroup) : list ChapterGroup :=
  match groups with
  | [] => []
  | g :: rest =>
      if decide (groupId g = gid)
      then {| groupId := groupId g; tag := tag g; chapterIds := chapterIds g;
              chapterTitles := chapterTitles g;
              g_summary := Some (su_summary data);
              g_reasoning := su_reasoning data;
              g_mindMap := g_mindMap g; g_isLoading := g_isLoading g |} :: rest
      else g :: updateFirst gid data rest
  end.

(** The stream callback given to [processSummaryGroup]. *)
Definition showGroupUpdate (group : TempChapterGroup) (data : SummaryUpdate)
    : PageState -> PageState :=
  onSummary (fun prev =>
    withSummaryGroups (updateFirst (tg_groupId group) data (bs_groups prev)) prev).

Section Processing.
Context (w : World) (ctx : PageContext).
Context (fileName : jsstring) (book : BookData) (abortSignal : AbortSignal).
Context (customPrompt : jsstring) (useCustomOnly : bool).

(** The loop over the groups, on [processedGroups] and [processedChapters]. *)
Fixpoint processGroups (groups : list TempChapterGroup)
    (processedGroups : list ChapterGroup) (processedChapters : list Chapter)
    : M (list ChapterGroup * list Chapter) :=
  match groups with
  | [] => ret (processedGroups, processedChapters)
  | group :: rest =>
      match processingMode ctx with
      | ModeSummary =>
          let* _ :=
            set_page (onSummary (fun prev =>
              withSummaryGroups (bs_groups prev ++ [loadingGroup group]) prev)) in
          let* result :=
            BookProcessingService.processSummaryGroup w group fileName
              (bookType ctx) (outputLanguage ctx) customPrompt useCustomOnly
              abortSignal (Some (showGroupUpdate group)) in
          let processedGroups := processedGroups ++ [gr_group result] in
          let processedChapters := processedChapters ++ gr_chapters result in
          let* _ := set_page (onSummary (withSummaryGroups processedGroups)) in
          processGroups rest processedGroups processedChapters
      | ModeMindmap =>
          let* _ :=
            set_page (onMindMap (fun prev =>
              withMindMapGroups (bm_groups prev ++ [loadingGroup group]) prev)) in
          let* result :=
            BookProcessingService.processMindMapGroup w group fileName
              (outputLanguage ctx) customPrompt abortSignal in
          let processedGroups := processedGroups ++ [gr_group result] in
          let processedChapters := processedChapters ++ gr_chapters result in
          let* _ := set_page (onMindMap (withMindMapGroups processedGroups)) in
          processGroups rest processedGroups processedChapters
      | ModeCombinedMindmap =>
          let processedGroup :=
            {| groupId := tg_groupId group; tag := tg_tag group;
               chapterIds := map id (tg_chapters group);
               chapterTitles := map title (tg_chapters group);
               g_summary := None; g_reasoning := None; g_mindMap := None;
               g_isLoading := Some false |} in
          let processedGroups := processedGroups ++ [processedGroup] in
          let processedChapters :=
            processedChapters ++
            map (fun chapter =>
                   {| c_source := chapter; c_summary := None;
                      c_reasoning := None; c_mindMap := None;
                      c_isLoading := Some false |})
                (tg_chapters group) in
          let* _ := set_page (onMindMap (withMindMapGroups processedGroups)) in
          processGroups rest processedGroups processedChapters
      end
  end.

(** What follows the loop. *)
Definition finishBook (processedChapters : list Chapter) : M unit :=
  match processingMode ctx with
  | ModeSummary =>
      let* _ := set_page (onSummary (withConnections [] true)) in
      let* connections :=
        BookProcessingService.generateConnections w fileName processedChapters
          (outputLanguage ctx) (bookType ctx) abortSignal
          (Some (fun text => onSummary (withConnections text true))) in
      let* _ := set_page (onSummary (withConnections connections false)) in
      let* _ :=
        match bookType ctx with
        | non_fiction => ret tt
        | fiction =>
            let* characterRelationship :=
              BookProcessingService.generateCharacterRelationship w fileName
                processedChapters (outputLanguage ctx) (bookType ctx)
                abortSignal in
            set_page (onSummary (withCharacterRelationship characterRelationship))
        end in
      let* _ := set_page (onSummary (withOverallSummary [] true)) in
      let* overallSummary :=
        BookProcessingService.generateOverallSummary w fileName (bd_title book)
          processedChapters (outputLanguage ctx) (bookType ctx) abortSignal
          (Some (fun text => onSummary (withOverallSummary text true))) in
      set_page (onSummary (withOverallSummary overallSummary false))
  | ModeMindmap =>
      let* combinedMindMap :=
        BookProcessingService.mergeMindMaps w fileName (bd_title book)
          processedChapters in
      set_page (onMindMap (withCombinedMindMap combinedMindMap))
  | ModeCombinedMindmap =>
      let* combinedMindMap :=
        BookProcessingService.generateCombinedMindMap w fileName
          (bd_title book) processedChapters customPrompt abortSignal in
      set_page (onMindMap (withCombinedMindMap combinedMindMap))
  end.

(** The body of the [try]. *)
Definition processBook (chapters : list ChapterData)
    (chapterTags : gmap jsstring jsstring) : M unit :=
  let groups := Grouping.groupChaptersByTag chapters chapterTags in
  let* _ :=
    set_page
      (match processingMode ctx with
       | ModeSummary =>
           setBookSummary (fun _ =>
             Some {| bs_title := bd_title book; bs_author := bd_author book;
                     bs_groups := []; bs_connections := [];
                     bs_characterRelationship := []; bs_overallSummary := [];
                     bs_connectionsLoading := None;
                     bs_overallSummaryLoading := None |})
       | ModeMindmap | ModeCombinedMindmap =>
           setBookMindMap (fun _ =>
             Some {| bm_title := bd_title book; bm_author := bd_author book;
                     bm_groups := []; bm_combinedMindMap := None |})
       end) in
  let* processed := processGroups groups [] [] in
  finishBook (snd processed).

End Processing.

(** [handleStartProcessing]; [abortSignal] is the signal of the
    [AbortController] made for this call. *)
Definition handleStartProcessing (w : World) (ctx : PageContext)
    (abortSignal : AbortSignal) (selectedChapters : gset jsstring)
    (chapterTags : gmap jsstring jsstring) (customPrompt : jsstring)
    (useCustomOnly : bool) : M RunStatus :=
  match extractedChapters ctx, bookData ctx, file ctx with
  | Some extracted, Some book, Some fileName =>
      if negb (nonempty (apiKey ctx)) then ret Refused
      else if bool_decide (size selectedChapters = 0%nat) then ret Refused
      else
        let* _ :=
          set_page (startPage {| rp_selectedChapters := selectedChapters;
                                 rp_chapterTags := chapterTags;
                                 rp_customPrompt := customPrompt;
                                 rp_useCustomOnly := useCustomOnly |}) in
        let chapters :=
          List.filter (fun chapter => bool_decide (id chapter ∈ selectedChapters))
                      extracted in
        let* status :=
          try_catch
            (let* _ :=
               processBook w ctx fileName book abortSignal customPrompt
                 useCustomOnly chapters chapterTags in
             ret Finished)
            (fun err =>
               if decide (err_name err = js "AbortError") then ret Cancelled
               else
                 let* _ := set_page (setError (Some (err_message err))) in
                 ret (Failed (err_message err))) in
        let* _ := set_page (setProcessing false) in
        ret status
  | _, _, _ => ret Refused
  end.

End SummaryPage.

(** ** Statements about the key scheme *)

Module KeySpec.
Import JsString CacheKey.



(** The kinds that take a chapter or group id. *)
Definition chapter_scoped (t : CacheKeyType) : bool :=
  match t with
  | summary | mindmap => true
  | _ => false
  end.


End KeySpec.
(** ** Statements about grouping *)

(** The order of strings by their code units, written on its own: [a] does
    not come after [b]. *)
Module CodeUnits.

Fixpoint precedes (a b : jsstring) : bool :=
  match a, b with
  | [], _ => true
  | _ :: _, [] => false
  | x :: a', y :: b' =>
      match x ?= y with
      | Lt => true
      | Eq => precedes a' b'
      | Gt => false
      end
  end.

Definition ascending (a b : jsstring) : Prop := precedes a b = true.

#[global] Instance ascending_dec : RelDecision ascending.
Proof. intros a b. unfold ascending. apply _. Defined.

(** [a] comes before [b]. *)
Definition before (a b : jsstring) : Prop := ascending a b /\ a <> b.

End CodeUnits.

Module GroupingSpec.
Import Grouping.

(** The loop unrolled with the functions of the code: what the iteration at
    position [i] adds. A step of the proofs. *)
Definition group_at (chapters : list ChapterData)
    (chapterTags : gmap jsstring jsstring) (i : nat) (chapter : ChapterData)
    : list TempChapterGroup :=
  match tagOf chapterTags chapter with
  | None =>
      [ {| tg_tag := None; tg_chapters := [chapter];
           tg_groupId := title chapter |} ]
  | Some tag =>
      if existsb (fun earlier => bool_decide (tagOf chapterTags earlier = Some tag))
                 (take i chapters)
      then []
      else
        let members :=
          List.filter (fun ch => bool_decide (tagOf chapterTags ch = Some tag))
                      chapters in
        [ {| tg_tag := Some tag; tg_chapters := members;
             tg_groupId :=
               hashString (JsString.join (js "_") (JsString.sort (map id members))) |} ]
  end.

Definition groupChaptersByTag_unrolled (chapters : list ChapterData)
    (chapterTags : gmap jsstring jsstring) : list TempChapterGroup :=
  List.concat (imap (group_at chapters chapterTags) chapters).

(** [processedTags] holds the tags of the chapters gone through. *)
Definition seen_tags (chapterTags : gmap jsstring jsstring)
    (done : list ChapterData) (processedTags : gset jsstring) : Prop :=
  forall tag, tag ∈ processedTags <->
              exists ch, In ch done /\ tagOf chapterTags ch = Some tag.

End GroupingSpec.

(** The grouping as the specification words it, written without the
    functions of the code but for the hash. *)
Module GroupingClaim.

(** The tag assigned to a chapter; a chapter with no entry, or with the
    empty tag, is untagged. *)
Definition assigned (chapterTags : gmap jsstring jsstring) (chapter : ChapterData)
    : option jsstring :=
  match chapterTags !! id chapter with
  | Some tag => if bool_decide (tag = []) then None else Some tag
  | None => None
  end.

Definition carries (chapterTags : gmap jsstring jsstring) (tag : jsstring)
    (chapter : ChapterData) : bool :=
  bool_decide (assigned chapterTags chapter = Some tag).

(** The ids joined with [_] between them. *)
Definition joined (ids : list jsstring) : jsstring :=
  match ids with
  | [] => []
  | first :: rest => first ++ List.concat (map (fun next => js "_" ++ next) rest)
  end.

(** The sorted member-id join: the ids of the members in ascending order. *)
Definition sortedJoin (members : list ChapterData) : jsstring :=
  joined (merge_sort CodeUnits.ascending (map id members)).

(** What the chapter at position [i] of the input contributes: an untagged
    chapter a singleton group under its title; the first chapter of a tag
    the group of all chapters that carry the tag, under the hash of the
    sorted member-id join; a later chapter of a tag nothing. *)
Definition contribution (chapters : list ChapterData)
    (chapterTags : gmap jsstring jsstring) (i : nat) (chapter : ChapterData)
    : list TempChapterGroup :=
  match assigned chapterTags chapter with
  | None =>
      [ {| tg_tag := None; tg_chapters := [chapter];
           tg_groupId := title chapter |} ]
  | Some tag =>
      if existsb (carries chapterTags tag) (take i chapters) then []
      else
        let members := List.filter (carries chapterTags tag) chapters in
        [ {| tg_tag := Some tag; tg_chapters := members;
             tg_groupId := Grouping.hashString (sortedJoin members) |} ]
  end.

(** The groups, in the order of the chapters that contribute them. *)
Definition groups (chapters : list ChapterData)
    (chapterTags : gmap jsstring jsstring) : list TempChapterGroup :=
  List.concat (imap (contribution chapters chapterTags) chapters).

End GroupingClaim.

(** ** Statements about the store and the stages *)

Module StoreSpec.
Import JsString CacheKey.

(** The state with another store. *)
Definition with_store (m : gmap jsstring JsValue) (st : State) : State :=
  {| store := m; requests := requests st; clockReads := clockReads st;
     page := page st |}.

(** No operation of the persistence layer fails. *)
Definition fault_free (w : World) : Prop :=
  forall op key, store_fault w op key = None.

(** The book-level kinds that [clearBookCache] removes for a mode. *)
Definition bookLevelKinds (mode : ClearMode) : list CacheKeyType :=
  [selected_chapters; chapter_tags] ++
  match mode with
  | ClearSummary => [connections; character_relationship; overall_summary]
  | ClearMindmap => [mindmap_arrows; merged_mindmap]
  | ClearCombinedMindmap => [combined_mindmap]
  end.

Definition deleteKinds (fileName : jsstring) (kinds : list CacheKeyType)
    (m : gmap jsstring JsValue) : gmap jsstring JsValue :=
  fold_left (fun m t => delete (generateKey fileName t None) m) kinds m.

Definition deleteKeys (ks : list jsstring) (m : gmap jsstring JsValue)
    : gmap jsstring JsValue :=
  fold_left (fun m k => delete k m) ks m.

(** The chapter keys of the book that [clearBookCache] sweeps in a mode,
    among the keys of [m]. *)
Definition sweptKeys (fileName : jsstring) (mode : ClearMode)
    (m : gmap jsstring JsValue) : list jsstring :=
  let bookPrefix := js "book_" ++ cleanFilename fileName ++ js "_" in
  match mode with
  | ClearSummary =>
      CacheService.chapterKeysOf bookPrefix (js "_summary") (map fst (map_to_list m))
  | ClearMindmap =>
      CacheService.chapterKeysOf bookPrefix (js "_mindmap") (map fst (map_to_list m))
  | ClearCombinedMindmap => []
  end.

(** A world in which nothing fails and the provider answers [content] with
    [reasoning], streamed in one piece, to every request; [JSON.parse]
    yields [parsed]. *)
Definition constant_world (content reasoning : jsstring) (parsed : option JsValue)
    : World :=
  {| complete := fun _ _ => Completed content reasoning;
     stream := fun _ _ =>
       SBody [ {| delta_content := content; delta_reasoning := reasoning |} ] None;
     now := fun n => 1000 * Z.of_nat (S n);
     JSON_parse := fun _ => parsed;
     store_fault := fun _ _ => None;
     prompts :=
       {| getFictionChapterSummaryPrompt := fun title content _ _ => title ++ content;
          getNonFictionChapterSummaryPrompt := fun title content _ _ => title ++ content;
          getChapterConnectionsAnalysisPrompt := fun s => s;
          getFictionChapterConnectionsAnalysisPrompt := fun s => s;
          getOverallSummaryPrompt := fun title info => title ++ info;
          getFictionOverallSummaryPrompt := fun title info => title ++ info;
          getChapterMindMapPrompt := [];
          getCharacterRelationshipPrompt := fun s => s;
          getFictionCharacterRelationshipPrompt := fun s => s;
          getLanguageInstruction := fun language => language |} |}.

(** The same world with a persistence layer that fails with [e] on the
    operations chosen by [fails]. *)
Definition with_faults (fails : StoreOp -> jsstring -> bool)
    (e : JsError) (w : World) : World :=
  {| complete := complete w; stream := stream w; now := now w;
     JSON_parse := JSON_parse w;
     store_fault := fun op key => if fails op key then Some e else None;
     prompts := prompts w |}.

Definition blank_page : PageState :=
  {| currentStepIndex := 1; processing := false; error := None;
     bookSummary := None; bookMindMap := None; retryParams := None |}.

(** A fresh session: nothing stored, nothing sent. *)
Definition fresh : State :=
  {| store := ∅; requests := 0; clockReads := 0; page := blank_page |}.

(** A signal that never fires, and one that has fired. *)
Definition never_aborted : AbortSignal := {| aborted := fun _ => false |}.
Definition already_aborted : AbortSignal := {| aborted := fun _ => true |}.

End StoreSpec.

Module StageSpec.
Import JsString CacheKey.

(** A non-empty text, the shape [getString] callers take as a hit. *)
Definition is_text (v : JsValue) : bool :=
  match v with
  | JStr (_ :: _) => true
  | _ => false
  end.

(** An object with a [nodeData] member, the shape [getMindMap] hands back. *)
Definition is_mindMap (v : JsValue) : bool :=
  match v with
  | JObj _ | JArr _ => Js.has (js "nodeData") v
  | _ => false
  end.

(** A mind map with a root: an object whose [nodeData] is truthy. *)
Definition has_root (v : JsValue) : bool :=
  match Js.prop (js "nodeData") v with
  | Some x => Js.truthy x
  | None => false
  end.

(** Entries of the wanted shape stay as they are from [m] to [m']. *)
Definition stable (valid : JsValue -> bool) (m m' : gmap jsstring JsValue) : Prop :=
  forall key v, m !! key = Some v -> valid v = true -> m' !! key = Some v.

(** A computation changes the state only within [R], however it ends. *)
Definition keeps {A} (R : State -> State -> Prop) (m : M A) : Prop :=
  forall st o st', m st = (o, st') -> R st st'.

(** What the provider calls may change: requests sent, clock readings and
    the page; the store stays. *)
Definition same_store (st st' : State) : Prop := store st' = store st.

(** Whatever absorbs the updates [notify] absorbs the change of the page. *)
Definition page_absorbed {X} (notify : X -> PageState -> PageState)
    (st st' : State) : Prop :=
  forall (T : Type) (F : PageState -> T),
    (forall x p, F (notify x p) = F p) -> F (page st') = F (page st).

(** The page is not touched. *)
Definition same_page (st st' : State) : Prop := page st' = page st.

(** The page changes only by calls of the stream callback, if there is one. *)
Definition absorbed_by {X} (onStreamUpdate : option (X -> PageState -> PageState))
    (st st' : State) : Prop :=
  match onStreamUpdate with
  | Some notify => page_absorbed notify st st'
  | None => same_page st st'
  end.

(** What a provider call on behalf of a stage may change. *)
Definition quiet {X} (onStreamUpdate : option (X -> PageState -> PageState))
    (st st' : State) : Prop :=
  same_store st st' /\ absorbed_by onStreamUpdate st st'.

(** The text that [getString] finds under a key. *)
Definition text_at (m : gmap jsstring JsValue) (key : jsstring) : option jsstring :=
  match default JNull (m !! key) with
  | JStr s => Some s
  | _ => None
  end.

(** The mind map that [getMindMap] finds under a key. *)
Definition mindMap_at (m : gmap jsstring JsValue) (key : jsstring) : option JsValue :=
  match default JNull (m !! key) with
  | JObj fields =>
      if Js.has (js "nodeData") (JObj fields) then Some (JObj fields) else None
  | JArr items =>
      if Js.has (js "nodeData") (JArr items) then Some (JArr items) else None
  | _ => None
  end.

(** The state after a stream callback, if any, was called with [x]. *)
Definition notified {X} (onStreamUpdate : option (X -> PageState -> PageState))
    (x : X) (st : State) : State :=
  match onStreamUpdate with
  | Some notify => BookProcessingService.update_page (notify x) st
  | None => st
  end.

(** The children of the root of a mind map. *)
Definition rootChildren (v : JsValue) : list JsValue :=
  match Js.chain (js "children") (Js.chain (js "nodeData") (Some v)) with
  | Some (JArr items) => items
  | _ => []
  end.

End StageSpec.

(** ** A small book for the examples *)

Module Sample.
Import StoreSpec.

Definition c1 : ChapterData :=
  {| id := js "c1"; title := js "Intro"; content := js "Once upon a time";
     startPage := None; endPage := None; pageIndex := None |}.

Definition c2 : ChapterData :=
  {| id := js "c2"; title := js "Body"; content := js "and then";
     startPage := None; endPage := None; pageIndex := None |}.

Definition fileName : jsstring := js "book.epub".

(** The group of the untagged chapter [c1]. *)
Definition intro : TempChapterGroup :=
  {| tg_tag := None; tg_chapters := [c1]; tg_groupId := js "Intro" |}.

Definition summaryKey : jsstring :=
  CacheKey.generateKey fileName summary (Some (tg_groupId intro)).

Definition mindMapKey : jsstring :=
  CacheKey.generateKey fileName mindmap (Some (tg_groupId intro)).

(** Both chapters tagged [Act1]. *)
Definition act1 : gmap jsstring jsstring :=
  {[ js "c1" := js "Act1"; js "c2" := js "Act1" ]}.

Definition context (mode : ProcessingMode) (kind : BookType) : PageContext :=
  {| extractedChapters := Some [c1; c2];
     bookData := Some {| bd_title := js "Book"; bd_author := js "Author" |};
     apiKey := js "key"; file := Some fileName;
     processingMode := mode; bookType := kind; outputLanguage := js "en" |}.

Definition both : gset jsstring := {[ js "c1"; js "c2" ]}.

(** A mind map with a root and one branch. *)
Definition smallMap : JsValue :=
  JObj [ (js "nodeData",
          JObj [ (js "topic", JStr (js "Act"));
                 (js "id", JStr (js "r"));
                 (js "children",
                  JArr [ JObj [ (js "topic", JStr (js "event"));
                                (js "id", JStr (js "e1")) ] ]) ]) ].

(** An answer that is an object whose [nodeData] is [null]. *)
Definition rootless : JsValue := JObj [ (js "nodeData", JNull) ].

End Sample.

(** ** Statements about whole runs *)

Module RunSpec.
Import CacheKey StoreSpec StageSpec.

(** The state with another page. *)
Definition with_page (p : PageState) (st : State) : State :=
  {| store := store st; requests := requests st; clockReads := clockReads st;
     page := p |}.

(** A group, and a chapter, as a cache hit gives them back. *)
Definition withoutReasoning (g : ChapterGroup) : ChapterGroup :=
  {| groupId := groupId g; tag := tag g; chapterIds := chapterIds g;
     chapterTitles := chapterTitles g; g_summary := g_summary g;
     g_reasoning := None; g_mindMap := g_mindMap g; g_isLoading := g_isLoading g |}.

Definition chapterWithoutReasoning (c : Chapter) : Chapter :=
  {| c_source := c_source c; c_summary := c_summary c; c_reasoning := None;
     c_mindMap := c_mindMap c; c_isLoading := c_isLoading c |}.

(** The page of a run, with the reasoning of the groups of its summary
    taken away. *)
Definition replayed : PageState -> PageState :=
  SummaryPage.onSummary (fun s =>
    SummaryPage.withSummaryGroups (map withoutReasoning (bs_groups s)) s).

(** The page while a run is under way. *)
Definition started (params : RetryParams) : PageState :=
  SummaryPage.startPage params blank_page.

Definition summaryPage (params : RetryParams) (b : BookSummary) : PageState :=
  SummaryPage.setBookSummary (fun _ => Some b) (started params).

Definition mindMapPage (params : RetryParams) (m : BookMindMap) : PageState :=
  SummaryPage.setBookMindMap (fun _ => Some m) (started params).

(** The summary that the end of a run in summary mode shows. *)
Definition finalSummary (kind : BookType) (connections characterRelationship
    overallSummary : jsstring) (b : BookSummary) : BookSummary :=
  SummaryPage.withOverallSummary overallSummary false
    (match kind with
     | fiction => SummaryPage.withCharacterRelationship characterRelationship
     | non_fiction => fun s => s
     end (SummaryPage.withConnections connections false b)).

(** The result [r] of the summary stage of [group] is the text stored in [m]
    under the group's key, which can be read. *)
Definition summarized (w : World) (fileName : jsstring)
    (m : gmap jsstring JsValue) (group : TempChapterGroup) (r : GroupResult) : Prop :=
  exists text reasoning,
    r = BookProcessingService.summaryResult group text reasoning
    /\ nonempty text = true
    /\ store_fault w GetItem
         (generateKey fileName summary (Some (tg_groupId group))) = None
    /\ m !! generateKey fileName summary (Some (tg_groupId group)) = Some (JStr text).

(** The same for the mind map of a group, which has a root. *)
Definition mapped (w : World) (fileName : jsstring)
    (m : gmap jsstring JsValue) (group : TempChapterGroup) (r : GroupResult) : Prop :=
  exists v,
    r = BookProcessingService.mindMapResult group v
    /\ has_root v = true
    /\ store_fault w GetItem
         (generateKey fileName mindmap (Some (tg_groupId group))) = None
    /\ m !! generateKey fileName mindmap (Some (tg_groupId group)) = Some v.

(** A book-level text that is stored in [m] and can be read. *)
Definition text_cached (w : World) (fileName : jsstring)
    (m : gmap jsstring JsValue) (t : CacheKeyType) (text : jsstring) : Prop :=
  nonempty text = true
  /\ store_fault w GetItem (generateKey fileName t None) = None
  /\ m !! generateKey fileName t None = Some (JStr text).

(** A book-level mind map that is stored in [m] and can be read. *)
Definition mindMap_cached (w : World) (fileName : jsstring)
    (m : gmap jsstring JsValue) (t : CacheKeyType) (v : JsValue) : Prop :=
  is_mindMap v = true
  /\ store_fault w GetItem (generateKey fileName t None) = None
  /\ m !! generateKey fileName t None = Some v.

(** The groups and chapters that the loop of the whole-book mode lists. *)
Definition listedGroup (group : TempChapterGroup) : ChapterGroup :=
  {| groupId := tg_groupId group; tag := tg_tag group;
     chapterIds := map id (tg_chapters group);
     chapterTitles := map title (tg_chapters group);
     g_summary := None; g_reasoning := None; g_mindMap := None;
     g_isLoading := Some false |}.

Definition listedChapters (group : TempChapterGroup) : list Chapter :=
  map (fun chapter =>
         {| c_source := chapter; c_summary := None; c_reasoning := None;
            c_mindMap := None; c_isLoading := Some false |})
      (tg_chapters group).

(** In whole-book mode an answer without a [nodeData] member is returned
    and stored, and is not found again; the second run is served from the
    cache when the map that the first run shows has that member. *)
Definition whole_book_map_found (ctx : PageContext) (p : PageState) : Prop :=
  processingMode ctx = ModeCombinedMindmap ->
  exists m v, bookMindMap p = Some m /\ bm_combinedMindMap m = Some v
              /\ is_mindMap v = true.

End RunSpec.

(** ** cacheService.ts: what is kept for a book besides its artifacts *)

(** An entry of [getCacheEntriesByBook]: an entry without its book name. *)
Record BookEntry := {
  be_key : jsstring;
  be_type : CacheKeyType;
  be_chapterId : option jsstring
}.

(** A [Map] with string keys whose order of insertion is seen: its entries
    in that order. *)
Module JsMap.

Fixpoint get {V} (key : jsstring) (entries : list (jsstring * V)) : option V :=
  match entries with
  | [] => None
  | (k, v) :: rest => if decide (k = key) then Some v else get key rest
  end.

(** [set] keeps the place of a key that is there and puts a new one last. *)
Fixpoint set {V} (key : jsstring) (value : V) (entries : list (jsstring * V))
    : list (jsstring * V) :=
  match entries with
  | [] => [(key, value)]
  | (k, v) :: rest =>
      if decide (k = key) then (k, value) :: rest
      else (k, v) :: set key value rest
  end.

End JsMap.

Module CacheSettings.
Import JsString CacheKey.

Section Store.
Context (w : World).

(** [getSelectedChapters]: a stored array. *)
Definition getSelectedChapters (filename : jsstring) : M (option (list JsValue)) :=
  let key := generateKey filename selected_chapters None in
  let* value := CacheService.getItem w key in
  ret (match value with JArr items => Some items | _ => None end).

(** [getChapterTags]: a stored object that is no array and has no
    [nodeData] member. *)
Definition getChapterTags (filename : jsstring) : M (option JsValue) :=
  let key := generateKey filename chapter_tags None in
  let* value := CacheService.getItem w key in
  ret (match value with
       | JObj _ => if Js.has (js "nodeData") value then None else Some value
       | _ => None
       end).

(** [setSelectedChapters]; [selectedChapters] are the members of the [Set]
    in the order of [Array.from]. *)
Definition setSelectedChapters (filename : jsstring)
    (selectedChapters : list jsstring) : M unit :=
  let key := generateKey filename selected_chapters None in
  let value := JArr (map JStr selectedChapters) in
  CacheService.setItem w key value.

(** [Object.fromEntries(chapterTags)]: a member for each entry of the map.
    The members stand in the order in which the map lists them; members are
    only ever looked up by name. *)
Definition fromEntries (chapterTags : gmap jsstring jsstring) : JsValue :=
  JObj (map (fun entry => (fst entry, JStr (snd entry))) (map_to_list chapterTags)).

(** [setChapterTags] *)
Definition setChapterTags (filename : jsstring)
    (chapterTags : gmap jsstring jsstring) : M unit :=
  let key := generateKey filename chapter_tags None in
  let value := fromEntries chapterTags in
  CacheService.setItem w key value.

(** [getCustomPrompt] *)
Definition getCustomPrompt (filename : jsstring) : M (option jsstring) :=
  let key := generateKey filename custom_prompt None in
  let* value := CacheService.getItem w key in
  ret (match value with JStr s => Some s | _ => None end).

(** [setCustomPrompt] *)
Definition setCustomPrompt (filename customPrompt : jsstring) : M unit :=
  let key := generateKey filename custom_prompt None in
  CacheService.setItem w key (JStr customPrompt).

(** [getUseCustomOnly] *)
Definition getUseCustomOnly (filename : jsstring) : M bool :=
  let key := generateKey filename use_custom_only None in
  let* value := CacheService.getItem w key in
  ret (match value with JBool b => b | _ => false end).

(** [setUseCustomOnly] *)
Definition setUseCustomOnly (filename : jsstring) (useCustomOnly : bool) : M unit :=
  let key := generateKey filename use_custom_only None in
  CacheService.setItem w key (JBool useCustomOnly).

(** [getCacheEntriesByBook]: [grouped.get(name) || []], [push], [set]. *)
Definition getCacheEntriesByBook : M (list (jsstring * list BookEntry)) :=
  let* entries := CacheService.getAllCacheEntries w in
  ret (fold_left
         (fun grouped entry =>
            let existing :=
              default [] (JsMap.get (bookName (ce_parsed entry)) grouped) in
            JsMap.set (bookName (ce_parsed entry))
              (existing ++ [ {| be_key := ce_key entry;
                                be_type := type (ce_parsed entry);
                                be_chapterId := chapterId (ce_parsed entry) |} ])
              grouped)
         entries []).

End Store.
End CacheSettings.

(** ** aiService.ts: the connection test and the framing of a stream *)

Module AIConnection.
Import JsString.

(** [getTestConnectionPrompt]: 请回复"连接成功" *)
Definition getTestConnectionPrompt : jsstring :=
  [35831; 22238; 22797; 34; 36830; 25509; 25104; 21151; 34].

(** [testConnection] *)
Definition testConnection (w : World) : M bool :=
  try_catch
    (let* result :=
       AIService.generateContent w getTestConnectionPrompt None None false in
     (* 连接成功, 成功 *)
     ret (includes (msg_content result) [36830; 25509; 25104; 21151]
          || includes (msg_content result) [25104; 21151]))
    (fun _ => ret false).

(** [buffer.split('\n')] *)
Fixpoint split (s : jsstring) : list jsstring :=
  match s with
  | [] => [[]]
  | c :: r =>
      if c =? 10 then [] :: split r
      else match split r with
           | line :: lines => (c :: line) :: lines
           | [] => [[c]]
           end
  end.

(** What a line of the stream hands to [JSON.parse]: nothing for an empty
    line, for [data: [DONE]] and for a line that does not start with
    [data: ]; otherwise [trimmedLine.slice(6)]. *)
Definition dataOf (line : jsstring) : option jsstring :=
  let trimmedLine := trim line in
  if negb (nonempty trimmedLine) || bool_decide (trimmedLine = js "data: [DONE]")
  then None
  else strip_prefix (js "data: ") trimmedLine.

(** One turn of the read loop of [generateContentStream], on [buffer] and on
    what the body of the inner [try] changes: the decoded text of the chunk
    is added to the buffer, the last line is kept as the new buffer and the
    others are gone through. [onData] is the body of the [try], whose
    [catch] swallows what it throws. *)
Definition readChunk {S} (onData : jsstring -> S -> S)
    (acc : jsstring * S) (chunk : jsstring) : jsstring * S :=
  let '(buffer, s) := acc in
  let buffer := buffer ++ chunk in
  let lines := split buffer in
  (List.last lines [],
   fold_left
     (fun s line =>
        match dataOf line with
        | Some jsonStr => onData jsonStr s
        | None => s
        end)
     (removelast lines) s).

(** The loop until [done]; what is left in the buffer is not looked at. *)
Definition readLoop {S} (onData : jsstring -> S -> S)
    (chunks : list jsstring) (s : S) : S :=
  snd (fold_left (readChunk onData) chunks ([], s)).

End AIConnection.

(** ** prompts/chapterSummary.ts *)

Module Prompts.
Import JsString.

(** [章节标题：${title}\n\n章节内容：\n${content}] *)
Definition chapterContent (title content : jsstring) : jsstring :=
  [31456; 33410; 26631; 39064; 65306] ++ title ++ nl ++ nl
  ++ [31456; 33410; 20869; 23481; 65306] ++ nl ++ content.

(** The default instructions for fiction: the markdown layout with the
    sections for characters and for the content of the chapter. *)
Definition fictionDefaultPrompt (title : jsstring) : jsstring :=
  [35831; 29992; 33258; 28982; 27969; 30021; 30340; 35821; 35328; 24635;
   32467; 26412; 31456; 20869; 23481; 65292; 20351; 29992; 20197; 19979;
   109; 97; 114; 107; 100; 111; 119; 110; 26684; 24335; 65306; 10; 10; 35;
   35; 32; 31456; 33410; 24635; 32467; 65306]
  ++ title ++
  [10; 10; 35; 35; 35; 32; 20154; 29289; 21450; 20851; 31995; 10; 91;
   21015; 20986; 25152; 26377; 20986; 29616; 30340; 20154; 29289; 65288;
   36335; 20154; 25110; 21482; 26377; 30701; 26242; 20114; 21160; 32773;
   21487; 19981; 25552; 21450; 65289; 21450; 20854; 20851; 31995; 93; 10;
   10; 35; 35; 35; 32; 31456; 33410; 20869; 23481; 10; 10; 25552; 20379;
   19968; 20010; 35814; 32454; 30340; 24635; 32467; 12290; 24635; 32467;
   24212; 21253; 25324; 65306; 10; 10; 45; 32; 20027; 35201; 24773; 33410;
   30340; 27010; 36848; 65292; 21253; 21547; 37325; 35201; 20107; 20214;
   30340; 39034; 24207; 10; 45; 32; 20851; 38190; 30340; 20914; 31361;
   21644; 36716; 25240; 28857; 10; 45; 32; 31456; 33410; 20013; 30340;
   37325; 35201; 23545; 35805; 21644; 24773; 24863; 21464; 21270; 10; 45;
   32; 20219; 20309; 35937; 24449; 24615; 25110; 20027; 39064; 24615;
   30340; 20803; 32032; 65288; 22914; 26524; 26377; 65289].

(** The default instructions for non-fiction: the layout with the sections
    for main points, key concepts, quotations and applications. *)
Definition nonFictionDefaultPrompt (title : jsstring) : jsstring :=
  [35831; 29992; 33258; 28982; 27969; 30021; 30340; 35821; 35328; 24635;
   32467; 26412; 31456; 20869; 23481; 65292; 20351; 29992; 20197; 19979;
   109; 97; 114; 107; 100; 111; 119; 110; 26684; 24335; 65306; 10; 10; 35;
   35; 32; 31456; 33410; 24635; 32467; 65306]
  ++ title ++
  [10; 10; 35; 35; 35; 32; 20027; 35201; 35266; 28857; 10; 91; 21015;
   20986; 26412; 31456; 30340; 20027; 35201; 35266; 28857; 65292; 20197;
   21450; 25903; 25345; 36825; 20010; 35266; 28857; 30340; 26696; 20363;
   25110; 30740; 31350; 21457; 29616; 93; 10; 10; 35; 35; 35; 32; 20851;
   38190; 27010; 24565; 10; 91; 21015; 20986; 24182; 35299; 37322; 26412;
   31456; 30340; 20851; 38190; 27010; 24565; 93; 10; 10; 35; 35; 35; 32;
   27934; 35265; 21407; 25991; 10; 91; 21015; 20986; 20960; 21477; 26377;
   27934; 35265; 30340; 35266; 28857; 21407; 25991; 93; 10; 10; 35; 35;
   35; 32; 23454; 38469; 24212; 29992; 10; 91; 32473; 20986; 25351; 23548;
   23454; 38469; 29983; 27963; 30340; 24314; 35758; 25110; 24212; 29992;
   65292; 24517; 39035; 19982; 27492; 31456; 33410; 20869; 23481; 24378;
   20851; 32852; 93].

(** [getFictionChapterSummaryPrompt]; an absent [customPrompt] is the
    empty one. *)
Definition getFictionChapterSummaryPrompt (title content customPrompt : jsstring)
    (useCustomOnly : bool) : jsstring :=
  let chapterContent := chapterContent title content in
  if useCustomOnly && has_text customPrompt
  then chapterContent ++ nl ++ nl ++ trim customPrompt
  else
    let defaultPrompt := fictionDefaultPrompt title in
    if has_text customPrompt
    then chapterContent ++ nl ++ nl ++ defaultPrompt ++ nl ++ nl
         (* 补充要求： *)
         ++ [34917; 20805; 35201; 27714; 65306] ++ trim customPrompt
    else chapterContent ++ nl ++ nl ++ defaultPrompt.

(** [getNonFictionChapterSummaryPrompt] *)
Definition getNonFictionChapterSummaryPrompt (title content customPrompt : jsstring)
    (useCustomOnly : bool) : jsstring :=
  let chapterContent := chapterContent title content in
  if useCustomOnly && has_text customPrompt
  then chapterContent ++ nl ++ nl ++ trim customPrompt
  else
    let defaultPrompt := nonFictionDefaultPrompt title in
    if has_text customPrompt
    then chapterContent ++ nl ++ nl ++ defaultPrompt ++ nl ++ nl
         (* 补充要求： *)
         ++ [34917; 20805; 35201; 27714; 65306] ++ trim customPrompt
    else chapterContent ++ nl ++ nl ++ defaultPrompt.

End Prompts.

(** ** SummaryPage.tsx: the other actions of the page *)

Module PageActions.

(** [clearChapterCache]: the kind follows the mode. The result is [None]
    without a file, else whether the toast is shown. *)
Definition clearChapterCache (w : World) (ctx : PageContext)
    (chapterId : jsstring) : M (option bool) :=
  match file ctx with
  | None => ret None
  | Some fileName =>
      let type :=
        match processingMode ctx with
        | ModeSummary => summary
        | _ => mindmap
        end in
      let* cleared := CacheService.clearChapterCache w fileName chapterId type in
      ret (Some cleared)
  end.

(** [clearSpecificCache]: [None] without a file, else whether the cache was
    reported as cleared. *)
Definition clearSpecificCache (w : World) (ctx : PageContext)
    (cacheType : CacheKeyType) : M (option bool) :=
  match file ctx with
  | None => ret None
  | Some fileName =>
      let* cleared := CacheService.clearSpecificCache w fileName cacheType in
      ret (Some cleared)
  end.

(** [handleRetry]: nothing without retry parameters; else processing is
    started again with them. [abortSignal] is the signal of the controller
    that the new call makes. *)
Definition handleRetry (w : World) (ctx : PageContext)
    (abortSignal : AbortSignal) : M (option RunStatus) :=
  fun st =>
    match retryParams (page st) with
    | None => (Return None, st)
    | Some params =>
        (let* status :=
           SummaryPage.handleStartProcessing w ctx abortSignal
             (rp_selectedChapters params) (rp_chapterTags params)
             (rp_customPrompt params) (rp_useCustomOnly params) in
         ret (Some status)) st
    end.

End PageActions.

(** ** Step1Config.tsx: what is restored when the chapters are extracted *)

Record LoadedConfig := {
  lc_selectedChapters : list jsstring;
  lc_chapterTags : gmap jsstring JsValue;
  lc_customPrompt : option jsstring;
  lc_useCustomOnly : bool
}.

Module Step1Config.
Import JsString.

(** [new Set(ids)]: the members in the order of their first occurrence. *)
Definition newSet (ids : list jsstring) : list jsstring :=
  fold_left (fun members id => if bool_decide (id ∈ members) then members
                               else members ++ [id])
            ids [].

(** [cached.filter(id => validChapterIds.includes(id))]: what is not a
    string is no id. *)
Definition validSelected (validChapterIds : list jsstring)
    (cached : list JsValue) : list jsstring :=
  omap (fun v => match v with
                 | JStr id => if bool_decide (id ∈ validChapterIds) then Some id else None
                 | _ => None
                 end) cached.

(** The map of the tags of the chapters that exist, from the members of the
    stored object; the first member of a name is the member. *)
Definition validTags (validChapterIds : list jsstring)
    (fields : list (jsstring * JsValue)) : gmap jsstring JsValue :=
  list_to_map
    (List.filter (fun field => bool_decide (fst field ∈ validChapterIds)) fields).

(** [loadCache]: the four values are read, checked against the chapters
    extracted and set as the state of the component, which is what the
    result holds; then the selection is written back. The custom prompt is
    set only when one is stored. *)
Definition loadCache (w : World) (fileName : jsstring)
    (extractedChapters : list ChapterData) : M LoadedConfig :=
  let validChapterIds := map id extractedChapters in
  let* cachedSelectedChapters := CacheSettings.getSelectedChapters w fileName in
  let* cachedChapterTags := CacheSettings.getChapterTags w fileName in
  let* cachedCustomPrompt := CacheSettings.getCustomPrompt w fileName in
  let* cachedUseCustomOnly := CacheSettings.getUseCustomOnly w fileName in
  let newSelectedChapters :=
    match cachedSelectedChapters with
    | Some (item :: items) =>
        match validSelected validChapterIds (item :: items) with
        | [] => newSet validChapterIds
        | validSelectedChapters => newSet validSelectedChapters
        end
    | _ => newSet validChapterIds
    end in
  let newChapterTags :=
    match cachedChapterTags with
    | Some (JObj fields) => validTags validChapterIds fields
    | _ => ∅
    end in
  let customPrompt :=
    match cachedCustomPrompt with
    | Some (c :: s) => Some (c :: s)
    | _ => None
    end in
  let* _ := CacheSettings.setSelectedChapters w fileName newSelectedChapters in
  ret {| lc_selectedChapters := newSelectedChapters;
         lc_chapterTags := newChapterTags;
         lc_customPrompt := customPrompt;
         lc_useCustomOnly := cachedUseCustomOnly |}.

End Step1Config.

(** ** CacheManagementPage.tsx: the groups listed and their removal *)

Inductive CacheMode := CacheSummary | CacheMindmap.

#[global] Instance CacheMode_eq_dec : EqDecision CacheMode.
Proof. solve_decision. Defined.

Record BookModeGroup := {
  bmg_bookName : jsstring;
  bmg_mode : CacheMode;
  bmg_entries : list BookEntry;
  bmg_displayName : jsstring
}.

Module CacheManagementPage.

(** [getEntryMode] *)
Definition getEntryMode (t : CacheKeyType) : option CacheMode :=
  let summaryTypes :=
    [summary; connections; overall_summary; character_relationship] in
  let mindmapTypes :=
    [mindmap; combined_mindmap; merged_mindmap; mindmap_arrows] in
  if bool_decide (t ∈ summaryTypes) then Some CacheSummary
  else if bool_decide (t ∈ mindmapTypes) then Some CacheMindmap
  else None.

(** The loop over the entries of a book in [loadCacheData]:
    [summaryEntries] and [mindmapEntries]. *)
Definition byMode (entries : list BookEntry) : list BookEntry * list BookEntry :=
  fold_left
    (fun '(summaryEntries, mindmapEntries) entry =>
       match getEntryMode (be_type entry) with
       | Some CacheSummary => (summaryEntries ++ [entry], mindmapEntries)
       | Some CacheMindmap => (summaryEntries, mindmapEntries ++ [entry])
       | None => (summaryEntries, mindmapEntries)
       end)
    entries ([], []).

(** The groups pushed for a book. *)
Definition groupsOfBook (bookName : jsstring) (entries : list BookEntry)
    : list BookModeGroup :=
  let '(summaryEntries, mindmapEntries) := byMode entries in
  match summaryEntries with
  | [] => []
  | _ => [ {| bmg_bookName := bookName; bmg_mode := CacheSummary;
              bmg_entries := summaryEntries; bmg_displayName := bookName |} ]
  end
  ++ match mindmapEntries with
     | [] => []
     | _ => [ {| bmg_bookName := bookName; bmg_mode := CacheMindmap;
                 bmg_entries := mindmapEntries; bmg_displayName := bookName |} ]
     end.

(** The groups of [loadCacheData] as [grouped.forEach] pushes them, before
    they are sorted by book name. *)
Definition pushedGroups (grouped : list (jsstring * list BookEntry))
    : list BookModeGroup :=
  flat_map (fun '(bookName, entries) => groupsOfBook bookName entries) grouped.

(** The loop of [handleDelete] over the entries of a group. *)
Fixpoint deleteGroupEntries (w : World) (entries : list BookEntry)
    (deletedCount : nat) : M nat :=
  match entries with
  | [] => ret deletedCount
  | entry :: rest =>
      let* n :=
        CacheService.counted (CacheService.deleteCacheByKey w (be_key entry))
          deletedCount in
      deleteGroupEntries w rest n
  end.

(** [handleDelete] for a group: the result is the count of the toast. *)
Definition deleteGroup (w : World) (group : BookModeGroup) : M nat :=
  deleteGroupEntries w (bmg_entries group) 0%nat.

End CacheManagementPage.

(** ** Statements about the shape of keys and group ids *)

Module KeyShape.
Import JsString CacheKey KeySpec.

(** The key that the parts of a parsed key spell. *)
Definition rebuilt (p : ParsedKey) : jsstring :=
  match chapterId p with
  | Some cid =>
      js "book_" ++ bookName p ++ js "_chapter_" ++ cid ++ js "_" ++ type_name (type p)
  | None => js "book_" ++ bookName p ++ js "_" ++ type_name (type p)
  end.

(** A string that [.] matches throughout. *)
Definition one_line (s : jsstring) : bool :=
  forallb (fun c => negb (is_line_terminator c)) s.

(** The id that [generateKey] takes into the key: an empty one counts as
    none. *)
Definition given (chapterId : option jsstring) : option jsstring :=
  match chapterId with
  | Some (c :: cs) => Some (c :: cs)
  | _ => None
  end.

(** The services pass an id with the chapter kinds only. *)
Definition as_used (t : CacheKeyType) (chapterId : option jsstring) : bool :=
  match given chapterId with
  | Some _ => chapter_scoped t
  | None => true
  end.

(** [0-9a-z], the digits of [toString(36)]. *)
Definition is_base36 (c : Z) : bool :=
  ((48 <=? c) && (c <=? 57)) || ((97 <=? c) && (c <=? 122)).

End KeyShape.

(** ** Statements about grouping as a whole *)

Module GroupShape.
Import JsString Grouping.

(** The order of [Array.prototype.sort] without a comparator. *)
Definition code_unit_order (a b : jsstring) : Prop := leb a b = true.

(** The chapters without a tag, and those whose tag is in a set. *)
Definition untagged (chapterTags : gmap jsstring jsstring) (ch : ChapterData) : bool :=
  bool_decide (tagOf chapterTags ch = None).

Definition tagged_in (chapterTags : gmap jsstring jsstring)
    (tags : gset jsstring) (ch : ChapterData) : bool :=
  match tagOf chapterTags ch with
  | Some tag => bool_decide (tag ∈ tags)
  | None => false
  end.

(** The chapters of the groups, group after group. *)
Definition members (groups : list TempChapterGroup) : list ChapterData :=
  List.concat (map tg_chapters groups).

End GroupShape.

(** ** Statements about what a run may change *)

Module RunFrame.
Import JsString CacheKey.

(** What the keys of a book start with. *)
Definition bookPrefix (fileName : jsstring) : jsstring :=
  js "book_" ++ cleanFilename fileName ++ js "_".

(** The step, the processing flag, the error and the retry parameters of
    the page are the same. *)
Definition same_controls (p p' : PageState) : Prop :=
  currentStepIndex p' = currentStepIndex p
  /\ processing p' = processing p
  /\ error p' = error p
  /\ retryParams p' = retryParams p.

(** A change of the page that touches the results only. *)
Definition shows_results (f : PageState -> PageState) : Prop :=
  forall p, same_controls p (f p).

(** From [st] to [st'] at most [n] requests were sent, the entries whose
    keys are not of the book of [fileName] are as they were, no entry was
    removed, and the page differs in its results only. *)
Record within (fileName : jsstring) (n : nat) (st st' : State) : Prop := {
  within_requests : (requests st <= requests st' <= requests st + n)%nat;
  within_others :
    forall key, startsWith key (bookPrefix fileName) = false ->
                store st' !! key = store st !! key;
  within_kept :
    forall key, is_Some (store st !! key) -> is_Some (store st' !! key);
  within_page : same_controls (page st) (page st')
}.

(** A computation that stays within these bounds, however it ends. *)
Definition costs {A} (fileName : jsstring) (n : nat) (m : M A) : Prop :=
  forall st o st', m st = (o, st') -> within fileName n st st'.

(** The requests that a run may send: in summary mode one for each group,
    one for the connections, one for the overall summary and, for fiction,
    one for the character relationships; in mind-map mode one for each
    group; in whole-book mode one. *)
Definition budget (mode : ProcessingMode) (kind : BookType) (groups : nat) : nat :=
  match mode with
  | ModeSummary =>
      groups + match kind with fiction => 3 | non_fiction => 2 end
  | ModeMindmap => groups
  | ModeCombinedMindmap => 1
  end.

(** The chapters that a run processes. *)
Definition selected (ctx : PageContext) (selectedChapters : gset jsstring)
    : list ChapterData :=
  List.filter (fun chapter => bool_decide (id chapter ∈ selectedChapters))
              (default [] (extractedChapters ctx)).

End RunFrame.

(** ** Statements about the cache as a whole *)

Module CacheShape.
Import JsString CacheKey.

(** The entries that [getAllCacheEntries] lists for a store: its keys that
    [parseKey] reads, in the order in which the store lists its keys. *)
Definition entriesOf (m : gmap jsstring JsValue) : list CacheEntry :=
  omap (fun key =>
          match parseKey key with
          | Some parsed => Some {| ce_key := key; ce_parsed := parsed |}
          | None => None
          end)
       (sort (map fst (map_to_list m))).

Definition of_book (book : jsstring) (entry : CacheEntry) : bool :=
  bool_decide (bookName (ce_parsed entry) = book).

(** An entry as [getCacheEntriesByBook] lists it under its book. *)
Definition bookEntry (entry : CacheEntry) : BookEntry :=
  {| be_key := ce_key entry; be_type := type (ce_parsed entry);
     be_chapterId := chapterId (ce_parsed entry) |}.

(** Whether a key is read as a key of the book. *)
Definition key_of_book (book key : jsstring) : bool :=
  match parseKey key with
  | Some parsed => bool_decide (bookName parsed = book)
  | None => false
  end.

(** The chapter kind that a mode of [clearBookCache] sweeps. *)
Definition sweptKind (mode : ClearMode) : option CacheKeyType :=
  match mode with
  | ClearSummary => Some summary
  | ClearMindmap => Some mindmap
  | ClearCombinedMindmap => None
  end.

End CacheShape.

(** ** Worlds for the examples *)

Module Worlds.

(** A world with another [JSON.parse]. *)
Definition with_parser (parse : jsstring -> option JsValue) (w : World) : World :=
  {| complete := complete w; stream := stream w; now := now w;
     JSON_parse := parse; store_fault := store_fault w; prompts := prompts w |}.

(** A parser that reads [{}] and nothing else. *)
Definition empty_object_only (s : jsstring) : option JsValue :=
  if bool_decide (s = js "{}") then Some (JObj []) else None.

End Worlds.

(** ** Statements about the requests of a stage *)

Module Asking.

Definition same_requests (st st' : State) : Prop := requests st' = requests st.

(** From [st] the computation sends one request, however it ends. *)
Definition asks_once {A} (m : M A) (st : State) : Prop :=
  forall o st', m st = (o, st') -> requests st' = S (requests st).

(** The state after the stage that produces a result for the whole book. *)
Definition afterStage (w : World) (fileName bookTitle : jsstring)
    (chapters : list Chapter) (outputLanguage : jsstring) (bookType : BookType)
    (customPrompt : jsstring) (abortSignal : AbortSignal)
    (onStreamUpdate : option (jsstring -> PageState -> PageState))
    (cacheType : CacheKeyType) (st : State) : State :=
  match cacheType with
  | connections =>
      snd (BookProcessingService.generateConnections w fileName chapters
             outputLanguage bookType abortSignal onStreamUpdate st)
  | overall_summary =>
      snd (BookProcessingService.generateOverallSummary w fileName bookTitle chapters
             outputLanguage bookType abortSignal onStreamUpdate st)
  | character_relationship =>
      snd (BookProcessingService.generateCharacterRelationship w fileName chapters
             outputLanguage bookType abortSignal st)
  | combined_mindmap =>
      snd (BookProcessingService.generateCombinedMindMap w fileName bookTitle
             chapters customPrompt abortSignal st)
  | merged_mindmap =>
      snd (BookProcessingService.mergeMindMaps w fileName bookTitle chapters st)
  | _ => st
  end.

End Asking.

(** ** Sorting by code units *)

Section SortFacts.
Import JsString Grouping GroupShape.

Lemma leb_refl (a : jsstring) : leb a a = true.
Proof.
  induction a as [|x a IH]; [reflexivity|]. simpl.
  rewrite Z.eqb_refl, IH. apply orb_true_r.
Qed.

Lemma leb_total (a b : jsstring) : leb a b = true \/ leb b a = true.
Proof.
  revert b. induction a as [|x a IH]; intros [|y b]; simpl; auto.
  destruct (Z.lt_trichotomy x y) as [H|[H|H]].
  - left. apply Z.ltb_lt in H. now rewrite H.
  - subst. rewrite Z.eqb_refl, Z.ltb_irrefl. simpl. apply IH.
  - right. apply Z.ltb_lt in H. now rewrite H.
Qed.

Lemma leb_trans (a b c : jsstring) :
  leb a b = true -> leb b c = true -> leb a c = true.
Proof.
  revert b c. induction a as [|x a IH]; intros [|y b] [|z c]; simpl;
    try reflexivity; try discriminate.
  intros H1 H2.
  apply orb_true_iff in H1 as [H1|H1]; apply orb_true_iff in H2 as [H2|H2].
  - apply Z.ltb_lt in H1, H2. apply orb_true_iff. left. apply Z.ltb_lt. lia.
  - apply andb_true_iff in H2 as [H2 _]. apply Z.eqb_eq in H2. subst.
    now rewrite H1.
  - apply andb_true_iff in H1 as [H1 _]. apply Z.eqb_eq in H1. subst.
    now rewrite H2.
  - apply andb_true_iff in H1 as [E1 H1]. apply andb_true_iff in H2 as [E2 H2].
    apply Z.eqb_eq in E1, E2. subst. rewrite Z.eqb_refl, (IH b c H1 H2).
    apply orb_true_r.
Qed.

Lemma leb_antisym (a b : jsstring) :
  leb a b = true -> leb b a = true -> a = b.
Proof.
  revert b. induction a as [|x a IH]; intros [|y b]; simpl;
    try reflexivity; try discriminate.
  intros H1 H2.
  apply orb_true_iff in H1 as [H1|H1]; apply orb_true_iff in H2 as [H2|H2].
  - apply Z.ltb_lt in H1, H2. lia.
  - apply andb_true_iff in H2 as [H2 _]. apply Z.eqb_eq in H2.
    apply Z.ltb_lt in H1. lia.
  - apply andb_true_iff in H1 as [H1 _]. apply Z.eqb_eq in H1.
    apply Z.ltb_lt in H2. lia.
  - apply andb_true_iff in H1 as [E1 H1]. apply andb_true_iff in H2 as [E2 H2].
    apply Z.eqb_eq in E1. subst. f_equal. now apply IH.
Qed.

#[local] Instance code_unit_order_trans : Transitive code_unit_order.
Proof. intros a b c. apply leb_trans. Qed.

#[local] Instance code_unit_order_antisym : AntiSymm (=) code_unit_order.
Proof. intros a b. apply leb_antisym. Qed.

Lemma insert_sorted_perm (x : jsstring) (l : list jsstring) :
  insert_sorted x l ≡ₚ x :: l.
Proof.
  induction l as [|y l IH]; simpl; [reflexivity|].
  destruct (leb x y); [reflexivity|].
  rewrite IH. apply Permutation_swap.
Qed.

Lemma insert_sorted_HdRel (a x : jsstring) (l : list jsstring) :
  code_unit_order a x -> HdRel code_unit_order a l ->
  HdRel code_unit_order a (insert_sorted x l).
Proof.
  intros Hax Hl. destruct l as [|y l]; simpl; [now constructor|].
  destruct (leb x y); constructor; [exact Hax|].
  now inversion Hl.
Qed.

Lemma insert_sorted_Sorted (x : jsstring) (l : list jsstring) :
  Sorted code_unit_order l -> Sorted code_unit_order (insert_sorted x l).
Proof.
  induction l as [|y l IH]; intros Hl; simpl.
  - repeat constructor.
  - destruct (leb x y) eqn:E.
    + constructor; [exact Hl|]. now constructor.
    + inversion Hl as [|? ? Hs Hh]; subst.
      constructor; [now apply IH|].
      apply insert_sorted_HdRel; [|exact Hh].
      destruct (leb_total x y) as [H|H]; [congruence | exact H].
Qed.

Lemma sort_perm (l : list jsstring) : sort l ≡ₚ l.
Proof.
  unfold sort. induction l as [|x l IH]; simpl; [reflexivity|].
  now rewrite insert_sorted_perm, IH.
Qed.

Lemma sort_Sorted (l : list jsstring) : Sorted code_unit_order (sort l).
Proof.
  unfold sort. induction l as [|x l IH]; simpl; [constructor|].
  now apply insert_sorted_Sorted.
Qed.

Lemma sort_of_permutation (l l' : list jsstring) :
  l ≡ₚ l' -> sort l = sort l'.
Proof.
  intros H. apply (Sorted_unique code_unit_order); try apply sort_Sorted.
  now rewrite !sort_perm.
Qed.

End SortFacts.

(** * Properties *)

(** Closed statements about concrete runs are settled by evaluation. *)
Ltac conjuncts := repeat match goal with |- _ /\ _ => split end.

Ltac by_evaluation :=
  match goal with
  | |- _ <> _ => let H := fresh in intros H; vm_compute in H; discriminate H
  | |- _ => vm_compute; reflexivity
  end.

(** ** Strings and patterns *)

Section StringFacts.
Import JsString.

Lemma strip_prefix_app (p s : jsstring) : strip_prefix p (p ++ s) = Some s.
Proof.
  induction p as [|a p IH]; simpl; [reflexivity|].
  destruct (decide (a = a)); [exact IH | congruence].
Qed.

Lemma strip_prefix_Some (p s r : jsstring) :
  strip_prefix p s = Some r -> s = p ++ r.
Proof.
  revert s; induction p as [|a p IH]; intros s H; simpl in *.
  - congruence.
  - destruct s as [|b s]; [discriminate|].
    destruct (decide (a = b)); [|discriminate].
    subst. f_equal. auto.
Qed.

Lemma startsWith_app (p s : jsstring) : startsWith (p ++ s) p = true.
Proof. unfold startsWith. now rewrite strip_prefix_app. Qed.

Lemma includes_unfold (s p : jsstring) :
  includes s p = startsWith s p || match s with [] => false | _ :: s' => includes s' p end.
Proof. destruct s; reflexivity. Qed.

Lemma includes_app (a p b : jsstring) : includes (a ++ p ++ b) p = true.
Proof.
  induction a as [|x a IH].
  - simpl. rewrite includes_unfold, startsWith_app. reflexivity.
  - simpl. rewrite IH. apply orb_true_r.
Qed.




End StringFacts.

(** ** The key scheme *)

Section KeyFacts.
Import JsString CacheKey KeySpec.






Lemma one_of_Some (names : list CacheKeyType) (r : jsstring) t :
  one_of names r = Some t -> r = type_name t /\ In t names.
Proof.
  unfold one_of. intros H. apply find_some in H as [Hin Hb].
  apply bool_decide_eq_true in Hb. auto.
Qed.






End KeyFacts.





(** A group id that contains the separator moves into the book name. *)
Example parseKey_separator_in_id :
  CacheKey.parseKey (CacheKey.generateKey (js "a.pdf") summary (Some (js "x_chapter_y")))
  = Some {| bookName := js "a_chapter_x"; type := summary; chapterId := Some (js "y") |}.
Proof. vm_compute. reflexivity. Qed.

(** ** Grouping *)

Section GroupingFacts.
Import JsString Grouping GroupingSpec.

Lemma tagOf_Some (chapterTags : gmap jsstring jsstring) (ch : ChapterData) tag :
  tagOf chapterTags ch = Some tag ->
  chapterTags !! id ch = Some tag /\ tag <> [].
Proof.
  unfold tagOf. destruct (chapterTags !! id ch) as [[|c t]|]; try discriminate.
  intros [= <-]. split; [reflexivity | discriminate].
Qed.

Lemma tagOf_lookup (chapterTags : gmap jsstring jsstring) (ch : ChapterData) tag :
  tag <> [] ->
  chapterTags !! id ch = Some tag -> tagOf chapterTags ch = Some tag.
Proof.
  unfold tagOf. intros Hne ->. destruct tag; [congruence | reflexivity].
Qed.

(** The chapters the loop collects for a tag are the chapters that carry it. *)
Lemma sameTag_members (chapterTags : gmap jsstring jsstring) tag chapters :
  tag <> [] ->
  sameTag chapterTags tag chapters
  = List.filter (fun ch => bool_decide (tagOf chapterTags ch = Some tag)) chapters.
Proof.
  intros Hne. unfold sameTag. induction chapters as [|ch l IH]; [reflexivity|].
  simpl. rewrite IH.
  destruct (bool_decide (chapterTags !! id ch = Some tag)) eqn:E1;
    destruct (bool_decide (tagOf chapterTags ch = Some tag)) eqn:E2; try reflexivity.
  - apply bool_decide_eq_true in E1. apply bool_decide_eq_false in E2.
    destruct E2. now apply tagOf_lookup.
  - apply bool_decide_eq_false in E1. apply bool_decide_eq_true in E2.
    destruct E1. now apply tagOf_Some in E2.
Qed.

Lemma seen_tags_existsb chapterTags done processedTags tag :
  seen_tags chapterTags done processedTags ->
  bool_decide (tag ∈ processedTags)
  = existsb (fun earlier => bool_decide (tagOf chapterTags earlier = Some tag)) done.
Proof.
  intros H. apply eq_true_iff_eq.
  rewrite bool_decide_eq_true, existsb_exists, (H tag).
  split; intros (ch & Hin & Ht); exists ch; split; auto.
  - now apply bool_decide_eq_true.
  - now apply bool_decide_eq_true in Ht.
Qed.

Lemma group_loop_spec (chapters : list ChapterData)
    (chapterTags : gmap jsstring jsstring) (rest done : list ChapterData)
    (groups : list TempChapterGroup) (processedTags : gset jsstring) :
  chapters = done ++ rest ->
  groups = List.concat (imap (group_at chapters chapterTags) done) ->
  seen_tags chapterTags done processedTags ->
  fst (fold_left (group_step chapters chapterTags) rest (groups, processedTags))
  = List.concat (imap (group_at chapters chapterTags) (done ++ rest)).
Proof.
  revert done groups processedTags.
  induction rest as [|ch rest IH]; intros done groups processedTags Hall Hg Hseen.
  - simpl. now rewrite app_nil_r.
  - cbn [fold_left].
    assert (take (length done) chapters = done) as Htake
      by (rewrite Hall; apply take_app_length).
    assert (group_at chapters chapterTags (length done) ch
            = match tagOf chapterTags ch with
              | None => [ {| tg_tag := None; tg_chapters := [ch];
                            tg_groupId := title ch |} ]
              | Some tag =>
                  if bool_decide (tag ∈ processedTags) then []
                  else [ {| tg_tag := Some tag;
                            tg_chapters := sameTag chapterTags tag chapters;
                            tg_groupId :=
                              taggedGroupId (sameTag chapterTags tag chapters) |} ]
              end) as Hat.
    { unfold group_at. rewrite Htake.
      destruct (tagOf chapterTags ch) as [tag|] eqn:Et; [|reflexivity].
      rewrite <- (seen_tags_existsb _ _ _ _ Hseen).
      destruct (bool_decide (tag ∈ processedTags)); [reflexivity|].
      rewrite (sameTag_members _ _ _ (proj2 (tagOf_Some _ _ _ Et))).
      reflexivity. }
    replace (done ++ ch :: rest) with ((done ++ [ch]) ++ rest)
      by (rewrite <- app_assoc; reflexivity).
    assert (List.concat (imap (group_at chapters chapterTags) (done ++ [ch]))
            = groups ++ group_at chapters chapterTags (length done) ch) as Hstep.
    { rewrite imap_app, concat_app, <- Hg. simpl.
      rewrite Nat.add_0_r, app_nil_r. reflexivity. }
    unfold group_step at 2.
    destruct (tagOf chapterTags ch) as [tag|] eqn:Et.
    + destruct (bool_decide (tag ∈ processedTags)) eqn:Eb.
      * apply IH.
        -- rewrite Hall, <- app_assoc. reflexivity.
        -- rewrite Hstep, Hat, app_nil_r. reflexivity.
        -- intros tag'. rewrite (Hseen tag'). split.
           ++ intros (c0 & Hin & H0). exists c0. split; [apply in_or_app; auto | exact H0].
           ++ intros (c0 & Hin & H0). apply in_app_or in Hin as [Hin|[<-|[]]].
              ** exists c0. auto.
              ** apply (Hseen tag'). apply bool_decide_eq_true in Eb. congruence.
      * apply IH.
        -- rewrite Hall, <- app_assoc. reflexivity.
        -- rewrite Hstep, Hat. reflexivity.
        -- intros tag'. rewrite elem_of_union, elem_of_singleton, (Hseen tag'). split.
           ++ intros [->|(c0 & Hin & H0)].
              ** exists ch. split; [apply in_or_app; simpl; auto | exact Et].
              ** exists c0. split; [apply in_or_app; auto | exact H0].
           ++ intros (c0 & Hin & H0). apply in_app_or in Hin as [Hin|[<-|[]]].
              ** right. exists c0. auto.
              ** left. congruence.
    + apply IH.
      * rewrite Hall, <- app_assoc. reflexivity.
      * rewrite Hstep, Hat. reflexivity.
      * intros tag'. rewrite (Hseen tag'). split.
        -- intros (c0 & Hin & H0). exists c0. split; [apply in_or_app; auto | exact H0].
        -- intros (c0 & Hin & H0). apply in_app_or in Hin as [Hin|[<-|[]]].
           ++ exists c0. auto.
           ++ congruence.
Qed.

(** The loop is its unrolling. *)
Lemma groupChaptersByTag_unrolls (chapters : list ChapterData)
    (chapterTags : gmap jsstring jsstring) :
  groupChaptersByTag chapters chapterTags
  = groupChaptersByTag_unrolled chapters chapterTags.
Proof.
  unfold groupChaptersByTag, groupChaptersByTag_unrolled.
  apply (group_loop_spec chapters chapterTags chapters [] [] ∅).
  - reflexivity.
  - reflexivity.
  - intros tag. split.
    + intros H. exfalso. revert H. apply not_elem_of_empty.
    + intros (ch & [] & _).
Qed.

End GroupingFacts.

(** The functions of the code against the words of the specification. *)
Section ClaimFacts.
Import JsString Grouping GroupingSpec GroupingClaim CodeUnits GroupShape.

Lemma precedes_leb (a b : jsstring) : precedes a b = leb a b.
Proof.
  revert b. induction a as [|x a IH]; intros [|y b]; simpl; try reflexivity.
  destruct (Z.compare_spec x y) as [->|H|H].
  - now rewrite Z.ltb_irrefl, Z.eqb_refl, IH.
  - apply Z.ltb_lt in H. now rewrite H.
  - assert ((x <? y) = false) as -> by (apply Z.ltb_ge; lia).
    assert ((x =? y) = false) as -> by (apply Z.eqb_neq; lia).
    reflexivity.
Qed.

#[local] Instance ascending_trans : Transitive ascending.
Proof. intros a b c. unfold ascending. rewrite !precedes_leb. apply leb_trans. Qed.

#[local] Instance ascending_antisym : AntiSymm (=) ascending.
Proof. intros a b. unfold ascending. rewrite !precedes_leb. apply leb_antisym. Qed.

#[local] Instance ascending_total : Total ascending.
Proof. intros a b. unfold ascending. rewrite !precedes_leb. apply leb_total. Qed.

Lemma Sorted_ascending (l : list jsstring) :
  Sorted code_unit_order l -> Sorted ascending l.
Proof.
  induction 1 as [|x l Hs IH Hh]; constructor; [exact IH|].
  destruct Hh as [|y l' Hxy]; constructor.
  unfold ascending. now rewrite precedes_leb.
Qed.

(** [sort] puts the strings in ascending order. *)
Lemma sort_ascending (l : list jsstring) :
  Sorted ascending (sort l) /\ sort l ≡ₚ l.
Proof. split; [apply Sorted_ascending, sort_Sorted | apply sort_perm]. Qed.

Lemma sort_merge_sort (l : list jsstring) : sort l = merge_sort ascending l.
Proof.
  apply (Sorted_unique ascending).
  - apply sort_ascending.
  - apply Sorted_merge_sort. apply _.
  - now rewrite sort_perm, merge_sort_Permutation.
Qed.

Lemma join_joined (ids : list jsstring) : join (js "_") ids = joined ids.
Proof.
  destruct ids as [|x rest]; [reflexivity|]. unfold joined.
  revert x. induction rest as [|y rest IH]; intros x.
  - simpl. now rewrite app_nil_r.
  - change (join (js "_") (x :: y :: rest))
      with (x ++ js "_" ++ join (js "_") (y :: rest)).
    rewrite IH. cbn [map List.concat]. now rewrite <- !app_assoc.
Qed.

Lemma tagOf_assigned (chapterTags : gmap jsstring jsstring) (ch : ChapterData) :
  tagOf chapterTags ch = assigned chapterTags ch.
Proof.
  unfold tagOf, assigned. destruct (chapterTags !! id ch) as [[|c t]|]; reflexivity.
Qed.

Lemma existsb_same {A} (f g : A -> bool) (l : list A) :
  (forall x, f x = g x) -> existsb f l = existsb g l.
Proof. intros H. induction l as [|x l IH]; simpl; [reflexivity|]. now rewrite H, IH. Qed.

Lemma group_at_contribution (chapters : list ChapterData)
    (chapterTags : gmap jsstring jsstring) (i : nat) (ch : ChapterData) :
  group_at chapters chapterTags i ch = contribution chapters chapterTags i ch.
Proof.
  unfold group_at, contribution, sortedJoin. rewrite tagOf_assigned.
  destruct (assigned chapterTags ch) as [tag|]; [|reflexivity].
  rewrite (existsb_same _ (carries chapterTags tag))
    by (intros x; unfold carries; now rewrite tagOf_assigned).
  destruct (existsb _ _); [reflexivity|].
  rewrite (filter_ext _ (carries chapterTags tag))
    by (intros x; unfold carries; now rewrite tagOf_assigned).
  now rewrite sort_merge_sort, join_joined.
Qed.

End ClaimFacts.

(** C6. [groupChaptersByTag] goes through the chapters in input order: an
    untagged chapter gives at once a singleton group whose id is its title;
    the first chapter with a tag gives the group of all chapters with that
    tag, wherever they are, whose id is the hash of the member ids, sorted
    in ascending order and joined by [_]; a later chapter with a tag
    already met gives nothing. So the groups come in the order of the
    first occurrence of each tag or untagged chapter. The right-hand side
    reads the tags from the assignment itself and sorts by the order of
    the code units, independently of the code. *)
Theorem groupChaptersByTag_first_occurrence (chapters : list ChapterData)
    (chapterTags : gmap jsstring jsstring) :
  Grouping.groupChaptersByTag chapters chapterTags
  = GroupingClaim.groups chapters chapterTags.
Proof.
  rewrite groupChaptersByTag_unrolls.
  unfold GroupingSpec.groupChaptersByTag_unrolled, GroupingClaim.groups.
  f_equal. apply imap_ext. intros i ch _. apply group_at_contribution.
Qed.

(** ** The store *)

Section StoreFacts.
Import JsString CacheKey StoreSpec.
Context (w : World).

Lemma with_store_same (st : State) : with_store (store st) st = st.
Proof. destruct st; reflexivity. Qed.

Lemma getItem_eq (key : jsstring) (st : State) :
  CacheService.getItem w key st
  = match store_fault w GetItem key with
    | Some e => (Throw e, st)
    | None => (Return (default JNull (store st !! key)), st)
    end.
Proof. reflexivity. Qed.

Lemma setItem_eq (key : jsstring) (v : JsValue) (st : State) :
  CacheService.setItem w key v st
  = match store_fault w SetItem key with
    | Some e => (Throw e, st)
    | None => (Return tt, with_store (<[key := v]> (store st)) st)
    end.
Proof. reflexivity. Qed.

Lemma deleteCacheByKey_eq (key : jsstring) (st : State) :
  CacheService.deleteCacheByKey w key st
  = match store_fault w RemoveItem key with
    | Some _ => (Return false, st)
    | None => (Return true, with_store (delete key (store st)) st)
    end.
Proof.
  unfold CacheService.deleteCacheByKey, try_catch, bind, CacheService.removeItem, ret.
  destruct (store_fault w RemoveItem key); reflexivity.
Qed.

Lemma deleteCache_eq (filename : jsstring) (t : CacheKeyType)
    (chapterId : option jsstring) (st : State) :
  CacheService.deleteCache w filename t chapterId st
  = CacheService.deleteCacheByKey w (generateKey filename t chapterId) st.
Proof. reflexivity. Qed.

Lemma removeCounting_fault_free (ks : list jsstring) (n : nat) (st : State) :
  fault_free w ->
  CacheService.removeCounting w ks n st
  = (Return (n + length ks)%nat, with_store (deleteKeys ks (store st)) st).
Proof.
  intros Hw. revert n st. induction ks as [|k ks IH]; intros n st; simpl.
  - unfold ret, deleteKeys. simpl. rewrite with_store_same. f_equal. f_equal. lia.
  - unfold bind at 1, try_catch, bind, CacheService.removeItem, ret.
    rewrite (Hw RemoveItem k). rewrite IH. unfold deleteKeys. simpl.
    f_equal. f_equal. lia.
Qed.

Lemma counted_delete_fault_free (filename : jsstring) (t : CacheKeyType)
    (n : nat) (st : State) :
  fault_free w ->
  CacheService.counted (CacheService.deleteCache w filename t None) n st
  = (Return (S n), with_store (delete (generateKey filename t None) (store st)) st).
Proof.
  intros Hw. unfold CacheService.counted, bind.
  rewrite deleteCache_eq, deleteCacheByKey_eq, (Hw RemoveItem). reflexivity.
Qed.

Lemma filter_Permutation_list {A} (f : A -> bool) (l l' : list A) :
  l ≡ₚ l' -> List.filter f l ≡ₚ List.filter f l'.
Proof.
  induction 1 as [|x l l' _ IH|x y l|l l' l'' _ IH1 _ IH2]; simpl.
  - reflexivity.
  - destruct (f x); [now constructor | exact IH].
  - destruct (f x), (f y); try reflexivity. apply Permutation_swap.
  - now rewrite IH1.
Qed.

Lemma deleteKeys_Permutation (ks ks' : list jsstring) (m : gmap jsstring JsValue) :
  ks ≡ₚ ks' -> deleteKeys ks m = deleteKeys ks' m.
Proof.
  unfold deleteKeys. intros H. revert m.
  induction H as [|x l l' _ IH|x y l|l l' l'' _ IH1 _ IH2]; intros m; simpl.
  - reflexivity.
  - apply IH.
  - now rewrite delete_delete.
  - now rewrite IH1.
Qed.

(** The keys swept are the same whatever the order in which the store lists
    its keys. *)
Lemma chapterKeysOf_listed (bookPrefix suffix : jsstring) (m : gmap jsstring JsValue) :
  CacheService.chapterKeysOf bookPrefix suffix (sort (map fst (map_to_list m)))
  ≡ₚ CacheService.chapterKeysOf bookPrefix suffix (map fst (map_to_list m)).
Proof. apply filter_Permutation_list, sort_perm. Qed.

Lemma swept_fault_free (bookPrefix suffix : jsstring) (n : nat) (st : State) :
  fault_free w ->
  CacheService.removeCounting w
    (CacheService.chapterKeysOf bookPrefix suffix
       (sort (map fst (map_to_list (store st))))) n st
  = (Return (n + length (CacheService.chapterKeysOf bookPrefix suffix
                           (map fst (map_to_list (store st)))))%nat,
     with_store
       (deleteKeys (CacheService.chapterKeysOf bookPrefix suffix
                      (map fst (map_to_list (store st)))) (store st)) st).
Proof.
  intros Hw. rewrite removeCounting_fault_free by exact Hw.
  now rewrite (deleteKeys_Permutation _ _ _ (chapterKeysOf_listed _ _ _)),
    (Permutation_length (chapterKeysOf_listed _ _ _)).
Qed.

End StoreFacts.

(** C10. [deleteCache] and [deleteCacheByKey] answer true whether or not the
    key is in the store, and change no other key; so the count of
    [clearBookCache] is the number of book-level kinds of the mode, each
    counted though nothing may be stored under it, plus the chapter keys
    swept. (The persistence layer is taken not to fail: a removal that
    throws is the one case reported as false.) *)
Theorem clearBookCache_counts_attempts (w : World) (st : State)
    (fileName : jsstring) (mode : ClearMode) :
  StoreSpec.fault_free w ->
  (forall key,
     CacheService.deleteCacheByKey w key st
     = (Return true, StoreSpec.with_store (delete key (store st)) st))
  /\ (forall t chapterId,
        CacheService.deleteCache w fileName t chapterId st
        = (Return true,
           StoreSpec.with_store
             (delete (CacheKey.generateKey fileName t chapterId) (store st)) st))
  /\ (forall key other, other <> key ->
        store (snd (CacheService.deleteCacheByKey w key st)) !! other
        = store st !! other)
  /\ let cleared :=
       StoreSpec.deleteKinds fileName (StoreSpec.bookLevelKinds mode) (store st) in
     let swept := StoreSpec.sweptKeys fileName mode cleared in
     CacheService.clearBookCache w fileName mode st
     = (Return (length (StoreSpec.bookLevelKinds mode) + length swept)%nat,
        StoreSpec.with_store (StoreSpec.deleteKeys swept cleared) st).
Proof.
  intros Hw. repeat split.
  - intros key. rewrite deleteCacheByKey_eq, (Hw RemoveItem). reflexivity.
  - intros t chapterId.
    rewrite deleteCache_eq, deleteCacheByKey_eq, (Hw RemoveItem). reflexivity.
  - intros key other Hne.
    rewrite deleteCacheByKey_eq, (Hw RemoveItem). simpl.
    apply lookup_delete_ne. congruence.
  - unfold CacheService.clearBookCache.
    unfold bind at 1. rewrite counted_delete_fault_free by exact Hw.
    unfold bind at 1. rewrite counted_delete_fault_free by exact Hw.
    destruct mode.
    + unfold bind at 1. rewrite counted_delete_fault_free by exact Hw.
      unfold bind at 1. rewrite counted_delete_fault_free by exact Hw.
      unfold bind at 1. rewrite counted_delete_fault_free by exact Hw.
      unfold bind at 1, CacheService.getAllKeys, CacheService.keys.
      rewrite (Hw Keys). rewrite swept_fault_free by exact Hw.
      reflexivity.
    + unfold bind at 1. rewrite counted_delete_fault_free by exact Hw.
      unfold bind at 1. rewrite counted_delete_fault_free by exact Hw.
      unfold bind at 1, CacheService.getAllKeys, CacheService.keys.
      rewrite (Hw Keys). rewrite swept_fault_free by exact Hw.
      reflexivity.
    + rewrite counted_delete_fault_free by exact Hw. reflexivity.
Qed.

(** Clearing the summary mode of a book in an empty store reports five
    deletions. *)
Lemma clearBookCache_empty_store_counts_five :
  CacheService.clearBookCache (StoreSpec.constant_world [] [] None)
    (js "book.epub") ClearSummary StoreSpec.fresh
  = (Return 5%nat, StoreSpec.fresh).
Proof.
  destruct (clearBookCache_counts_attempts (StoreSpec.constant_world [] [] None)
              StoreSpec.fresh (js "book.epub") ClearSummary) as (_ & _ & _ & H).
  - intros op key. reflexivity.
  - rewrite H. vm_compute. reflexivity.
Defined.

(** ** The state-passing services *)

Section MonadFacts.
Import StoreSpec StageSpec.

Lemma bind_Return_inv {A B} (m : M A) (k : A -> M B) st b st2 :
  bind m k st = (Return b, st2) ->
  exists a st1, m st = (Return a, st1) /\ k a st1 = (Return b, st2).
Proof.
  unfold bind. destruct (m st) as [[a|e] st1]; intros H; [eauto | discriminate].
Qed.

Lemma bind_inv {A B} (m : M A) (k : A -> M B) st o st2 :
  bind m k st = (o, st2) ->
  (exists a st1, m st = (Return a, st1) /\ k a st1 = (o, st2))
  \/ (exists e, m st = (Throw e, st2) /\ o = Throw e).
Proof.
  unfold bind. destruct (m st) as [[a|e] st1]; intros H.
  - left. eauto.
  - right. injection H as <- <-. eauto.
Qed.

Lemma bind_Return {A B} (m : M A) (k : A -> M B) st a st1 :
  m st = (Return a, st1) -> bind m k st = k a st1.
Proof. unfold bind. now intros ->. Qed.

Lemma bind_Throw {A B} (m : M A) (k : A -> M B) st e st1 :
  m st = (Throw e, st1) -> bind m k st = (Throw e, st1).
Proof. unfold bind. now intros ->. Qed.

Lemma try_catch_inv {A} (m : M A) (h : JsError -> M A) st o st2 :
  try_catch m h st = (o, st2) ->
  (exists a, m st = (Return a, st2) /\ o = Return a)
  \/ (exists e st1, m st = (Throw e, st1) /\ h e st1 = (o, st2)).
Proof.
  unfold try_catch. destruct (m st) as [[a|e] st1]; intros H.
  - left. injection H as <- <-. eauto.
  - right. eauto.
Qed.

Lemma rethrow_Return_inv {A} prefix (m : M A) st a st2 :
  AIService.rethrow prefix m st = (Return a, st2) -> m st = (Return a, st2).
Proof.
  unfold AIService.rethrow. intros H.
  apply try_catch_inv in H as [(a' & Hm & [= <-])|(e & st1 & _ & H)]; [exact Hm|].
  discriminate.
Qed.

Lemma rethrow_Return {A} prefix (m : M A) st a st2 :
  m st = (Return a, st2) -> AIService.rethrow prefix m st = (Return a, st2).
Proof. unfold AIService.rethrow, try_catch. now intros ->. Qed.

Lemma rethrow_Throw {A} prefix (m : M A) st e st2 :
  m st = (Throw e, st2) ->
  AIService.rethrow prefix m st = (Throw (Error (prefix ++ err_message e)), st2).
Proof. unfold AIService.rethrow, try_catch. now intros ->. Qed.

(** Composition of computations that stay within a preorder. *)
Section Keeps.
Context (R : State -> State -> Prop).
Context (R_refl : forall st, R st st).
Context (R_trans : forall a b c, R a b -> R b c -> R a c).

Lemma keeps_ret {A} (a : A) : keeps R (ret a).
Proof using R_refl. intros st o st' [= <- <-]. apply R_refl. Qed.

Lemma keeps_throw {A} e : keeps R (@throw A e).
Proof using R_refl. intros st o st' [= <- <-]. apply R_refl. Qed.

Lemma keeps_bind {A B} (m : M A) (k : A -> M B) :
  keeps R m -> (forall a, keeps R (k a)) -> keeps R (bind m k).
Proof using R_trans.
  intros Hm Hk st o st' H.
  apply bind_inv in H as [(a & st1 & H1 & H2)|(e & H1 & _)].
  - eapply R_trans; [eapply Hm | eapply Hk]; eauto.
  - eapply Hm; eauto.
Qed.

Lemma keeps_try_catch {A} (m : M A) (h : JsError -> M A) :
  keeps R m -> (forall e, keeps R (h e)) -> keeps R (try_catch m h).
Proof using R_trans.
  intros Hm Hh st o st' H.
  apply try_catch_inv in H as [(a & H1 & _)|(e & st1 & H1 & H2)].
  - eapply Hm; eauto.
  - eapply R_trans; [eapply Hm | eapply Hh]; eauto.
Qed.

Lemma keeps_rethrow {A} prefix (m : M A) :
  keeps R m -> keeps R (AIService.rethrow prefix m).
Proof using R_refl R_trans.
  intros Hm. apply keeps_try_catch; [exact Hm|]. intros e. apply keeps_throw.
Qed.

End Keeps.

Lemma same_store_refl st : same_store st st.
Proof. reflexivity. Qed.

Lemma same_store_trans a b c : same_store a b -> same_store b c -> same_store a c.
Proof. unfold same_store. congruence. Qed.

Lemma same_page_refl st : same_page st st.
Proof. reflexivity. Qed.

Lemma same_page_trans a b c : same_page a b -> same_page b c -> same_page a c.
Proof. unfold same_page. congruence. Qed.

Lemma page_absorbed_refl {X} (notify : X -> PageState -> PageState) st :
  page_absorbed notify st st.
Proof. intros T F _. reflexivity. Qed.

Lemma page_absorbed_trans {X} (notify : X -> PageState -> PageState) a b c :
  page_absorbed notify a b -> page_absorbed notify b c -> page_absorbed notify a c.
Proof. intros H1 H2 T F HF. rewrite (H2 T F HF). apply (H1 T F HF). Qed.

Lemma same_page_absorbed {X} (notify : X -> PageState -> PageState) st st' :
  same_page st st' -> page_absorbed notify st st'.
Proof. intros H T F _. now rewrite H. Qed.

Lemma stable_refl (valid : JsValue -> bool) m : stable valid m m.
Proof. intros key v H _. exact H. Qed.

Lemma stable_trans (valid : JsValue -> bool) a b c :
  stable valid a b -> stable valid b c -> stable valid a c.
Proof. intros H1 H2 key v H Hv. apply H2; [apply H1|]; assumption. Qed.

(** Writing where no entry of the wanted shape stands keeps the others. *)
Lemma stable_insert (valid : JsValue -> bool) (m : gmap jsstring JsValue) key v :
  (forall old, m !! key = Some old -> valid old = false) ->
  stable valid m (<[key := v]> m).
Proof.
  intros Hold k x Hk Hx.
  destruct (decide (key = k)) as [->|Hne].
  - rewrite (Hold x Hk) in Hx. discriminate.
  - rewrite lookup_insert_ne; assumption.
Qed.

End MonadFacts.

(** ** The provider calls *)

Section ProviderFacts.
Import JsString StoreSpec StageSpec.
Context (w : World).

(** Calls stay within any preorder that counting a request and the stream
    callback stay within. *)
Section Frame.
Context (R : State -> State -> Prop).
Context (R_refl : forall st, R st st).
Context (R_trans : forall a b c, R a b -> R b c -> R a c).
Context (R_count : forall st, R st (snd (AIService.count_request st))).

Lemma keeps_count_request : keeps R AIService.count_request.
Proof using R_count.
  intros st o st' H. specialize (R_count st). now rewrite H in R_count.
Qed.

Lemma keeps_is_aborted signal : keeps R (AIService.is_aborted signal).
Proof using R_refl.
  intros st o st' H. unfold AIService.is_aborted, AIService.requests_sent, bind, ret in H.
  injection H as _ <-. apply R_refl.
Qed.

Lemma keeps_generateContent prompt language signal json :
  keeps R (AIService.generateContent w prompt language signal json).
Proof using R_refl R_trans R_count.
  unfold AIService.generateContent.
  apply keeps_bind; [assumption | apply keeps_is_aborted |].
  intros [|]; [now apply keeps_throw|].
  apply keeps_bind; [assumption | apply keeps_count_request |].
  intros n. destruct (complete w n _); auto using keeps_throw, keeps_ret.
Qed.

Lemma deliver_within {L} (onUpdate : Delta -> L -> State -> L * State)
    deltas full locals st :
  (forall d l s, R s (snd (onUpdate d l s))) ->
  R st (snd (AIService.deliver onUpdate deltas full locals st)).
Proof using R_refl R_trans.
  intros Hup. revert full locals st.
  induction deltas as [|d deltas IH]; intros full locals st; simpl; [apply R_refl|].
  destruct (nonempty (delta_content d) || nonempty (delta_reasoning d)); [|apply IH].
  specialize (Hup d locals st). destruct (onUpdate d locals st) as [l' st'].
  eapply R_trans; [exact Hup | apply IH].
Qed.

Lemma keeps_generateContentStream {L} prompt
    (onUpdate : Delta -> L -> State -> L * State) locals language signal :
  (forall d l s, R s (snd (onUpdate d l s))) ->
  keeps R (AIService.generateContentStream w prompt onUpdate locals language signal).
Proof using R_refl R_trans R_count.
  intros Hup. unfold AIService.generateContentStream.
  apply keeps_bind; [assumption | apply keeps_is_aborted |].
  intros [|]; [now apply keeps_throw|].
  apply keeps_try_catch; [assumption | |].
  - apply keeps_bind; [assumption | apply keeps_count_request |].
    intros n. destruct (stream w n _) as [e|? ? ?| |deltas failure];
      auto using keeps_throw.
    intros st o st' H.
    pose proof (deliver_within onUpdate deltas
                  {| msg_content := []; msg_reasoning := [] |} locals st Hup) as HR.
    destruct (AIService.deliver _ _ _ _ _) as [full st1].
    destruct failure; injection H as _ <-; exact HR.
  - intros e. destruct (decide _); now apply keeps_throw.
Qed.

Lemma keeps_generate {L} prompt
    (onStreamUpdate : option (Delta -> L -> State -> L * State)) locals
    language signal :
  (forall onUpdate d l s, onStreamUpdate = Some onUpdate -> R s (snd (onUpdate d l s))) ->
  keeps R
    match onStreamUpdate with
    | Some onUpdate =>
        AIService.generateContentStream w prompt onUpdate locals language signal
    | None => AIService.generateContent w prompt language signal false
    end.
Proof using R_refl R_trans R_count.
  intros Hup. destruct onStreamUpdate as [onUpdate|].
  - apply keeps_generateContentStream. eauto.
  - apply keeps_generateContent.
Qed.

Lemma keeps_summarizeChapter {L} title content bookType language customPrompt
    useCustomOnly signal
    (onStreamUpdate : option (Delta -> L -> State -> L * State)) locals :
  (forall onUpdate d l s, onStreamUpdate = Some onUpdate -> R s (snd (onUpdate d l s))) ->
  keeps R (AIService.summarizeChapter w title content bookType language
             customPrompt useCustomOnly signal onStreamUpdate locals).
Proof using R_refl R_trans R_count.
  intros Hup. unfold AIService.summarizeChapter.
  apply keeps_rethrow; [assumption..|].
  apply keeps_bind; [assumption | now apply keeps_generate |].
  intros result. destruct (nonempty _); auto using keeps_ret, keeps_throw.
Qed.

Lemma keeps_analyzeConnections {L} chapters language bookType signal
    (onStreamUpdate : option (Delta -> L -> State -> L * State)) locals :
  (forall onUpdate d l s, onStreamUpdate = Some onUpdate -> R s (snd (onUpdate d l s))) ->
  keeps R (AIService.analyzeConnections w chapters language bookType signal
             onStreamUpdate locals).
Proof using R_refl R_trans R_count.
  intros Hup. unfold AIService.analyzeConnections.
  apply keeps_rethrow; [assumption..|].
  apply keeps_bind; [assumption | now apply keeps_generate |].
  intros result. destruct (nonempty _); auto using keeps_ret, keeps_throw.
Qed.

Lemma keeps_generateOverallSummary {L} bookTitle chapters language bookType signal
    (onStreamUpdate : option (Delta -> L -> State -> L * State)) locals :
  (forall onUpdate d l s, onStreamUpdate = Some onUpdate -> R s (snd (onUpdate d l s))) ->
  keeps R (AIService.generateOverallSummary w bookTitle chapters language bookType
             signal onStreamUpdate locals).
Proof using R_refl R_trans R_count.
  intros Hup. unfold AIService.generateOverallSummary.
  apply keeps_rethrow; [assumption..|].
  apply keeps_bind; [assumption | now apply keeps_generate |].
  intros result. destruct (nonempty _); auto using keeps_ret, keeps_throw.
Qed.

Lemma keeps_generateCharacterRelationship chapters language bookType signal :
  keeps R (AIService.generateCharacterRelationship w chapters language bookType signal).
Proof using R_refl R_trans R_count.
  unfold AIService.generateCharacterRelationship.
  apply keeps_rethrow; [assumption..|].
  apply keeps_bind; [assumption | apply keeps_generateContent |].
  intros result. destruct (nonempty _); [|now apply keeps_throw].
  destruct (AIService.mermaidMatch _) as [[|c g]|]; now apply keeps_ret.
Qed.

Lemma keeps_parseJsonResponse response errorContext :
  keeps R (AIService.parseJsonResponse w response errorContext).
Proof using R_refl.
  unfold AIService.parseJsonResponse.
  destruct (nonempty _); [|now apply keeps_throw].
  destruct (JSON_parse w _); [now apply keeps_ret|].
  destruct (AIService.jsonMatch _) as [[|c g]|]; try now apply keeps_throw.
  destruct (JSON_parse w _); [now apply keeps_ret | now apply keeps_throw].
Qed.

Lemma keeps_generateChapterMindMap content language customPrompt signal :
  keeps R (AIService.generateChapterMindMap w content language customPrompt signal).
Proof using R_refl R_trans R_count.
  unfold AIService.generateChapterMindMap.
  apply keeps_rethrow; [assumption..|].
  apply keeps_bind; [assumption | apply keeps_generateContent |].
  intros result. apply keeps_parseJsonResponse.
Qed.

Lemma keeps_generateCombinedMindMap bookTitle chapters customPrompt signal :
  keeps R (AIService.generateCombinedMindMap w bookTitle chapters customPrompt signal).
Proof using R_refl R_trans R_count.
  unfold AIService.generateCombinedMindMap.
  apply keeps_rethrow; [assumption..|].
  apply keeps_bind; [assumption | apply keeps_generateContent |].
  intros result. apply keeps_parseJsonResponse.
Qed.

End Frame.

(** *** What a call that returns has returned *)

Lemma trimStart_head (s : jsstring) c r :
  trimStart s = c :: r -> is_space c = false.
Proof.
  induction s as [|x s IH]; simpl; [discriminate|].
  destruct (is_space x) eqn:E; [exact IH|]. now intros [= <- _].
Qed.

Lemma trimStart_keeps_last (s : jsstring) c :
  is_space c = false -> trimStart (s ++ [c]) <> [].
Proof.
  intros Hc. induction s as [|x s IH]; simpl.
  - now rewrite Hc.
  - destruct (is_space x); [exact IH | discriminate].
Qed.

Lemma trim_nonempty (c : Z) (r : jsstring) :
  is_space c = false -> nonempty (trim (c :: r)) = true.
Proof.
  intros Hc. unfold trim. simpl trimStart at 2. rewrite Hc.
  simpl rev at 2.
  pose proof (trimStart_keeps_last (rev r) c Hc) as H.
  destruct (trimStart (rev r ++ [c])) as [|x t] eqn:E; [congruence|].
  simpl. destruct (rev t ++ [x]) eqn:E'; [|reflexivity].
  now apply app_eq_nil in E' as [_ ?].
Qed.

Lemma until_fence_eq (s : jsstring) :
  AIService.until_fence s
  = match strip_prefix (js "```") s with
    | Some _ => Some []
    | None =>
        match s with
        | [] => None
        | c :: r => cons c <$> AIService.until_fence r
        end
    end.
Proof. destruct s; reflexivity. Qed.

Lemma until_fence_head (s g : jsstring) c :
  AIService.until_fence s = Some (c :: g) -> exists r, s = c :: r.
Proof.
  rewrite until_fence_eq.
  destruct (strip_prefix (js "```") s); [discriminate|].
  destruct s as [|x s]; [discriminate|].
  destruct (AIService.until_fence s); simpl; [|discriminate].
  intros [= <- _]. eauto.
Qed.

Lemma fence_body_head (s g : jsstring) c :
  AIService.fence_body s = Some (c :: g) -> is_space c = false.
Proof.
  unfold AIService.fence_body. intros H.
  apply until_fence_head in H as [r H]. now apply trimStart_head in H.
Qed.

Lemma mermaidMatch_eq (s : jsstring) :
  AIService.mermaidMatch s
  = match strip_prefix (js "```mermaid") s ≫= AIService.fence_body with
    | Some g => Some g
    | None =>
        match s with
        | [] => None
        | _ :: r => AIService.mermaidMatch r
        end
    end.
Proof. destruct s; reflexivity. Qed.

Lemma mermaidMatch_head (s g : jsstring) c :
  AIService.mermaidMatch s = Some (c :: g) -> is_space c = false.
Proof.
  induction s as [|x s IH]; rewrite mermaidMatch_eq.
  - vm_compute. discriminate.
  - destruct (strip_prefix (js "```mermaid") (x :: s)) as [r|]; simpl.
    + destruct (AIService.fence_body r) as [g'|] eqn:E.
      * intros [= ->]. now apply fence_body_head in E.
      * exact IH.
    + exact IH.
Qed.

Lemma summarizeChapter_Return {L} title content bookType language customPrompt
    useCustomOnly signal
    (onStreamUpdate : option (Delta -> L -> State -> L * State)) locals st msg st' :
  AIService.summarizeChapter w title content bookType language customPrompt
    useCustomOnly signal onStreamUpdate locals st = (Return msg, st') ->
  nonempty (msg_content msg) = true.
Proof.
  unfold AIService.summarizeChapter. intros H.
  apply rethrow_Return_inv in H.
  apply bind_Return_inv in H as (result & st1 & _ & H).
  destruct (nonempty (trim (msg_content result))) eqn:E; [|discriminate].
  injection H as <- _. exact E.
Qed.

Lemma analyzeConnections_Return {L} chapters language bookType signal
    (onStreamUpdate : option (Delta -> L -> State -> L * State)) locals st text st' :
  AIService.analyzeConnections w chapters language bookType signal
    onStreamUpdate locals st = (Return text, st') ->
  nonempty text = true.
Proof.
  unfold AIService.analyzeConnections. intros H.
  apply rethrow_Return_inv in H.
  apply bind_Return_inv in H as (result & st1 & _ & H).
  destruct (nonempty (trim (msg_content result))) eqn:E; [|discriminate].
  injection H as <- _. exact E.
Qed.

Lemma generateOverallSummary_Return {L} bookTitle chapters language bookType signal
    (onStreamUpdate : option (Delta -> L -> State -> L * State)) locals st text st' :
  AIService.generateOverallSummary w bookTitle chapters language bookType signal
    onStreamUpdate locals st = (Return text, st') ->
  nonempty text = true.
Proof.
  unfold AIService.generateOverallSummary. intros H.
  apply rethrow_Return_inv in H.
  apply bind_Return_inv in H as (result & st1 & _ & H).
  destruct (nonempty (trim (msg_content result))) eqn:E; [|discriminate].
  injection H as <- _. exact E.
Qed.

Lemma generateCharacterRelationship_Return chapters language bookType signal
    st text st' :
  AIService.generateCharacterRelationship w chapters language bookType signal st
  = (Return text, st') ->
  nonempty text = true.
Proof.
  unfold AIService.generateCharacterRelationship. intros H.
  apply rethrow_Return_inv in H.
  apply bind_Return_inv in H as (result & st1 & _ & H).
  destruct (nonempty (trim (msg_content result))) eqn:E; [|discriminate].
  destruct (AIService.mermaidMatch (msg_content result)) as [[|c g]|] eqn:Em;
    injection H as <- _; try exact E.
  apply trim_nonempty. now apply mermaidMatch_head in Em.
Qed.

End ProviderFacts.

(** ** The stages *)

Section StageFacts.
Import JsString CacheKey StoreSpec StageSpec.
Context (w : World).

Lemma getString_eq filename t chapterId st :
  CacheService.getString w filename t chapterId st
  = match store_fault w GetItem (generateKey filename t chapterId) with
    | Some e => (Throw e, st)
    | None => (Return (text_at (store st) (generateKey filename t chapterId)), st)
    end.
Proof.
  unfold CacheService.getString, bind. rewrite getItem_eq.
  destruct (store_fault w GetItem _); reflexivity.
Qed.

Lemma getMindMap_eq filename t chapterId st :
  CacheService.getMindMap w filename t chapterId st
  = match store_fault w GetItem (generateKey filename t chapterId) with
    | Some e => (Throw e, st)
    | None => (Return (mindMap_at (store st) (generateKey filename t chapterId)), st)
    end.
Proof.
  unfold CacheService.getMindMap, bind. rewrite getItem_eq.
  destruct (store_fault w GetItem _); [reflexivity|].
  unfold ret, mindMap_at. destruct (default JNull _); reflexivity.
Qed.

Lemma setCache_eq filename t v chapterId st :
  CacheService.setCache w filename t v chapterId st
  = match store_fault w SetItem (generateKey filename t chapterId) with
    | Some e => (Throw e, st)
    | None =>
        (Return tt, with_store (<[generateKey filename t chapterId := v]> (store st)) st)
    end.
Proof. reflexivity. Qed.

Lemma text_at_Some m key c s :
  text_at m key = Some (c :: s) <-> m !! key = Some (JStr (c :: s)).
Proof.
  unfold text_at. split.
  - destruct (m !! key) as [[]|]; simpl; try discriminate. now intros [= ->].
  - now intros ->.
Qed.

Lemma text_at_miss m key :
  (forall c s, text_at m key <> Some (c :: s)) ->
  forall old, m !! key = Some old -> is_text old = false.
Proof.
  intros H old Hold. destruct old as [| | |[|c s]| |]; try reflexivity.
  exfalso. apply (H c s). now apply text_at_Some.
Qed.

Lemma mindMap_at_Some m key v :
  mindMap_at m key = Some v <-> m !! key = Some v /\ is_mindMap v = true.
Proof.
  unfold mindMap_at, is_mindMap. split.
  - destruct (m !! key) as [[]|]; simpl; try discriminate;
      destruct (Js.has _ _) eqn:E; try discriminate; intros [= <-]; auto.
  - intros [-> H]. destruct v; simpl in H |- *; try discriminate; now rewrite H.
Qed.

Lemma mindMap_at_miss m key :
  mindMap_at m key = None ->
  forall old, m !! key = Some old -> is_mindMap old = false.
Proof.
  intros H old Hold. destruct (is_mindMap old) eqn:E; [|reflexivity].
  rewrite (proj2 (mindMap_at_Some m key old)) in H; [discriminate | auto].
Qed.

(** *** The relations that a stage's provider call stays within *)

Lemma absorbed_by_refl {X} (cb : option (X -> PageState -> PageState)) st :
  absorbed_by cb st st.
Proof. destruct cb; [apply page_absorbed_refl | apply same_page_refl]. Qed.

Lemma absorbed_by_trans {X} (cb : option (X -> PageState -> PageState)) a b c :
  absorbed_by cb a b -> absorbed_by cb b c -> absorbed_by cb a c.
Proof. destruct cb; [apply page_absorbed_trans | apply same_page_trans]. Qed.

Lemma quiet_refl {X} (cb : option (X -> PageState -> PageState)) st : quiet cb st st.
Proof. split; [reflexivity | apply absorbed_by_refl]. Qed.

Lemma quiet_trans {X} (cb : option (X -> PageState -> PageState)) a b c :
  quiet cb a b -> quiet cb b c -> quiet cb a c.
Proof.
  intros [S1 P1] [S2 P2]. split;
    [eapply same_store_trans | eapply absorbed_by_trans]; eauto.
Qed.

Lemma quiet_same_page {X} (cb : option (X -> PageState -> PageState)) st st' :
  store st' = store st -> page st' = page st -> quiet cb st st'.
Proof.
  intros Hs Hp. split; [exact Hs|].
  destruct cb; [now apply same_page_absorbed | exact Hp].
Qed.

Lemma quiet_count {X} (cb : option (X -> PageState -> PageState)) st :
  quiet cb st (snd (AIService.count_request st)).
Proof. apply quiet_same_page; reflexivity. Qed.

Lemma quiet_notified {X} (cb : option (X -> PageState -> PageState)) x st :
  quiet cb st (notified cb x st).
Proof.
  split; [destruct cb; reflexivity|].
  destruct cb as [notify|]; simpl; [|reflexivity].
  intros T F HF. simpl. apply HF.
Qed.

Lemma quiet_summaryStreamUpdate (cb : option (SummaryUpdate -> PageState -> PageState))
    d l st :
  quiet cb st (snd (BookProcessingService.summaryStreamUpdate w cb d l st)).
Proof.
  unfold BookProcessingService.summaryStreamUpdate, BookProcessingService.read_clock.
  destruct cb as [notify|]; simpl.
  - destruct (_ || _); simpl.
    + split; [reflexivity|]. intros T F HF. simpl. apply HF.
    + now apply quiet_same_page.
  - now apply quiet_same_page.
Qed.

Lemma quiet_contentStreamUpdate (notify : jsstring -> PageState -> PageState) d l st :
  quiet (Some notify) st (snd (BookProcessingService.contentStreamUpdate w notify d l st)).
Proof.
  unfold BookProcessingService.contentStreamUpdate, BookProcessingService.read_clock.
  simpl. destruct (_ || _); simpl.
  - split; [reflexivity|]. intros T F HF. simpl. apply HF.
  - now apply quiet_same_page.
Qed.

Lemma notifyContent_eq (cb : option (jsstring -> PageState -> PageState)) text st :
  BookProcessingService.notifyContent cb text st = (Return tt, notified cb text st).
Proof. destruct cb; reflexivity. Qed.

(** *** The summary of a group *)

Lemma processSummaryGroup_hit group fileName bookType language customPrompt
    useCustomOnly signal cb st c s :
  store_fault w GetItem (generateKey fileName summary (Some (tg_groupId group))) = None ->
  store st !! generateKey fileName summary (Some (tg_groupId group))
    = Some (JStr (c :: s)) ->
  BookProcessingService.processSummaryGroup w group fileName bookType language
    customPrompt useCustomOnly signal cb st
  = (Return (BookProcessingService.summaryResult group (c :: s) []),
     notified cb {| su_summary := c :: s; su_reasoning := None |} st).
Proof.
  intros Hf Hs. unfold BookProcessingService.processSummaryGroup.
  unfold bind at 1. rewrite getString_eq, Hf.
  rewrite (proj2 (text_at_Some _ _ _ _) Hs).
  destruct cb; reflexivity.
Qed.

Lemma processSummaryGroup_Return group fileName bookType language customPrompt
    useCustomOnly signal cb st r st1 :
  BookProcessingService.processSummaryGroup w group fileName bookType language
    customPrompt useCustomOnly signal cb st = (Return r, st1) ->
  let key := generateKey fileName summary (Some (tg_groupId group)) in
  exists text reasoning,
    r = BookProcessingService.summaryResult group text reasoning
    /\ nonempty text = true
    /\ store_fault w GetItem key = None
    /\ store st1 !! key = Some (JStr text)
    /\ (store st1 = store st \/ store st1 = <[key := JStr text]> (store st))
    /\ stable is_text (store st) (store st1)
    /\ absorbed_by cb st st1.
Proof.
  intros H key. unfold BookProcessingService.processSummaryGroup in H.
  apply bind_Return_inv in H as (cached & st0 & Hget & H).
  rewrite getString_eq in Hget. fold key in Hget.
  destruct (store_fault w GetItem key) eqn:Hf; [discriminate|].
  injection Hget as <- <-.
  destruct (text_at (store st) key) as [[|c s]|] eqn:Hc.
  1,3: (* miss *)
    apply bind_Return_inv in H as (title & st1' & Ht & H);
    assert (st1' = st) as ->
      by (unfold BookProcessingService.combinedTitle in Ht;
          destruct (tg_tag group) as [[|? ?]|]; destruct (tg_chapters group);
          unfold ret, throw in Ht; congruence);
    apply bind_Return_inv in H as (msg & st2 & Hai & H);
    apply bind_Return_inv in H as ([] & st3 & Hn & H);
    apply bind_Return_inv in H as ([] & st4 & Hset & H);
    injection H as <- <-;
    pose proof (summarizeChapter_Return w _ _ _ _ _ _ _ _ _ _ _ _ Hai) as Hne;
    assert (quiet cb st st2) as [Hs2 Hp2]
      by (eapply (keeps_summarizeChapter w (quiet cb) (quiet_refl cb) (quiet_trans cb)
                    (quiet_count cb)); [|exact Hai];
          intros onUpdate d l s0 E; destruct cb; [|discriminate];
          injection E as <-; apply quiet_summaryStreamUpdate);
    assert (st3 = notified cb {| su_summary := msg_content msg;
                                 su_reasoning := Some (msg_reasoning msg) |} st2) as ->
      by (destruct cb; unfold set_page, ret in Hn; injection Hn as <-; reflexivity);
    rewrite setCache_eq in Hset; fold key in Hset;
    destruct (store_fault w SetItem key); [discriminate|];
    injection Hset as <-;
    exists (msg_content msg), (msg_reasoning msg);
    (assert (store (notified cb {| su_summary := msg_content msg;
                                   su_reasoning := Some (msg_reasoning msg) |} st2)
             = store st) as Hs3 by (destruct cb; exact Hs2));
    simpl; rewrite Hs3;
    (repeat split;
     [ exact Hne
     | apply lookup_insert_eq
     | now right
     | apply stable_insert, text_at_miss; intros c' s' E; congruence
     | eapply absorbed_by_trans; [exact Hp2|];
       eapply absorbed_by_trans; [apply quiet_notified|];
       destruct cb; [apply same_page_absorbed|]; reflexivity ]).
  (* hit *)
  apply bind_Return_inv in H as ([] & st3 & Hn & H).
  injection H as <- <-.
  assert (st3 = notified cb {| su_summary := c :: s; su_reasoning := None |} st) as ->
    by (destruct cb; unfold set_page, ret in Hn; injection Hn as <-; reflexivity).
  exists (c :: s), [].
  assert (store (notified cb {| su_summary := c :: s; su_reasoning := None |} st)
          = store st) as Hs3 by (destruct cb; reflexivity).
  rewrite Hs3. repeat split.
  - now apply text_at_Some.
  - now left.
  - apply stable_refl.
  - apply quiet_notified.
Qed.

End StageFacts.

Section MoreStageFacts.
Import JsString CacheKey StoreSpec StageSpec.
Context (w : World).

(** *** The text stages over the whole book *)

Lemma generateConnections_hit fileName chapters language bookType signal cb st c s :
  store_fault w GetItem (generateKey fileName connections None) = None ->
  store st !! generateKey fileName connections None = Some (JStr (c :: s)) ->
  BookProcessingService.generateConnections w fileName chapters language bookType
    signal cb st
  = (Return (c :: s), notified cb (c :: s) st).
Proof.
  intros Hf Hs. unfold BookProcessingService.generateConnections.
  unfold bind at 1. rewrite getString_eq, Hf.
  rewrite (proj2 (text_at_Some _ _ _ _) Hs).
  unfold bind. rewrite notifyContent_eq. reflexivity.
Qed.

Lemma generateOverallSummary_hit fileName bookTitle chapters language bookType
    signal cb st c s :
  store_fault w GetItem (generateKey fileName overall_summary None) = None ->
  store st !! generateKey fileName overall_summary None = Some (JStr (c :: s)) ->
  BookProcessingService.generateOverallSummary w fileName bookTitle chapters
    language bookType signal cb st
  = (Return (c :: s), notified cb (c :: s) st).
Proof.
  intros Hf Hs. unfold BookProcessingService.generateOverallSummary.
  unfold bind at 1. rewrite getString_eq, Hf.
  rewrite (proj2 (text_at_Some _ _ _ _) Hs).
  unfold bind. rewrite notifyContent_eq. reflexivity.
Qed.

Lemma generateCharacterRelationship_hit fileName chapters language bookType
    signal st c s :
  store_fault w GetItem (generateKey fileName character_relationship None) = None ->
  store st !! generateKey fileName character_relationship None
    = Some (JStr (c :: s)) ->
  BookProcessingService.generateCharacterRelationship w fileName chapters language
    bookType signal st
  = (Return (c :: s), st).
Proof.
  intros Hf Hs. unfold BookProcessingService.generateCharacterRelationship.
  unfold bind at 1. rewrite getString_eq, Hf.
  rewrite (proj2 (text_at_Some _ _ _ _) Hs). reflexivity.
Qed.

(** The callbacks of the streamed text stages stay within [quiet]. *)
Lemma quiet_content_updates (cb : option (jsstring -> PageState -> PageState))
    onUpdate d l st :
  BookProcessingService.contentStreamUpdate w <$> cb = Some onUpdate ->
  quiet cb st (snd (onUpdate d l st)).
Proof.
  destruct cb as [notify|]; [|discriminate].
  intros [= <-]. apply quiet_contentStreamUpdate.
Qed.

(** The common end of a text stage that missed: notify, then store. *)
Lemma text_stage_stored (cb : option (jsstring -> PageState -> PageState))
    fileName t text st st2 st3 st4 :
  quiet cb st st2 ->
  nonempty text = true ->
  (forall c s, text_at (store st) (generateKey fileName t None) <> Some (c :: s)) ->
  BookProcessingService.notifyContent cb text st2 = (Return tt, st3) ->
  CacheService.setCache w fileName t (JStr text) None st3 = (Return tt, st4) ->
  store st4 !! generateKey fileName t None = Some (JStr text)
  /\ stable is_text (store st) (store st4)
  /\ absorbed_by cb st st4.
Proof.
  intros [Hs2 Hp2] Hne Hmiss Hn Hset.
  rewrite notifyContent_eq in Hn. injection Hn as <-.
  rewrite setCache_eq in Hset.
  destruct (store_fault w SetItem _); [discriminate|]. injection Hset as <-.
  assert (store (notified cb text st2) = store st) as Hs3 by (destruct cb; exact Hs2).
  simpl. rewrite Hs3. repeat split.
  - apply lookup_insert_eq.
  - now apply stable_insert, text_at_miss.
  - eapply absorbed_by_trans; [exact Hp2|].
    eapply absorbed_by_trans; [apply quiet_notified|].
    destruct cb; [apply same_page_absorbed|]; reflexivity.
Qed.

Lemma text_stage_found (cb : option (jsstring -> PageState -> PageState))
    key c s st st3 :
  text_at (store st) key = Some (c :: s) ->
  BookProcessingService.notifyContent cb (c :: s) st = (Return tt, st3) ->
  store st3 !! key = Some (JStr (c :: s))
  /\ stable is_text (store st) (store st3)
  /\ absorbed_by cb st st3.
Proof.
  intros Hc Hn. rewrite notifyContent_eq in Hn. injection Hn as <-.
  assert (store (notified cb (c :: s) st) = store st) as Hs3 by (destruct cb; reflexivity).
  rewrite Hs3. repeat split.
  - now apply text_at_Some.
  - apply stable_refl.
  - apply quiet_notified.
Qed.

Lemma generateConnections_stage_Return fileName chapters language bookType signal cb
    st text st1 :
  BookProcessingService.generateConnections w fileName chapters language bookType
    signal cb st = (Return text, st1) ->
  let key := generateKey fileName connections None in
  nonempty text = true
  /\ store_fault w GetItem key = None
  /\ store st1 !! key = Some (JStr text)
  /\ stable is_text (store st) (store st1)
  /\ absorbed_by cb st st1.
Proof.
  intros H key. unfold BookProcessingService.generateConnections in H.
  apply bind_Return_inv in H as (cached & st0 & Hget & H).
  rewrite getString_eq in Hget. fold key in Hget.
  destruct (store_fault w GetItem key) eqn:Hf; [discriminate|].
  injection Hget as <- <-.
  destruct (text_at (store st) key) as [[|c s]|] eqn:Hc.
  1,3: apply bind_Return_inv in H as (x & st2 & Hai & H);
       apply bind_Return_inv in H as ([] & st3 & Hn & H);
       apply bind_Return_inv in H as ([] & st4 & Hset & H);
       injection H as <- <-;
       pose proof (analyzeConnections_Return w _ _ _ _ _ _ _ _ _ Hai) as Hne;
       assert (quiet cb st st2) as Hq
         by (eapply (keeps_analyzeConnections w (quiet cb) (quiet_refl cb)
                       (quiet_trans cb) (quiet_count cb)); [|exact Hai];
             intros onUpdate d l s0 E; now apply quiet_content_updates);
       (split; [exact Hne | split; [reflexivity|]]);
       eapply text_stage_stored; eauto; unfold key in Hc; congruence.
  apply bind_Return_inv in H as ([] & st3 & Hn & H). injection H as <- <-.
  split; [reflexivity | split; [reflexivity|]].
  eapply text_stage_found; eauto.
Qed.

Lemma generateOverallSummary_stage_Return fileName bookTitle chapters language bookType
    signal cb st text st1 :
  BookProcessingService.generateOverallSummary w fileName bookTitle chapters
    language bookType signal cb st = (Return text, st1) ->
  let key := generateKey fileName overall_summary None in
  nonempty text = true
  /\ store_fault w GetItem key = None
  /\ store st1 !! key = Some (JStr text)
  /\ stable is_text (store st) (store st1)
  /\ absorbed_by cb st st1.
Proof.
  intros H key. unfold BookProcessingService.generateOverallSummary in H.
  apply bind_Return_inv in H as (cached & st0 & Hget & H).
  rewrite getString_eq in Hget. fold key in Hget.
  destruct (store_fault w GetItem key) eqn:Hf; [discriminate|].
  injection Hget as <- <-.
  destruct (text_at (store st) key) as [[|c s]|] eqn:Hc.
  1,3: apply bind_Return_inv in H as (x & st2 & Hai & H);
       apply bind_Return_inv in H as ([] & st3 & Hn & H);
       apply bind_Return_inv in H as ([] & st4 & Hset & H);
       injection H as <- <-;
       pose proof (generateOverallSummary_Return w _ _ _ _ _ _ _ _ _ _ Hai) as Hne;
       assert (quiet cb st st2) as Hq
         by (eapply (keeps_generateOverallSummary w (quiet cb) (quiet_refl cb)
                       (quiet_trans cb) (quiet_count cb)); [|exact Hai];
             intros onUpdate d l s0 E; now apply quiet_content_updates);
       (split; [exact Hne | split; [reflexivity|]]);
       eapply text_stage_stored; eauto; unfold key in Hc; congruence.
  apply bind_Return_inv in H as ([] & st3 & Hn & H). injection H as <- <-.
  split; [reflexivity | split; [reflexivity|]].
  eapply text_stage_found; eauto.
Qed.

Lemma generateCharacterRelationship_stage_Return fileName chapters language
    bookType signal st text st1 :
  BookProcessingService.generateCharacterRelationship w fileName chapters language
    bookType signal st = (Return text, st1) ->
  let key := generateKey fileName character_relationship None in
  nonempty text = true
  /\ store_fault w GetItem key = None
  /\ store st1 !! key = Some (JStr text)
  /\ stable is_text (store st) (store st1)
  /\ page st1 = page st.
Proof.
  intros H key. unfold BookProcessingService.generateCharacterRelationship in H.
  apply bind_Return_inv in H as (cached & st0 & Hget & H).
  rewrite getString_eq in Hget. fold key in Hget.
  destruct (store_fault w GetItem key) eqn:Hf; [discriminate|].
  injection Hget as <- <-.
  destruct (text_at (store st) key) as [[|c s]|] eqn:Hc.
  1,3: apply bind_Return_inv in H as (x & st2 & Hai & H);
       apply bind_Return_inv in H as ([] & st4 & Hset & H);
       injection H as <- <-;
       pose proof (generateCharacterRelationship_Return w _ _ _ _ _ _ _ Hai) as Hne;
       assert (quiet (@None (unit -> PageState -> PageState)) st st2) as Hq
         by (eapply (keeps_generateCharacterRelationship w (quiet None) (quiet_refl None)
                       (quiet_trans None) (quiet_count None)); exact Hai);
       (split; [exact Hne | split; [reflexivity|]]);
       destruct (text_stage_stored (@None (jsstring -> PageState -> PageState))
                   fileName character_relationship x st st2 st2 st4) as (A & B & C);
       [ exact Hq | exact Hne | unfold key in Hc; congruence | reflexivity
       | exact Hset | auto ].
  injection H as <- <-.
  split; [reflexivity | split; [reflexivity|]]. repeat split.
  - now apply text_at_Some.
  - apply stable_refl.
Qed.

End MoreStageFacts.

Section MindMapStageFacts.
Import JsString CacheKey StoreSpec StageSpec.
Context (w : World).

Lemma has_root_is_mindMap v : has_root v = true -> is_mindMap v = true.
Proof.
  unfold has_root, is_mindMap, Js.has.
  destruct v; simpl; try discriminate.
  destruct (Js.assoc _ _); [reflexivity | discriminate].
Qed.

Lemma lacks_nodeData_root v st :
  has_root v = true ->
  BookProcessingService.lacks_nodeData v st = (Return false, st).
Proof.
  unfold has_root, BookProcessingService.lacks_nodeData.
  destruct v; simpl; try discriminate.
  destruct (Js.assoc _ _); [|discriminate]. now intros ->.
Qed.

Lemma lacks_nodeData_Return v st st' :
  BookProcessingService.lacks_nodeData v st = (Return false, st') ->
  has_root v = true /\ st' = st.
Proof.
  unfold has_root, BookProcessingService.lacks_nodeData.
  destruct v; simpl; try discriminate; unfold ret; intros [= H <-]; split; auto;
    try discriminate.
  destruct (Js.assoc _ _); [|discriminate]. now apply negb_false_iff.
Qed.

Lemma processMindMapGroup_hit group fileName language customPrompt signal st v :
  store_fault w GetItem (generateKey fileName mindmap (Some (tg_groupId group))) = None ->
  store st !! generateKey fileName mindmap (Some (tg_groupId group)) = Some v ->
  has_root v = true ->
  BookProcessingService.processMindMapGroup w group fileName language customPrompt
    signal st
  = (Return (BookProcessingService.mindMapResult group v), st).
Proof.
  intros Hf Hs Hr. unfold BookProcessingService.processMindMapGroup.
  unfold bind at 1. rewrite getMindMap_eq, Hf.
  rewrite (proj2 (mindMap_at_Some _ _ _) (conj Hs (has_root_is_mindMap _ Hr))).
  unfold bind, ret. rewrite (lacks_nodeData_root _ _ Hr). reflexivity.
Qed.

Lemma processMindMapGroup_Return group fileName language customPrompt signal
    st r st1 :
  BookProcessingService.processMindMapGroup w group fileName language customPrompt
    signal st = (Return r, st1) ->
  let key := generateKey fileName mindmap (Some (tg_groupId group)) in
  exists v,
    r = BookProcessingService.mindMapResult group v
    /\ has_root v = true
    /\ store_fault w GetItem key = None
    /\ store st1 !! key = Some v
    /\ stable is_mindMap (store st) (store st1)
    /\ page st1 = page st.
Proof.
  intros H key. unfold BookProcessingService.processMindMapGroup in H.
  apply bind_Return_inv in H as (cached & st0 & Hget & H).
  rewrite getMindMap_eq in Hget. fold key in Hget.
  destruct (store_fault w GetItem key) eqn:Hf; [discriminate|].
  injection Hget as <- <-.
  apply bind_Return_inv in H as (v & st2 & Hv & H).
  apply bind_Return_inv in H as (missing & st3 & Hm & H).
  destruct missing; [discriminate|]. injection H as <- <-.
  apply lacks_nodeData_Return in Hm as [Hr ->].
  exists v. split; [reflexivity | split; [exact Hr | split; [reflexivity|]]].
  destruct (mindMap_at (store st) key) as [v0|] eqn:Hc.
  - injection Hv as <- <-. apply mindMap_at_Some in Hc as [Hc _].
    repeat split; [exact Hc | apply stable_refl].
  - apply bind_Return_inv in Hv as (v' & st4 & Hai & Hv).
    apply bind_Return_inv in Hv as ([] & st5 & Hset & Hv).
    injection Hv as <- <-.
    assert (quiet (@None (unit -> PageState -> PageState)) st st4) as [Hs Hp]
      by (eapply (keeps_generateChapterMindMap w (quiet None) (quiet_refl None)
                    (quiet_trans None) (quiet_count None)); exact Hai).
    rewrite setCache_eq in Hset. fold key in Hset.
    destruct (store_fault w SetItem key); [discriminate|]. injection Hset as <-.
    simpl. rewrite Hs. repeat split.
    + apply lookup_insert_eq.
    + apply stable_insert. now apply mindMap_at_miss.
    + exact Hp.
Qed.

Lemma mergeMindMaps_hit fileName bookTitle chapters st v :
  store_fault w GetItem (generateKey fileName merged_mindmap None) = None ->
  store st !! generateKey fileName merged_mindmap None = Some v ->
  is_mindMap v = true ->
  BookProcessingService.mergeMindMaps w fileName bookTitle chapters st
  = (Return v, st).
Proof.
  intros Hf Hs Hv. unfold BookProcessingService.mergeMindMaps.
  unfold bind at 1. rewrite getMindMap_eq, Hf.
  rewrite (proj2 (mindMap_at_Some _ _ _) (conj Hs Hv)). reflexivity.
Qed.

Lemma mergedMindMap_is_mindMap bookTitle chapters :
  is_mindMap (BookProcessingService.mergedMindMap bookTitle chapters) = true.
Proof. reflexivity. Qed.

Lemma mergeMindMaps_Return fileName bookTitle chapters st v st1 :
  BookProcessingService.mergeMindMaps w fileName bookTitle chapters st
  = (Return v, st1) ->
  let key := generateKey fileName merged_mindmap None in
  is_mindMap v = true
  /\ store_fault w GetItem key = None
  /\ store st1 !! key = Some v
  /\ stable is_mindMap (store st) (store st1)
  /\ page st1 = page st
  /\ requests st1 = requests st.
Proof.
  intros H key. unfold BookProcessingService.mergeMindMaps in H.
  apply bind_Return_inv in H as (cached & st0 & Hget & H).
  rewrite getMindMap_eq in Hget. fold key in Hget.
  destruct (store_fault w GetItem key) eqn:Hf; [discriminate|].
  injection Hget as <- <-.
  destruct (mindMap_at (store st) key) as [v0|] eqn:Hc.
  - injection H as <- <-. apply mindMap_at_Some in Hc as [Hc Hv].
    repeat split; [exact Hv | exact Hc | apply stable_refl].
  - apply bind_Return_inv in H as ([] & st5 & Hset & H). injection H as <- <-.
    rewrite setCache_eq in Hset. fold key in Hset.
    destruct (store_fault w SetItem key); [discriminate|]. injection Hset as <-.
    simpl. repeat split.
    + apply lookup_insert_eq.
    + apply stable_insert. now apply mindMap_at_miss.
Qed.

Lemma generateCombinedMindMap_hit fileName bookTitle chapters customPrompt signal
    st v :
  store_fault w GetItem (generateKey fileName combined_mindmap None) = None ->
  store st !! generateKey fileName combined_mindmap None = Some v ->
  is_mindMap v = true ->
  BookProcessingService.generateCombinedMindMap w fileName bookTitle chapters
    customPrompt signal st
  = (Return v, st).
Proof.
  intros Hf Hs Hv. unfold BookProcessingService.generateCombinedMindMap.
  unfold bind at 1. rewrite getMindMap_eq, Hf.
  rewrite (proj2 (mindMap_at_Some _ _ _) (conj Hs Hv)). reflexivity.
Qed.

Lemma generateCombinedMindMap_stage_Return fileName bookTitle chapters customPrompt
    signal st v st1 :
  BookProcessingService.generateCombinedMindMap w fileName bookTitle chapters
    customPrompt signal st = (Return v, st1) ->
  let key := generateKey fileName combined_mindmap None in
  store_fault w GetItem key = None
  /\ store st1 !! key = Some v
  /\ stable is_mindMap (store st) (store st1)
  /\ page st1 = page st.
Proof.
  intros H key. unfold BookProcessingService.generateCombinedMindMap in H.
  apply bind_Return_inv in H as (cached & st0 & Hget & H).
  rewrite getMindMap_eq in Hget. fold key in Hget.
  destruct (store_fault w GetItem key) eqn:Hf; [discriminate|].
  injection Hget as <- <-.
  destruct (mindMap_at (store st) key) as [v0|] eqn:Hc.
  - injection H as <- <-. apply mindMap_at_Some in Hc as [Hc Hv].
    repeat split; [exact Hc | apply stable_refl].
  - apply bind_Return_inv in H as (v' & st4 & Hai & H).
    apply bind_Return_inv in H as ([] & st5 & Hset & H). injection H as <- <-.
    assert (quiet (@None (unit -> PageState -> PageState)) st st4) as [Hs Hp]
      by (eapply (keeps_generateCombinedMindMap w (quiet None) (quiet_refl None)
                    (quiet_trans None) (quiet_count None)); exact Hai).
    rewrite setCache_eq in Hset. fold key in Hset.
    destruct (store_fault w SetItem key); [discriminate|]. injection Hset as <-.
    simpl. rewrite Hs. repeat split.
    + apply lookup_insert_eq.
    + apply stable_insert. now apply mindMap_at_miss.
    + exact Hp.
Qed.

End MindMapStageFacts.

(** ** Cache hits *)

Section SummaryStageClaims.
Import JsString CacheKey StoreSpec StageSpec.
Context (w : World).

(** The summary stage after a miss, as one sequence. *)
Lemma processSummaryGroup_miss group fileName bookType language customPrompt
    useCustomOnly signal cb st :
  store_fault w GetItem (generateKey fileName summary (Some (tg_groupId group))) = None ->
  (forall c s, store st !! generateKey fileName summary (Some (tg_groupId group))
               <> Some (JStr (c :: s))) ->
  BookProcessingService.processSummaryGroup w group fileName bookType language
    customPrompt useCustomOnly signal cb st
  = (let* combinedTitle := BookProcessingService.combinedTitle group in
     let* result :=
       AIService.summarizeChapter w combinedTitle
         (BookProcessingService.combinedContent group) bookType language
         customPrompt useCustomOnly (Some signal)
         (match cb with
          | Some _ => Some (BookProcessingService.summaryStreamUpdate w cb)
          | None => None
          end)
         {| currentSummary := []; currentReasoning := []; lastUpdateTime := 0 |} in
     let* _ :=
       match cb with
       | Some notify =>
           set_page (notify {| su_summary := msg_content result;
                               su_reasoning := Some (msg_reasoning result) |})
       | None => ret tt
       end in
     let* _ :=
       CacheService.setCache w fileName summary (JStr (msg_content result))
         (Some (tg_groupId group)) in
     ret (BookProcessingService.summaryResult group (msg_content result)
            (msg_reasoning result))) st.
Proof.
  intros Hf Hmiss. unfold BookProcessingService.processSummaryGroup.
  unfold bind at 1. rewrite getString_eq, Hf.
  destruct (text_at (store st) _) as [[|c s]|] eqn:Hc; try reflexivity.
  apply text_at_Some in Hc. now apply Hmiss in Hc.
Qed.

Lemma combinedTitle_Return group st :
  tg_chapters group <> [] ->
  exists t, BookProcessingService.combinedTitle group st = (Return t, st).
Proof.
  intros Hne. unfold BookProcessingService.combinedTitle.
  destruct (tg_tag group) as [[|c t]|]; destruct (tg_chapters group);
    try congruence; eexists; reflexivity.
Qed.

Lemma combinedTitle_state group st o st' :
  BookProcessingService.combinedTitle group st = (o, st') -> st' = st.
Proof.
  unfold BookProcessingService.combinedTitle.
  destruct (tg_tag group) as [[|c t]|]; destruct (tg_chapters group);
    unfold ret, throw; congruence.
Qed.

(** A signal that has fired stops the call before the request: the service
    throws the [AbortError], and [summarizeChapter] throws a new [Error]
    with its message. *)
Lemma summarizeChapter_aborted {L} title content bookType language customPrompt
    useCustomOnly signal
    (onStreamUpdate : option (Delta -> L -> State -> L * State)) locals st :
  aborted signal (requests st) = true ->
  AIService.summarizeChapter w title content bookType language customPrompt
    useCustomOnly (Some signal) onStreamUpdate locals st
  = (Throw (Error (js "Request was aborted")), st).
Proof.
  intros Ha. unfold AIService.summarizeChapter.
  apply (rethrow_Throw [] _ st AbortError st).
  apply bind_Throw.
  destruct onStreamUpdate;
    unfold AIService.generateContentStream, AIService.generateContent,
      AIService.is_aborted, AIService.requests_sent, bind, ret;
    rewrite Ha; reflexivity.
Qed.

End SummaryStageClaims.

(** C5. When a stage finds a non-empty text under its key, it sends nothing
    to the provider and calls the stream callback, if one was given, once,
    with the whole cached text: the state it leaves is the one it found,
    with the callback applied once to the page. *)
Theorem cache_hit_replays_without_generation (w : World) (st : State)
    (fileName : jsstring) (c : Z) (s : jsstring) :
  let text := c :: s in
  (forall group bookType language customPrompt useCustomOnly signal onStreamUpdate,
     store_fault w GetItem
       (CacheKey.generateKey fileName summary (Some (tg_groupId group))) = None ->
     store st !! CacheKey.generateKey fileName summary (Some (tg_groupId group))
       = Some (JStr text) ->
     BookProcessingService.processSummaryGroup w group fileName bookType language
       customPrompt useCustomOnly signal onStreamUpdate st
     = (Return (BookProcessingService.summaryResult group text []),
        StageSpec.notified onStreamUpdate
          {| su_summary := text; su_reasoning := None |} st))
  /\ (forall chapters language bookType signal onStreamUpdate,
        store_fault w GetItem (CacheKey.generateKey fileName connections None) = None ->
        store st !! CacheKey.generateKey fileName connections None = Some (JStr text) ->
        BookProcessingService.generateConnections w fileName chapters language
          bookType signal onStreamUpdate st
        = (Return text, StageSpec.notified onStreamUpdate text st))
  /\ (forall bookTitle chapters language bookType signal onStreamUpdate,
        store_fault w GetItem (CacheKey.generateKey fileName overall_summary None) = None ->
        store st !! CacheKey.generateKey fileName overall_summary None
          = Some (JStr text) ->
        BookProcessingService.generateOverallSummary w fileName bookTitle chapters
          language bookType signal onStreamUpdate st
        = (Return text, StageSpec.notified onStreamUpdate text st))
  /\ (forall X (onStreamUpdate : option (X -> PageState -> PageState)) x,
        requests (StageSpec.notified onStreamUpdate x st) = requests st
        /\ store (StageSpec.notified onStreamUpdate x st) = store st
        /\ page (StageSpec.notified onStreamUpdate x st)
           = match onStreamUpdate with
             | Some notify => notify x (page st)
             | None => page st
             end).
Proof.
  intros text. repeat split.
  - intros. now apply processSummaryGroup_hit.
  - intros. now apply generateConnections_hit.
  - intros. now apply generateOverallSummary_hit.
  - destruct onStreamUpdate; reflexivity.
  - destruct onStreamUpdate; reflexivity.
  - destruct onStreamUpdate; reflexivity.
Qed.

(** A cached summary is replayed to the page without a request. *)
Lemma cache_hit_replays_witness :
  BookProcessingService.processSummaryGroup
    (StoreSpec.constant_world (js "S") (js "R") None) Sample.intro Sample.fileName
    non_fiction (js "en") [] false StoreSpec.never_aborted
    (Some (SummaryPage.showGroupUpdate Sample.intro))
    (StoreSpec.with_store {[ Sample.summaryKey := JStr (js "Old") ]} StoreSpec.fresh)
  = (Return (BookProcessingService.summaryResult Sample.intro (js "Old") []),
     StageSpec.notified (Some (SummaryPage.showGroupUpdate Sample.intro))
       {| su_summary := js "Old"; su_reasoning := None |}
       (StoreSpec.with_store {[ Sample.summaryKey := JStr (js "Old") ]} StoreSpec.fresh)).
Proof.
  apply (proj1 (cache_hit_replays_without_generation
                  (StoreSpec.constant_world (js "S") (js "R") None)
                  (StoreSpec.with_store {[ Sample.summaryKey := JStr (js "Old") ]}
                     StoreSpec.fresh)
                  Sample.fileName 79 (js "ld"))).
  - reflexivity.
  - vm_compute. reflexivity.
Defined.

(** C9. For a group whose summary is in the cache, [processSummaryGroup]
    returns the group and every member chapter with the cached summary and
    with no reasoning, and the stream callback receives the summary alone;
    and a run that returned has left under the group's key nothing but the
    summary text it returned, so the reasoning it may have produced is not
    in the cache. *)
Theorem cache_hit_returns_no_reasoning (w : World) (group : TempChapterGroup)
    (fileName : jsstring) (bookType : BookType)
    (language customPrompt : jsstring) (useCustomOnly : bool) :
  let key := CacheKey.generateKey fileName summary (Some (tg_groupId group)) in
  (forall signal onStreamUpdate st c s,
     store_fault w GetItem key = None ->
     store st !! key = Some (JStr (c :: s)) ->
     exists r,
       BookProcessingService.processSummaryGroup w group fileName bookType language
         customPrompt useCustomOnly signal onStreamUpdate st
       = (Return r,
          StageSpec.notified onStreamUpdate
            {| su_summary := c :: s; su_reasoning := None |} st)
       /\ g_summary (gr_group r) = Some (c :: s)
       /\ g_reasoning (gr_group r) = None
       /\ map c_source (gr_chapters r) = tg_chapters group
       /\ Forall (fun chapter => c_summary chapter = Some (c :: s)
                                 /\ c_reasoning chapter = None) (gr_chapters r))
  /\ (forall signal onStreamUpdate st r st1,
        BookProcessingService.processSummaryGroup w group fileName bookType language
          customPrompt useCustomOnly signal onStreamUpdate st = (Return r, st1) ->
        exists text,
          g_summary (gr_group r) = Some text
          /\ store st1 !! key = Some (JStr text)
          /\ (store st1 = store st \/ store st1 = <[key := JStr text]> (store st))).
Proof.
  intros key. split.
  - intros signal cb st c s Hf Hs.
    exists (BookProcessingService.summaryResult group (c :: s) []).
    split; [now apply processSummaryGroup_hit|].
    repeat split.
    + simpl. rewrite map_map. apply map_id.
    + simpl. induction (tg_chapters group); constructor; auto.
  - intros signal cb st r st1 H.
    apply processSummaryGroup_Return in H
      as (text & reasoning & -> & _ & _ & Hs & Hw & _).
    exists text. auto.
Qed.

(** The cached summary of a group comes back without reasoning. *)
Lemma cached_summary_has_no_reasoning_witness :
  exists r,
    BookProcessingService.processSummaryGroup
      (StoreSpec.constant_world (js "S") (js "R") None) Sample.intro Sample.fileName
      non_fiction (js "en") [] false StoreSpec.never_aborted None
      (StoreSpec.with_store {[ Sample.summaryKey := JStr (js "Old") ]} StoreSpec.fresh)
    = (Return r,
       StoreSpec.with_store {[ Sample.summaryKey := JStr (js "Old") ]} StoreSpec.fresh)
    /\ g_reasoning (gr_group r) = None.
Proof.
  destruct (proj1 (cache_hit_returns_no_reasoning
                     (StoreSpec.constant_world (js "S") (js "R") None) Sample.intro
                     Sample.fileName non_fiction (js "en") [] false)
              StoreSpec.never_aborted None
              (StoreSpec.with_store {[ Sample.summaryKey := JStr (js "Old") ]}
                 StoreSpec.fresh)
              79 (js "ld"))
    as (r & Hr & _ & Hn & _).
  - reflexivity.
  - vm_compute. reflexivity.
  - exists r. split; [exact Hr | exact Hn].
Defined.

(** The first run returns the reasoning [R]; the second, served from the
    cache, returns none. *)
Example reasoning_lost_on_second_run :
  let w := StoreSpec.constant_world (js "S") (js "R") None in
  let run := BookProcessingService.processSummaryGroup w Sample.intro
               Sample.fileName non_fiction (js "en") [] false
               StoreSpec.never_aborted None in
  fst (run StoreSpec.fresh)
  = Return (BookProcessingService.summaryResult Sample.intro (js "S") (js "R"))
  /\ fst (run (snd (run StoreSpec.fresh)))
     = Return (BookProcessingService.summaryResult Sample.intro (js "S") []).
Proof. intros; conjuncts; by_evaluation. Qed.

(** ** Cancellation *)

(** C3, on the code. With a signal that has fired, a stage that missed the
    cache sends no request and writes nothing, so a retry starts from
    scratch; but what it raises is a plain [Error] carrying the message of
    the [AbortError], not the [AbortError] that [handleStartProcessing]
    looks for. *)
Theorem aborted_stage_raises_plain_error (w : World) (group : TempChapterGroup)
    (fileName : jsstring) (bookType : BookType)
    (language customPrompt : jsstring) (useCustomOnly : bool)
    (signal : AbortSignal)
    (onStreamUpdate : option (SummaryUpdate -> PageState -> PageState))
    (st : State) :
  let key := CacheKey.generateKey fileName summary (Some (tg_groupId group)) in
  store_fault w GetItem key = None ->
  (forall c s, store st !! key <> Some (JStr (c :: s))) ->
  tg_chapters group <> [] ->
  aborted signal (requests st) = true ->
  BookProcessingService.processSummaryGroup w group fileName bookType language
    customPrompt useCustomOnly signal onStreamUpdate st
  = (Throw {| err_name := js "Error"; err_message := js "Request was aborted" |}, st).
Proof.
  intros key Hf Hmiss Hne Ha.
  rewrite processSummaryGroup_miss by assumption.
  destruct (combinedTitle_Return group st Hne) as [t Ht].
  rewrite (bind_Return _ _ _ _ _ Ht).
  apply bind_Throw. now apply summarizeChapter_aborted.
Qed.

(** The stage of an uncached group under a fired signal. *)
Lemma aborted_stage_witness :
  BookProcessingService.processSummaryGroup
    (StoreSpec.constant_world (js "S") (js "R") None) Sample.intro Sample.fileName
    non_fiction (js "en") [] false StoreSpec.already_aborted
    (Some (SummaryPage.showGroupUpdate Sample.intro)) StoreSpec.fresh
  = (Throw {| err_name := js "Error"; err_message := js "Request was aborted" |},
     StoreSpec.fresh).
Proof.
  apply (aborted_stage_raises_plain_error
           (StoreSpec.constant_world (js "S") (js "R") None) Sample.intro
           Sample.fileName non_fiction (js "en") [] false StoreSpec.already_aborted
           (Some (SummaryPage.showGroupUpdate Sample.intro)) StoreSpec.fresh).
  - reflexivity.
  - intros c s. vm_compute. discriminate.
  - discriminate.
  - reflexivity.
Defined.

(** An abort while the answer streams in ends the same way: the
    [AbortError] passes [generateContentStream] and is replaced in
    [summarizeChapter]; the store is as before. *)
Lemma abort_during_stream_raises_plain_error (w : World) (group : TempChapterGroup)
    (fileName : jsstring) (bookType : BookType)
    (language customPrompt : jsstring) (useCustomOnly : bool)
    (signal : AbortSignal) (notify : SummaryUpdate -> PageState -> PageState)
    (st : State) (deltas : list Delta) :
  let key := CacheKey.generateKey fileName summary (Some (tg_groupId group)) in
  store_fault w GetItem key = None ->
  (forall c s, store st !! key <> Some (JStr (c :: s))) ->
  tg_chapters group <> [] ->
  aborted signal (requests st) = false ->
  (forall request, stream w (requests st) request = SBody deltas (Some AbortError)) ->
  exists st',
    BookProcessingService.processSummaryGroup w group fileName bookType language
      customPrompt useCustomOnly signal (Some notify) st
    = (Throw {| err_name := js "Error"; err_message := js "Request was aborted" |}, st')
    /\ store st' = store st.
Proof.
  intros key Hf Hmiss Hne Ha Hstream.
  rewrite processSummaryGroup_miss by assumption.
  destruct (combinedTitle_Return group st Hne) as [t Ht].
  rewrite (bind_Return _ _ _ _ _ Ht).
  unfold AIService.summarizeChapter.
  match goal with
  | |- context [AIService.generateContentStream w ?p ?u ?l ?g ?s] =>
      destruct (AIService.generateContentStream w p u l g s st) as [o st'] eqn:E
  end.
  assert (o = Throw AbortError /\ store st' = store st) as [-> Hs].
  { unfold AIService.generateContentStream, AIService.is_aborted,
      AIService.requests_sent, bind at 1, bind at 1, ret in E.
    simpl in E. rewrite Ha in E.
    unfold try_catch, bind, AIService.count_request in E. simpl in E.
    rewrite Hstream in E.
    match type of E with
    | context [AIService.deliver ?u ?d ?f ?l ?s] =>
        pose proof (deliver_within StageSpec.same_store same_store_refl
                      same_store_trans u d f l s
                      (fun d0 l0 s0 =>
                         proj1 (quiet_summaryStreamUpdate w (Some notify) d0 l0 s0)))
          as Hd;
        destruct (AIService.deliver u d f l s) as [full st2]
    end.
    simpl in E. injection E as <- <-. split; [reflexivity | exact Hd]. }
  exists st'. split; [|exact Hs].
  apply bind_Throw.
  apply (rethrow_Throw [] _ st AbortError st').
  apply bind_Throw. exact E.
Qed.

(** The page shows a cancelled run as a failed one. *)
Example cancelled_run_is_reported_as_failure :
  fst (SummaryPage.handleStartProcessing
         (StoreSpec.constant_world (js "S") (js "R") None)
         (Sample.context ModeSummary fiction) StoreSpec.already_aborted
         Sample.both ∅ [] false StoreSpec.fresh)
  = Return (Failed (js "Request was aborted")).
Proof. vm_compute. reflexivity. Qed.

(** ** Failures of the persistence layer *)

(** C7 (as amended). A failure of the persistence layer fails the stage: a
    read that fails makes the stage throw the store's error at once, with
    no request sent; after a miss, a write that fails lets no value come
    back, and the store is as before; a removal that fails is the one
    failure that is swallowed, and is reported as [false]. *)
Theorem store_failure_fails_the_stage (w : World) (group : TempChapterGroup)
    (fileName : jsstring) (bookType : BookType)
    (language customPrompt : jsstring) (useCustomOnly : bool)
    (signal : AbortSignal)
    (onStreamUpdate : option (SummaryUpdate -> PageState -> PageState))
    (st : State) (e : JsError) :
  let key := CacheKey.generateKey fileName summary (Some (tg_groupId group)) in
  (store_fault w GetItem key = Some e ->
   BookProcessingService.processSummaryGroup w group fileName bookType language
     customPrompt useCustomOnly signal onStreamUpdate st = (Throw e, st))
  /\ (store_fault w GetItem key = None ->
      (forall c s, store st !! key <> Some (JStr (c :: s))) ->
      store_fault w SetItem key = Some e ->
      forall o st1,
        BookProcessingService.processSummaryGroup w group fileName bookType language
          customPrompt useCustomOnly signal onStreamUpdate st = (o, st1) ->
        (exists e', o = Throw e') /\ store st1 = store st)
  /\ (store_fault w RemoveItem key = Some e ->
      CacheService.deleteCacheByKey w key st = (Return false, st)).
Proof.
  intros key. repeat split.
  - intros Hf. unfold BookProcessingService.processSummaryGroup.
    apply bind_Throw. rewrite getString_eq. fold key. now rewrite Hf.
  - revert H2. rewrite processSummaryGroup_miss by assumption. intros H2.
    apply bind_inv in H2 as [(t & st2 & Ht & H2)|(e' & _ & ->)]; [|eauto].
    apply bind_inv in H2 as [(msg & st3 & Hai & H2)|(e' & _ & ->)]; [|eauto].
    apply bind_inv in H2 as [(u & st4 & Hn & H2)|(e' & _ & ->)]; [|eauto].
    apply bind_inv in H2 as [(u' & st5 & Hset & H2)|(e' & _ & ->)]; [|eauto].
    rewrite setCache_eq in Hset. fold key in Hset. rewrite H1 in Hset. discriminate.
  - revert H2. rewrite processSummaryGroup_miss by assumption. intros H2.
    assert (forall st2 st3,
              StageSpec.quiet onStreamUpdate st2 st3 -> store st3 = store st2) as Hq
      by (intros ? ? [Hs _]; exact Hs).
    apply bind_inv in H2 as [(t & st2 & Ht & H2)|(e' & Ht & _)];
      [apply combinedTitle_state in Ht as ->
      |apply combinedTitle_state in Ht as ->; reflexivity].
    assert (forall o' st3,
              AIService.summarizeChapter w t
                (BookProcessingService.combinedContent group) bookType language
                customPrompt useCustomOnly (Some signal)
                (match onStreamUpdate with
                 | Some _ =>
                     Some (BookProcessingService.summaryStreamUpdate w onStreamUpdate)
                 | None => None
                 end)
                {| currentSummary := []; currentReasoning := []; lastUpdateTime := 0 |}
                st = (o', st3) ->
              store st3 = store st) as Hai.
    { intros o' st3 E. apply Hq.
      eapply (keeps_summarizeChapter w (StageSpec.quiet onStreamUpdate)
                (quiet_refl onStreamUpdate) (quiet_trans onStreamUpdate)
                (quiet_count onStreamUpdate)); [|exact E].
      intros onUpdate d l s0 E'. destruct onStreamUpdate; [|discriminate].
      injection E' as <-. apply quiet_summaryStreamUpdate. }
    apply bind_inv in H2 as [(msg & st3 & E & H2)|(e' & E & _)];
      [|exact (Hai _ _ E)].
    apply Hai in E.
    apply bind_inv in H2 as [(u & st4 & Hn & H2)|(e' & Hn & _)].
    + assert (store st4 = store st3) as E4
        by (destruct onStreamUpdate; unfold set_page, ret in Hn;
            injection Hn as _ <-; reflexivity).
      apply bind_inv in H2 as [(u' & st5 & Hset & H2)|(e' & Hset & _)];
        rewrite setCache_eq in Hset; fold key in Hset; rewrite H1 in Hset;
        [discriminate|].
      injection Hset as _ <-. congruence.
    + destruct onStreamUpdate; unfold set_page, ret in Hn; discriminate.
  - intros Hf. rewrite deleteCacheByKey_eq, Hf. reflexivity.
Qed.

(** A store whose reads fail: the stage fails without asking the provider. *)
Lemma store_failure_witness :
  BookProcessingService.processSummaryGroup
    (StoreSpec.with_faults (fun op _ => bool_decide (op = GetItem))
       (Error (js "QuotaExceededError"))
       (StoreSpec.constant_world (js "S") (js "R") None))
    Sample.intro Sample.fileName non_fiction (js "en") [] false
    StoreSpec.never_aborted None StoreSpec.fresh
  = (Throw (Error (js "QuotaExceededError")), StoreSpec.fresh).
Proof.
  apply (proj1 (store_failure_fails_the_stage
                  (StoreSpec.with_faults (fun op _ => bool_decide (op = GetItem))
                     (Error (js "QuotaExceededError"))
                     (StoreSpec.constant_world (js "S") (js "R") None))
                  Sample.intro Sample.fileName non_fiction (js "en") [] false
                  StoreSpec.never_aborted None StoreSpec.fresh
                  (Error (js "QuotaExceededError")))).
  reflexivity.
Defined.

(** C7 fails as stated. With a store that cannot be read, the stage throws
    and sends nothing, though the provider would have answered; with a store
    that cannot be written, the provider is asked and its answer is lost to
    the caller. *)
Lemma store_failure_is_not_a_cache_miss :
  let w := StoreSpec.constant_world (js "S") (js "R") None in
  let e := Error (js "QuotaExceededError") in
  let run w :=
    BookProcessingService.processSummaryGroup w Sample.intro Sample.fileName
      non_fiction (js "en") [] false StoreSpec.never_aborted None StoreSpec.fresh in
  fst (run w)
  = Return (BookProcessingService.summaryResult Sample.intro (js "S") (js "R"))
  /\ run (StoreSpec.with_faults (fun op _ => bool_decide (op = GetItem)) e w)
     = (Throw e, StoreSpec.fresh)
  /\ fst (run (StoreSpec.with_faults (fun op _ => bool_decide (op = SetItem)) e w))
     = Throw e
  /\ requests (snd (run (StoreSpec.with_faults
                          (fun op _ => bool_decide (op = SetItem)) e w))) = 1%nat.
Proof. intros; conjuncts; by_evaluation. Qed.

(** ** Validation and the merge *)

(** C4, on the code. [processMindMapGroup] stores the provider's answer
    before it looks for the root: an answer that parses to something
    without a truthy [nodeData] is raised as a generation failure, but the
    stage's key has been written with it. *)
Theorem mindmap_without_root_is_stored (w : World) (group : TempChapterGroup)
    (fileName language customPrompt : jsstring) (signal : AbortSignal)
    (st : State) (content reasoning : jsstring) (v : JsValue) :
  let key := CacheKey.generateKey fileName mindmap (Some (tg_groupId group)) in
  store_fault w GetItem key = None ->
  store_fault w SetItem key = None ->
  StageSpec.mindMap_at (store st) key = None ->
  aborted signal (requests st) = false ->
  (forall request, complete w (requests st) request = Completed content reasoning) ->
  nonempty (JsString.trim content) = true ->
  JSON_parse w (JsString.trim content) = Some v ->
  v <> JNull ->
  StageSpec.has_root v = false ->
  BookProcessingService.processMindMapGroup w group fileName language customPrompt
    signal st
  = (Throw (Error [29983; 25104; 24605; 32500; 23548; 22270; 22833; 36133]),
     StoreSpec.with_store (<[key := v]> (store st))
       (snd (AIService.count_request st))).
Proof.
  intros key Hf Hset Hmiss Ha Hc Hne Hp Hnull Hroot.
  assert (AIService.generateChapterMindMap w
            (BookProcessingService.combinedContent group) language customPrompt
            (Some signal) st
          = (Return v, snd (AIService.count_request st))) as Hai.
  { unfold AIService.generateChapterMindMap. apply rethrow_Return.
    unfold AIService.generateContent, AIService.is_aborted,
      AIService.requests_sent, bind, ret. simpl. rewrite Ha. simpl.
    rewrite Hc. unfold AIService.parseJsonResponse. simpl. rewrite Hne, Hp.
    reflexivity. }
  unfold BookProcessingService.processMindMapGroup.
  unfold bind at 1. rewrite getMindMap_eq. fold key. rewrite Hf, Hmiss.
  unfold bind at 1. unfold bind at 1. rewrite Hai.
  unfold bind at 1. rewrite setCache_eq. fold key. rewrite Hset.
  unfold ret at 1. unfold bind, BookProcessingService.lacks_nodeData.
  unfold StageSpec.has_root in Hroot.
  destruct v; try congruence; try reflexivity.
  simpl in *. destruct (Js.assoc _ _); [rewrite Hroot|]; reflexivity.
Qed.

(** The answer [{}] to the request for the mind map of a group. *)
Lemma mindmap_without_root_witness :
  BookProcessingService.processMindMapGroup
    (StoreSpec.constant_world (js "{}") [] (Some (JObj []))) Sample.intro
    Sample.fileName (js "en") [] StoreSpec.never_aborted StoreSpec.fresh
  = (Throw (Error [29983; 25104; 24605; 32500; 23548; 22270; 22833; 36133]),
     StoreSpec.with_store (<[Sample.mindMapKey := JObj []]> ∅)
       (snd (AIService.count_request StoreSpec.fresh))).
Proof.
  apply (mindmap_without_root_is_stored
           (StoreSpec.constant_world (js "{}") [] (Some (JObj []))) Sample.intro
           Sample.fileName (js "en") [] StoreSpec.never_aborted StoreSpec.fresh
           (js "{}") [] (JObj [])).
  - reflexivity.
  - reflexivity.
  - vm_compute. reflexivity.
  - reflexivity.
  - intros request. reflexivity.
  - reflexivity.
  - reflexivity.
  - discriminate.
  - reflexivity.
Defined.

(** With the answer [{"nodeData": null}] the entry written passes for a hit:
    every later run of the stage fails on it, and the provider is not asked
    again. *)
Example rootless_answer_poisons_the_cache :
  let w := StoreSpec.constant_world (js "{}") [] (Some Sample.rootless) in
  let run := BookProcessingService.processMindMapGroup w Sample.intro
               Sample.fileName (js "en") [] StoreSpec.never_aborted in
  let failure := Error [29983; 25104; 24605; 32500; 23548; 22270; 22833; 36133] in
  fst (run StoreSpec.fresh) = Throw failure
  /\ store (snd (run StoreSpec.fresh)) !! Sample.mindMapKey = Some Sample.rootless
  /\ fst (run (snd (run StoreSpec.fresh))) = Throw failure
  /\ requests (snd (run (snd (run StoreSpec.fresh)))) = 1%nat.
Proof. intros; conjuncts; by_evaluation. Qed.

(** The text part of C4 holds: an empty summary is refused before the
    store is reached. *)
Example empty_summary_is_not_stored :
  BookProcessingService.processSummaryGroup
    (StoreSpec.constant_world (js "  ") (js "R") None) Sample.intro Sample.fileName
    non_fiction (js "en") [] false StoreSpec.never_aborted None StoreSpec.fresh
  = (Throw (Error [65; 73; 36820; 22238; 20102; 31354; 30340; 24635; 32467]),
     snd (AIService.count_request StoreSpec.fresh)).
Proof. vm_compute. reflexivity. Qed.

(** C8 (as amended). In chapter-mind-map mode the merge, when nothing is
    cached for it, builds a root labelled with the book title that has one
    child for every processed chapter, in order: the child is labelled with
    the chapter's title, has the id [chapter_k] for the k-th chapter, and
    carries the children of the root of the mind map of the chapter's group
    (a group of n chapters gives n children with the same subtree). The
    merged map is stored under the kind [merged_mindmap], and the next merge
    returns the stored map, whatever it is asked to merge. *)
Theorem mergeMindMaps_builds_and_caches (w : World) (fileName bookTitle : jsstring)
    (chapters : list Chapter) (st : State) :
  let key := CacheKey.generateKey fileName merged_mindmap None in
  let merged := BookProcessingService.mergedMindMap bookTitle chapters in
  let st' := StoreSpec.with_store (<[key := merged]> (store st)) st in
  store_fault w GetItem key = None ->
  store_fault w SetItem key = None ->
  StageSpec.mindMap_at (store st) key = None ->
  BookProcessingService.mergeMindMaps w fileName bookTitle chapters st
  = (Return merged, st')
  /\ Js.chain (js "topic") (Js.prop (js "nodeData") merged) = Some (JStr bookTitle)
  /\ StageSpec.rootChildren merged = imap BookProcessingService.chapterNode chapters
  /\ length (StageSpec.rootChildren merged) = length chapters
  /\ (forall i chapter,
        chapters !! i = Some chapter ->
        StageSpec.rootChildren merged !! i
        = Some (JObj [ (js "topic", JStr (title (c_source chapter)));
                       (js "id", JStr (js "chapter_"
                                       ++ JsString.toStringRadix 10 (Z.of_nat i + 1)));
                       (js "children",
                        Js.or_empty
                          (Js.chain (js "children")
                             (Js.chain (js "nodeData") (c_mindMap chapter)))) ]))
  /\ (forall group v,
        map c_mindMap (gr_chapters (BookProcessingService.mindMapResult group v))
        = map (fun _ => Some v) (tg_chapters group))
  /\ (forall bookTitle' chapters',
        BookProcessingService.mergeMindMaps w fileName bookTitle' chapters' st'
        = (Return merged, st')).
Proof.
  intros key merged st' Hf Hset Hmiss. repeat split.
  - unfold BookProcessingService.mergeMindMaps.
    unfold bind at 1. rewrite getMindMap_eq. fold key. rewrite Hf, Hmiss.
    unfold bind. rewrite setCache_eq. fold key. rewrite Hset. reflexivity.
  - unfold StageSpec.rootChildren, merged. simpl. now rewrite length_imap.
  - intros i chapter Hi. unfold StageSpec.rootChildren, merged. simpl.
    rewrite list_lookup_imap, Hi. reflexivity.
  - intros group v. simpl. rewrite map_map. reflexivity.
  - intros bookTitle' chapters'. apply mergeMindMaps_hit.
    + exact Hf.
    + simpl. apply lookup_insert_eq.
    + reflexivity.
Qed.

(** The merge of two chapters on a fresh store. *)
Lemma mergeMindMaps_witness :
  length (StageSpec.rootChildren
            (BookProcessingService.mergedMindMap (js "Book")
               (gr_chapters (BookProcessingService.mindMapResult
                               {| tg_tag := Some (js "Act1");
                                  tg_chapters := [Sample.c1; Sample.c2];
                                  tg_groupId := js "1jcxy8" |} Sample.smallMap))))
  = 2%nat.
Proof.
  destruct (mergeMindMaps_builds_and_caches
              (StoreSpec.constant_world (js "{}") [] (Some Sample.smallMap))
              Sample.fileName (js "Book")
              (gr_chapters (BookProcessingService.mindMapResult
                              {| tg_tag := Some (js "Act1");
                                 tg_chapters := [Sample.c1; Sample.c2];
                                 tg_groupId := js "1jcxy8" |} Sample.smallMap))
              StoreSpec.fresh) as (_ & _ & _ & H & _).
  - reflexivity.
  - reflexivity.
  - vm_compute. reflexivity.
  - exact H.
Defined.

(** C8 fails as stated. Two chapters tagged [Act1] make one group and one
    mind map, yet the merged root has two children, one per chapter, each
    with the branches of that one map. *)
Lemma merged_root_has_a_child_per_chapter :
  let st :=
    snd (SummaryPage.handleStartProcessing
           (StoreSpec.constant_world (js "{}") [] (Some Sample.smallMap))
           (Sample.context ModeMindmap non_fiction) StoreSpec.never_aborted
           Sample.both Sample.act1 [] false StoreSpec.fresh) in
  length (Grouping.groupChaptersByTag [Sample.c1; Sample.c2] Sample.act1) = 1%nat
  /\ (length ∘ bm_groups <$> bookMindMap (page st)) = Some 1%nat
  /\ (length ∘ StageSpec.rootChildren
        <$> (bookMindMap (page st) ≫= bm_combinedMindMap)) = Some 2%nat
  /\ (length ∘ StageSpec.rootChildren
        <$> (bookMindMap (page st) ≫= bm_combinedMindMap))
     <> (length ∘ bm_groups <$> bookMindMap (page st)).
Proof. intros; conjuncts; by_evaluation. Qed.

(** ** Runs of the page in summary mode *)

Section SummaryRuns.
Import JsString CacheKey StoreSpec StageSpec RunSpec.
Context (w : World) (ctx : PageContext) (fileName : jsstring).
Context (customPrompt : jsstring) (useCustomOnly : bool) (params : RetryParams).
Context (Hmode : processingMode ctx = ModeSummary).

Lemma withSummaryGroups_same b : SummaryPage.withSummaryGroups (bs_groups b) b = b.
Proof. destruct b; reflexivity. Qed.

Lemma showGroupUpdate_absorbed groups group x p :
  SummaryPage.onSummary (SummaryPage.withSummaryGroups groups)
    (SummaryPage.showGroupUpdate group x p)
  = SummaryPage.onSummary (SummaryPage.withSummaryGroups groups) p.
Proof. destruct p as [? ? ? [b|] ? ?]; reflexivity. Qed.

Lemma summaryResult_stripped group text reasoning :
  withoutReasoning (gr_group (BookProcessingService.summaryResult group text reasoning))
  = gr_group (BookProcessingService.summaryResult group text [])
  /\ map chapterWithoutReasoning
       (gr_chapters (BookProcessingService.summaryResult group text reasoning))
     = gr_chapters (BookProcessingService.summaryResult group text []).
Proof. split; [reflexivity|]. simpl. now rewrite map_map. Qed.

Lemma summarized_stable m m' group r :
  stable is_text m m' ->
  summarized w fileName m group r -> summarized w fileName m' group r.
Proof.
  intros Hst (text & reasoning & -> & Hne & Hf & Hm).
  exists text, reasoning. repeat split; auto.
Qed.

Lemma text_cached_stable m m' t text :
  stable is_text m m' ->
  text_cached w fileName m t text -> text_cached w fileName m' t text.
Proof.
  intros Hst (Hne & Hf & Hm). repeat split; auto.
Qed.

(** The loop of a run that got through it. *)
Lemma processGroups_summary_first signal groups :
  forall pg pc st pg1 pc1 st1 b,
    SummaryPage.processGroups w ctx fileName signal customPrompt useCustomOnly
      groups pg pc st = (Return (pg1, pc1), st1) ->
    page st = summaryPage params b -> bs_groups b = pg ->
    exists rs,
      Forall2 (summarized w fileName (store st1)) groups rs
      /\ pg1 = pg ++ map gr_group rs
      /\ pc1 = pc ++ concat (map gr_chapters rs)
      /\ stable is_text (store st) (store st1)
      /\ page st1 = summaryPage params (SummaryPage.withSummaryGroups pg1 b).
Proof using Hmode.
  induction groups as [|group groups IH]; intros pg pc st pg1 pc1 st1 b H Hp Hb.
  - injection H as <- <- <-. exists []. repeat split.
    + constructor.
    + now rewrite app_nil_r.
    + now rewrite app_nil_r.
    + apply stable_refl.
    + rewrite Hp, <- Hb, withSummaryGroups_same. reflexivity.
  - simpl in H. rewrite Hmode in H.
    apply bind_Return_inv in H as ([] & sa & Ha & H).
    apply bind_Return_inv in H as (r & sb & Hr & H).
    apply bind_Return_inv in H as ([] & sc & Hc & H).
    unfold set_page in Ha, Hc. injection Ha as <-. injection Hc as <-.
    pose proof (processSummaryGroup_Return w _ _ _ _ _ _ _ _ _ _ _ Hr)
      as (text & reasoning & Er & Hne & Hf & Hs & _ & Hst & Hab).
    simpl in Hs, Hst, Hab.
    match type of H with
    | SummaryPage.processGroups _ _ _ _ _ _ _ ?pg' ?pc' ?sc = _ =>
        destruct (IH pg' pc' sc pg1 pc1 st1 (SummaryPage.withSummaryGroups pg' b) H)
          as (rs & Hrs & -> & -> & Hst' & Hp')
    end.
    + simpl. rewrite (Hab _ (SummaryPage.onSummary
                              (SummaryPage.withSummaryGroups (pg ++ [gr_group r])))
                        (showGroupUpdate_absorbed _ _)).
      simpl. rewrite Hp. reflexivity.
    + reflexivity.
    + exists (r :: rs). simpl in Hst'. repeat split.
      * constructor; [|exact Hrs].
        apply (summarized_stable (store sb)); [exact Hst'|].
        exists text, reasoning. auto.
      * simpl. now rewrite <- app_assoc.
      * simpl. now rewrite <- app_assoc.
      * eapply stable_trans; [exact Hst | exact Hst'].
      * rewrite Hp'. reflexivity.
Qed.

(** The loop of a run that finds every summary in the store. *)
Lemma processGroups_summary_rerun signal m groups rs :
  Forall2 (summarized w fileName m) groups rs ->
  forall pg pc st b,
    store st = m ->
    page st = summaryPage params b -> bs_groups b = pg ->
    SummaryPage.processGroups w ctx fileName signal customPrompt useCustomOnly
      groups pg pc st
    = (Return (pg ++ map (withoutReasoning ∘ gr_group) rs,
               pc ++ concat (map (map chapterWithoutReasoning ∘ gr_chapters) rs)),
       with_page
         (summaryPage params
            (SummaryPage.withSummaryGroups
               (pg ++ map (withoutReasoning ∘ gr_group) rs) b)) st).
Proof using Hmode.
  induction 1 as [|group r groups rs (text & reasoning & -> & Hne & Hf & Hm) _ IH];
    intros pg pc st b Hs Hp Hb.
  - simpl. rewrite !app_nil_r, <- Hb, withSummaryGroups_same, <- Hp.
    unfold ret, with_page. destruct st; reflexivity.
  - simpl SummaryPage.processGroups. rewrite Hmode.
    unfold bind at 1, set_page at 1.
    unfold bind at 1.
    destruct text as [|c s]; [discriminate|].
    erewrite processSummaryGroup_hit; [|exact Hf | simpl; rewrite Hs; exact Hm].
    unfold bind at 1, set_page at 1.
    erewrite IH; [| simpl; exact Hs | simpl; rewrite Hp; reflexivity | reflexivity].
    destruct (summaryResult_stripped group (c :: s) reasoning) as [E1 E2].
    cbn [map concat compose]. rewrite E1, E2, <- !app_assoc. reflexivity.
Qed.

End SummaryRuns.

Section SummaryFinish.
Import JsString CacheKey StoreSpec StageSpec RunSpec.
Context (w : World) (ctx : PageContext) (fileName : jsstring) (book : BookData).
Context (customPrompt : jsstring) (params : RetryParams).
Context (Hmode : processingMode ctx = ModeSummary).

Lemma connections_update_absorbed text x p :
  SummaryPage.onSummary (SummaryPage.withConnections text false)
    (SummaryPage.onSummary (SummaryPage.withConnections x true) p)
  = SummaryPage.onSummary (SummaryPage.withConnections text false) p.
Proof. destruct p as [? ? ? [b|] ? ?]; reflexivity. Qed.

Lemma overallSummary_update_absorbed text x p :
  SummaryPage.onSummary (SummaryPage.withOverallSummary text false)
    (SummaryPage.onSummary (SummaryPage.withOverallSummary x true) p)
  = SummaryPage.onSummary (SummaryPage.withOverallSummary text false) p.
Proof. destruct p as [? ? ? [b|] ? ?]; reflexivity. Qed.

(** What follows the loop, in a run that got through it. *)
Lemma finishBook_summary_first signal pc st st1 b :
  SummaryPage.finishBook w ctx fileName book signal customPrompt pc st
  = (Return tt, st1) ->
  page st = summaryPage params b ->
  exists conn cr os,
    text_cached w fileName (store st1) connections conn
    /\ (bookType ctx = fiction ->
        text_cached w fileName (store st1) character_relationship cr)
    /\ text_cached w fileName (store st1) overall_summary os
    /\ stable is_text (store st) (store st1)
    /\ page st1 = summaryPage params (finalSummary (bookType ctx) conn cr os b).
Proof using Hmode.
  intros H Hp. unfold SummaryPage.finishBook in H. rewrite Hmode in H.
  apply bind_Return_inv in H as ([] & sa & Ha & H).
  apply bind_Return_inv in H as (conn & sb & Hconn & H).
  apply bind_Return_inv in H as ([] & sc & Hc & H).
  apply bind_Return_inv in H as ([] & sd & Hcr & H).
  apply bind_Return_inv in H as ([] & se & He & H).
  apply bind_Return_inv in H as (os & sf & Hos & H).
  unfold set_page in Ha, Hc, He, H.
  injection Ha as <-. injection Hc as <-. injection He as <-. injection H as <-.
  pose proof (generateConnections_stage_Return w _ _ _ _ _ _ _ _ _ Hconn)
    as (Hne1 & Hf1 & Hs1 & Hst1 & Hab1).
  pose proof (generateOverallSummary_stage_Return w _ _ _ _ _ _ _ _ _ _ Hos)
    as (Hne3 & Hf3 & Hs3 & Hst3 & Hab3).
  simpl in Hst1, Hab1, Hst3, Hab3, Hs3.
  assert (page (BookProcessingService.update_page
                  (SummaryPage.onSummary (SummaryPage.withConnections conn false)) sb)
          = summaryPage params (SummaryPage.withConnections conn false b)) as Hpc.
  { simpl. rewrite (Hab1 _ (SummaryPage.onSummary
                             (SummaryPage.withConnections conn false))
                      (connections_update_absorbed _)).
    simpl. rewrite Hp. reflexivity. }
  assert (exists cr,
            (bookType ctx = fiction ->
             text_cached w fileName (store sd) character_relationship cr)
            /\ stable is_text (store sb) (store sd)
            /\ page sd
               = summaryPage params
                   (match bookType ctx with
                    | fiction => SummaryPage.withCharacterRelationship cr
                    | non_fiction => fun s => s
                    end (SummaryPage.withConnections conn false b)))
    as (cr & Hcr2 & Hst2 & Hpd).
  { destruct (bookType ctx).
    - apply bind_Return_inv in Hcr as (cr & sx & Hx & Hcr).
      unfold set_page in Hcr. injection Hcr as <-.
      pose proof (generateCharacterRelationship_stage_Return w _ _ _ _ _ _ _ _ Hx)
        as (Hne2 & Hf2 & Hs2 & Hst2 & Hp2).
      exists cr. simpl in *. split; [|split].
      + intros _. repeat split; auto.
      + exact Hst2.
      + rewrite Hp2. simpl in Hpc. rewrite Hpc. reflexivity.
    - injection Hcr as <-. exists []. split; [|split].
      + discriminate.
      + apply stable_refl.
      + exact Hpc. }
  exists conn, cr, os. simpl.
  assert (stable is_text (store sb) (store sf)) as Hbf
    by (eapply stable_trans; [exact Hst2 | exact Hst3]).
  split; [|split; [|split; [|split]]].
  - apply (text_cached_stable w fileName (store sb)); [exact Hbf|].
    repeat split; auto.
  - intros Hk. apply (text_cached_stable w fileName (store sd)); auto.
  - repeat split; auto.
  - eapply stable_trans; [exact Hst1 | exact Hbf].
  - rewrite (Hab3 _ (SummaryPage.onSummary
                       (SummaryPage.withOverallSummary os false))
               (overallSummary_update_absorbed _)).
    simpl. rewrite Hpd. unfold finalSummary. reflexivity.
Qed.

(** What follows the loop, when every text is found in the store. *)
Lemma finishBook_summary_rerun signal pc st m b conn cr os :
  text_cached w fileName m connections conn ->
  (bookType ctx = fiction -> text_cached w fileName m character_relationship cr) ->
  text_cached w fileName m overall_summary os ->
  store st = m ->
  page st = summaryPage params b ->
  SummaryPage.finishBook w ctx fileName book signal customPrompt pc st
  = (Return tt,
     with_page (summaryPage params (finalSummary (bookType ctx) conn cr os b)) st).
Proof using Hmode.
  intros (Hne1 & Hf1 & Hm1) Hcr (Hne3 & Hf3 & Hm3) Hs Hp.
  unfold SummaryPage.finishBook. rewrite Hmode.
  destruct conn as [|c1 conn]; [discriminate|].
  destruct os as [|c3 os]; [discriminate|].
  unfold bind at 1, set_page at 1.
  unfold bind at 1.
  erewrite generateConnections_hit; [|exact Hf1 | simpl; rewrite Hs; exact Hm1].
  unfold bind at 1, set_page at 1.
  unfold finalSummary.
  destruct (bookType ctx) eqn:Hk.
  - destruct (Hcr eq_refl) as (Hne2 & Hf2 & Hm2).
    destruct cr as [|c2 cr]; [discriminate|].
    unfold bind at 1. unfold bind at 1.
    erewrite generateCharacterRelationship_hit;
      [|exact Hf2 | simpl; rewrite Hs; exact Hm2].
    unfold set_page at 1.
    unfold bind at 1, set_page at 1.
    unfold bind at 1.
    erewrite generateOverallSummary_hit; [|exact Hf3 | simpl; rewrite Hs; exact Hm3].
    unfold set_page, with_page. simpl. rewrite Hp. reflexivity.
  - unfold bind at 1, ret at 1.
    unfold bind at 1, set_page at 1.
    unfold bind at 1.
    erewrite generateOverallSummary_hit; [|exact Hf3 | simpl; rewrite Hs; exact Hm3].
    unfold set_page, with_page. simpl. rewrite Hp. reflexivity.
Qed.

End SummaryFinish.

(** ** Runs of the page in the mind-map modes *)

Section MindMapRuns.
Import JsString CacheKey StoreSpec StageSpec RunSpec.
Context (w : World) (ctx : PageContext) (fileName : jsstring) (book : BookData).
Context (customPrompt : jsstring) (useCustomOnly : bool) (params : RetryParams).

Lemma withMindMapGroups_same m : SummaryPage.withMindMapGroups (bm_groups m) m = m.
Proof. destruct m; reflexivity. Qed.

Lemma mapped_stable m m' group r :
  stable is_mindMap m m' ->
  mapped w fileName m group r -> mapped w fileName m' group r.
Proof.
  intros Hst (v & -> & Hr & Hf & Hm).
  exists v. repeat split; auto using has_root_is_mindMap.
Qed.

Lemma mindMap_cached_stable m m' t v :
  stable is_mindMap m m' ->
  mindMap_cached w fileName m t v -> mindMap_cached w fileName m' t v.
Proof. intros Hst (Hv & Hf & Hm). repeat split; auto. Qed.

Section ChapterMaps.
Context (Hmode : processingMode ctx = ModeMindmap).

Lemma processGroups_mindmap_first signal groups :
  forall pg pc st pg1 pc1 st1 m0,
    SummaryPage.processGroups w ctx fileName signal customPrompt useCustomOnly
      groups pg pc st = (Return (pg1, pc1), st1) ->
    page st = mindMapPage params m0 -> bm_groups m0 = pg ->
    exists rs,
      Forall2 (mapped w fileName (store st1)) groups rs
      /\ pg1 = pg ++ map gr_group rs
      /\ pc1 = pc ++ concat (map gr_chapters rs)
      /\ stable is_mindMap (store st) (store st1)
      /\ page st1 = mindMapPage params (SummaryPage.withMindMapGroups pg1 m0).
Proof using Hmode.
  induction groups as [|group groups IH]; intros pg pc st pg1 pc1 st1 m0 H Hp Hb.
  - injection H as <- <- <-. exists []. repeat split.
    + constructor.
    + now rewrite app_nil_r.
    + now rewrite app_nil_r.
    + apply stable_refl.
    + rewrite Hp, <- Hb, withMindMapGroups_same. reflexivity.
  - simpl in H. rewrite Hmode in H.
    apply bind_Return_inv in H as ([] & sa & Ha & H).
    apply bind_Return_inv in H as (r & sb & Hr & H).
    apply bind_Return_inv in H as ([] & sc & Hc & H).
    unfold set_page in Ha, Hc. injection Ha as <-. injection Hc as <-.
    pose proof (processMindMapGroup_Return w _ _ _ _ _ _ _ _ Hr)
      as (v & Er & Hroot & Hf & Hs & Hst & Hpg).
    simpl in Hs, Hst, Hpg.
    match type of H with
    | SummaryPage.processGroups _ _ _ _ _ _ _ ?pg' ?pc' ?sc = _ =>
        destruct (IH pg' pc' sc pg1 pc1 st1 (SummaryPage.withMindMapGroups pg' m0) H)
          as (rs & Hrs & -> & -> & Hst' & Hp')
    end.
    + simpl. rewrite Hpg. simpl. rewrite Hp. reflexivity.
    + reflexivity.
    + exists (r :: rs). simpl in Hst'. repeat split.
      * constructor; [|exact Hrs].
        apply (mapped_stable (store sb)); [exact Hst'|].
        exists v. auto.
      * simpl. now rewrite <- app_assoc.
      * simpl. now rewrite <- app_assoc.
      * eapply stable_trans; [exact Hst | exact Hst'].
      * rewrite Hp'. reflexivity.
Qed.

Lemma processGroups_mindmap_rerun signal m groups rs :
  Forall2 (mapped w fileName m) groups rs ->
  forall pg pc st m0,
    store st = m ->
    page st = mindMapPage params m0 -> bm_groups m0 = pg ->
    SummaryPage.processGroups w ctx fileName signal customPrompt useCustomOnly
      groups pg pc st
    = (Return (pg ++ map gr_group rs, pc ++ concat (map gr_chapters rs)),
       with_page
         (mindMapPage params
            (SummaryPage.withMindMapGroups (pg ++ map gr_group rs) m0)) st).
Proof using Hmode.
  induction 1 as [|group r groups rs (v & -> & Hroot & Hf & Hm) _ IH];
    intros pg pc st m0 Hs Hp Hb.
  - simpl. rewrite !app_nil_r, <- Hb, withMindMapGroups_same, <- Hp.
    unfold ret, with_page. destruct st; reflexivity.
  - simpl SummaryPage.processGroups. rewrite Hmode.
    unfold bind at 1, set_page at 1.
    unfold bind at 1.
    erewrite processMindMapGroup_hit;
      [|exact Hf | simpl; rewrite Hs; exact Hm | exact Hroot].
    unfold bind at 1, set_page at 1.
    erewrite IH; [| simpl; exact Hs | simpl; rewrite Hp; reflexivity | reflexivity].
    cbn [map concat]. rewrite <- !app_assoc. reflexivity.
Qed.

Lemma finishBook_mindmap_first signal pc st st1 m0 :
  SummaryPage.finishBook w ctx fileName book signal customPrompt pc st
  = (Return tt, st1) ->
  page st = mindMapPage params m0 ->
  exists v,
    mindMap_cached w fileName (store st1) merged_mindmap v
    /\ stable is_mindMap (store st) (store st1)
    /\ page st1 = mindMapPage params (SummaryPage.withCombinedMindMap v m0).
Proof using Hmode.
  intros H Hp. unfold SummaryPage.finishBook in H. rewrite Hmode in H.
  apply bind_Return_inv in H as (v & sa & Hv & H).
  unfold set_page in H. injection H as <-.
  pose proof (mergeMindMaps_Return w _ _ _ _ _ _ Hv) as (Hm & Hf & Hs & Hst & Hpg & _).
  exists v. simpl in *. repeat split; auto.
  rewrite Hpg, Hp. reflexivity.
Qed.

Lemma finishBook_mindmap_rerun signal pc st m m0 v :
  mindMap_cached w fileName m merged_mindmap v ->
  store st = m ->
  page st = mindMapPage params m0 ->
  SummaryPage.finishBook w ctx fileName book signal customPrompt pc st
  = (Return tt,
     with_page (mindMapPage params (SummaryPage.withCombinedMindMap v m0)) st).
Proof using Hmode.
  intros (Hv & Hf & Hm) Hs Hp. unfold SummaryPage.finishBook. rewrite Hmode.
  unfold bind.
  erewrite mergeMindMaps_hit; [|exact Hf | rewrite Hs; exact Hm | exact Hv].
  unfold set_page, with_page. simpl. rewrite Hp. reflexivity.
Qed.

End ChapterMaps.

Section WholeBook.
Context (Hmode : processingMode ctx = ModeCombinedMindmap).

(** The loop of the whole-book mode asks for nothing. *)
Lemma processGroups_combined signal groups :
  forall pg pc st m0,
    page st = mindMapPage params m0 -> bm_groups m0 = pg ->
    SummaryPage.processGroups w ctx fileName signal customPrompt useCustomOnly
      groups pg pc st
    = (Return (pg ++ map listedGroup groups, pc ++ concat (map listedChapters groups)),
       with_page
         (mindMapPage params
            (SummaryPage.withMindMapGroups (pg ++ map listedGroup groups) m0)) st).
Proof using Hmode.
  induction groups as [|group groups IH]; intros pg pc st m0 Hp Hb.
  - simpl. rewrite !app_nil_r, <- Hb, withMindMapGroups_same, <- Hp.
    unfold ret, with_page. destruct st; reflexivity.
  - simpl SummaryPage.processGroups. rewrite Hmode.
    unfold bind at 1, set_page at 1.
    erewrite IH; [| simpl; rewrite Hp; reflexivity | reflexivity].
    cbn [map concat]. rewrite <- !app_assoc. reflexivity.
Qed.

Lemma finishBook_combined_first signal pc st st1 m0 :
  SummaryPage.finishBook w ctx fileName book signal customPrompt pc st
  = (Return tt, st1) ->
  page st = mindMapPage params m0 ->
  exists v,
    store_fault w GetItem (generateKey fileName combined_mindmap None) = None
    /\ store st1 !! generateKey fileName combined_mindmap None = Some v
    /\ page st1 = mindMapPage params (SummaryPage.withCombinedMindMap v m0).
Proof using Hmode.
  intros H Hp. unfold SummaryPage.finishBook in H. rewrite Hmode in H.
  apply bind_Return_inv in H as (v & sa & Hv & H).
  unfold set_page in H. injection H as <-.
  pose proof (generateCombinedMindMap_stage_Return w _ _ _ _ _ _ _ _ Hv)
    as (Hf & Hs & Hst & Hpg).
  exists v. simpl in *. repeat split; auto.
  rewrite Hpg, Hp. reflexivity.
Qed.

Lemma finishBook_combined_rerun signal pc st m m0 v :
  mindMap_cached w fileName m combined_mindmap v ->
  store st = m ->
  page st = mindMapPage params m0 ->
  SummaryPage.finishBook w ctx fileName book signal customPrompt pc st
  = (Return tt,
     with_page (mindMapPage params (SummaryPage.withCombinedMindMap v m0)) st).
Proof using Hmode.
  intros (Hv & Hf & Hm) Hs Hp. unfold SummaryPage.finishBook. rewrite Hmode.
  unfold bind.
  erewrite generateCombinedMindMap_hit; [|exact Hf | rewrite Hs; exact Hm | exact Hv].
  unfold set_page, with_page. simpl. rewrite Hp. reflexivity.
Qed.

End WholeBook.

End MindMapRuns.

(** ** A second run *)

Section SecondRun.
Import JsString CacheKey StoreSpec StageSpec RunSpec.
Context (w : World) (ctx : PageContext) (fileName : jsstring) (book : BookData).
Context (customPrompt : jsstring) (useCustomOnly : bool) (params : RetryParams).

Lemma replayed_summaryPage kind conn cr os groups b :
  replayed (summaryPage params
              (finalSummary kind conn cr os (SummaryPage.withSummaryGroups groups b)))
  = summaryPage params
      (finalSummary kind conn cr os
         (SummaryPage.withSummaryGroups (map withoutReasoning groups) b)).
Proof. destruct kind; reflexivity. Qed.

(** The body of the [try], run again on the store that a run which got
    through it has left. *)
Lemma processBook_rerun signal1 signal2 chapters chapterTags st st1 st' :
  SummaryPage.processBook w ctx fileName book signal1 customPrompt useCustomOnly
    chapters chapterTags st = (Return tt, st1) ->
  page st = started params ->
  whole_book_map_found ctx (page st1) ->
  store st' = store st1 ->
  page st' = started params ->
  SummaryPage.processBook w ctx fileName book signal2 customPrompt useCustomOnly
    chapters chapterTags st'
  = (Return tt, with_page (replayed (page st1)) st').
Proof.
  intros H Hp Hfound Hs' Hp'. unfold SummaryPage.processBook in *.
  apply bind_Return_inv in H as ([] & sa & Ha & H).
  apply bind_Return_inv in H as ([pg1 pc1] & sb & Hloop & Hfin).
  unfold set_page in Ha. injection Ha as <-. simpl snd in Hfin.
  unfold bind at 1, set_page at 1.
  destruct (processingMode ctx) eqn:Hmode.
  - (* summary *)
    eapply (processGroups_summary_first w ctx fileName customPrompt useCustomOnly
              params Hmode) in Hloop as (rs & Hrs & -> & -> & Hst & Hpb);
      [| simpl; rewrite Hp; reflexivity | reflexivity].
    eapply (finishBook_summary_first w ctx fileName book customPrompt params Hmode)
      in Hfin as (conn & cr & os & Hc & Hcr & Ho & Hst2 & Hp1); [|exact Hpb].
    unfold bind at 1.
    erewrite (processGroups_summary_rerun w ctx fileName customPrompt useCustomOnly
                params Hmode signal2 (store st1) _ rs);
      [| eapply Forall2_impl; [exact Hrs|];
         intros g r; apply summarized_stable; exact Hst2
       | simpl; exact Hs'
       | simpl; rewrite Hp'; reflexivity
       | reflexivity ].
    simpl snd.
    erewrite (finishBook_summary_rerun w ctx fileName book customPrompt params Hmode);
      [| exact Hc | exact Hcr | exact Ho | simpl; exact Hs' | reflexivity].
    rewrite Hp1. cbn [app].
    replace (map (withoutReasoning ∘ gr_group) rs)
      with (map withoutReasoning (map gr_group rs))
      by (rewrite map_map; reflexivity).
    rewrite replayed_summaryPage. reflexivity.
  - (* a mind map for every group, merged *)
    eapply (processGroups_mindmap_first w ctx fileName customPrompt useCustomOnly
              params Hmode) in Hloop as (rs & Hrs & -> & -> & Hst & Hpb);
      [| simpl; rewrite Hp; reflexivity | reflexivity].
    eapply (finishBook_mindmap_first w ctx fileName book customPrompt params Hmode)
      in Hfin as (v & Hv & Hst2 & Hp1); [|exact Hpb].
    unfold bind at 1.
    erewrite (processGroups_mindmap_rerun w ctx fileName customPrompt useCustomOnly
                params Hmode signal2 (store st1) _ rs);
      [| eapply Forall2_impl; [exact Hrs|];
         intros g r; apply mapped_stable; exact Hst2
       | simpl; exact Hs'
       | simpl; rewrite Hp'; reflexivity
       | reflexivity ].
    simpl snd.
    erewrite (finishBook_mindmap_rerun w ctx fileName book customPrompt params Hmode);
      [| exact Hv | simpl; exact Hs' | reflexivity].
    rewrite Hp1. reflexivity.
  - (* one mind map for the whole book *)
    erewrite (processGroups_combined w ctx fileName customPrompt useCustomOnly
                params Hmode signal1) in Hloop;
      [| simpl; rewrite Hp; reflexivity | reflexivity].
    injection Hloop as <- <- <-.
    eapply (finishBook_combined_first w ctx fileName book customPrompt params Hmode)
      in Hfin as (v & Hf & Hv & Hp1); [|reflexivity].
    destruct (Hfound Hmode) as (m & v' & Hm & Hv' & Hmap).
    rewrite Hp1 in Hm. simpl in Hm. injection Hm as <-. simpl in Hv'.
    injection Hv' as <-.
    unfold bind at 1.
    erewrite (processGroups_combined w ctx fileName customPrompt useCustomOnly
                params Hmode signal2);
      [| simpl; rewrite Hp'; reflexivity | reflexivity].
    simpl snd.
    erewrite (finishBook_combined_rerun w ctx fileName book customPrompt params Hmode
                signal2 _ _ (store st1) _ v);
      [| repeat split; assumption | simpl; exact Hs' | reflexivity].
    rewrite Hp1. reflexivity.
Qed.

End SecondRun.

(** Where every stage finds again what the first run stored: if a run of
    the pipeline finishes, a second run with the same book, chapters,
    selection, tags, prompt and mode, started in the state the first has
    left and with any abort signal of its own, finishes too, sends no
    request to the provider, leaves the store, the request count and the
    clock as they are, and shows what the first run showed, except that
    the groups of a summary come back without their reasoning, which is
    not cached. In whole-book mode this holds when the map that the first
    run shows has a [nodeData] member. *)
Theorem second_run_is_served_from_the_cache (w : World) (ctx : PageContext)
    (signal1 signal2 : AbortSignal) (selectedChapters : gset jsstring)
    (chapterTags : gmap jsstring jsstring) (customPrompt : jsstring)
    (useCustomOnly : bool) (st st1 : State) :
  SummaryPage.handleStartProcessing w ctx signal1 selectedChapters chapterTags
    customPrompt useCustomOnly st = (Return Finished, st1) ->
  RunSpec.whole_book_map_found ctx (page st1) ->
  SummaryPage.handleStartProcessing w ctx signal2 selectedChapters chapterTags
    customPrompt useCustomOnly st1
  = (Return Finished, RunSpec.with_page (RunSpec.replayed (page st1)) st1).
Proof.
  intros H Hfound. unfold SummaryPage.handleStartProcessing in *.
  destruct (extractedChapters ctx) as [extracted|]; [|discriminate].
  destruct (bookData ctx) as [book|]; [|discriminate].
  destruct (file ctx) as [fileName|]; [|discriminate].
  destruct (negb (nonempty (apiKey ctx))); [discriminate|].
  destruct (bool_decide (size selectedChapters = 0%nat)); [discriminate|].
  apply bind_Return_inv in H as ([] & sa & Ha & H).
  apply bind_Return_inv in H as (status & sb & Htry & H).
  apply bind_Return_inv in H as ([] & sc & Hc & H).
  unfold set_page in Ha, Hc. injection Ha as <-. injection Hc as <-.
  injection H as -> <-.
  apply try_catch_inv in Htry as [(a & Hrun & [= <-])|(e & sx & _ & Hh)].
  2: { destruct (decide _); [discriminate|].
       apply bind_Return_inv in Hh as ([] & sy & _ & Hh). discriminate. }
  apply bind_Return_inv in Hrun as ([] & sb' & Hrun & [= <-]).
  unfold bind at 1, set_page at 1.
  unfold bind at 1, try_catch, bind at 1.
  erewrite (processBook_rerun w ctx fileName book customPrompt useCustomOnly _
              signal1 signal2 _ _ _ sb');
    [| exact Hrun | reflexivity | | reflexivity | reflexivity].
  - reflexivity.
  - intros Hm. destruct (Hfound Hm) as (m & v & Hb & Hv & Hmap).
    exists m, v. auto.
Qed.

(** A book summarised twice: the second run is served from the cache. *)
Lemma second_run_witness :
  let w := StoreSpec.constant_world (js "S") (js "R") None in
  let ctx := Sample.context ModeSummary fiction in
  let st1 :=
    snd (SummaryPage.handleStartProcessing w ctx StoreSpec.never_aborted
           Sample.both ∅ [] false StoreSpec.fresh) in
  SummaryPage.handleStartProcessing w ctx StoreSpec.already_aborted Sample.both ∅ []
    false st1
  = (Return Finished, RunSpec.with_page (RunSpec.replayed (page st1)) st1).
Proof.
  intros w ctx st1.
  apply (second_run_is_served_from_the_cache w ctx StoreSpec.never_aborted
           StoreSpec.already_aborted Sample.both ∅ [] false StoreSpec.fresh st1).
  - unfold st1.
    rewrite (surjective_pairing
               (SummaryPage.handleStartProcessing w ctx StoreSpec.never_aborted
                  Sample.both ∅ [] false StoreSpec.fresh)) at 1.
    f_equal; vm_compute; reflexivity.
  - intros Hmode. discriminate Hmode.
Defined.

(** The reasoning of a group is shown by the run that generates its summary
    and is not cached: the first run of a summary shows the reasoning [R]
    of each group; the second run, with the same arguments and the cache
    untouched, finishes without a request and shows the groups without
    reasoning. *)
Lemma second_run_shows_no_reasoning :
  let w := StoreSpec.constant_world (js "S") (js "R") None in
  let run :=
    SummaryPage.handleStartProcessing w (Sample.context ModeSummary fiction)
      StoreSpec.never_aborted Sample.both ∅ [] false in
  let st1 := snd (run StoreSpec.fresh) in
  let st2 := snd (run st1) in
  fst (run StoreSpec.fresh) = Return Finished
  /\ fst (run st1) = Return Finished
  /\ requests st2 = requests st1
  /\ (map g_reasoning ∘ bs_groups <$> bookSummary (page st1))
     = Some [Some (js "R"); Some (js "R")]
  /\ (map g_reasoning ∘ bs_groups <$> bookSummary (page st2)) = Some [None; None]
  /\ bookSummary (page st2) <> bookSummary (page st1).
Proof. intros; conjuncts; by_evaluation. Qed.

(** ** The scenarios of the specification *)

(** Scenario A: two untagged chapters give two singleton groups, in order. *)
Example scenario_untagged :
  Grouping.groupChaptersByTag [Sample.c1; Sample.c2] ∅
  = [ {| tg_tag := None; tg_chapters := [Sample.c1]; tg_groupId := js "Intro" |};
      {| tg_tag := None; tg_chapters := [Sample.c2]; tg_groupId := js "Body" |} ].
Proof. vm_compute. reflexivity. Qed.

(** Scenario B: both chapters tagged [Act1] give one group, whose id is the
    hash of [c1_c2]. *)
Example scenario_tagged :
  Grouping.groupChaptersByTag [Sample.c1; Sample.c2] Sample.act1
  = [ {| tg_tag := Some (js "Act1"); tg_chapters := [Sample.c1; Sample.c2];
         tg_groupId := Grouping.hashString (js "c1_c2") |} ]
  /\ Grouping.hashString (js "c1_c2") = js "1jcxy8".
Proof. intros; conjuncts; by_evaluation. Qed.

(** Scenario A, in summary mode for a work of non-fiction: two summaries,
    the connections and the overall summary are stored, four requests are
    sent and no character relationship is asked for. *)
Example scenario_summary_run :
  let st :=
    snd (SummaryPage.handleStartProcessing
           (StoreSpec.constant_world (js "S") (js "R") None)
           (Sample.context ModeSummary non_fiction) StoreSpec.never_aborted
           Sample.both ∅ [] false StoreSpec.fresh) in
  requests st = 4%nat
  /\ size (store st) = 4%nat
  /\ store st !! CacheKey.generateKey Sample.fileName character_relationship None
     = None.
Proof. intros; conjuncts; by_evaluation. Qed.

(** ** More on the key scheme *)

Section KeyShapeFacts.
Import JsString CacheKey KeySpec KeyShape.

(** The group of a match of [dot_plus] has no line terminator. *)
Lemma dot_plus_group {R} (s : jsstring) (k : jsstring -> jsstring -> option R) r :
  dot_plus s k = Some r ->
  exists g post, s = g ++ post /\ g <> [] /\ one_line g = true /\ k g post = Some r.
Proof.
  revert k; induction s as [|c s IH]; intros k H; simpl in H; [discriminate|].
  destruct (is_line_terminator c) eqn:Ec; [discriminate|].
  destruct (dot_plus s (fun g post => k (c :: g) post)) as [r'|] eqn:E.
  - injection H as ->. apply IH in E as (g & post & -> & _ & Hg & Hk).
    exists (c :: g), post. split; [reflexivity|]. split; [discriminate|].
    split; [|exact Hk]. unfold one_line in *. simpl. now rewrite Ec.
  - exists [c], s. split; [reflexivity|]. split; [discriminate|].
    split; [|exact H]. unfold one_line. simpl. now rewrite Ec.
Qed.

Lemma chapterMatch_rebuilt (key : jsstring) p :
  chapterMatch key = Some p ->
  key = rebuilt p
  /\ bookName p <> [] /\ one_line (bookName p) = true
  /\ chapter_scoped (type p) = true
  /\ exists cid, chapterId p = Some cid /\ cid <> [] /\ one_line cid = true.
Proof.
  unfold chapterMatch. intros H.
  destruct (strip_prefix (js "book_") key) as [r0|] eqn:E0; [|discriminate].
  cbn [mbind option_bind] in H. apply strip_prefix_Some in E0. subst key.
  apply dot_plus_group in H as (book & r1 & -> & Hb & Hbl & H).
  destruct (strip_prefix (js "_chapter_") r1) as [r2|] eqn:E2; [|discriminate].
  cbn [mbind option_bind] in H. apply strip_prefix_Some in E2. subst r1.
  apply dot_plus_group in H as (chap & r3 & -> & Hc & Hcl & H).
  destruct (strip_prefix (js "_") r3) as [r4|] eqn:E4; [|discriminate].
  cbn [mbind option_bind] in H. apply strip_prefix_Some in E4. subst r3.
  destruct (one_of [summary; mindmap] r4) as [t|] eqn:E5; [|discriminate].
  cbn [mbind option_bind] in H. injection H as <-.
  apply one_of_Some in E5 as [-> Hin]. unfold rebuilt. cbn.
  split; [reflexivity|].
  split; [exact Hb|]. split; [exact Hbl|].
  split; [destruct Hin as [<-|[<-|[]]]; reflexivity|].
  exists chap. auto.
Qed.

Lemma bookMatch_rebuilt (key : jsstring) p :
  bookMatch key = Some p ->
  key = rebuilt p
  /\ bookName p <> [] /\ one_line (bookName p) = true
  /\ chapter_scoped (type p) = false /\ chapterId p = None.
Proof.
  unfold bookMatch. intros H.
  destruct (strip_prefix (js "book_") key) as [r0|] eqn:E0; [|discriminate].
  cbn [mbind option_bind] in H. apply strip_prefix_Some in E0. subst key.
  apply dot_plus_group in H as (book & r1 & -> & Hb & Hbl & H).
  destruct (strip_prefix (js "_") r1) as [r2|] eqn:E2; [|discriminate].
  cbn [mbind option_bind] in H. apply strip_prefix_Some in E2. subst r1.
  match type of H with context [one_of ?l r2] =>
    destruct (one_of l r2) as [t|] eqn:E3; [|discriminate] end.
  cbn [mbind option_bind] in H. injection H as <-.
  apply one_of_Some in E3 as [-> Hin]. unfold rebuilt. cbn.
  split; [reflexivity|].
  split; [exact Hb|]. split; [exact Hbl|].
  split; [|reflexivity].
  repeat (destruct Hin as [<-|Hin]; [reflexivity|]). destruct Hin.
Qed.

(** A name without a dot has no extension to remove, and cleaning leaves
    no dot. *)
Lemma remove_extension_no_dot (s : jsstring) :
  forallb (fun c => negb (c =? 46)) s = true -> remove_extension s = s.
Proof.
  induction s as [|c s IH]; [reflexivity|]. simpl.
  intros H. apply andb_true_iff in H as [Hc Hs].
  apply negb_true_iff in Hc. rewrite Hc. simpl. now rewrite IH.
Qed.

Lemma replace_special_chars (s : jsstring) :
  forallb (fun c => is_key_char c || (c =? 95)) (replace_special s) = true.
Proof.
  unfold replace_special. induction s as [|c s IH]; [reflexivity|].
  simpl. rewrite IH, andb_true_r.
  destruct (is_key_char c) eqn:E; [now rewrite E | reflexivity].
Qed.

Lemma key_char_or_underscore_no_dot (c : Z) :
  is_key_char c || (c =? 95) = true -> negb (c =? 46) = true.
Proof.
  intros H. apply negb_true_iff, Z.eqb_neq. intros ->. vm_compute in H. discriminate.
Qed.

Lemma replace_special_fixed (s : jsstring) :
  forallb (fun c => is_key_char c || (c =? 95)) s = true -> replace_special s = s.
Proof.
  unfold replace_special. induction s as [|c s IH]; [reflexivity|].
  simpl. intros H. apply andb_true_iff in H as [Hc Hs]. rewrite (IH Hs).
  destruct (is_key_char c) eqn:E; [reflexivity|].
  simpl in Hc. apply Z.eqb_eq in Hc. now subst.
Qed.

Lemma cleanFilename_fixed (filename : jsstring) :
  cleanFilename (cleanFilename filename) = cleanFilename filename.
Proof.
  unfold cleanFilename at 1.
  pose proof (replace_special_chars (remove_extension filename)) as H.
  fold (cleanFilename filename) in H.
  rewrite remove_extension_no_dot.
  - now apply replace_special_fixed.
  - rewrite forallb_forall in *. intros c Hc.
    apply key_char_or_underscore_no_dot. now apply H.
Qed.

Lemma rev_eq_app_last {A} (a b : list A) x y :
  a ++ [x] = b ++ [y] -> x = y.
Proof. intros H. apply app_inj_tail in H. tauto. Qed.

(** The names of the two chapter kinds after any ids differ. *)
Lemma chapter_kinds_apart (a b : jsstring) :
  a ++ js "_summary" <> b ++ js "_mindmap".
Proof.
  intros H.
  change (js "_summary") with (js "_summar" ++ [121]) in H.
  change (js "_mindmap") with (js "_mindma" ++ [112]) in H.
  rewrite !app_assoc in H. apply rev_eq_app_last in H. discriminate.
Qed.

Lemma given_cases (chapterId : option jsstring) :
  (given chapterId = None /\ forall f t, generateKey f t chapterId
                                       = js "book_" ++ cleanFilename f ++ js "_" ++ type_name t)
  \/ (exists cid, given chapterId = Some cid /\ cid <> []
      /\ forall f t, generateKey f t chapterId
                     = js "book_" ++ cleanFilename f ++ js "_chapter_" ++ cid
                         ++ js "_" ++ type_name t).
Proof.
  destruct chapterId as [[|c cs]|].
  - left. split; reflexivity.
  - right. exists (c :: cs). split; [reflexivity|]. split; [discriminate | reflexivity].
  - left. split; reflexivity.
Qed.

(** The key of a chapter kind is not the key of a book-level kind. *)
Lemma chapter_kind_key_apart (filename : jsstring) (t t' : CacheKeyType)
    (chapterId : option jsstring) :
  chapter_scoped t = true -> chapter_scoped t' = false ->
  generateKey filename t chapterId <> generateKey filename t' None.
Proof.
  intros Ht Ht' E.
  destruct (given_cases chapterId) as [[Hg Hk]|(cid & Hg & Hne & Hk)];
    rewrite Hk in E; unfold generateKey in E; do 2 apply app_inv_head in E.
  - destruct t; try discriminate Ht; destruct t'; discriminate.
  - destruct t; try discriminate Ht; destruct t'; try discriminate Ht';
      try discriminate E;
      injection E as E; apply (f_equal length) in E;
      rewrite length_app in E; simpl in E; lia.
Qed.

End KeyShapeFacts.

(** X1. A key that [parseKey] reads is spelled by what it returns: it is
    [book_], the book name, for a chapter key [_chapter_] and the id, then
    [_] and the name of the kind. The book name and the id are not empty
    and have no line terminator; a key with an id is of a chapter kind, a
    key without one is not. *)
Theorem parseKey_rebuilds (key : jsstring) (p : ParsedKey) :
  CacheKey.parseKey key = Some p ->
  key = KeyShape.rebuilt p
  /\ bookName p <> [] /\ KeyShape.one_line (bookName p) = true
  /\ match chapterId p with
     | Some cid =>
         cid <> [] /\ KeyShape.one_line cid = true
         /\ KeySpec.chapter_scoped (type p) = true
     | None => KeySpec.chapter_scoped (type p) = false
     end.
Proof.
  unfold CacheKey.parseKey. intros H.
  destruct (CacheKey.chapterMatch key) as [p0|] eqn:E.
  - injection H as ->.
    apply chapterMatch_rebuilt in E as (Hk & Hb & Hbl & Ht & cid & Hc & Hne & Hcl).
    rewrite Hc. auto 10.
  - apply bookMatch_rebuilt in H as (Hk & Hb & Hbl & Ht & Hc).
    rewrite Hc. auto.
Qed.

Lemma parseKey_rebuilds_witness :
  CacheKey.parseKey (js "book_my_book_chapter_1-Intro_summary")
  = Some {| bookName := js "my_book"; type := summary;
            chapterId := Some (js "1-Intro") |}
  /\ js "book_my_book_chapter_1-Intro_summary"
     = KeyShape.rebuilt {| bookName := js "my_book"; type := summary;
                           chapterId := Some (js "1-Intro") |}.
Proof.
  split; [vm_compute; reflexivity|].
  apply (parseKey_rebuilds (js "book_my_book_chapter_1-Intro_summary")).
  vm_compute. reflexivity.
Defined.

(** X2. Keys depend on the file name through its cleaned form only, and
    cleaning a cleaned name changes nothing: the book name that a key shows
    gives the same keys as the file name it came from. The cleaned name
    consists of [a-zA-Z0-9], the CJK range and underscores. *)
Theorem generateKey_cleaned_name (filename : jsstring) (t : CacheKeyType)
    (chapterId : option jsstring) :
  CacheKey.generateKey (CacheKey.cleanFilename filename) t chapterId
  = CacheKey.generateKey filename t chapterId
  /\ forallb (fun c => CacheKey.is_key_char c || (c =? 95))
       (CacheKey.cleanFilename filename) = true.
Proof.
  split.
  - unfold CacheKey.generateKey. now rewrite cleanFilename_fixed.
  - apply replace_special_chars.
Qed.

(** X3. With an id given for the chapter kinds only, two calls of
    [generateKey] for the same file give the same key exactly when the kind
    is the same and the id is the same (an empty id counting as none). The
    key tells kinds and ids apart, not groups: groups with one id share
    their key. *)
Theorem generateKey_injective (filename : jsstring) (t t' : CacheKeyType)
    (chapterId chapterId' : option jsstring) :
  KeyShape.as_used t chapterId = true ->
  KeyShape.as_used t' chapterId' = true ->
  CacheKey.generateKey filename t chapterId
  = CacheKey.generateKey filename t' chapterId'
  <-> t = t' /\ KeyShape.given chapterId = KeyShape.given chapterId'.
Proof.
  unfold KeyShape.as_used. intros Hu Hu'. split.
  2: { intros [<- Hg].
       destruct (given_cases chapterId) as [[Hg1 Hk]|(cid & Hg1 & _ & Hk)];
         destruct (given_cases chapterId') as [[Hg2 Hk']|(cid' & Hg2 & _ & Hk')];
         rewrite Hk, Hk'; rewrite Hg1, Hg2 in Hg; congruence. }
  intros E.
  destruct (given_cases chapterId) as [[Hg Hk]|(cid & Hg & Hne & Hk)];
    destruct (given_cases chapterId') as [[Hg' Hk']|(cid' & Hg' & Hne' & Hk')];
    rewrite Hk, Hk' in E; rewrite Hg, Hg' in *;
    do 2 apply app_inv_head in E.
  - split; [|reflexivity].
    destruct t, t'; first [reflexivity | discriminate E].
  - exfalso. destruct t'; try discriminate Hu'.
    + destruct t; try discriminate E.
      injection E as E. apply (f_equal length) in E.
      rewrite length_app in E. simpl in E. lia.
    + destruct t; try discriminate E.
      injection E as E. apply (f_equal length) in E.
      rewrite length_app in E. simpl in E. lia.
  - exfalso. destruct t; try discriminate Hu.
    + destruct t'; try discriminate E.
      injection E as E. apply (f_equal length) in E.
      rewrite length_app in E. simpl in E. lia.
    + destruct t'; try discriminate E.
      injection E as E. apply (f_equal length) in E.
      rewrite length_app in E. simpl in E. lia.
  - apply (app_inv_head (js "_chapter_")) in E.
    destruct t; try discriminate Hu; destruct t'; try discriminate Hu'.
    + apply app_inv_tail in E. subst. auto.
    + exfalso. exact (chapter_kinds_apart _ _ E).
    + exfalso. symmetry in E. exact (chapter_kinds_apart _ _ E).
    + apply app_inv_tail in E. subst. auto.
Qed.

(** An empty id is no id: both calls give the key of the connections of
    the book. *)
Lemma generateKey_injective_witness :
  CacheKey.generateKey (js "book.epub") connections (Some [])
  = CacheKey.generateKey (js "book.epub") connections None
  <-> connections = connections
      /\ KeyShape.given (Some []) = KeyShape.given None.
Proof.
  apply (generateKey_injective (js "book.epub") connections connections
           (Some []) None); reflexivity.
Defined.

(** Two untagged chapters with one title give two groups with one id, and
    so one key for their summaries. *)
Example same_title_same_key :
  let again :=
    {| id := js "c9"; title := js "Intro"; content := js "Once more";
       startPage := None; endPage := None; pageIndex := None |} in
  map tg_groupId (Grouping.groupChaptersByTag [Sample.c1; again] ∅)
  = [js "Intro"; js "Intro"]
  /\ map (fun group =>
            CacheKey.generateKey Sample.fileName summary (Some (tg_groupId group)))
         (Grouping.groupChaptersByTag [Sample.c1; again] ∅)
     = [js "book_book_chapter_Intro_summary"; js "book_book_chapter_Intro_summary"].
Proof. intros; conjuncts; by_evaluation. Qed.

(** ** More on group ids and grouping *)

Local Open Scope Z_scope.

Section HashFacts.
Import JsString Grouping KeyShape.

Lemma toInt32_range (z : Z) : - 2 ^ 31 <= toInt32 z < 2 ^ 31.
Proof.
  unfold toInt32.
  pose proof (Z.mod_pos_bound (z + 2 ^ 31) (2 ^ 32) ltac:(lia)). lia.
Qed.

(** The hash stays a 32-bit integer. *)
Lemma hash_loop_range (str : jsstring) (h0 : Z) :
  - 2 ^ 31 <= h0 < 2 ^ 31 ->
  - 2 ^ 31 <=
    fold_left
      (fun hash char =>
         let hash := (toInt32 (Z.shiftl (toInt32 hash) 5) - hash) + char in
         Z.land (toInt32 hash) (toInt32 hash))
      str h0 < 2 ^ 31.
Proof.
  revert h0. induction str as [|c str IH]; intros h0 H0; simpl; [exact H0|].
  apply IH. rewrite Z.land_diag. apply toInt32_range.
Qed.

Lemma digit_base36 (d : Z) : 0 <= d < 36 -> is_base36 (digit d) = true.
Proof.
  intros H. unfold digit, is_base36.
  destruct (d <? 10) eqn:E.
  - apply Z.ltb_lt in E. apply orb_true_iff. left.
    apply andb_true_iff. split; apply Z.leb_le; lia.
  - apply Z.ltb_ge in E. apply orb_true_iff. right.
    apply andb_true_iff. split; apply Z.leb_le; lia.
Qed.

Lemma digits_aux_base36 (fuel : nat) (n : Z) (acc : jsstring) :
  forallb is_base36 acc = true ->
  forallb is_base36 (digits_aux fuel 36 n acc) = true.
Proof.
  revert n acc. induction fuel as [|f IH]; intros n acc Hacc; simpl.
  - rewrite digit_base36, Hacc; [reflexivity|]. apply Z.mod_pos_bound. lia.
  - assert (forallb is_base36 (digit (n mod 36) :: acc) = true) as H.
    { simpl. rewrite digit_base36, Hacc; [reflexivity|]. apply Z.mod_pos_bound. lia. }
    destruct (n <? 36); [exact H | now apply IH].
Qed.

Lemma digits_aux_length (fuel : nat) (n : Z) (acc : jsstring) (k : nat) :
  (1 <= k)%nat -> 0 <= n < 36 ^ Z.of_nat k ->
  (S (length acc) <= length (digits_aux fuel 36 n acc) <= length acc + k)%nat.
Proof.
  revert n acc k. induction fuel as [|f IH]; intros n acc k Hk Hn; simpl.
  - lia.
  - destruct (n <? 36) eqn:E; [simpl; lia|].
    apply Z.ltb_ge in E.
    destruct k as [|[|k]]; [lia | simpl in Hn; lia |].
    specialize (IH (n / 36) (digit (n mod 36) :: acc) (S k) ltac:(lia)).
    simpl length in IH.
    assert (0 <= n / 36 < 36 ^ Z.of_nat (S k)) as Hq.
    { split; [apply Z.div_pos; lia|].
      apply Z.div_lt_upper_bound; [lia|].
      replace (Z.of_nat (S (S k))) with (Z.succ (Z.of_nat (S k))) in Hn by lia.
      rewrite Z.pow_succ_r in Hn by lia. lia. }
    specialize (IH Hq). lia.
Qed.

End HashFacts.

(** X4. The id of a tagged group, [hashString] of the joined member ids,
    is one to six characters of [0-9a-z], whatever the ids are: it holds no
    underscore, so no [_chapter_], and no line terminator. *)
Theorem hashString_shape (str : jsstring) :
  (1 <= length (Grouping.hashString str) <= 6)%nat
  /\ forallb KeyShape.is_base36 (Grouping.hashString str) = true.
Proof.
  unfold Grouping.hashString, JsString.toStringRadix.
  pose proof (hash_loop_range str 0 ltac:(lia)) as Hr.
  set (h := fold_left _ str 0) in *.
  split.
  - pose proof (digits_aux_length (Z.to_nat (Z.log2 (Z.abs h))) (Z.abs h) [] 6
                  ltac:(lia)) as H.
    simpl length in H. apply H.
    change (36 ^ Z.of_nat 6) with 2176782336. lia.
  - now apply digits_aux_base36.
Qed.

(** X5. The id of a tagged group does not depend on the order of its
    members: any rearrangement of the same chapters gives the same id, and
    so the same cache key. *)
Theorem taggedGroupId_order (members members' : list ChapterData) :
  members ≡ₚ members' ->
  Grouping.taggedGroupId members = Grouping.taggedGroupId members'.
Proof.
  intros H. unfold Grouping.taggedGroupId.
  rewrite (sort_of_permutation (map id members) (map id members')); [reflexivity|].
  now apply Permutation_map.
Qed.

Lemma taggedGroupId_order_witness :
  Grouping.taggedGroupId [Sample.c1; Sample.c2]
  = Grouping.taggedGroupId [Sample.c2; Sample.c1].
Proof.
  apply (taggedGroupId_order [Sample.c1; Sample.c2] [Sample.c2; Sample.c1]).
  apply Permutation_swap.
Defined.

Section PartitionFacts.
Import JsString Grouping GroupingSpec GroupShape.

Lemma filter_split {A} (f g : A -> bool) (l : list A) :
  (forall x, f x && g x = false) ->
  List.filter (fun x => f x || g x) l ≡ₚ List.filter f l ++ List.filter g l.
Proof.
  intros Hd. induction l as [|x l IH]; [reflexivity|]. simpl.
  specialize (Hd x).
  destruct (f x), (g x); simpl in *; try discriminate.
  - now rewrite IH.
  - rewrite IH. apply Permutation_middle.
  - exact IH.
Qed.

Lemma filter_all {A} (f : A -> bool) (l : list A) :
  (forall x, f x = true) -> List.filter f l = l.
Proof.
  intros H. induction l as [|x l IH]; [reflexivity|]. simpl.
  now rewrite H, IH.
Qed.

Lemma filter_none {A} (l : list A) : List.filter (fun _ => false) l = [].
Proof. induction l; [reflexivity | exact IHl]. Qed.

Lemma filter_all_in {A} (f : A -> bool) (l : list A) :
  (forall x, In x l -> f x = true) -> List.filter f l = l.
Proof.
  induction l as [|x l IH]; intros H; [reflexivity|]. simpl.
  rewrite (H x) by now left. f_equal. apply IH. intros y Hy. apply H. now right.
Qed.

Lemma filter_ext_eq {A} (f g : A -> bool) (l : list A) :
  (forall x, f x = g x) -> List.filter f l = List.filter g l.
Proof.
  intros H. induction l as [|x l IH]; [reflexivity|]. simpl.
  now rewrite H, IH.
Qed.

Lemma members_snoc groups g : members (groups ++ [g]) = members groups ++ tg_chapters g.
Proof. unfold members. rewrite map_app, concat_app. simpl. now rewrite app_nil_r. Qed.

(** The loop of [groupChaptersByTag], from any point on: the groups hold
    the untagged chapters gone through and all chapters of the tags met. *)
Lemma group_loop_members (chapters : list ChapterData)
    (chapterTags : gmap jsstring jsstring) (rest done : list ChapterData)
    (groups : list TempChapterGroup) (processedTags : gset jsstring) :
  chapters = done ++ rest ->
  seen_tags chapterTags done processedTags ->
  members groups ≡ₚ List.filter (untagged chapterTags) done
                    ++ List.filter (tagged_in chapterTags processedTags) chapters ->
  Forall (fun g => tg_chapters g <> []) groups ->
  forall final tags,
  fold_left (group_step chapters chapterTags) rest (groups, processedTags)
  = (final, tags) ->
  members final ≡ₚ List.filter (untagged chapterTags) chapters
                   ++ List.filter (tagged_in chapterTags tags) chapters
  /\ seen_tags chapterTags chapters tags
  /\ Forall (fun g => tg_chapters g <> []) final.
Proof.
  revert done groups processedTags.
  induction rest as [|ch rest IH];
    intros done groups processedTags Hall Hseen Hm Hne final tags Hf.
  - simpl in Hf. injection Hf as <- <-.
    rewrite app_nil_r in Hall. subst done. auto.
  - cbn [fold_left] in Hf. unfold group_step at 2 in Hf.
    assert (chapters = (done ++ [ch]) ++ rest) as Hall'
      by (rewrite Hall, <- app_assoc; reflexivity).
    destruct (tagOf chapterTags ch) as [tag|] eqn:Et.
    + assert (List.filter (untagged chapterTags) (done ++ [ch])
              = List.filter (untagged chapterTags) done) as Hu.
      { rewrite List.filter_app. simpl. unfold untagged at 2. rewrite Et.
        rewrite bool_decide_eq_false_2 by discriminate. apply app_nil_r. }
      destruct (bool_decide (tag ∈ processedTags)) eqn:Eb.
      * refine (IH (done ++ [ch]) _ _ Hall' _ _ _ _ _ Hf);
          [ | now rewrite Hu | exact Hne].
        intros tag'. rewrite (Hseen tag'). split.
        -- intros (c0 & Hin & H0). exists c0. split; [apply in_or_app; auto | exact H0].
        -- intros (c0 & Hin & H0). apply in_app_or in Hin as [Hin|[<-|[]]].
           ++ exists c0. auto.
           ++ apply (Hseen tag'). apply bool_decide_eq_true in Eb. congruence.
      * apply bool_decide_eq_false in Eb.
        pose proof (tagOf_Some _ _ _ Et) as [_ Htag].
        refine (IH (done ++ [ch]) _ _ Hall' _ _ _ _ _ Hf).
        -- intros tag'. rewrite elem_of_union, elem_of_singleton, (Hseen tag'). split.
           ++ intros [->|(c0 & Hin & H0)].
              ** exists ch. split; [apply in_or_app; simpl; auto | exact Et].
              ** exists c0. split; [apply in_or_app; auto | exact H0].
           ++ intros (c0 & Hin & H0). apply in_app_or in Hin as [Hin|[<-|[]]].
              ** right. exists c0. auto.
              ** left. congruence.
        -- rewrite members_snoc, Hu, Hm. cbn [tg_chapters].
           rewrite (sameTag_members _ _ _ Htag), <- app_assoc.
           apply Permutation_app_head.
           rewrite <- (filter_split (tagged_in chapterTags processedTags)).
           ++ erewrite filter_ext_eq; [reflexivity|].
              intros x. unfold tagged_in.
              destruct (tagOf chapterTags x) as [tx|]; [|reflexivity].
              apply eq_true_iff_eq.
              rewrite orb_true_iff, !bool_decide_eq_true, elem_of_union,
                elem_of_singleton.
              split; [intros [?|[= ->]]; auto | intros [->|?]; auto].
           ++ intros x. unfold tagged_in.
              destruct (tagOf chapterTags x) as [tx|]; [|reflexivity].
              apply andb_false_iff.
              destruct (decide (tx = tag)) as [->|Hx].
              ** left. now apply bool_decide_eq_false.
              ** right. apply bool_decide_eq_false. congruence.
        -- apply Forall_app. split; [exact Hne|]. constructor; [|constructor].
           cbn [tg_chapters]. rewrite (sameTag_members _ _ _ Htag).
           intros Hnil.
           assert (In ch (List.filter
                            (fun c => bool_decide (tagOf chapterTags c = Some tag))
                            chapters)) as Hin.
           { apply filter_In. split.
             - rewrite Hall. apply in_or_app. right. now left.
             - now apply bool_decide_eq_true. }
           rewrite Hnil in Hin. destruct Hin.
    + refine (IH (done ++ [ch]) _ _ Hall' _ _ _ _ _ Hf).
      * intros tag'. rewrite (Hseen tag'). split.
        -- intros (c0 & Hin & H0). exists c0. split; [apply in_or_app; auto | exact H0].
        -- intros (c0 & Hin & H0). apply in_app_or in Hin as [Hin|[<-|[]]].
           ++ exists c0. auto.
           ++ congruence.
      * rewrite members_snoc, Hm. cbn [tg_chapters].
        rewrite List.filter_app. simpl. unfold untagged at 3. rewrite Et.
        rewrite bool_decide_eq_true_2 by reflexivity.
        rewrite <- !app_assoc. apply Permutation_app_head.
        apply Permutation_app_comm.
      * apply Forall_app. split; [exact Hne|]. constructor; [|constructor].
        discriminate.
Qed.

Lemma length_members_le (groups : list TempChapterGroup) :
  Forall (fun g => tg_chapters g <> []) groups ->
  (length groups <= length (members groups))%nat.
Proof.
  unfold members. induction 1 as [|g groups Hg _ IH]; simpl; [lia|].
  rewrite length_app. destruct (tg_chapters g); [congruence | simpl; lia].
Qed.

Lemma groupChaptersByTag_members (chapters : list ChapterData)
    (chapterTags : gmap jsstring jsstring) :
  members (groupChaptersByTag chapters chapterTags) ≡ₚ chapters
  /\ Forall (fun g => tg_chapters g <> []) (groupChaptersByTag chapters chapterTags).
Proof.
  unfold groupChaptersByTag.
  destruct (fold_left (group_step chapters chapterTags) chapters ([], ∅))
    as [final tags] eqn:Hf.
  destruct (group_loop_members chapters chapterTags chapters [] [] ∅)
    with (final := final) (tags := tags) as (Hm & Hseen & Hne).
  - reflexivity.
  - intros tag. split.
    + intros H. exfalso. revert H. apply not_elem_of_empty.
    + intros (ch & [] & _).
  - simpl. rewrite (filter_ext_eq _ (fun _ => false)).
    + now rewrite filter_none.
    + intros x. unfold tagged_in. destruct (tagOf chapterTags x); [|reflexivity].
      apply bool_decide_eq_false, not_elem_of_empty.
  - constructor.
  - exact Hf.
  - simpl. split; [|exact Hne]. rewrite Hm.
    rewrite <- (filter_split (untagged chapterTags)).
    + rewrite filter_all_in; [reflexivity|].
      intros x Hx. unfold untagged, tagged_in.
      destruct (tagOf chapterTags x) as [tx|] eqn:Ex; [|reflexivity].
      rewrite bool_decide_eq_false_2 by discriminate. simpl.
      apply bool_decide_eq_true. apply (Hseen tx). eauto.
    + intros x. unfold untagged, tagged_in.
      destruct (tagOf chapterTags x); [|reflexivity].
      now rewrite bool_decide_eq_false_2 by discriminate.
Qed.

End PartitionFacts.

(** X6. Grouping loses no chapter and repeats none: the members of the
    groups, taken together, are a rearrangement of the chapters given. No
    group is empty, so there are at most as many groups as chapters, and
    the title sent for a group can always be read. *)
Theorem groupChaptersByTag_partition (chapters : list ChapterData)
    (chapterTags : gmap jsstring jsstring) :
  let groups := Grouping.groupChaptersByTag chapters chapterTags in
  GroupShape.members groups ≡ₚ chapters
  /\ (length groups <= length chapters)%nat
  /\ forall group st, In group groups ->
       exists t, BookProcessingService.combinedTitle group st = (Return t, st).
Proof.
  intros groups.
  destruct (groupChaptersByTag_members chapters chapterTags) as [Hm Hne].
  fold groups in Hm, Hne.
  split; [exact Hm|]. split.
  - rewrite <- (Permutation_length Hm). now apply length_members_le.
  - intros group st Hin. apply combinedTitle_Return.
    rewrite List.Forall_forall in Hne. now apply Hne.
Qed.

(** ** What the services and a run may change *)

Section FrameFacts.
Import JsString CacheKey StoreSpec StageSpec RunFrame.
Context (w : World) (fileName : jsstring).

Lemma same_controls_refl p : same_controls p p.
Proof. repeat split. Qed.

Lemma same_controls_trans p1 p2 p3 :
  same_controls p1 p2 -> same_controls p2 p3 -> same_controls p1 p3.
Proof. unfold same_controls. intuition congruence. Qed.

Lemma within_refl st : within fileName 0 st st.
Proof.
  split; [lia | reflexivity | auto | apply same_controls_refl].
Qed.

Lemma within_trans a b s1 s2 s3 :
  within fileName a s1 s2 -> within fileName b s2 s3 ->
  within fileName (a + b) s1 s3.
Proof.
  intros [R1 O1 K1 P1] [R2 O2 K2 P2]. split.
  - lia.
  - intros key Hk. rewrite (O2 key Hk). apply (O1 key Hk).
  - intros key Hk. apply K2, K1, Hk.
  - eapply same_controls_trans; eassumption.
Qed.

Lemma within_weaken a b st st' :
  (a <= b)%nat -> within fileName a st st' -> within fileName b st st'.
Proof. intros Hab [R O K P]. split; [lia | exact O | exact K | exact P]. Qed.

Lemma costs_weaken {A} a b (m : M A) :
  (a <= b)%nat -> costs fileName a m -> costs fileName b m.
Proof. intros Hab Hm st o st' H. eapply within_weaken; [exact Hab | eapply Hm, H]. Qed.

Lemma costs_ret {A} n (a : A) : costs fileName n (ret a).
Proof.
  intros st o st' [= <- <-]. apply (within_weaken 0); [lia | apply within_refl].
Qed.

Lemma costs_throw {A} n e : costs fileName n (@throw A e).
Proof.
  intros st o st' [= <- <-]. apply (within_weaken 0); [lia | apply within_refl].
Qed.

Lemma costs_bind {A B} a b n (m : M A) (k : A -> M B) :
  (a + b <= n)%nat ->
  costs fileName a m -> (forall x, costs fileName b (k x)) ->
  costs fileName n (bind m k).
Proof.
  intros Hn Hm Hk st o st' H.
  apply bind_inv in H as [(x & st1 & H1 & H2)|(e & H1 & _)].
  - apply (within_weaken (a + b)); [exact Hn|].
    eapply within_trans; [eapply Hm | eapply Hk]; eauto.
  - apply (within_weaken a); [lia | eapply Hm; eauto].
Qed.

(** A step that sends nothing, then the rest. *)
Lemma costs_after {A B} n (m : M A) (k : A -> M B) :
  costs fileName 0 m -> (forall x, costs fileName n (k x)) ->
  costs fileName n (bind m k).
Proof. apply (costs_bind 0 n); lia. Qed.

(** The step that may send, then a rest that sends nothing. *)
Lemma costs_before {A B} n (m : M A) (k : A -> M B) :
  costs fileName n m -> (forall x, costs fileName 0 (k x)) ->
  costs fileName n (bind m k).
Proof. apply (costs_bind n 0); lia. Qed.

Lemma costs_try_catch {A} n (m : M A) (h : JsError -> M A) :
  costs fileName n m -> (forall e, costs fileName 0 (h e)) ->
  costs fileName n (try_catch m h).
Proof.
  intros Hm Hh st o st' H.
  apply try_catch_inv in H as [(a & H1 & _)|(e & st1 & H1 & H2)].
  - eapply Hm; eauto.
  - apply (within_weaken (n + 0)); [lia|].
    eapply within_trans; [eapply Hm | eapply Hh]; eauto.
Qed.

Lemma costs_rethrow {A} n prefix (m : M A) :
  costs fileName n m -> costs fileName n (AIService.rethrow prefix m).
Proof.
  intros Hm. apply costs_try_catch; [exact Hm|]. intros e. apply costs_throw.
Qed.

(** *** The page *)

Lemma shows_results_setBookSummary f :
  shows_results (SummaryPage.setBookSummary f).
Proof. intros p. repeat split. Qed.

Lemma shows_results_setBookMindMap f :
  shows_results (SummaryPage.setBookMindMap f).
Proof. intros p. repeat split. Qed.

Lemma shows_results_onSummary f : shows_results (SummaryPage.onSummary f).
Proof. apply shows_results_setBookSummary. Qed.

Lemma shows_results_onMindMap f : shows_results (SummaryPage.onMindMap f).
Proof. apply shows_results_setBookMindMap. Qed.

Lemma within_update_page f st :
  shows_results f ->
  within fileName 0 st (BookProcessingService.update_page f st).
Proof.
  intros Hf. split; simpl; [lia | reflexivity | auto | apply Hf].
Qed.

Lemma costs_set_page f : shows_results f -> costs fileName 0 (set_page f).
Proof.
  intros Hf st o st' [= <- <-]. apply (within_update_page f st Hf).
Qed.

Lemma within_read_clock st :
  within fileName 0 st (snd (BookProcessingService.read_clock w st)).
Proof. split; simpl; [lia | reflexivity | auto | apply same_controls_refl]. Qed.

(** *** The store *)

Lemma generateKey_prefix t chapterId :
  startsWith (generateKey fileName t chapterId) (bookPrefix fileName) = true.
Proof.
  unfold generateKey, bookPrefix.
  assert (forall rest : jsstring,
            startsWith (js "book_" ++ cleanFilename fileName ++ js "_" ++ rest)
              (js "book_" ++ cleanFilename fileName ++ js "_") = true) as H.
  { intros rest.
    replace (js "book_" ++ cleanFilename fileName ++ js "_" ++ rest)
      with ((js "book_" ++ cleanFilename fileName ++ js "_") ++ rest)
      by (now rewrite <- !app_assoc).
    apply startsWith_app. }
  destruct chapterId as [[|c cs]|]; apply H.
Qed.

Lemma costs_getItem key : costs fileName 0 (CacheService.getItem w key).
Proof.
  intros st o st' H. rewrite getItem_eq in H.
  destruct (store_fault w GetItem key); injection H as _ <-; apply within_refl.
Qed.

Lemma costs_setItem key v :
  startsWith key (bookPrefix fileName) = true ->
  costs fileName 0 (CacheService.setItem w key v).
Proof.
  intros Hkey st o st' H. rewrite setItem_eq in H.
  destruct (store_fault w SetItem key); injection H as _ <-; [apply within_refl|].
  split; simpl.
  - lia.
  - intros k Hk. apply lookup_insert_ne. congruence.
  - intros k Hk. destruct (decide (key = k)) as [->|Hne].
    + rewrite lookup_insert_eq. eauto.
    + now rewrite lookup_insert_ne.
  - apply same_controls_refl.
Qed.

Lemma costs_getString t chapterId :
  costs fileName 0 (CacheService.getString w fileName t chapterId).
Proof.
  unfold CacheService.getString. apply costs_after; [apply costs_getItem|].
  intros v. apply costs_ret.
Qed.

Lemma costs_getMindMap t chapterId :
  costs fileName 0 (CacheService.getMindMap w fileName t chapterId).
Proof.
  unfold CacheService.getMindMap. apply costs_after; [apply costs_getItem|].
  intros v. apply costs_ret.
Qed.

Lemma costs_setCache t v chapterId :
  costs fileName 0 (CacheService.setCache w fileName t v chapterId).
Proof. apply costs_setItem, generateKey_prefix. Qed.

(** *** The provider *)

Lemma costs_count_request : costs fileName 1 AIService.count_request.
Proof.
  intros st o st' [= _ <-]. split; simpl;
    [lia | reflexivity | auto | apply same_controls_refl].
Qed.

Lemma costs_is_aborted signal : costs fileName 0 (AIService.is_aborted signal).
Proof.
  intros st o st' H.
  unfold AIService.is_aborted, AIService.requests_sent, bind, ret in H.
  injection H as _ <-. apply within_refl.
Qed.

Lemma costs_generateContent prompt language signal json :
  costs fileName 1 (AIService.generateContent w prompt language signal json).
Proof.
  unfold AIService.generateContent.
  apply costs_after; [apply costs_is_aborted|].
  intros [|]; [apply costs_throw|].
  apply costs_before; [apply costs_count_request|].
  intros n. destruct (complete w n _); auto using costs_throw, costs_ret.
Qed.

Lemma deliver_costs {L} (onUpdate : Delta -> L -> State -> L * State)
    deltas full locals st :
  (forall d l s, within fileName 0 s (snd (onUpdate d l s))) ->
  within fileName 0 st (snd (AIService.deliver onUpdate deltas full locals st)).
Proof.
  intros Hup. revert full locals st.
  induction deltas as [|d deltas IH]; intros full locals st; simpl;
    [apply within_refl|].
  destruct (nonempty (delta_content d) || nonempty (delta_reasoning d)); [|apply IH].
  specialize (Hup d locals st). destruct (onUpdate d locals st) as [l' st'].
  apply (within_trans 0 0 st st'); [exact Hup | apply IH].
Qed.

Lemma costs_generateContentStream {L} prompt
    (onUpdate : Delta -> L -> State -> L * State) locals language signal :
  (forall d l s, within fileName 0 s (snd (onUpdate d l s))) ->
  costs fileName 1
    (AIService.generateContentStream w prompt onUpdate locals language signal).
Proof.
  intros Hup. unfold AIService.generateContentStream.
  apply costs_after; [apply costs_is_aborted|].
  intros [|]; [apply costs_throw|].
  apply costs_try_catch.
  - apply costs_before; [apply costs_count_request|].
    intros n. destruct (stream w n _) as [e|? ? ?| |deltas failure];
      auto using costs_throw.
    intros st o st' H.
    pose proof (deliver_costs onUpdate deltas
                  {| msg_content := []; msg_reasoning := [] |} locals st Hup) as HR.
    destruct (AIService.deliver _ _ _ _ _) as [full st1].
    destruct failure; injection H as _ <-; exact HR.
  - intros e. destruct (decide _); apply costs_throw.
Qed.

Lemma costs_generate {L} prompt
    (onStreamUpdate : option (Delta -> L -> State -> L * State)) locals
    language signal :
  (forall onUpdate d l s, onStreamUpdate = Some onUpdate ->
                          within fileName 0 s (snd (onUpdate d l s))) ->
  costs fileName 1
    match onStreamUpdate with
    | Some onUpdate =>
        AIService.generateContentStream w prompt onUpdate locals language signal
    | None => AIService.generateContent w prompt language signal false
    end.
Proof.
  intros Hup. destruct onStreamUpdate as [onUpdate|].
  - apply costs_generateContentStream. eauto.
  - apply costs_generateContent.
Qed.

Lemma costs_summarizeChapter {L} title content bookType language customPrompt
    useCustomOnly signal
    (onStreamUpdate : option (Delta -> L -> State -> L * State)) locals :
  (forall onUpdate d l s, onStreamUpdate = Some onUpdate ->
                          within fileName 0 s (snd (onUpdate d l s))) ->
  costs fileName 1
    (AIService.summarizeChapter w title content bookType language customPrompt
       useCustomOnly signal onStreamUpdate locals).
Proof.
  intros Hup. unfold AIService.summarizeChapter. apply costs_rethrow.
  apply costs_before; [now apply costs_generate|].
  intros result. destruct (nonempty _); auto using costs_ret, costs_throw.
Qed.

Lemma costs_analyzeConnections {L} chapters language bookType signal
    (onStreamUpdate : option (Delta -> L -> State -> L * State)) locals :
  (forall onUpdate d l s, onStreamUpdate = Some onUpdate ->
                          within fileName 0 s (snd (onUpdate d l s))) ->
  costs fileName 1
    (AIService.analyzeConnections w chapters language bookType signal
       onStreamUpdate locals).
Proof.
  intros Hup. unfold AIService.analyzeConnections. apply costs_rethrow.
  apply costs_before; [now apply costs_generate|].
  intros result. destruct (nonempty _); auto using costs_ret, costs_throw.
Qed.

Lemma costs_overallSummary {L} bookTitle chapters language bookType signal
    (onStreamUpdate : option (Delta -> L -> State -> L * State)) locals :
  (forall onUpdate d l s, onStreamUpdate = Some onUpdate ->
                          within fileName 0 s (snd (onUpdate d l s))) ->
  costs fileName 1
    (AIService.generateOverallSummary w bookTitle chapters language bookType
       signal onStreamUpdate locals).
Proof.
  intros Hup. unfold AIService.generateOverallSummary. apply costs_rethrow.
  apply costs_before; [now apply costs_generate|].
  intros result. destruct (nonempty _); auto using costs_ret, costs_throw.
Qed.

Lemma costs_characterRelationship chapters language bookType signal :
  costs fileName 1
    (AIService.generateCharacterRelationship w chapters language bookType signal).
Proof.
  unfold AIService.generateCharacterRelationship. apply costs_rethrow.
  apply costs_before; [apply costs_generateContent|].
  intros result. destruct (nonempty _); [|apply costs_throw].
  destruct (AIService.mermaidMatch _) as [[|c g]|]; apply costs_ret.
Qed.

Lemma costs_parseJsonResponse response errorContext :
  costs fileName 0 (AIService.parseJsonResponse w response errorContext).
Proof.
  unfold AIService.parseJsonResponse.
  destruct (nonempty _); [|apply costs_throw].
  destruct (JSON_parse w _); [apply costs_ret|].
  destruct (AIService.jsonMatch _) as [[|c g]|]; try apply costs_throw.
  destruct (JSON_parse w _); [apply costs_ret | apply costs_throw].
Qed.

Lemma costs_chapterMindMap content language customPrompt signal :
  costs fileName 1
    (AIService.generateChapterMindMap w content language customPrompt signal).
Proof.
  unfold AIService.generateChapterMindMap. apply costs_rethrow.
  apply costs_before; [apply costs_generateContent|].
  intros result. apply costs_parseJsonResponse.
Qed.

Lemma costs_combinedMindMap bookTitle chapters customPrompt signal :
  costs fileName 1
    (AIService.generateCombinedMindMap w bookTitle chapters customPrompt signal).
Proof.
  unfold AIService.generateCombinedMindMap. apply costs_rethrow.
  apply costs_before; [apply costs_generateContent|].
  intros result. apply costs_parseJsonResponse.
Qed.

(** *** The stages *)

Lemma within_summaryStreamUpdate
    (cb : option (SummaryUpdate -> PageState -> PageState)) d l st :
  (forall notify x, cb = Some notify -> shows_results (notify x)) ->
  within fileName 0 st (snd (BookProcessingService.summaryStreamUpdate w cb d l st)).
Proof.
  intros Hcb. unfold BookProcessingService.summaryStreamUpdate.
  pose proof (within_read_clock st) as Hc.
  destruct (BookProcessingService.read_clock w st) as [now st1]. simpl in Hc.
  destruct cb as [notify|]; [|exact Hc].
  destruct (_ || _); [|exact Hc]. simpl.
  apply (within_trans 0 0 st st1); [exact Hc|].
  apply within_update_page. eapply Hcb. reflexivity.
Qed.

Lemma within_contentStreamUpdate (notify : jsstring -> PageState -> PageState) d l st :
  (forall x, shows_results (notify x)) ->
  within fileName 0 st
    (snd (BookProcessingService.contentStreamUpdate w notify d l st)).
Proof.
  intros Hcb. unfold BookProcessingService.contentStreamUpdate.
  pose proof (within_read_clock st) as Hc.
  destruct (BookProcessingService.read_clock w st) as [now st1]. simpl in Hc.
  destruct (_ || _); [|exact Hc]. simpl.
  apply (within_trans 0 0 st st1); [exact Hc|].
  apply within_update_page. apply Hcb.
Qed.

Lemma costs_notifyContent (cb : option (jsstring -> PageState -> PageState)) text :
  (forall notify x, cb = Some notify -> shows_results (notify x)) ->
  costs fileName 0 (BookProcessingService.notifyContent cb text).
Proof.
  intros Hcb. destruct cb as [notify|]; simpl.
  - apply costs_set_page. eapply Hcb. reflexivity.
  - apply costs_ret.
Qed.

Lemma costs_combinedTitle group :
  costs fileName 0 (BookProcessingService.combinedTitle group).
Proof.
  intros st o st' H. apply combinedTitle_state in H. subst. apply within_refl.
Qed.

Lemma costs_processSummaryGroup group bookType language customPrompt
    useCustomOnly signal (cb : option (SummaryUpdate -> PageState -> PageState)) :
  (forall notify x, cb = Some notify -> shows_results (notify x)) ->
  costs fileName 1
    (BookProcessingService.processSummaryGroup w group fileName bookType language
       customPrompt useCustomOnly signal cb).
Proof.
  intros Hcb. unfold BookProcessingService.processSummaryGroup.
  assert (forall x, costs fileName 0
            match cb with
            | Some notify => set_page (notify x)
            | None => ret tt
            end) as Hnotify.
  { intros x. destruct cb as [notify|]; [|apply costs_ret].
    apply costs_set_page. eapply Hcb. reflexivity. }
  apply costs_after; [apply costs_getString|].
  assert (costs fileName 1
            (let* combinedTitle := BookProcessingService.combinedTitle group in
             let* result :=
               AIService.summarizeChapter w combinedTitle
                 (BookProcessingService.combinedContent group) bookType language
                 customPrompt useCustomOnly (Some signal)
                 (match cb with
                  | Some _ => Some (BookProcessingService.summaryStreamUpdate w cb)
                  | None => None
                  end)
                 {| currentSummary := []; currentReasoning := [];
                    lastUpdateTime := 0 |} in
             let* _ :=
               match cb with
               | Some notify =>
                   set_page (notify {| su_summary := msg_content result;
                                       su_reasoning := Some (msg_reasoning result) |})
               | None => ret tt
               end in
             let* _ :=
               CacheService.setCache w fileName summary
                 (JStr (msg_content result)) (Some (tg_groupId group)) in
             ret (BookProcessingService.summaryResult group (msg_content result)
                    (msg_reasoning result)))) as Hmiss.
  { apply costs_after; [apply costs_combinedTitle|]. intros t.
    apply costs_before.
    - apply costs_summarizeChapter. intros onUpdate d l s E.
      destruct cb; [|discriminate]. injection E as <-.
      now apply within_summaryStreamUpdate.
    - intros result. apply costs_after; [apply Hnotify|]. intros _.
      apply costs_after; [apply costs_setCache|]. intros _. apply costs_ret. }
  intros [[|c s]|]; try exact Hmiss.
  apply costs_after; [apply Hnotify|]. intros _. apply costs_ret.
Qed.

Lemma costs_lacks_nodeData v :
  costs fileName 0 (BookProcessingService.lacks_nodeData v).
Proof.
  unfold BookProcessingService.lacks_nodeData.
  destruct v; auto using costs_throw, costs_ret.
Qed.

Lemma costs_processMindMapGroup group language customPrompt signal :
  costs fileName 1
    (BookProcessingService.processMindMapGroup w group fileName language
       customPrompt signal).
Proof.
  unfold BookProcessingService.processMindMapGroup.
  apply costs_after; [apply costs_getMindMap|]. intros cached.
  apply costs_before.
  - destruct cached as [v|]; [apply costs_ret|].
    apply costs_before; [apply costs_chapterMindMap|]. intros v.
    apply costs_after; [apply costs_setCache|]. intros _. apply costs_ret.
  - intros v. apply costs_after; [apply costs_lacks_nodeData|].
    intros [|]; [apply costs_throw | apply costs_ret].
Qed.

Lemma costs_generateConnections chapters language bookType signal
    (cb : option (jsstring -> PageState -> PageState)) :
  (forall notify x, cb = Some notify -> shows_results (notify x)) ->
  costs fileName 1
    (BookProcessingService.generateConnections w fileName chapters language
       bookType signal cb).
Proof.
  intros Hcb. unfold BookProcessingService.generateConnections.
  apply costs_after; [apply costs_getString|].
  assert (forall text, costs fileName 0
            (let* _ := BookProcessingService.notifyContent cb text in ret text))
    as Hhit.
  { intros text. apply costs_after; [now apply costs_notifyContent|].
    intros _. apply costs_ret. }
  assert (costs fileName 1
            (let* connections :=
               AIService.analyzeConnections w chapters language bookType
                 (Some signal) (BookProcessingService.contentStreamUpdate w <$> cb)
                 {| currentSummary := []; currentReasoning := [];
                    lastUpdateTime := 0 |} in
             let* _ := BookProcessingService.notifyContent cb connections in
             let* _ :=
               CacheService.setCache w fileName Kind.connections
                 (JStr connections) None in
             ret connections)) as Hmiss.
  { apply costs_before.
    - apply costs_analyzeConnections. intros onUpdate d l s E.
      destruct cb as [notify|]; [|discriminate]. injection E as <-.
      apply within_contentStreamUpdate. intros x. eapply Hcb. reflexivity.
    - intros text. apply costs_after; [now apply costs_notifyContent|]. intros _.
      apply costs_after; [apply costs_setCache|]. intros _. apply costs_ret. }
  intros [[|c s]|]; try exact Hmiss.
  apply (costs_weaken 0); [lia | apply Hhit].
Qed.

Lemma costs_generateOverallSummary bookTitle chapters language bookType signal
    (cb : option (jsstring -> PageState -> PageState)) :
  (forall notify x, cb = Some notify -> shows_results (notify x)) ->
  costs fileName 1
    (BookProcessingService.generateOverallSummary w fileName bookTitle chapters
       language bookType signal cb).
Proof.
  intros Hcb. unfold BookProcessingService.generateOverallSummary.
  apply costs_after; [apply costs_getString|].
  assert (forall text, costs fileName 0
            (let* _ := BookProcessingService.notifyContent cb text in ret text))
    as Hhit.
  { intros text. apply costs_after; [now apply costs_notifyContent|].
    intros _. apply costs_ret. }
  assert (costs fileName 1
            (let* overallSummary :=
               AIService.generateOverallSummary w bookTitle chapters language
                 bookType (Some signal)
                 (BookProcessingService.contentStreamUpdate w <$> cb)
                 {| currentSummary := []; currentReasoning := [];
                    lastUpdateTime := 0 |} in
             let* _ := BookProcessingService.notifyContent cb overallSummary in
             let* _ :=
               CacheService.setCache w fileName overall_summary
                 (JStr overallSummary) None in
             ret overallSummary)) as Hmiss.
  { apply costs_before.
    - apply costs_overallSummary. intros onUpdate d l s E.
      destruct cb as [notify|]; [|discriminate]. injection E as <-.
      apply within_contentStreamUpdate. intros x. eapply Hcb. reflexivity.
    - intros text. apply costs_after; [now apply costs_notifyContent|]. intros _.
      apply costs_after; [apply costs_setCache|]. intros _. apply costs_ret. }
  intros [[|c s]|]; try exact Hmiss.
  apply (costs_weaken 0); [lia | apply Hhit].
Qed.

Lemma costs_generateCharacterRelationship chapters language bookType signal :
  costs fileName 1
    (BookProcessingService.generateCharacterRelationship w fileName chapters
       language bookType signal).
Proof.
  unfold BookProcessingService.generateCharacterRelationship.
  apply costs_after; [apply costs_getString|].
  assert (costs fileName 1
            (let* characterRelationship :=
               AIService.generateCharacterRelationship w chapters language
                 bookType (Some signal) in
             let* _ :=
               CacheService.setCache w fileName character_relationship
                 (JStr characterRelationship) None in
             ret characterRelationship)) as Hmiss.
  { apply costs_before; [apply costs_characterRelationship|].
    intros text. apply costs_after; [apply costs_setCache|]. intros _.
    apply costs_ret. }
  intros [[|c s]|]; try exact Hmiss. apply costs_ret.
Qed.

Lemma costs_mergeMindMaps bookTitle chapters :
  costs fileName 0
    (BookProcessingService.mergeMindMaps w fileName bookTitle chapters).
Proof.
  unfold BookProcessingService.mergeMindMaps.
  apply costs_after; [apply costs_getMindMap|].
  intros [v|]; [apply costs_ret|].
  apply costs_after; [apply costs_setCache|]. intros _. apply costs_ret.
Qed.

Lemma costs_generateCombinedMindMap bookTitle chapters customPrompt signal :
  costs fileName 1
    (BookProcessingService.generateCombinedMindMap w fileName bookTitle chapters
       customPrompt signal).
Proof.
  unfold BookProcessingService.generateCombinedMindMap.
  apply costs_after; [apply costs_getMindMap|].
  intros [v|]; [apply costs_ret|].
  apply costs_before; [apply costs_combinedMindMap|]. intros v.
  apply costs_after; [apply costs_setCache|]. intros _. apply costs_ret.
Qed.

(** *** The run *)

Section Run.
Context (ctx : PageContext) (book : BookData) (signal : AbortSignal).
Context (customPrompt : jsstring) (useCustomOnly : bool).

Lemma costs_processGroups groups processedGroups processedChapters :
  costs fileName
    (match processingMode ctx with
     | ModeCombinedMindmap => 0
     | _ => length groups
     end)
    (SummaryPage.processGroups w ctx fileName signal customPrompt useCustomOnly
       groups processedGroups processedChapters).
Proof.
  revert processedGroups processedChapters.
  induction groups as [|group groups IH]; intros processedGroups processedChapters.
  - simpl. apply costs_ret.
  - cbn [SummaryPage.processGroups length].
    destruct (processingMode ctx).
    + apply costs_after; [apply costs_set_page, shows_results_onSummary|].
      intros _. apply (costs_bind 1 (length groups)); [lia | |].
      * apply costs_processSummaryGroup. intros notify x [= <-].
        apply shows_results_onSummary.
      * intros result.
        apply costs_after; [apply costs_set_page, shows_results_onSummary|].
        intros _. apply IH.
    + apply costs_after; [apply costs_set_page, shows_results_onMindMap|].
      intros _. apply (costs_bind 1 (length groups)); [lia | |].
      * apply costs_processMindMapGroup.
      * intros result.
        apply costs_after; [apply costs_set_page, shows_results_onMindMap|].
        intros _. apply IH.
    + apply costs_after; [apply costs_set_page, shows_results_onMindMap|].
      intros _. apply IH.
Qed.

Lemma costs_finishBook processedChapters :
  costs fileName
    (match processingMode ctx with
     | ModeSummary => match bookType ctx with fiction => 3 | non_fiction => 2 end
     | ModeMindmap => 0
     | ModeCombinedMindmap => 1
     end)
    (SummaryPage.finishBook w ctx fileName book signal customPrompt processedChapters).
Proof.
  unfold SummaryPage.finishBook. destruct (processingMode ctx).
  - apply costs_after; [apply costs_set_page, shows_results_onSummary|]. intros _.
    apply (costs_bind 1 (match bookType ctx with fiction => 2 | non_fiction => 1 end));
      [destruct (bookType ctx); lia | |].
    { apply costs_generateConnections. intros notify x [= <-].
      apply shows_results_onSummary. }
    intros connections.
    apply costs_after; [apply costs_set_page, shows_results_onSummary|]. intros _.
    apply (costs_bind (match bookType ctx with fiction => 1 | non_fiction => 0 end) 1);
      [destruct (bookType ctx); lia | |].
    { destruct (bookType ctx).
      - apply costs_before; [apply costs_generateCharacterRelationship|].
        intros text. apply costs_set_page, shows_results_onSummary.
      - apply costs_ret. }
    intros _.
    apply costs_after; [apply costs_set_page, shows_results_onSummary|]. intros _.
    apply costs_before.
    { apply costs_generateOverallSummary. intros notify x [= <-].
      apply shows_results_onSummary. }
    intros text. apply costs_set_page, shows_results_onSummary.
  - apply costs_after; [apply costs_mergeMindMaps|]. intros v.
    apply costs_set_page, shows_results_onMindMap.
  - apply costs_before; [apply costs_generateCombinedMindMap|]. intros v.
    apply costs_set_page, shows_results_onMindMap.
Qed.

Lemma costs_processBook chapters chapterTags :
  costs fileName
    (budget (processingMode ctx) (bookType ctx)
       (length (Grouping.groupChaptersByTag chapters chapterTags)))
    (SummaryPage.processBook w ctx fileName book signal customPrompt useCustomOnly
       chapters chapterTags).
Proof.
  unfold SummaryPage.processBook.
  apply costs_after.
  { apply costs_set_page. destruct (processingMode ctx);
      auto using shows_results_setBookSummary, shows_results_setBookMindMap. }
  intros _.
  pose proof (costs_processGroups (Grouping.groupChaptersByTag chapters chapterTags)
                [] []) as Hg.
  pose proof costs_finishBook as Hf.
  unfold budget. destruct (processingMode ctx).
  - eapply costs_bind; [| exact Hg | intros p; apply Hf]. lia.
  - eapply costs_bind; [| exact Hg | intros p; apply Hf]. lia.
  - eapply costs_bind; [| exact Hg | intros p; apply Hf]. lia.
Qed.

End Run.

End FrameFacts.

(** ** Whole runs *)

Section RunFacts.
Import JsString CacheKey StoreSpec StageSpec RunFrame.

(** A call of [handleStartProcessing] is refused and changes nothing, or it
    runs [processBook] on the page as [startPage] sets it and then reports
    how that ended. *)
Lemma handleStartProcessing_run (w : World) (ctx : PageContext)
    (signal : AbortSignal) (selectedChapters : gset jsstring)
    (chapterTags : gmap jsstring jsstring) (customPrompt : jsstring)
    (useCustomOnly : bool) (st : State) :
  SummaryPage.handleStartProcessing w ctx signal selectedChapters chapterTags
    customPrompt useCustomOnly st = (Return Refused, st)
  \/ exists book fileName o2 st2,
       file ctx = Some fileName
       /\ SummaryPage.processBook w ctx fileName book signal customPrompt
            useCustomOnly (selected ctx selectedChapters) chapterTags
            (BookProcessingService.update_page
               (SummaryPage.startPage
                  {| rp_selectedChapters := selectedChapters;
                     rp_chapterTags := chapterTags;
                     rp_customPrompt := customPrompt;
                     rp_useCustomOnly := useCustomOnly |}) st)
          = (o2, st2)
       /\ SummaryPage.handleStartProcessing w ctx signal selectedChapters
            chapterTags customPrompt useCustomOnly st
          = match o2 with
            | Return _ =>
                (Return Finished,
                 BookProcessingService.update_page (SummaryPage.setProcessing false) st2)
            | Throw e =>
                if decide (err_name e = js "AbortError")
                then (Return Cancelled,
                      BookProcessingService.update_page
                        (SummaryPage.setProcessing false) st2)
                else (Return (Failed (err_message e)),
                      BookProcessingService.update_page
                        (SummaryPage.setProcessing false)
                        (BookProcessingService.update_page
                           (SummaryPage.setError (Some (err_message e))) st2))
            end.
Proof.
  unfold SummaryPage.handleStartProcessing, selected.
  destruct (extractedChapters ctx) as [extracted|]; [|now left].
  destruct (bookData ctx) as [book|]; [|now left].
  destruct (file ctx) as [fileName|]; [|now left].
  destruct (negb (nonempty (apiKey ctx))); [now left|].
  destruct (bool_decide (size selectedChapters = 0%nat)); [now left|].
  right. simpl default.
  destruct (SummaryPage.processBook w ctx fileName book signal customPrompt
              useCustomOnly
              (List.filter (fun chapter => bool_decide (id chapter ∈ selectedChapters))
                 extracted)
              chapterTags
              (BookProcessingService.update_page
                 (SummaryPage.startPage
                    {| rp_selectedChapters := selectedChapters;
                       rp_chapterTags := chapterTags;
                       rp_customPrompt := customPrompt;
                       rp_useCustomOnly := useCustomOnly |}) st))
    as [o2 st2] eqn:Hrun.
  exists book, fileName, o2, st2. split; [reflexivity|]. split; [exact Hrun|].
  unfold bind at 1, set_page at 1.
  unfold bind at 1, try_catch, bind at 1.
  unfold BookProcessingService.update_page in Hrun. rewrite Hrun.
  destruct o2 as [[]|e]; [reflexivity|].
  destruct (decide (err_name e = js "AbortError")); reflexivity.
Qed.

Lemma length_groups_le (chapters : list ChapterData)
    (chapterTags : gmap jsstring jsstring) :
  (length (Grouping.groupChaptersByTag chapters chapterTags) <= length chapters)%nat.
Proof.
  destruct (groupChaptersByTag_members chapters chapterTags) as [Hm Hne].
  rewrite <- (Permutation_length Hm). now apply length_members_le.
Qed.

End RunFacts.

(** X7. A run sends a bounded number of requests, however it ends: in
    summary mode at most one for each group and one each for the
    connections, the overall summary and, for fiction, the character
    relationships; in mind-map mode at most one for each group; in
    whole-book mode at most one. There are at most as many groups as
    chapters selected, and a call that is refused sends nothing. *)
Theorem run_request_budget (w : World) (ctx : PageContext)
    (signal : AbortSignal) (selectedChapters : gset jsstring)
    (chapterTags : gmap jsstring jsstring) (customPrompt : jsstring)
    (useCustomOnly : bool) (st st' : State) (o : Outcome RunStatus) :
  SummaryPage.handleStartProcessing w ctx signal selectedChapters chapterTags
    customPrompt useCustomOnly st = (o, st') ->
  let groups :=
    Grouping.groupChaptersByTag (RunFrame.selected ctx selectedChapters) chapterTags in
  (requests st <= requests st'
   <= requests st + RunFrame.budget (processingMode ctx) (bookType ctx) (length groups))%nat
  /\ (length groups <= length (RunFrame.selected ctx selectedChapters))%nat
  /\ (o = Return Refused -> requests st' = requests st).
Proof.
  intros H groups. split; [|split; [apply length_groups_le|]].
  - destruct (handleStartProcessing_run w ctx signal selectedChapters chapterTags
                customPrompt useCustomOnly st)
      as [Hr|(book & fileName & o2 & st2 & _ & Hrun & Hend)].
    + rewrite Hr in H. injection H as _ <-. lia.
    + rewrite Hend in H.
      apply (costs_processBook w fileName ctx book signal customPrompt
               useCustomOnly) in Hrun.
      destruct Hrun as [Hreq _ _ _]. simpl in Hreq. fold groups in Hreq.
      destruct o2 as [[]|e]; [|destruct (decide _)];
        injection H as _ <-; simpl; exact Hreq.
  - destruct (handleStartProcessing_run w ctx signal selectedChapters chapterTags
                customPrompt useCustomOnly st)
      as [Hr|(book & fileName & o2 & st2 & _ & Hrun & Hend)].
    + rewrite Hr in H. now injection H as _ <-.
    + rewrite Hend in H. intros ->.
      destruct o2 as [[]|e]; [|destruct (decide _)]; discriminate H.
Qed.

(** A fiction book of two chapters under one tag: one group, four
    requests. *)
Lemma run_request_budget_witness :
  let run :=
    SummaryPage.handleStartProcessing (StoreSpec.constant_world (js "S") (js "R") None)
      (Sample.context ModeSummary fiction) StoreSpec.never_aborted Sample.both
      Sample.act1 [] false StoreSpec.fresh in
  requests (snd run) = 4%nat
  /\ (0 <= requests (snd run) <= 0 + 4)%nat.
Proof.
  intros run. split; [vm_compute; reflexivity|].
  apply (run_request_budget (StoreSpec.constant_world (js "S") (js "R") None)
           (Sample.context ModeSummary fiction) StoreSpec.never_aborted Sample.both
           Sample.act1 [] false StoreSpec.fresh (snd run) (fst run)).
  apply surjective_pairing.
Defined.

(** X8. A run writes under the keys of its own book only and removes
    nothing: every entry whose key does not start with [book_], the cleaned
    file name and [_] is after the run what it was before, and every key
    that had an entry has one after the run, however the run ends. *)
Theorem run_changes_own_keys_only (w : World) (ctx : PageContext)
    (signal : AbortSignal) (selectedChapters : gset jsstring)
    (chapterTags : gmap jsstring jsstring) (customPrompt : jsstring)
    (useCustomOnly : bool) (st st' : State) (o : Outcome RunStatus)
    (fileName : jsstring) :
  file ctx = Some fileName ->
  SummaryPage.handleStartProcessing w ctx signal selectedChapters chapterTags
    customPrompt useCustomOnly st = (o, st') ->
  (forall key, JsString.startsWith key (RunFrame.bookPrefix fileName) = false ->
               store st' !! key = store st !! key)
  /\ (forall key, is_Some (store st !! key) -> is_Some (store st' !! key)).
Proof.
  intros Hfile H.
  destruct (handleStartProcessing_run w ctx signal selectedChapters chapterTags
              customPrompt useCustomOnly st)
    as [Hr|(book & fileName' & o2 & st2 & Hfile' & Hrun & Hend)].
  - rewrite Hr in H. injection H as _ <-. auto.
  - rewrite Hfile in Hfile'. injection Hfile' as <-.
    rewrite Hend in H.
    apply (costs_processBook w fileName ctx book signal customPrompt
             useCustomOnly) in Hrun.
    destruct Hrun as [_ Hothers Hkept _]. simpl in Hothers, Hkept.
    destruct o2 as [[]|e]; [|destruct (decide _)];
      injection H as _ <-; simpl; auto.
Qed.

(** The summary of another book stays where it is while [book.epub] is
    processed. *)
Lemma run_changes_own_keys_only_witness :
  let other := CacheKey.generateKey (js "other.epub") overall_summary None in
  let st := StoreSpec.with_store {[ other := JStr (js "kept") ]} StoreSpec.fresh in
  let run :=
    SummaryPage.handleStartProcessing (StoreSpec.constant_world (js "S") (js "R") None)
      (Sample.context ModeSummary fiction) StoreSpec.never_aborted Sample.both
      Sample.act1 [] false st in
  store (snd run) !! other = Some (JStr (js "kept")).
Proof.
  intros other st run.
  destruct (run_changes_own_keys_only
              (StoreSpec.constant_world (js "S") (js "R") None)
              (Sample.context ModeSummary fiction) StoreSpec.never_aborted
              Sample.both Sample.act1 [] false st (snd run) (fst run)
              Sample.fileName) as [Hothers _].
  - reflexivity.
  - apply surjective_pairing.
  - rewrite (Hothers other); vm_compute; reflexivity.
Defined.

(** X9. While no abort is requested (the handlers of the page that abort
    a run, going back and retrying, also set the page themselves),
    [handleStartProcessing] never throws. A call that is refused leaves
    the state as it is. Any other call ends with the page on the second
    step, the processing flag off and the retry parameters those of the
    call; the error is set, to the message of what was thrown, exactly
    when the run failed. *)
Theorem run_always_settles (w : World) (ctx : PageContext)
    (signal : AbortSignal) (selectedChapters : gset jsstring)
    (chapterTags : gmap jsstring jsstring) (customPrompt : jsstring)
    (useCustomOnly : bool) (st : State) :
  (forall n, aborted signal n = false) ->
  exists status st',
    SummaryPage.handleStartProcessing w ctx signal selectedChapters chapterTags
      customPrompt useCustomOnly st = (Return status, st')
    /\ match status with
       | Refused => st' = st
       | _ =>
           currentStepIndex (page st') = 2
           /\ processing (page st') = false
           /\ retryParams (page st')
              = Some {| rp_selectedChapters := selectedChapters;
                        rp_chapterTags := chapterTags;
                        rp_customPrompt := customPrompt;
                        rp_useCustomOnly := useCustomOnly |}
           /\ error (page st')
              = match status with Failed message => Some message | _ => None end
       end.
Proof.
  intros _.
  destruct (handleStartProcessing_run w ctx signal selectedChapters chapterTags
              customPrompt useCustomOnly st)
    as [Hr|(book & fileName & o2 & st2 & _ & Hrun & Hend)].
  - exists Refused, st. auto.
  - apply (costs_processBook w fileName ctx book signal customPrompt
             useCustomOnly) in Hrun.
    destruct Hrun as [_ _ _ (Hstep & Hproc & Herr & Hretry)]. simpl in *.
    rewrite Hend.
    destruct o2 as [[]|e]; [|destruct (decide _)];
      eexists _, _; (split; [reflexivity|]); simpl; auto.
Qed.

(** A summary of a fiction book whose provider answers: the run finishes,
    and the page has settled. *)
Lemma run_always_settles_witness :
  exists status st',
    SummaryPage.handleStartProcessing
      (StoreSpec.constant_world (js "S") (js "R") None)
      (Sample.context ModeSummary fiction) StoreSpec.never_aborted Sample.both
      Sample.act1 [] false StoreSpec.fresh = (Return status, st')
    /\ match status with
       | Refused => st' = StoreSpec.fresh
       | _ =>
           currentStepIndex (page st') = 2
           /\ processing (page st') = false
           /\ retryParams (page st')
              = Some {| rp_selectedChapters := Sample.both;
                        rp_chapterTags := Sample.act1;
                        rp_customPrompt := [];
                        rp_useCustomOnly := false |}
           /\ error (page st')
              = match status with Failed message => Some message | _ => None end
       end.
Proof.
  apply (run_always_settles (StoreSpec.constant_world (js "S") (js "R") None)
           (Sample.context ModeSummary fiction) StoreSpec.never_aborted Sample.both
           Sample.act1 [] false StoreSpec.fresh).
  intros n. reflexivity.
Defined.

(** ** More on the store *)

Section SettingsFacts.
Import JsString CacheKey StoreSpec StageSpec KeyShape CacheShape.
Context (w : World).

Lemma getItem_after_setItem key v st :
  fault_free w ->
  CacheService.setItem w key v st
  = (Return tt, with_store (<[key := v]> (store st)) st)
  /\ CacheService.getItem w key (with_store (<[key := v]> (store st)) st)
     = (Return v, with_store (<[key := v]> (store st)) st).
Proof.
  intros Hw. rewrite setItem_eq, getItem_eq, (Hw SetItem), (Hw GetItem).
  split; [reflexivity|]. simpl. now rewrite lookup_insert_eq.
Qed.

(** The members of the object made from a map are the entries of the map. *)
Lemma assoc_of_entries (l : list (jsstring * jsstring)) (name : jsstring) :
  Js.assoc name (map (fun entry => (fst entry, JStr (snd entry))) l)
  = JStr <$> (list_to_map l : gmap jsstring jsstring) !! name.
Proof.
  induction l as [|[k v] l IH]; [reflexivity|]. simpl.
  destruct (decide (k = name)) as [->|Hne].
  - now rewrite lookup_insert_eq.
  - now rewrite lookup_insert_ne.
Qed.

Lemma prop_fromEntries (chapterTags : gmap jsstring jsstring) (name : jsstring) :
  Js.prop name (CacheSettings.fromEntries chapterTags) = JStr <$> chapterTags !! name.
Proof.
  unfold CacheSettings.fromEntries. simpl.
  now rewrite assoc_of_entries, list_to_map_to_list.
Qed.

End SettingsFacts.

(** X10. What is stored for a book with [setCustomPrompt],
    [setUseCustomOnly] and [setSelectedChapters] is what [getCustomPrompt],
    [getUseCustomOnly] and [getSelectedChapters] give back, the selection
    as the array of its members in their order; with nothing stored the
    three give [null], [false] and [null]. (The persistence layer is taken
    not to fail.) *)
Theorem settings_round_trip (w : World) (filename customPrompt : jsstring)
    (useCustomOnly : bool) (selectedChapters : list jsstring) (st : State) :
  StoreSpec.fault_free w ->
  (exists st1,
     CacheSettings.setCustomPrompt w filename customPrompt st = (Return tt, st1)
     /\ CacheSettings.getCustomPrompt w filename st1 = (Return (Some customPrompt), st1))
  /\ (exists st1,
        CacheSettings.setUseCustomOnly w filename useCustomOnly st = (Return tt, st1)
        /\ CacheSettings.getUseCustomOnly w filename st1 = (Return useCustomOnly, st1))
  /\ (exists st1,
        CacheSettings.setSelectedChapters w filename selectedChapters st
        = (Return tt, st1)
        /\ CacheSettings.getSelectedChapters w filename st1
           = (Return (Some (map JStr selectedChapters)), st1))
  /\ (store st = ∅ ->
      CacheSettings.getCustomPrompt w filename st = (Return None, st)
      /\ CacheSettings.getUseCustomOnly w filename st = (Return false, st)
      /\ CacheSettings.getSelectedChapters w filename st = (Return None, st)).
Proof.
  intros Hw. repeat split.
  - destruct (getItem_after_setItem w
                (CacheKey.generateKey filename custom_prompt None)
                (JStr customPrompt) st Hw) as [Hs Hg].
    eexists. split; [exact Hs|].
    unfold CacheSettings.getCustomPrompt, bind. now rewrite Hg.
  - destruct (getItem_after_setItem w
                (CacheKey.generateKey filename use_custom_only None)
                (JBool useCustomOnly) st Hw) as [Hs Hg].
    eexists. split; [exact Hs|].
    unfold CacheSettings.getUseCustomOnly, bind. now rewrite Hg.
  - destruct (getItem_after_setItem w
                (CacheKey.generateKey filename selected_chapters None)
                (JArr (map JStr selectedChapters)) st Hw) as [Hs Hg].
    eexists. split; [exact Hs|].
    unfold CacheSettings.getSelectedChapters, bind. now rewrite Hg.
  - unfold CacheSettings.getCustomPrompt, bind.
    rewrite getItem_eq, (Hw GetItem), H, lookup_empty. reflexivity.
  - unfold CacheSettings.getUseCustomOnly, bind.
    rewrite getItem_eq, (Hw GetItem), H, lookup_empty. reflexivity.
  - unfold CacheSettings.getSelectedChapters, bind.
    rewrite getItem_eq, (Hw GetItem), H, lookup_empty. reflexivity.
Qed.

Lemma settings_round_trip_witness :
  exists st1,
    CacheSettings.setCustomPrompt (StoreSpec.constant_world [] [] None)
      Sample.fileName (js "be brief") StoreSpec.fresh = (Return tt, st1)
    /\ CacheSettings.getCustomPrompt (StoreSpec.constant_world [] [] None)
         Sample.fileName st1 = (Return (Some (js "be brief")), st1).
Proof.
  apply (settings_round_trip (StoreSpec.constant_world [] [] None) Sample.fileName
           (js "be brief") true [js "c1"] StoreSpec.fresh).
  intros op key. reflexivity.
Defined.

(** X11. The tags stored with [setChapterTags] come back from
    [getChapterTags] as an object with a member for each tagged chapter,
    unless a chapter with the id [nodeData] is tagged: then the object is
    taken for a mind map and [getChapterTags] gives [null]. (The
    persistence layer is taken not to fail.) *)
Theorem chapter_tags_round_trip (w : World) (filename : jsstring)
    (chapterTags : gmap jsstring jsstring) (st : State) :
  StoreSpec.fault_free w ->
  exists st1,
    CacheSettings.setChapterTags w filename chapterTags st = (Return tt, st1)
    /\ CacheSettings.getChapterTags w filename st1
       = (Return (match chapterTags !! js "nodeData" with
                  | Some _ => None
                  | None => Some (CacheSettings.fromEntries chapterTags)
                  end), st1)
    /\ forall chapterId,
         Js.prop chapterId (CacheSettings.fromEntries chapterTags)
         = JStr <$> chapterTags !! chapterId.
Proof.
  intros Hw.
  destruct (getItem_after_setItem w
              (CacheKey.generateKey filename chapter_tags None)
              (CacheSettings.fromEntries chapterTags) st Hw) as [Hs Hg].
  eexists. split; [exact Hs|]. split; [|apply prop_fromEntries].
  unfold CacheSettings.getChapterTags, bind. rewrite Hg.
  unfold Js.has. rewrite prop_fromEntries.
  unfold CacheSettings.fromEntries at 1.
  destruct (chapterTags !! js "nodeData"); reflexivity.
Qed.

Lemma chapter_tags_round_trip_witness :
  exists st1,
    CacheSettings.setChapterTags (StoreSpec.constant_world [] [] None)
      Sample.fileName Sample.act1 StoreSpec.fresh = (Return tt, st1)
    /\ CacheSettings.getChapterTags (StoreSpec.constant_world [] [] None)
         Sample.fileName st1
       = (Return (Some (CacheSettings.fromEntries Sample.act1)), st1)
    /\ forall chapterId,
         Js.prop chapterId (CacheSettings.fromEntries Sample.act1)
         = JStr <$> Sample.act1 !! chapterId.
Proof.
  apply (chapter_tags_round_trip (StoreSpec.constant_world [] [] None)
           Sample.fileName Sample.act1 StoreSpec.fresh).
  intros op key. reflexivity.
Defined.

Section ListingFacts.
Import JsString CacheKey StoreSpec StageSpec KeyShape CacheShape.
Context (w : World).

Lemma JsMap_get_set_eq {V} key (v : V) entries :
  JsMap.get key (JsMap.set key v entries) = Some v.
Proof.
  induction entries as [|[k x] rest IH]; simpl.
  - destruct (decide (key = key)); [reflexivity | congruence].
  - destruct (decide (k = key)) as [->|Hne]; simpl.
    + destruct (decide (key = key)); [reflexivity | congruence].
    + destruct (decide (k = key)); [congruence | exact IH].
Qed.

Lemma JsMap_get_set_ne {V} key other (v : V) entries :
  other <> key -> JsMap.get other (JsMap.set key v entries) = JsMap.get other entries.
Proof.
  intros Hne. induction entries as [|[k x] rest IH]; simpl.
  - destruct (decide (key = other)); [congruence | reflexivity].
  - destruct (decide (k = key)) as [->|Hk]; simpl.
    + destruct (decide (key = other)); [congruence | reflexivity].
    + destruct (decide (k = other)); [reflexivity | exact IH].
Qed.

Lemma JsMap_get_None {V} key (entries : list (jsstring * V)) :
  JsMap.get key entries = None <-> ~ In key (map fst entries).
Proof.
  induction entries as [|[k x] rest IH]; simpl; [tauto|].
  destruct (decide (k = key)) as [->|Hne].
  - split; [discriminate | intros H; exfalso; apply H; now left].
  - rewrite IH. split; [intros H [E|Hin]; [congruence | tauto] | tauto].
Qed.

Lemma JsMap_set_keys {V} key (v : V) entries :
  map fst (JsMap.set key v entries)
  = match JsMap.get key entries with
    | Some _ => map fst entries
    | None => map fst entries ++ [key]
    end.
Proof.
  induction entries as [|[k x] rest IH]; simpl; [reflexivity|].
  destruct (decide (k = key)) as [->|Hne]; simpl; [reflexivity|].
  rewrite IH. destruct (JsMap.get key rest); reflexivity.
Qed.

Lemma JsMap_set_NoDup {V} key (v : V) entries :
  List.NoDup (map fst entries) -> List.NoDup (map fst (JsMap.set key v entries)).
Proof.
  intros Hnd. rewrite JsMap_set_keys.
  destruct (JsMap.get key entries) eqn:E; [exact Hnd|].
  apply JsMap_get_None in E.
  apply List.NoDup_rev in Hnd. rewrite <- (rev_involutive (map fst entries ++ [key])).
  apply List.NoDup_rev. rewrite rev_app_distr. simpl. constructor; [|exact Hnd].
  intros Hin. apply E. now apply in_rev.
Qed.

(** The step of the loop of [getCacheEntriesByBook]. *)
Lemma grouping_loop (entries : list CacheEntry)
    (grouped : list (jsstring * list BookEntry)) :
  List.NoDup (map fst grouped) ->
  (forall book es, JsMap.get book grouped = Some es -> es <> []) ->
  let result :=
    fold_left
      (fun grouped entry =>
         let existing :=
           default [] (JsMap.get (bookName (ce_parsed entry)) grouped) in
         JsMap.set (bookName (ce_parsed entry))
           (existing ++ [ {| be_key := ce_key entry;
                             be_type := type (ce_parsed entry);
                             be_chapterId := chapterId (ce_parsed entry) |} ])
           grouped)
      entries grouped in
  List.NoDup (map fst result)
  /\ (forall book es, JsMap.get book result = Some es -> es <> [])
  /\ forall book,
       default [] (JsMap.get book result)
       = default [] (JsMap.get book grouped)
         ++ map bookEntry (List.filter (of_book book) entries).
Proof.
  revert grouped. induction entries as [|entry entries IH]; intros grouped Hnd Hne.
  - simpl. split; [exact Hnd|]. split; [exact Hne|].
    intros book. now rewrite app_nil_r.
  - cbn [fold_left].
    match goal with |- context [fold_left ?f entries ?g] =>
      specialize (IH g) end.
    destruct IH as (Hnd' & Hne' & Hget).
    + now apply JsMap_set_NoDup.
    + intros book es.
      destruct (decide (book = bookName (ce_parsed entry))) as [->|Hb].
      * rewrite JsMap_get_set_eq. intros [= <-].
        destruct (default [] _); discriminate.
      * rewrite JsMap_get_set_ne by exact Hb. apply Hne.
    + split; [exact Hnd'|]. split; [exact Hne'|].
      intros book. rewrite Hget. simpl List.filter. unfold of_book at 2.
      destruct (decide (book = bookName (ce_parsed entry))) as [->|Hb].
      * rewrite JsMap_get_set_eq, bool_decide_eq_true_2 by reflexivity.
        simpl. now rewrite <- app_assoc.
      * rewrite JsMap_get_set_ne by exact Hb.
        rewrite bool_decide_eq_false_2 by congruence. reflexivity.
Qed.

Lemma getAllCacheEntries_eq st :
  store_fault w Keys [] = None ->
  CacheService.getAllCacheEntries w st = (Return (entriesOf (store st)), st).
Proof.
  intros Hk. unfold CacheService.getAllCacheEntries, bind, CacheService.keys.
  rewrite Hk. reflexivity.
Qed.

Lemma deleteKeys_lookup (ks : list jsstring) (m : gmap jsstring JsValue) key :
  deleteKeys ks m !! key = if bool_decide (key ∈ ks) then None else m !! key.
Proof.
  unfold deleteKeys. revert m. induction ks as [|k ks IH]; intros m;
    cbn [fold_left].
  - rewrite bool_decide_eq_false_2; [reflexivity|]. apply not_elem_of_nil.
  - rewrite IH. destruct (decide (k = key)) as [->|Hne].
    + rewrite lookup_delete_eq.
      rewrite (bool_decide_eq_true_2 (key ∈ key :: ks)) by apply list_elem_of_here.
      now destruct (bool_decide (key ∈ ks)).
    + rewrite lookup_delete_ne by exact Hne.
      destruct (bool_decide (key ∈ ks)) eqn:E.
      * apply bool_decide_eq_true in E.
        now rewrite bool_decide_eq_true_2 by now apply list_elem_of_further.
      * apply bool_decide_eq_false in E.
        rewrite bool_decide_eq_false_2; [reflexivity|].
        rewrite elem_of_cons. intros [?|?]; [congruence | tauto].
Qed.

Lemma deleteEntries_fault_free book entries n st :
  fault_free w ->
  CacheService.deleteEntries w book entries n st
  = (Return (n + length (List.filter (of_book book) entries))%nat,
     with_store
       (deleteKeys (map ce_key (List.filter (of_book book) entries)) (store st)) st).
Proof.
  intros Hw. revert n st. induction entries as [|entry entries IH]; intros n st.
  - simpl. unfold ret, deleteKeys. simpl. rewrite with_store_same.
    f_equal. f_equal. lia.
  - cbn [CacheService.deleteEntries List.filter].
    destruct (decide (bookName (ce_parsed entry) = book)) as [Hb|Hb].
    + assert (of_book book entry = true) as ->
        by (now apply bool_decide_eq_true_2).
      unfold bind at 1, CacheService.counted, bind at 1.
      rewrite deleteCacheByKey_eq, (Hw RemoveItem). cbn [ret].
      rewrite IH. unfold deleteKeys. simpl. f_equal. f_equal. lia.
    + assert (of_book book entry = false) as ->
        by (now apply bool_decide_eq_false_2).
      apply IH.
Qed.

Lemma In_entriesOf (m : gmap jsstring JsValue) entry :
  In entry (entriesOf m)
  <-> is_Some (m !! ce_key entry) /\ parseKey (ce_key entry) = Some (ce_parsed entry).
Proof.
  unfold entriesOf. rewrite <- list_elem_of_In, list_elem_of_omap. split.
  - intros (key & Hin & Hp).
    destruct (parseKey key) as [parsed|] eqn:E; [|discriminate].
    injection Hp as <-. simpl. split; [|exact E].
    rewrite sort_perm in Hin.
    apply list_elem_of_fmap in Hin as ([k v] & -> & Hin).
    apply elem_of_map_to_list in Hin. simpl. eauto.
  - intros [[v Hv] Hp]. exists (ce_key entry). split.
    + rewrite sort_perm.
      apply list_elem_of_fmap. exists (ce_key entry, v). split; [reflexivity|].
      now apply elem_of_map_to_list.
    + rewrite Hp. destruct entry; reflexivity.
Qed.

Lemma clearBookCache_fault_free fileName mode st :
  fault_free w ->
  CacheService.clearBookCache w fileName mode st
  = (Return (length (bookLevelKinds mode)
             + length (sweptKeys fileName mode
                         (deleteKinds fileName (bookLevelKinds mode) (store st))))%nat,
     with_store
       (deleteKeys
          (sweptKeys fileName mode
             (deleteKinds fileName (bookLevelKinds mode) (store st)))
          (deleteKinds fileName (bookLevelKinds mode) (store st))) st).
Proof.
  intros Hw. unfold CacheService.clearBookCache.
  unfold bind at 1. rewrite counted_delete_fault_free by exact Hw.
  unfold bind at 1. rewrite counted_delete_fault_free by exact Hw.
  destruct mode.
  - unfold bind at 1. rewrite counted_delete_fault_free by exact Hw.
    unfold bind at 1. rewrite counted_delete_fault_free by exact Hw.
    unfold bind at 1. rewrite counted_delete_fault_free by exact Hw.
    unfold bind at 1, CacheService.getAllKeys, CacheService.keys.
    rewrite (Hw Keys). rewrite swept_fault_free by exact Hw.
    reflexivity.
  - unfold bind at 1. rewrite counted_delete_fault_free by exact Hw.
    unfold bind at 1. rewrite counted_delete_fault_free by exact Hw.
    unfold bind at 1, CacheService.getAllKeys, CacheService.keys.
    rewrite (Hw Keys). rewrite swept_fault_free by exact Hw.
    reflexivity.
  - rewrite counted_delete_fault_free by exact Hw. reflexivity.
Qed.

Lemma deleteKinds_lookup (fileName : jsstring) (kinds : list CacheKeyType)
    (m : gmap jsstring JsValue) (key : jsstring) :
  deleteKinds fileName kinds m !! key
  = if bool_decide (key ∈ map (fun t => generateKey fileName t None) kinds)
    then None else m !! key.
Proof.
  unfold deleteKinds.
  replace (fold_left (fun m t => delete (generateKey fileName t None) m) kinds m)
    with (deleteKeys (map (fun t => generateKey fileName t None) kinds) m).
  - apply deleteKeys_lookup.
  - unfold deleteKeys. revert m. induction kinds as [|t kinds IH]; intros m;
      [reflexivity | apply IH].
Qed.

Lemma StronglySorted_filter_list {A} (R : relation A) (f : A -> bool) (l : list A) :
  StronglySorted R l -> StronglySorted R (List.filter f l).
Proof.
  induction 1 as [|x l _ IH Hall]; simpl; [constructor|].
  destruct (f x); [|exact IH]. constructor; [exact IH|].
  apply List.Forall_forall. intros y [Hy _]%filter_In.
  rewrite List.Forall_forall in Hall. now apply Hall.
Qed.

Lemma StronglySorted_strict (l : list jsstring) :
  StronglySorted CodeUnits.ascending l -> NoDup l ->
  StronglySorted CodeUnits.before l.
Proof.
  induction 1 as [|x l _ IH Hall]; intros Hnd; [constructor|].
  apply NoDup_cons in Hnd as [Hx Hnd]. constructor; [now apply IH|].
  rewrite List.Forall_forall in *. intros y Hy. split; [now apply Hall|].
  intros ->. apply Hx. now apply list_elem_of_In.
Qed.

(** The store lists its keys in ascending order, each once. *)
Lemma keys_ascending (m : gmap jsstring JsValue) :
  StronglySorted CodeUnits.before (sort (map fst (map_to_list m))).
Proof.
  apply StronglySorted_strict.
  - apply (@Sorted_StronglySorted _ CodeUnits.ascending ascending_trans).
    apply sort_ascending.
  - rewrite sort_perm. apply NoDup_fst_map_to_list.
Qed.

Lemma entriesOf_keys (ks : list jsstring) :
  map ce_key
    (omap (fun key =>
             match parseKey key with
             | Some parsed => Some {| ce_key := key; ce_parsed := parsed |}
             | None => None
             end) ks)
  = List.filter (fun key => bool_decide (is_Some (parseKey key))) ks.
Proof.
  induction ks as [|key ks IH]; [reflexivity|]. cbn [omap list_omap List.filter].
  destruct (parseKey key) as [parsed|]; simpl; [f_equal|]; exact IH.
Qed.

Lemma entriesOf_ascending (m : gmap jsstring JsValue) :
  StronglySorted CodeUnits.before (map ce_key (entriesOf m)).
Proof.
  unfold entriesOf. rewrite entriesOf_keys.
  apply StronglySorted_filter_list, keys_ascending.
Qed.

End ListingFacts.

(** X12. [getCacheEntriesByBook] lists under each book name the entries
    of that book, in the order of the listing of the store, and nothing
    else: no entry is lost, no book is listed twice, and no book is listed
    without entries. The listing of the store holds the stored keys that
    [parseKey] reads, each once, in ascending order of their code units.
    (Listing the keys is taken not to fail.) *)
Theorem getCacheEntriesByBook_groups (w : World) (st : State) :
  store_fault w Keys [] = None ->
  exists grouped,
    CacheSettings.getCacheEntriesByBook w st = (Return grouped, st)
    /\ List.NoDup (map fst grouped)
    /\ (forall book es, JsMap.get book grouped = Some es -> es <> [])
    /\ (forall book,
          default [] (JsMap.get book grouped)
          = map CacheShape.bookEntry
              (List.filter (CacheShape.of_book book)
                 (CacheShape.entriesOf (store st))))
    /\ StronglySorted CodeUnits.before
         (map ce_key (CacheShape.entriesOf (store st)))
    /\ (forall entry,
          In entry (CacheShape.entriesOf (store st))
          <-> is_Some (store st !! ce_key entry)
              /\ CacheKey.parseKey (ce_key entry) = Some (ce_parsed entry)).
Proof.
  intros Hk. unfold CacheSettings.getCacheEntriesByBook, bind.
  rewrite (getAllCacheEntries_eq w st Hk). eexists. split; [reflexivity|].
  destruct (grouping_loop (CacheShape.entriesOf (store st)) [])
    as (Hnd & Hne & Hget).
  - constructor.
  - intros book es H. discriminate H.
  - split; [exact Hnd|]. split; [exact Hne|]. split; [intros book; apply Hget|].
    split; [apply entriesOf_ascending | apply In_entriesOf].
Qed.

Lemma getCacheEntriesByBook_groups_witness :
  let st :=
    StoreSpec.with_store
      {[ js "book_a_connections" := JStr (js "x");
         js "book_b_chapter_1_summary" := JStr (js "y");
         js "book_a_chapter_2_mindmap" := JNull ]} StoreSpec.fresh in
  exists grouped,
    CacheSettings.getCacheEntriesByBook (StoreSpec.constant_world [] [] None) st
    = (Return grouped, st)
    /\ List.NoDup (map fst grouped)
    /\ (forall book es, JsMap.get book grouped = Some es -> es <> [])
    /\ (forall book,
          default [] (JsMap.get book grouped)
          = map CacheShape.bookEntry
              (List.filter (CacheShape.of_book book)
                 (CacheShape.entriesOf (store st))))
    /\ StronglySorted CodeUnits.before
         (map ce_key (CacheShape.entriesOf (store st)))
    /\ (forall entry,
          In entry (CacheShape.entriesOf (store st))
          <-> is_Some (store st !! ce_key entry)
              /\ CacheKey.parseKey (ce_key entry) = Some (ce_parsed entry)).
Proof.
  intros st.
  apply (getCacheEntriesByBook_groups (StoreSpec.constant_world [] [] None) st).
  reflexivity.
Defined.

(** The listing of that store: the keys of book [a] in ascending order, the
    chapter key before the book key, then the key of book [b]. *)
Example getCacheEntriesByBook_order :
  fst (CacheSettings.getCacheEntriesByBook (StoreSpec.constant_world [] [] None)
         (StoreSpec.with_store
            {[ js "book_a_connections" := JStr (js "x");
               js "book_b_chapter_1_summary" := JStr (js "y");
               js "book_a_chapter_2_mindmap" := JNull ]} StoreSpec.fresh))
  = Return
      [ (js "a",
         [ {| be_key := js "book_a_chapter_2_mindmap"; be_type := mindmap;
              be_chapterId := Some (js "2") |};
           {| be_key := js "book_a_connections"; be_type := connections;
              be_chapterId := None |} ]);
        (js "b",
         [ {| be_key := js "book_b_chapter_1_summary"; be_type := summary;
              be_chapterId := Some (js "1") |} ]) ].
Proof. vm_compute. reflexivity. Qed.

(** X13. [deleteBookAllCache] removes the entries whose keys are read as
    keys of the book, and no other: every other key keeps what it had.
    The count returned is the number of entries of the book. (The
    persistence layer is taken not to fail.) *)
Theorem deleteBookAllCache_removes_the_book (w : World) (book : jsstring)
    (st : State) :
  StoreSpec.fault_free w ->
  exists st',
    CacheService.deleteBookAllCache w book st
    = (Return (length (List.filter (CacheShape.of_book book)
                         (CacheShape.entriesOf (store st)))), st')
    /\ forall key,
         store st' !! key
         = if CacheShape.key_of_book book key then None else store st !! key.
Proof.
  intros Hw. unfold CacheService.deleteBookAllCache, bind.
  rewrite (getAllCacheEntries_eq w st (Hw Keys [])).
  rewrite (deleteEntries_fault_free w book _ 0 st Hw).
  eexists. split; [reflexivity|]. intros key. simpl.
  rewrite deleteKeys_lookup.
  unfold CacheShape.key_of_book.
  destruct (bool_decide (key ∈ _)) eqn:E.
  - apply bool_decide_eq_true in E.
    apply list_elem_of_fmap in E as (entry & -> & Hin).
    apply list_elem_of_In, filter_In in Hin as [Hin Hb].
    apply In_entriesOf in Hin as [_ Hp]. rewrite Hp. unfold CacheShape.of_book in Hb.
    now rewrite Hb.
  - apply bool_decide_eq_false in E.
    destruct (CacheKey.parseKey key) as [parsed|] eqn:Hp; [|reflexivity].
    destruct (bool_decide (bookName parsed = book)) eqn:Hb; [|reflexivity].
    destruct (store st !! key) as [v|] eqn:Hv; [|reflexivity].
    exfalso. apply E. apply list_elem_of_fmap.
    exists {| ce_key := key; ce_parsed := parsed |}. split; [reflexivity|].
    apply list_elem_of_In, filter_In. split; [|exact Hb].
    apply In_entriesOf. simpl. rewrite Hv. eauto.
Qed.

Lemma deleteBookAllCache_removes_the_book_witness :
  exists st',
    CacheService.deleteBookAllCache (StoreSpec.constant_world [] [] None) (js "a")
      (StoreSpec.with_store
         {[ js "book_a_connections" := JStr (js "x");
            js "book_b_chapter_1_summary" := JStr (js "y") ]} StoreSpec.fresh)
    = (Return 1%nat, st')
    /\ store st' !! js "book_b_chapter_1_summary" = Some (JStr (js "y"))
    /\ store st' !! js "book_a_connections" = None.
Proof.
  destruct (deleteBookAllCache_removes_the_book
              (StoreSpec.constant_world [] [] None) (js "a")
              (StoreSpec.with_store
                 {[ js "book_a_connections" := JStr (js "x");
                    js "book_b_chapter_1_summary" := JStr (js "y") ]}
                 StoreSpec.fresh)) as (st' & Hrun & Hstore).
  - intros op key. reflexivity.
  - exists st'. split; [exact Hrun|]. split; rewrite Hstore; vm_compute; reflexivity.
Defined.

Section ClearingFacts.
Import JsString CacheKey KeySpec StoreSpec StageSpec KeyShape CacheShape RunFrame.

Lemma endsWith_app (a p : jsstring) : endsWith (a ++ p) p = true.
Proof. unfold endsWith. rewrite rev_app_distr. apply startsWith_app. Qed.

Lemma chapter_key_shape fileName t (groupId : jsstring) :
  groupId <> [] ->
  generateKey fileName t (Some groupId)
  = bookPrefix fileName ++ js "chapter_" ++ groupId ++ js "_" ++ type_name t.
Proof.
  intros Hne. unfold generateKey, bookPrefix.
  destruct groupId as [|c cs]; [congruence|]. now rewrite <- !app_assoc.
Qed.

Lemma chapter_key_is_swept fileName t (groupId : jsstring) :
  groupId <> [] ->
  startsWith (generateKey fileName t (Some groupId)) (bookPrefix fileName)
  && includes (generateKey fileName t (Some groupId)) (js "_chapter_")
  && endsWith (generateKey fileName t (Some groupId)) (js "_" ++ type_name t) = true.
Proof.
  intros Hne. rewrite generateKey_prefix. cbn [andb].
  rewrite (chapter_key_shape _ _ _ Hne). unfold bookPrefix.
  apply andb_true_iff. split.
  - replace ((js "book_" ++ cleanFilename fileName ++ js "_")
             ++ js "chapter_" ++ groupId ++ js "_" ++ type_name t)
      with ((js "book_" ++ cleanFilename fileName)
            ++ js "_chapter_" ++ (groupId ++ js "_" ++ type_name t))
      by (now rewrite <- !app_assoc).
    apply includes_app.
  - replace ((js "book_" ++ cleanFilename fileName ++ js "_")
             ++ js "chapter_" ++ groupId ++ js "_" ++ type_name t)
      with (((js "book_" ++ cleanFilename fileName ++ js "_")
             ++ js "chapter_" ++ groupId) ++ js "_" ++ type_name t)
      by (now rewrite <- !app_assoc).
    apply endsWith_app.
Qed.

Lemma other_kind_not_swept fileName t t' (chapterId : option jsstring) :
  chapter_scoped t = true -> chapter_scoped t' = true -> t <> t' ->
  endsWith (generateKey fileName t chapterId) (js "_" ++ type_name t') = false.
Proof.
  intros Ht Ht' Hne.
  assert (exists a, generateKey fileName t chapterId = a ++ js "_" ++ type_name t)
    as [a ->].
  { unfold generateKey. destruct chapterId as [[|c cs]|].
    - exists (js "book_" ++ cleanFilename fileName). now rewrite <- !app_assoc.
    - exists (js "book_" ++ cleanFilename fileName ++ js "_chapter_" ++ c :: cs).
      now rewrite <- !app_assoc.
    - exists (js "book_" ++ cleanFilename fileName). now rewrite <- !app_assoc. }
  unfold endsWith. rewrite rev_app_distr.
  destruct t; try discriminate Ht; destruct t'; try discriminate Ht';
    try congruence; reflexivity.
Qed.

Lemma In_chapterKeysOf bookPrefix suffix (allKeys : list jsstring) key :
  key ∈ CacheService.chapterKeysOf bookPrefix suffix allKeys
  <-> key ∈ allKeys
      /\ startsWith key bookPrefix && includes key (js "_chapter_")
         && endsWith key suffix = true.
Proof.
  unfold CacheService.chapterKeysOf.
  rewrite !list_elem_of_In, filter_In. reflexivity.
Qed.

Lemma In_keys (m : gmap jsstring JsValue) key :
  key ∈ map fst (map_to_list m) <-> is_Some (m !! key).
Proof.
  rewrite list_elem_of_fmap. split.
  - intros ([k v] & -> & Hin). apply elem_of_map_to_list in Hin. simpl. eauto.
  - intros [v Hv]. exists (key, v). split; [reflexivity|].
    now apply elem_of_map_to_list.
Qed.

Lemma bookLevelKinds_not_chapter mode t :
  In t (bookLevelKinds mode) -> chapter_scoped t = false.
Proof.
  destruct mode; simpl; intros H;
    repeat (destruct H as [<-|H]; [reflexivity|]); destruct H.
Qed.

End ClearingFacts.

(** X14. After [clearBookCache] nothing is stored for the book under the
    book-level kinds of the mode, nor under the chapter kind of the mode
    for any group id that is not empty, whatever was stored before; what is
    stored under the other chapter kind stays. (The persistence layer is
    taken not to fail.) *)
Theorem clearBookCache_clears_the_mode (w : World) (fileName : jsstring)
    (mode : ClearMode) (st : State) :
  StoreSpec.fault_free w ->
  exists n st',
    CacheService.clearBookCache w fileName mode st = (Return n, st')
    /\ (forall t, In t (StoreSpec.bookLevelKinds mode) ->
          store st' !! CacheKey.generateKey fileName t None = None)
    /\ (forall t groupId,
          CacheShape.sweptKind mode = Some t -> groupId <> [] ->
          store st' !! CacheKey.generateKey fileName t (Some groupId) = None)
    /\ (forall t chapterId,
          KeySpec.chapter_scoped t = true -> CacheShape.sweptKind mode <> Some t ->
          store st' !! CacheKey.generateKey fileName t chapterId
          = store st !! CacheKey.generateKey fileName t chapterId).
Proof.
  intros Hw. rewrite (clearBookCache_fault_free w fileName mode st Hw).
  eexists _, _. split; [reflexivity|]. cbn [store StoreSpec.with_store].
  split; [|split].
  - intros t Hin. rewrite deleteKeys_lookup.
    destruct (bool_decide _); [reflexivity|].
    rewrite deleteKinds_lookup, bool_decide_eq_true_2; [reflexivity|].
    apply list_elem_of_fmap. exists t. split; [reflexivity|].
    now apply list_elem_of_In.
  - intros t groupId Ht Hne. rewrite deleteKeys_lookup.
    destruct (bool_decide _) eqn:E; [reflexivity|].
    apply bool_decide_eq_false in E.
    destruct (StoreSpec.deleteKinds fileName (StoreSpec.bookLevelKinds mode)
                (store st) !! CacheKey.generateKey fileName t (Some groupId))
      as [v|] eqn:Hv; [|reflexivity].
    exfalso. apply E. unfold StoreSpec.sweptKeys.
    pose proof (chapter_key_is_swept fileName t groupId Hne) as Hs.
    destruct mode; simpl in Ht; try discriminate Ht; injection Ht as <-;
      (apply In_chapterKeysOf; split; [apply In_keys; rewrite Hv; eauto | exact Hs]).
  - intros t chapterId Ht Hmode. rewrite deleteKeys_lookup.
    rewrite bool_decide_eq_false_2.
    + rewrite deleteKinds_lookup, bool_decide_eq_false_2; [reflexivity|].
      intros Hin. apply list_elem_of_fmap in Hin as (t' & E & Hin).
      apply list_elem_of_In in Hin.
      pose proof (bookLevelKinds_not_chapter mode t' Hin) as Ht'.
      exact (chapter_kind_key_apart fileName t t' chapterId Ht Ht' E).
    + unfold StoreSpec.sweptKeys. destruct mode.
      * intros Hin. apply In_chapterKeysOf in Hin as [_ Hin].
        apply andb_true_iff in Hin as [_ Hin].
        pose proof (other_kind_not_swept fileName t summary chapterId Ht eq_refl) as Hn.
        change (js "_" ++ type_name summary) with (js "_summary") in Hn.
        rewrite Hn in Hin; [discriminate|]. intros ->. now apply Hmode.
      * intros Hin. apply In_chapterKeysOf in Hin as [_ Hin].
        apply andb_true_iff in Hin as [_ Hin].
        pose proof (other_kind_not_swept fileName t mindmap chapterId Ht eq_refl) as Hn.
        change (js "_" ++ type_name mindmap) with (js "_mindmap") in Hn.
        rewrite Hn in Hin; [discriminate|]. intros ->. now apply Hmode.
      * apply not_elem_of_nil.
Qed.

Lemma clearBookCache_clears_the_mode_witness :
  exists n st',
    CacheService.clearBookCache (StoreSpec.constant_world [] [] None)
      Sample.fileName ClearSummary
      (StoreSpec.with_store
         {[ Sample.summaryKey := JStr (js "S"); Sample.mindMapKey := Sample.smallMap ]}
         StoreSpec.fresh)
    = (Return n, st')
    /\ store st' !! Sample.summaryKey = None
    /\ store st' !! Sample.mindMapKey = Some Sample.smallMap.
Proof.
  destruct (clearBookCache_clears_the_mode (StoreSpec.constant_world [] [] None)
              Sample.fileName ClearSummary
              (StoreSpec.with_store
                 {[ Sample.summaryKey := JStr (js "S");
                    Sample.mindMapKey := Sample.smallMap ]} StoreSpec.fresh))
    as (n & st' & Hrun & _ & Hswept & Hkept).
  - intros op key. reflexivity.
  - exists n, st'. split; [exact Hrun|]. split.
    + apply (Hswept summary (js "Intro")); [reflexivity | discriminate].
    + unfold Sample.mindMapKey. rewrite (Hkept mindmap); [|reflexivity|discriminate].
      vm_compute. reflexivity.
Defined.

(** ** More on the provider calls *)

Section ConnectionFacts.
Import JsString StoreSpec AIConnection.

Lemma includes_split (s p : jsstring) :
  includes s p = true -> exists pre post, s = pre ++ p ++ post.
Proof.
  induction s as [|c s IH]; rewrite includes_unfold; unfold startsWith.
  - destruct (strip_prefix p []) as [r|] eqn:E; [|discriminate].
    intros _. apply strip_prefix_Some in E. exists [], r. exact E.
  - destruct (strip_prefix p (c :: s)) as [r|] eqn:E.
    + intros _. apply strip_prefix_Some in E. exists [], r. exact E.
    + simpl. intros H. destruct (IH H) as (pre & post & ->).
      exists (c :: pre), post. reflexivity.
Qed.

(** A string that includes a text includes the end of the text. *)
Lemma includes_end (s a p : jsstring) :
  includes s (a ++ p) = true -> includes s p = true.
Proof.
  intros H. apply includes_split in H as (pre & post & ->).
  rewrite <- app_assoc, app_assoc. apply includes_app.
Qed.

Lemma success_test (content : jsstring) :
  includes content [36830; 25509; 25104; 21151] || includes content [25104; 21151]
  = includes content [25104; 21151].
Proof.
  destruct (includes content [36830; 25509; 25104; 21151]) eqn:E; [|reflexivity].
  simpl. symmetry. apply (includes_end content [36830; 25509]). exact E.
Qed.

End ConnectionFacts.

(** X15. [testConnection] never throws and sends exactly one request. It
    answers true exactly when the provider completes the request with a
    content that includes 成功; the test for 连接成功 adds nothing. Every
    failure of the request gives false. *)
Theorem testConnection_outcome (w : World) (st : State) :
  exists ok st',
    AIConnection.testConnection w st = (Return ok, st')
    /\ requests st' = S (requests st)
    /\ store st' = store st /\ page st' = page st
    /\ ok = match complete w (requests st)
                    {| req_content :=
                         AIService.user_message w
                           AIConnection.getTestConnectionPrompt None;
                       req_json := false; req_stream := false |} with
            | Completed content _ => JsString.includes content [25104; 21151]
            | _ => false
            end.
Proof.
  unfold AIConnection.testConnection, try_catch, bind at 1.
  unfold AIService.generateContent, bind at 1.
  unfold AIService.is_aborted, AIService.requests_sent, bind at 1, ret at 1.
  cbn [ret]. unfold bind at 1, AIService.count_request.
  destruct (complete w (requests st) _) as [e|? ? ?|? ?|content reasoning];
    cbn [throw ret msg_content]; eexists _, _;
    (split; [reflexivity|]); cbn [requests store page];
    repeat split.
  apply success_test.
Qed.

Section FramingFacts.
Import JsString AIConnection.

Lemma split_nonempty (s : jsstring) : split s <> [].
Proof.
  induction s as [|c s IH]; simpl; [discriminate|].
  destruct (c =? 10); [discriminate|].
  destruct (split s); discriminate.
Qed.

Lemma removelast_cons {A} (x : A) (l : list A) :
  l <> [] -> removelast (x :: l) = x :: removelast l.
Proof. destruct l; [congruence | reflexivity]. Qed.

Lemma last_cons {A} (x d : A) (l : list A) :
  l <> [] -> List.last (x :: l) d = List.last l d.
Proof. destruct l; [congruence | reflexivity]. Qed.

(** The lines of a text and what follows it: the lines of the text but the
    last, then the lines of the last with what follows. *)
Lemma split_app (a b : jsstring) :
  split (a ++ b) = removelast (split a) ++ split (List.last (split a) [] ++ b).
Proof.
  induction a as [|c a IH]; [reflexivity|].
  cbn [app split]. destruct (c =? 10) eqn:Ec.
  - rewrite removelast_cons, last_cons by apply split_nonempty.
    rewrite IH. reflexivity.
  - rewrite IH. pose proof (split_nonempty a) as Hne.
    destruct (split a) as [|l1 [|l2 rest]]; [congruence| |].
    + cbn [removelast List.last app split]. rewrite Ec. reflexivity.
    + change (removelast (l1 :: l2 :: rest)) with (l1 :: removelast (l2 :: rest)).
      change (List.last (l1 :: l2 :: rest) []) with (List.last (l2 :: rest) []).
      cbn [app].
      change (removelast ((c :: l1) :: l2 :: rest))
        with ((c :: l1) :: removelast (l2 :: rest)).
      change (List.last ((c :: l1) :: l2 :: rest) [])
        with (List.last (l2 :: rest) []).
      reflexivity.
Qed.

Lemma removelast_app_nonempty {A} (x y : list A) :
  y <> [] -> removelast (x ++ y) = x ++ removelast y.
Proof. intros Hy. now apply removelast_app. Qed.

Lemma last_app_nonempty {A} (x y : list A) d :
  y <> [] -> List.last (x ++ y) d = List.last y d.
Proof.
  intros Hy. induction x as [|a x IH]; [reflexivity|].
  cbn [app]. rewrite last_cons; [exact IH|].
  destruct x; [exact Hy | discriminate].
Qed.

Lemma split_line (s : jsstring) :
  forallb (fun c => negb (c =? 10)) s = true -> split s = [s].
Proof.
  induction s as [|c s IH]; [reflexivity|]. simpl.
  intros H. apply andb_true_iff in H as [Hc Hs].
  apply negb_true_iff in Hc. now rewrite Hc, (IH Hs).
Qed.

Lemma split_lines (s : jsstring) :
  List.Forall (fun line => forallb (fun c => negb (c =? 10)) line = true) (split s).
Proof.
  induction s as [|c s IH]; simpl; [repeat constructor|].
  destruct (c =? 10) eqn:Ec; [constructor; [reflexivity | exact IH]|].
  destruct (split s) as [|line lines]; [repeat constructor; simpl; now rewrite Ec|].
  inversion IH as [|? ? Hl Hr]; subst.
  constructor; [simpl; now rewrite Ec, Hl | exact Hr].
Qed.

Lemma last_line (s : jsstring) :
  forallb (fun c => negb (c =? 10)) (List.last (split s) []) = true.
Proof.
  pose proof (split_lines s) as H.
  induction (split s) as [|line lines IH]; [reflexivity|].
  inversion H as [|? ? Hl Hr]; subst.
  destruct lines; [exact Hl | now apply IH].
Qed.

(** The loop from any buffer on; the buffer is a line. *)
Lemma readLoop_from {S} (onData : jsstring -> S -> S) (chunks : list jsstring)
    (buffer : jsstring) (s : S) :
  forallb (fun c => negb (c =? 10)) buffer = true ->
  fold_left (readChunk onData) chunks (buffer, s)
  = (List.last (split (buffer ++ List.concat chunks)) [],
     fold_left
       (fun s line =>
          match dataOf line with
          | Some jsonStr => onData jsonStr s
          | None => s
          end)
       (removelast (split (buffer ++ List.concat chunks))) s).
Proof.
  revert buffer s. induction chunks as [|chunk chunks IH]; intros buffer s Hb.
  - simpl. rewrite app_nil_r, (split_line buffer Hb). reflexivity.
  - cbn [fold_left List.concat]. unfold readChunk at 2.
    rewrite IH by apply last_line.
    rewrite (app_assoc buffer chunk), (split_app (buffer ++ chunk)).
    rewrite removelast_app_nonempty, last_app_nonempty by apply split_nonempty.
    now rewrite fold_left_app.
Qed.

End FramingFacts.

(** X16. The read loop of [generateContentStream] does not depend on how
    the body is cut into chunks: it hands to the parser, in order, the data
    of the lines of the whole text that end in a line feed. What follows
    the last line feed when the stream ends is never parsed. *)
Theorem readLoop_chunking {S : Type} (onData : jsstring -> S -> S)
    (chunks : list jsstring) (s : S) :
  AIConnection.readLoop onData chunks s
  = fold_left
      (fun s line =>
         match AIConnection.dataOf line with
         | Some jsonStr => onData jsonStr s
         | None => s
         end)
      (removelast (AIConnection.split (List.concat chunks))) s
  /\ AIConnection.readLoop onData chunks s
     = AIConnection.readLoop onData [List.concat chunks] s.
Proof.
  unfold AIConnection.readLoop.
  rewrite !readLoop_from by reflexivity. simpl.
  now rewrite app_nil_r.
Qed.

(** A stream cut in the middle of a line, and one whose last line has no
    line feed. *)
Example readLoop_partial_lines :
  AIConnection.readLoop (fun jsonStr seen => seen ++ [jsonStr])
    [js "data: {a"; js "}"; [10]; js "data: {b}"] []
  = [js "{a}"].
Proof. vm_compute. reflexivity. Qed.

Section FenceFacts.
Import JsString.

Lemma trimStart_spaces (ws : jsstring) c (r : jsstring) :
  forallb is_space ws = true -> is_space c = false ->
  trimStart (ws ++ c :: r) = c :: r.
Proof.
  intros Hws Hc. induction ws as [|x ws IH]; simpl.
  - now rewrite Hc.
  - simpl in Hws. apply andb_true_iff in Hws as [Hx Hws]. rewrite Hx. now apply IH.
Qed.

Lemma trimStart_has_text (s : jsstring) c :
  In c s -> is_space c = false -> trimStart s <> [].
Proof.
  intros Hin Hc. induction s as [|x s IH]; [destruct Hin|]. simpl.
  destruct (is_space x) eqn:Ex; [|discriminate].
  apply IH. destruct Hin as [->|Hin]; [congruence | exact Hin].
Qed.

(** A text with a character that is no white space is not blank. *)
Lemma trim_has_text (s : jsstring) c :
  In c s -> is_space c = false -> nonempty (trim s) = true.
Proof.
  intros Hin Hc. pose proof (trimStart_has_text s c Hin Hc) as Hne.
  destruct (trimStart s) as [|x t] eqn:E; [congruence|].
  pose proof (trimStart_head s x t E) as Hx.
  pose proof (trim_nonempty x t Hx) as H.
  unfold trim in *. rewrite E. simpl trimStart at 2 in H. now rewrite Hx in H.
Qed.

Lemma until_fence_body (body post : jsstring) :
  forallb (fun x => negb (x =? 96)) body = true ->
  AIService.until_fence (body ++ js "```" ++ post) = Some body.
Proof.
  induction body as [|c body IH]; intros Hb; rewrite until_fence_eq.
  - change ([] ++ js "```" ++ post) with (js "```" ++ post).
    now rewrite strip_prefix_app.
  - simpl in Hb. apply andb_true_iff in Hb as [Hc Hb].
    apply negb_true_iff, Z.eqb_neq in Hc.
    assert (strip_prefix (js "```") ((c :: body) ++ js "```" ++ post) = None) as ->.
    { change (js "```") with [96; 96; 96] at 1. cbn [app strip_prefix].
      destruct (decide (96 = c)); [congruence | reflexivity]. }
    cbn [app]. now rewrite (IH Hb).
Qed.

Lemma jsonMatch_eq (s : jsstring) :
  AIService.jsonMatch s
  = match AIService.json_fence_at s with
    | Some g => Some g
    | None =>
        match s with
        | [] => None
        | _ :: r => AIService.jsonMatch r
        end
    end.
Proof. destruct s; reflexivity. Qed.

Lemma jsonMatch_skip (pre s : jsstring) :
  forallb (fun x => negb (x =? 96)) pre = true ->
  AIService.jsonMatch (pre ++ s) = AIService.jsonMatch s.
Proof.
  induction pre as [|c pre IH]; intros Hp; [reflexivity|].
  simpl in Hp. apply andb_true_iff in Hp as [Hc Hp].
  apply negb_true_iff, Z.eqb_neq in Hc.
  cbn [app]. rewrite jsonMatch_eq.
  assert (AIService.json_fence_at (c :: pre ++ s) = None) as ->.
  { unfold AIService.json_fence_at.
    change (js "```") with [96; 96; 96]. cbn [strip_prefix].
    destruct (decide (96 = c)); [congruence | reflexivity]. }
  now apply IH.
Qed.

Lemma jsonMatch_fenced (pre ws : jsstring) c (rest post : jsstring) :
  forallb (fun x => negb (x =? 96)) pre = true ->
  forallb is_space ws = true ->
  is_space c = false ->
  forallb (fun x => negb (x =? 96)) (c :: rest) = true ->
  AIService.jsonMatch (pre ++ js "```json" ++ ws ++ (c :: rest) ++ js "```" ++ post)
  = Some (c :: rest).
Proof.
  intros Hp Hws Hc Hb. rewrite (jsonMatch_skip pre _ Hp), jsonMatch_eq.
  assert (AIService.json_fence_at
            (js "```json" ++ ws ++ (c :: rest) ++ js "```" ++ post)
          = Some (c :: rest)) as ->; [|reflexivity].
  unfold AIService.json_fence_at.
  change (js "```json") with (js "```" ++ js "json").
  rewrite <- (app_assoc (js "```")), strip_prefix_app. cbn [mbind option_bind].
  rewrite strip_prefix_app. cbn [mbind option_bind].
  unfold AIService.fence_body.
  replace (ws ++ (c :: rest) ++ js "```" ++ post)
    with (ws ++ c :: (rest ++ js "```" ++ post)) by reflexivity.
  rewrite (trimStart_spaces ws c _ Hws Hc).
  change (c :: rest ++ js "```" ++ post) with ((c :: rest) ++ js "```" ++ post).
  now rewrite (until_fence_body (c :: rest) post Hb).
Qed.

End FenceFacts.

(** X17. An answer that wraps its JSON in a [```json] fence is unwrapped:
    when the answer as a whole does not parse, [parseJsonResponse] parses
    what stands between the first fence and the next, trimmed, and returns
    it, or throws the error of malformed data when that does not parse
    either. (Before the fence stands no backtick, after [json] white space
    only, and the body starts with a character that is no white space.) *)
Theorem fenced_json_is_unwrapped (w : World) (pre ws : jsstring) (c : Z)
    (rest post errorContext : jsstring) (st : State) :
  forallb (fun x => negb (x =? 96)) pre = true ->
  forallb JsString.is_space ws = true ->
  JsString.is_space c = false ->
  forallb (fun x => negb (x =? 96)) (c :: rest) = true ->
  JSON_parse w
    (JsString.trim (pre ++ js "```json" ++ ws ++ (c :: rest) ++ js "```" ++ post))
  = None ->
  AIService.parseJsonResponse w
    (pre ++ js "```json" ++ ws ++ (c :: rest) ++ js "```" ++ post) errorContext st
  = (match JSON_parse w (JsString.trim (c :: rest)) with
     | Some value => Return value
     | None => Throw (AIService.malformed errorContext)
     end, st).
Proof.
  intros Hp Hws Hc Hb Hwhole. unfold AIService.parseJsonResponse.
  rewrite (trim_has_text _ 96); [|apply in_or_app; right; now left | reflexivity].
  rewrite Hwhole, (jsonMatch_fenced pre ws c rest post Hp Hws Hc Hb).
  destruct (JSON_parse w (JsString.trim (c :: rest))); reflexivity.
Qed.

Lemma fenced_json_is_unwrapped_witness :
  AIService.parseJsonResponse
    (Worlds.with_parser Worlds.empty_object_only (StoreSpec.constant_world [] [] None))
    (js "Here it is: " ++ js "```json" ++ [10] ++ js "{}" ++ js "```" ++ [10])
    [] StoreSpec.fresh
  = (Return (JObj []), StoreSpec.fresh).
Proof.
  apply (fenced_json_is_unwrapped
           (Worlds.with_parser Worlds.empty_object_only
              (StoreSpec.constant_world [] [] None))
           (js "Here it is: ") [10] 123 [125] [10] [] StoreSpec.fresh);
    vm_compute; reflexivity.
Defined.

(** X18. The prompts for a chapter summary always start with the title and
    the content of the chapter. A custom prompt that is empty or white
    space only is ignored, also when only the custom prompt is to be used:
    the prompt is then the default one. With a custom prompt that has text
    and only it to be used, the prompt is the title and content followed by
    the trimmed custom prompt, without the default instructions. *)
Theorem chapter_summary_prompt_custom (title content customPrompt : jsstring)
    (useCustomOnly : bool) :
  JsString.startsWith
    (Prompts.getFictionChapterSummaryPrompt title content customPrompt useCustomOnly)
    (Prompts.chapterContent title content) = true
  /\ JsString.startsWith
       (Prompts.getNonFictionChapterSummaryPrompt title content customPrompt
          useCustomOnly)
       (Prompts.chapterContent title content) = true
  /\ (has_text customPrompt = false ->
      Prompts.getFictionChapterSummaryPrompt title content customPrompt useCustomOnly
      = Prompts.getFictionChapterSummaryPrompt title content [] false
      /\ Prompts.getNonFictionChapterSummaryPrompt title content customPrompt
           useCustomOnly
         = Prompts.getNonFictionChapterSummaryPrompt title content [] false)
  /\ (has_text customPrompt = true ->
      Prompts.getFictionChapterSummaryPrompt title content customPrompt true
      = Prompts.chapterContent title content ++ nl ++ nl
          ++ JsString.trim customPrompt
      /\ Prompts.getNonFictionChapterSummaryPrompt title content customPrompt true
         = Prompts.chapterContent title content ++ nl ++ nl
             ++ JsString.trim customPrompt).
Proof.
  unfold Prompts.getFictionChapterSummaryPrompt,
    Prompts.getNonFictionChapterSummaryPrompt.
  split; [|split; [|split]].
  - destruct (useCustomOnly && has_text customPrompt); [apply startsWith_app|].
    destruct (has_text customPrompt); apply startsWith_app.
  - destruct (useCustomOnly && has_text customPrompt); [apply startsWith_app|].
    destruct (has_text customPrompt); apply startsWith_app.
  - intros ->. rewrite andb_false_r. split; reflexivity.
  - intros ->. split; reflexivity.
Qed.

(** ** The page: what is restored, retried and generated again *)

Section RestoreFacts.
Import JsString CacheKey StoreSpec.

Lemma newSet_loop (ids members : list jsstring) :
  NoDup members ->
  NoDup (fold_left (fun members id => if bool_decide (id ∈ members) then members
                                      else members ++ [id]) ids members)
  /\ forall x,
       x ∈ fold_left (fun members id => if bool_decide (id ∈ members) then members
                                        else members ++ [id]) ids members
       <-> x ∈ members \/ x ∈ ids.
Proof.
  revert members. induction ids as [|i ids IH]; intros members Hnd; cbn [fold_left].
  - split; [exact Hnd|]. intros x. rewrite elem_of_nil. tauto.
  - destruct (bool_decide_reflect (i ∈ members)) as [Hin|Hout].
    + destruct (IH members Hnd) as [H1 H2]. split; [exact H1|].
      intros x. rewrite H2, elem_of_cons. split; [tauto|].
      intros [H|[->|H]]; tauto.
    + assert (NoDup (members ++ [i])) as Hnd'.
      { apply NoDup_app. split; [exact Hnd|]. split; [|apply NoDup_singleton].
        intros x Hx Hi. apply list_elem_of_singleton in Hi as ->. contradiction. }
      destruct (IH (members ++ [i]) Hnd') as [H1 H2]. split; [exact H1|].
      intros x. rewrite H2, elem_of_app, list_elem_of_singleton, elem_of_cons. tauto.
Qed.

Lemma NoDup_newSet (ids : list jsstring) : NoDup (Step1Config.newSet ids).
Proof. apply (newSet_loop ids []), NoDup_nil_2. Qed.

Lemma elem_of_newSet (ids : list jsstring) x :
  x ∈ Step1Config.newSet ids <-> x ∈ ids.
Proof.
  unfold Step1Config.newSet.
  destruct (newSet_loop ids [] (NoDup_nil_2)) as [_ H]. rewrite H, elem_of_nil. tauto.
Qed.

Lemma elem_of_validSelected (valid : list jsstring) (cached : list JsValue) x :
  x ∈ Step1Config.validSelected valid cached <-> JStr x ∈ cached /\ x ∈ valid.
Proof.
  unfold Step1Config.validSelected. rewrite list_elem_of_omap. split.
  - intros (v & Hv & E). destruct v; try discriminate.
    destruct (bool_decide_reflect (s ∈ valid)); [|discriminate].
    injection E as <-. now split.
  - intros [Hc Hv]. exists (JStr x). split; [exact Hc|].
    now rewrite bool_decide_eq_true_2.
Qed.

Lemma validTags_lookup (valid : list jsstring) (fields : list (jsstring * JsValue))
    chapterId tag :
  Step1Config.validTags valid fields !! chapterId = Some tag ->
  (chapterId, tag) ∈ fields /\ chapterId ∈ valid.
Proof.
  unfold Step1Config.validTags. intros H.
  apply elem_of_list_to_map_2, list_elem_of_In, filter_In in H as [Hin Hv].
  apply list_elem_of_In in Hin. apply bool_decide_eq_true_1 in Hv. now split.
Qed.

Lemma getItem_run (w : World) key st :
  fault_free w ->
  CacheService.getItem w key st = (Return (default JNull (store st !! key)), st).
Proof. intros Hff. unfold CacheService.getItem. now rewrite Hff. Qed.

End RestoreFacts.

(** X19. When the chapters of a book are extracted, [loadCache] (without
    faults of the store) restores a selection without duplicates of
    chapters that exist, and it is not empty when there are chapters: if
    the stored selection names at least one chapter that exists, the
    selection is the stored ids that exist, otherwise it is all chapters.
    The tags restored are stored tags of chapters that exist. The
    selection is written back under the key of the selected chapters, and
    nothing else changes. *)
Theorem loadCache_restores_selection (w : World) (fileName : jsstring)
    (extracted : list ChapterData) (st : State) :
  StoreSpec.fault_free w ->
  let valid := map id extracted in
  let selectedKey := CacheKey.generateKey fileName selected_chapters None in
  let tagsKey := CacheKey.generateKey fileName chapter_tags None in
  exists cfg st',
    Step1Config.loadCache w fileName extracted st = (Return cfg, st')
    /\ NoDup (lc_selectedChapters cfg)
    /\ (forall x, x ∈ lc_selectedChapters cfg -> x ∈ valid)
    /\ (extracted <> [] -> lc_selectedChapters cfg <> [])
    /\ (forall items chapterId,
          store st !! selectedKey = Some (JArr items) ->
          JStr chapterId ∈ items -> chapterId ∈ valid ->
          forall x, x ∈ lc_selectedChapters cfg <-> JStr x ∈ items /\ x ∈ valid)
    /\ ((forall items chapterId,
           store st !! selectedKey = Some (JArr items) ->
           JStr chapterId ∈ items -> chapterId ∉ valid) ->
        forall x, x ∈ lc_selectedChapters cfg <-> x ∈ valid)
    /\ (forall chapterId tag,
          lc_chapterTags cfg !! chapterId = Some tag ->
          chapterId ∈ valid
          /\ exists fields, store st !! tagsKey = Some (JObj fields)
                            /\ (chapterId, tag) ∈ fields)
    /\ store st' !! selectedKey = Some (JArr (map JStr (lc_selectedChapters cfg)))
    /\ (forall key, key <> selectedKey -> store st' !! key = store st !! key)
    /\ requests st' = requests st
    /\ page st' = page st.
Proof.
  intros Hff valid selectedKey tagsKey.
  unfold Step1Config.loadCache.
  unfold CacheSettings.getSelectedChapters, CacheSettings.getChapterTags,
    CacheSettings.getCustomPrompt, CacheSettings.getUseCustomOnly,
    CacheSettings.setSelectedChapters.
  fold valid selectedKey tagsKey.
  unfold bind, ret, CacheService.getItem, CacheService.setItem.
  rewrite !Hff.
  eexists _, _. split; [reflexivity|].
  cbn [lc_selectedChapters lc_chapterTags store requests page].
  set (sel := match match default JNull (store st !! selectedKey) with
                    | JArr items => Some items
                    | _ => None
                    end with
              | Some (item :: items) =>
                  match Step1Config.validSelected valid (item :: items) with
                  | [] => Step1Config.newSet valid
                  | l0 :: l1 => Step1Config.newSet (l0 :: l1)
                  end
              | _ => Step1Config.newSet valid
              end).
  assert ((exists items,
             store st !! selectedKey = Some (JArr items)
             /\ Step1Config.validSelected valid items <> []
             /\ sel = Step1Config.newSet (Step1Config.validSelected valid items))
          \/ ((forall items chapterId,
                 store st !! selectedKey = Some (JArr items) ->
                 JStr chapterId ∈ items -> chapterId ∉ valid)
              /\ sel = Step1Config.newSet valid)) as Hsel.
  { subst sel. destruct (store st !! selectedKey) as [v|] eqn:E;
      [|right; split; [intros ? ? [=]|reflexivity]].
    destruct v as [| | | |items|]; cbn [default from_option Datatypes.id];
      try (right; split; [intros ? ? [=]|reflexivity]).
    destruct items as [|item items].
    { right. split; [|reflexivity]. intros ? ? [= <-] H. now apply elem_of_nil in H. }
    destruct (Step1Config.validSelected valid (item :: items)) as [|l0 l1] eqn:Ev.
    - right. split; [|reflexivity]. intros ? chapterId [= <-] Hin Hv.
      assert (chapterId ∈ Step1Config.validSelected valid (item :: items)) as H
        by now apply elem_of_validSelected.
      rewrite Ev in H. now apply elem_of_nil in H.
    - left. exists (item :: items). rewrite Ev. repeat split; discriminate. }
  clearbody sel.
  split; [|split; [|split; [|split; [|split; [|split; [|split; [|split; [|split]]]]]]]].
  - destruct Hsel as [(items & _ & _ & ->)|[_ ->]]; apply NoDup_newSet.
  - intros x. destruct Hsel as [(items & _ & _ & ->)|[_ ->]]; rewrite elem_of_newSet.
    + now intros [_ H]%elem_of_validSelected.
    + trivial.
  - intros Hne. destruct Hsel as [(items & _ & Hv & ->)|[_ ->]].
    + destruct (Step1Config.validSelected valid items) as [|x l] eqn:Ev; [congruence|].
      intros Hnil. assert (x ∈ Step1Config.newSet (x :: l)) as H
        by (apply elem_of_newSet; left).
      rewrite Hnil in H. now apply elem_of_nil in H.
    + destruct extracted as [|ch rest]; [congruence|].
      intros Hnil. assert (id ch ∈ Step1Config.newSet valid) as H
        by (apply elem_of_newSet; left).
      rewrite Hnil in H. now apply elem_of_nil in H.
  - intros items chapterId Hst Hin Hv x.
    destruct Hsel as [(items' & Hst' & _ & ->)|[Hno _]].
    + rewrite Hst in Hst'. injection Hst' as <-.
      now rewrite elem_of_newSet, elem_of_validSelected.
    + destruct (Hno items chapterId Hst Hin Hv).
  - intros Hno x. destruct Hsel as [(items & Hst & Hv & ->)|[_ ->]];
      [|apply elem_of_newSet].
    destruct (Step1Config.validSelected valid items) as [|y l] eqn:Ev; [congruence|].
    assert (y ∈ Step1Config.validSelected valid items) as Hy by (rewrite Ev; left).
    apply elem_of_validSelected in Hy as [Hy1 Hy2].
    destruct (Hno items y Hst Hy1 Hy2).
  - intros chapterId tag.
    destruct (store st !! tagsKey) as [v|]; cbn [default from_option Datatypes.id];
      [|now rewrite lookup_empty].
    destruct v as [| | | | |fields]; try now rewrite lookup_empty.
    destruct (Js.has (js "nodeData") (JObj fields)); [now rewrite lookup_empty|].
    intros [H1 H2]%validTags_lookup. split; [exact H2|]. now exists fields.
  - apply lookup_insert_eq.
  - intros key Hne. now apply lookup_insert_ne.
  - reflexivity.
  - reflexivity.
Qed.

(** Chapters [c1] and [c2] exist; stored are [c2], a chapter that is gone
    and [c2] again. *)
Lemma loadCache_restores_selection_witness :
  let st :=
    StoreSpec.with_store
      {[ CacheKey.generateKey Sample.fileName selected_chapters None
         := JArr [JStr (js "c2"); JStr (js "gone"); JStr (js "c2")] ]}
      StoreSpec.fresh in
  exists cfg st',
    Step1Config.loadCache (StoreSpec.constant_world [] [] None) Sample.fileName
      [Sample.c1; Sample.c2] st = (Return cfg, st')
    /\ lc_selectedChapters cfg = [js "c2"]
    /\ NoDup (lc_selectedChapters cfg).
Proof.
  intros st.
  destruct (loadCache_restores_selection (StoreSpec.constant_world [] [] None)
              Sample.fileName [Sample.c1; Sample.c2] st (fun _ _ => eq_refl))
    as (cfg & st' & Hrun & Hnd & _).
  exists cfg, st'. split; [exact Hrun|]. split; [|exact Hnd].
  vm_compute in Hrun. injection Hrun as <- _. reflexivity.
Defined.

Section RetryFacts.
Import JsString CacheKey StoreSpec StageSpec RunFrame.

(** A run that was not refused leaves its parameters on the page. *)
Lemma run_keeps_retryParams (w : World) (ctx : PageContext)
    (signal : AbortSignal) (selectedChapters : gset jsstring)
    (chapterTags : gmap jsstring jsstring) (customPrompt : jsstring)
    (useCustomOnly : bool) (st st1 : State) (status : RunStatus) :
  SummaryPage.handleStartProcessing w ctx signal selectedChapters chapterTags
    customPrompt useCustomOnly st = (Return status, st1) ->
  status <> Refused ->
  retryParams (page st1)
  = Some {| rp_selectedChapters := selectedChapters;
            rp_chapterTags := chapterTags;
            rp_customPrompt := customPrompt;
            rp_useCustomOnly := useCustomOnly |}.
Proof.
  intros H Hs.
  destruct (handleStartProcessing_run w ctx signal selectedChapters chapterTags
              customPrompt useCustomOnly st)
    as [Hr|(book & fileName & o2 & st2 & _ & Hrun & Hend)].
  { rewrite Hr in H. injection H as <- _. congruence. }
  rewrite Hend in H.
  apply (costs_processBook w fileName ctx book signal customPrompt useCustomOnly)
    in Hrun.
  destruct Hrun as [_ _ _ (_ & _ & _ & Hp)]. simpl in Hp.
  destruct o2 as [[]|e]; [|destruct (decide _)];
    injection H as _ <-; simpl; exact Hp.
Qed.

End RetryFacts.

(** X20. After a run that was started (finished, cancelled or failed),
    [handleRetry] starts processing again with the chapters, tags, custom
    prompt and custom-only option of that run: it is the same call of
    [handleStartProcessing] under a new signal. *)
Theorem retry_repeats_the_run (w : World) (ctx : PageContext)
    (signal signal' : AbortSignal) (selectedChapters : gset jsstring)
    (chapterTags : gmap jsstring jsstring) (customPrompt : jsstring)
    (useCustomOnly : bool) (st st1 : State) (status : RunStatus) :
  SummaryPage.handleStartProcessing w ctx signal selectedChapters chapterTags
    customPrompt useCustomOnly st = (Return status, st1) ->
  status <> Refused ->
  PageActions.handleRetry w ctx signal' st1
  = (let* again :=
       SummaryPage.handleStartProcessing w ctx signal' selectedChapters chapterTags
         customPrompt useCustomOnly in
     ret (Some again)) st1.
Proof.
  intros H Hs. unfold PageActions.handleRetry.
  now rewrite (run_keeps_retryParams w ctx signal selectedChapters chapterTags
                 customPrompt useCustomOnly st st1 status H Hs).
Qed.

(** A run whose provider answers with nothing fails; the retry is the same
    call again. *)
Lemma retry_repeats_the_run_witness :
  let w := StoreSpec.constant_world [] [] None in
  let ctx := Sample.context ModeSummary fiction in
  let run :=
    SummaryPage.handleStartProcessing w ctx StoreSpec.never_aborted Sample.both
      Sample.act1 [] false StoreSpec.fresh in
  (exists message, fst run = Return (Failed message))
  /\ PageActions.handleRetry w ctx StoreSpec.never_aborted (snd run)
     = (let* again :=
          SummaryPage.handleStartProcessing w ctx StoreSpec.never_aborted Sample.both
            Sample.act1 [] false in
        ret (Some again)) (snd run).
Proof.
  intros w ctx run.
  assert (exists message, fst run = Return (Failed message)) as Hfail.
  { vm_compute. eexists. reflexivity. }
  split; [exact Hfail|]. destruct Hfail as [message Hfail].
  apply (retry_repeats_the_run w ctx StoreSpec.never_aborted StoreSpec.never_aborted
           Sample.both Sample.act1 [] false StoreSpec.fresh (snd run)
           (Failed message)); [|discriminate].
  rewrite <- Hfail. apply surjective_pairing.
Defined.

Section AskingFacts.
Import JsString CacheKey StoreSpec StageSpec Asking.
Context (w : World).

Lemma same_requests_refl st : same_requests st st.
Proof. reflexivity. Qed.

Lemma same_requests_trans a b c :
  same_requests a b -> same_requests b c -> same_requests a c.
Proof. unfold same_requests. congruence. Qed.

Lemma asks_once_bind {A B} (m : M A) (k : A -> M B) st :
  asks_once m st -> (forall a, keeps same_requests (k a)) ->
  asks_once (bind m k) st.
Proof.
  intros Hm Hk o st' H.
  apply bind_inv in H as [(a & st1 & H1 & H2)|(e & H1 & _)].
  - apply Hk in H2. apply Hm in H1. unfold same_requests in H2. congruence.
  - now apply Hm in H1.
Qed.

Lemma asks_once_try_catch {A} (m : M A) (h : JsError -> M A) st :
  asks_once m st -> (forall e, keeps same_requests (h e)) ->
  asks_once (try_catch m h) st.
Proof.
  intros Hm Hh o st' H.
  apply try_catch_inv in H as [(a & H1 & _)|(e & st1 & H1 & H2)].
  - now apply Hm in H1.
  - apply Hh in H2. apply Hm in H1. unfold same_requests in H2. congruence.
Qed.

Lemma asks_once_after {A B} (m : M A) (k : A -> M B) st a :
  m st = (Return a, st) -> asks_once (k a) st -> asks_once (bind m k) st.
Proof.
  intros Hm Hk o st' H. rewrite (bind_Return _ _ _ _ _ Hm) in H. exact (Hk o st' H).
Qed.

Lemma generateContent_once prompt language signal json st :
  aborted signal (requests st) = false ->
  asks_once (AIService.generateContent w prompt language (Some signal) json) st.
Proof.
  intros Ha o st' H. unfold AIService.generateContent in H.
  unfold bind at 1, AIService.is_aborted, bind at 1, AIService.requests_sent, ret in H.
  rewrite Ha in H. unfold bind, AIService.count_request in H.
  destruct (complete w _ _); injection H as _ <-; reflexivity.
Qed.

Lemma generateContentStream_once {L} prompt
    (onUpdate : Delta -> L -> State -> L * State) locals language signal st :
  (forall d l s, same_requests s (snd (onUpdate d l s))) ->
  aborted signal (requests st) = false ->
  asks_once
    (AIService.generateContentStream w prompt onUpdate locals language (Some signal)) st.
Proof.
  intros Hup Ha. unfold AIService.generateContentStream.
  apply (asks_once_after _ _ st false).
  { unfold AIService.is_aborted, bind, AIService.requests_sent, ret. now rewrite Ha. }
  apply asks_once_try_catch.
  - intros o st' H. unfold bind, AIService.count_request in H.
    destruct (stream w _ _) as [e|? ? ?| |deltas failure];
      try (injection H as _ <-; reflexivity).
    match type of H with
    | context [AIService.deliver ?u ?d ?f ?l ?s] =>
        pose proof (deliver_within same_requests same_requests_refl
                      same_requests_trans u d f l s Hup) as Hd;
        destruct (AIService.deliver u d f l s) as [full st2]
    end.
    unfold same_requests in Hd. simpl in Hd.
    destruct failure; injection H as _ <-; exact Hd.
  - intros e. destruct (decide _); apply keeps_throw, same_requests_refl.
Qed.

Lemma summarizeChapter_once {L} title content bookType language customPrompt
    useCustomOnly signal
    (onStreamUpdate : option (Delta -> L -> State -> L * State)) locals st :
  (forall onUpdate d l s, onStreamUpdate = Some onUpdate ->
                          same_requests s (snd (onUpdate d l s))) ->
  aborted signal (requests st) = false ->
  asks_once
    (AIService.summarizeChapter w title content bookType language customPrompt
       useCustomOnly (Some signal) onStreamUpdate locals) st.
Proof.
  intros Hup Ha. unfold AIService.summarizeChapter, AIService.rethrow.
  apply asks_once_try_catch; [|intros e; apply keeps_throw, same_requests_refl].
  apply asks_once_bind.
  - destruct onStreamUpdate as [onUpdate|].
    + apply generateContentStream_once; [|exact Ha]. intros d l s. now apply Hup.
    + now apply generateContent_once.
  - intros result. destruct (nonempty _);
      [apply keeps_ret | apply keeps_throw]; apply same_requests_refl.
Qed.

Lemma generateChapterMindMap_once content language customPrompt signal st :
  aborted signal (requests st) = false ->
  asks_once
    (AIService.generateChapterMindMap w content language customPrompt (Some signal)) st.
Proof.
  intros Ha. unfold AIService.generateChapterMindMap, AIService.rethrow.
  apply asks_once_try_catch; [|intros e; apply keeps_throw, same_requests_refl].
  apply asks_once_bind; [now apply generateContent_once|].
  intros result. apply keeps_parseJsonResponse, same_requests_refl.
Qed.

Lemma summaryStreamUpdate_requests cb d l s :
  same_requests s (snd (BookProcessingService.summaryStreamUpdate w cb d l s)).
Proof.
  unfold BookProcessingService.summaryStreamUpdate, BookProcessingService.read_clock.
  destruct cb as [notify|]; [|reflexivity].
  destruct (_ || _); reflexivity.
Qed.

Lemma keeps_requests_set_page f : keeps same_requests (set_page f).
Proof. intros st o st' [= _ <-]. reflexivity. Qed.

Lemma keeps_requests_setCache fileName t value chapterId :
  keeps same_requests (CacheService.setCache w fileName t value chapterId).
Proof.
  intros st o st' H. unfold CacheService.setCache, CacheService.setItem in H.
  destruct (store_fault w _ _); injection H as _ <-; reflexivity.
Qed.

Lemma processSummaryGroup_once group fileName bookType language customPrompt
    useCustomOnly signal cb st :
  fault_free w ->
  store st !! generateKey fileName summary (Some (tg_groupId group)) = None ->
  tg_chapters group <> [] ->
  aborted signal (requests st) = false ->
  asks_once
    (BookProcessingService.processSummaryGroup w group fileName bookType language
       customPrompt useCustomOnly signal cb) st.
Proof.
  intros Hff Hnone Hch Ha. unfold BookProcessingService.processSummaryGroup.
  apply (asks_once_after _ _ st None).
  { unfold CacheService.getString, bind, ret.
    rewrite (getItem_run w _ st Hff), Hnone. reflexivity. }
  assert (exists t, BookProcessingService.combinedTitle group st = (Return t, st))
    as [t Ht].
  { unfold BookProcessingService.combinedTitle.
    destruct (tg_tag group) as [[|c tag]|]; destruct (tg_chapters group);
      try congruence; eexists; reflexivity. }
  apply (asks_once_after _ _ st t Ht).
  apply asks_once_bind.
  - apply summarizeChapter_once; [|exact Ha].
    intros onUpdate d l s E. destruct cb; [|discriminate].
    injection E as <-. apply summaryStreamUpdate_requests.
  - intros result.
    apply (keeps_bind same_requests same_requests_trans).
    + destruct cb; [apply keeps_requests_set_page | apply keeps_ret, same_requests_refl].
    + intros _. apply (keeps_bind same_requests same_requests_trans);
        [apply keeps_requests_setCache|].
      intros _. apply keeps_ret, same_requests_refl.
Qed.

Lemma processMindMapGroup_once group fileName language customPrompt signal st :
  fault_free w ->
  store st !! generateKey fileName mindmap (Some (tg_groupId group)) = None ->
  aborted signal (requests st) = false ->
  asks_once
    (BookProcessingService.processMindMapGroup w group fileName language
       customPrompt signal) st.
Proof.
  intros Hff Hnone Ha. unfold BookProcessingService.processMindMapGroup.
  apply (asks_once_after _ _ st None).
  { unfold CacheService.getMindMap, bind, ret.
    rewrite (getItem_run w _ st Hff), Hnone. reflexivity. }
  apply asks_once_bind.
  - apply asks_once_bind; [now apply generateChapterMindMap_once|].
    intros mindMap. apply (keeps_bind same_requests same_requests_trans);
      [apply keeps_requests_setCache|].
    intros _. apply keeps_ret, same_requests_refl.
  - intros mindMap. apply (keeps_bind same_requests same_requests_trans).
    + unfold BookProcessingService.lacks_nodeData.
      destruct mindMap; try apply keeps_ret; try apply keeps_throw;
        apply same_requests_refl.
    + intros [|]; [apply keeps_throw | apply keeps_ret]; apply same_requests_refl.
Qed.

End AskingFacts.

(** X21. What [clearChapterCache] of the page announces holds: when the
    store works, the entry of the group for the mode is removed and the
    toast is shown, nothing else of the store changes and no request is
    sent; the next processing of the group (the summary stage in summary
    mode, the mind-map stage else) then sends one request to the provider,
    however it ends, unless the run was cancelled before. *)
Theorem cleared_group_is_generated_again (w : World) (ctx : PageContext)
    (fileName : jsstring) (group : TempChapterGroup) (customPrompt : jsstring)
    (useCustomOnly : bool) (signal : AbortSignal)
    (onStreamUpdate : option (SummaryUpdate -> PageState -> PageState))
    (st : State) :
  StoreSpec.fault_free w ->
  file ctx = Some fileName ->
  tg_chapters group <> [] ->
  let kind := match processingMode ctx with ModeSummary => summary | _ => mindmap end in
  let key := CacheKey.generateKey fileName kind (Some (tg_groupId group)) in
  exists st1,
    PageActions.clearChapterCache w ctx (tg_groupId group) st = (Return (Some true), st1)
    /\ store st1 !! key = None
    /\ (forall other, other <> key -> store st1 !! other = store st !! other)
    /\ requests st1 = requests st
    /\ (aborted signal (requests st1) = false ->
        forall o st2,
          match processingMode ctx with
          | ModeSummary =>
              BookProcessingService.processSummaryGroup w group fileName (bookType ctx)
                (outputLanguage ctx) customPrompt useCustomOnly signal onStreamUpdate
          | _ =>
              BookProcessingService.processMindMapGroup w group fileName
                (outputLanguage ctx) customPrompt signal
          end st1 = (o, st2) ->
          requests st2 = S (requests st1)).
Proof.
  intros Hff Hfile Hch kind key.
  unfold PageActions.clearChapterCache. rewrite Hfile.
  unfold CacheService.clearChapterCache, CacheService.deleteCache, bind, try_catch,
    CacheService.removeItem, ret.
  fold kind. fold key. rewrite Hff.
  eexists. split; [reflexivity|]. cbn [store requests].
  split; [apply lookup_delete_eq|].
  split; [intros other Hne; now apply lookup_delete_ne|].
  split; [reflexivity|].
  intros Ha o st2 H. subst kind key.
  destruct (processingMode ctx);
    match type of H with
    | _ ?st1 = _ =>
        first
          [ refine (processSummaryGroup_once w group fileName _ _ _ _ signal
                      onStreamUpdate st1 Hff _ Hch Ha o st2 H)
          | refine (processMindMapGroup_once w group fileName _ _ signal st1 Hff _ Ha
                      o st2 H) ]
    end;
    apply lookup_delete_eq.
Qed.

(** The summary of the group [Intro] is stored; after clearing, the stage
    asks the provider. *)
Lemma cleared_group_is_generated_again_witness :
  let w := StoreSpec.constant_world (js "S") (js "R") None in
  let ctx := Sample.context ModeSummary fiction in
  let st :=
    StoreSpec.with_store {[ Sample.summaryKey := JStr (js "old") ]} StoreSpec.fresh in
  exists st1,
    PageActions.clearChapterCache w ctx (js "Intro") st = (Return (Some true), st1)
    /\ requests
         (snd (BookProcessingService.processSummaryGroup w Sample.intro
                 Sample.fileName fiction (js "en") [] false StoreSpec.never_aborted
                 None st1))
       = 1%nat.
Proof.
  intros w ctx st.
  destruct (cleared_group_is_generated_again w ctx Sample.fileName Sample.intro []
              false StoreSpec.never_aborted None st)
    as (st1 & Hclear & _ & _ & Hreq & Hnext);
    [intros op key; reflexivity | reflexivity | discriminate |].
  exists st1. split; [exact Hclear|].
  change (requests st1 = 0%nat) in Hreq.
  etransitivity; [|exact (f_equal S Hreq)].
  exact (Hnext eq_refl _ _ (surjective_pairing _)).
Defined.

Section BookStageFacts.
Import JsString CacheKey StoreSpec StageSpec Asking.
Context (w : World).

Lemma generate_once {L} prompt
    (onStreamUpdate : option (Delta -> L -> State -> L * State)) locals
    language signal st :
  (forall onUpdate d l s, onStreamUpdate = Some onUpdate ->
                          same_requests s (snd (onUpdate d l s))) ->
  aborted signal (requests st) = false ->
  asks_once
    match onStreamUpdate with
    | Some onUpdate =>
        AIService.generateContentStream w prompt onUpdate locals language (Some signal)
    | None => AIService.generateContent w prompt language (Some signal) false
    end st.
Proof.
  intros Hup Ha. destruct onStreamUpdate as [onUpdate|].
  - apply generateContentStream_once; [|exact Ha]. intros d l s. now apply Hup.
  - now apply generateContent_once.
Qed.

Lemma contentStreamUpdate_requests notify d l s :
  same_requests s (snd (BookProcessingService.contentStreamUpdate w notify d l s)).
Proof.
  unfold BookProcessingService.contentStreamUpdate, BookProcessingService.read_clock.
  destruct (_ || _); reflexivity.
Qed.

Lemma contentStreamUpdate_option_requests
    (cb : option (jsstring -> PageState -> PageState)) onUpdate d l s :
  BookProcessingService.contentStreamUpdate w <$> cb = Some onUpdate ->
  same_requests s (snd (onUpdate d l s)).
Proof.
  destruct cb as [notify|]; [|discriminate]. intros [= <-].
  apply contentStreamUpdate_requests.
Qed.

Lemma analyzeConnections_once {L} chapters language bookType signal
    (onStreamUpdate : option (Delta -> L -> State -> L * State)) locals st :
  (forall onUpdate d l s, onStreamUpdate = Some onUpdate ->
                          same_requests s (snd (onUpdate d l s))) ->
  aborted signal (requests st) = false ->
  asks_once
    (AIService.analyzeConnections w chapters language bookType (Some signal)
       onStreamUpdate locals) st.
Proof.
  intros Hup Ha. unfold AIService.analyzeConnections, AIService.rethrow.
  apply asks_once_try_catch; [|intros e; apply keeps_throw, same_requests_refl].
  apply asks_once_bind; [now apply generate_once|].
  intros result. destruct (nonempty _);
    [apply keeps_ret | apply keeps_throw]; apply same_requests_refl.
Qed.

Lemma overallSummary_once {L} bookTitle chapters language bookType signal
    (onStreamUpdate : option (Delta -> L -> State -> L * State)) locals st :
  (forall onUpdate d l s, onStreamUpdate = Some onUpdate ->
                          same_requests s (snd (onUpdate d l s))) ->
  aborted signal (requests st) = false ->
  asks_once
    (AIService.generateOverallSummary w bookTitle chapters language bookType
       (Some signal) onStreamUpdate locals) st.
Proof.
  intros Hup Ha. unfold AIService.generateOverallSummary, AIService.rethrow.
  apply asks_once_try_catch; [|intros e; apply keeps_throw, same_requests_refl].
  apply asks_once_bind; [now apply generate_once|].
  intros result. destruct (nonempty _);
    [apply keeps_ret | apply keeps_throw]; apply same_requests_refl.
Qed.

Lemma characterRelationship_once chapters language bookType signal st :
  aborted signal (requests st) = false ->
  asks_once
    (AIService.generateCharacterRelationship w chapters language bookType
       (Some signal)) st.
Proof.
  intros Ha. unfold AIService.generateCharacterRelationship, AIService.rethrow.
  apply asks_once_try_catch; [|intros e; apply keeps_throw, same_requests_refl].
  apply asks_once_bind; [now apply generateContent_once|].
  intros result. destruct (nonempty _);
    [|apply keeps_throw, same_requests_refl].
  destruct (AIService.mermaidMatch _) as [[|c g]|];
    apply keeps_ret, same_requests_refl.
Qed.

Lemma combinedMindMap_once bookTitle chapters customPrompt signal st :
  aborted signal (requests st) = false ->
  asks_once
    (AIService.generateCombinedMindMap w bookTitle chapters customPrompt
       (Some signal)) st.
Proof.
  intros Ha. unfold AIService.generateCombinedMindMap, AIService.rethrow.
  apply asks_once_try_catch; [|intros e; apply keeps_throw, same_requests_refl].
  apply asks_once_bind; [now apply generateContent_once|].
  intros result. apply keeps_parseJsonResponse, same_requests_refl.
Qed.

Lemma getString_missing fileName t chapterId st :
  fault_free w ->
  store st !! generateKey fileName t chapterId = None ->
  CacheService.getString w fileName t chapterId st = (Return None, st).
Proof.
  intros Hff Hnone. unfold CacheService.getString, bind, ret.
  rewrite (getItem_run w _ st Hff), Hnone. reflexivity.
Qed.

Lemma getMindMap_missing fileName t chapterId st :
  fault_free w ->
  store st !! generateKey fileName t chapterId = None ->
  CacheService.getMindMap w fileName t chapterId st = (Return None, st).
Proof.
  intros Hff Hnone. unfold CacheService.getMindMap, bind, ret.
  rewrite (getItem_run w _ st Hff), Hnone. reflexivity.
Qed.

Lemma keeps_requests_stored {A} fileName t value (a : A) :
  keeps same_requests
    (let* _ := CacheService.setCache w fileName t value None in ret a).
Proof.
  apply (keeps_bind same_requests same_requests_trans);
    [apply keeps_requests_setCache|].
  intros _. apply keeps_ret, same_requests_refl.
Qed.

Lemma keeps_requests_notifyContent cb text :
  keeps same_requests (BookProcessingService.notifyContent cb text).
Proof.
  destruct cb; [apply keeps_requests_set_page | apply keeps_ret, same_requests_refl].
Qed.

Lemma generateConnections_once fileName chapters language bookType signal cb st :
  fault_free w ->
  store st !! generateKey fileName connections None = None ->
  aborted signal (requests st) = false ->
  asks_once
    (BookProcessingService.generateConnections w fileName chapters language bookType
       signal cb) st.
Proof.
  intros Hff Hnone Ha. unfold BookProcessingService.generateConnections.
  apply (asks_once_after _ _ st None); [now apply getString_missing|].
  apply asks_once_bind.
  - apply analyzeConnections_once; [|exact Ha].
    intros onUpdate d l s. apply contentStreamUpdate_option_requests.
  - intros text. apply (keeps_bind same_requests same_requests_trans);
      [apply keeps_requests_notifyContent|].
    intros _. apply keeps_requests_stored.
Qed.

Lemma generateOverallSummary_once fileName bookTitle chapters language bookType
    signal cb st :
  fault_free w ->
  store st !! generateKey fileName overall_summary None = None ->
  aborted signal (requests st) = false ->
  asks_once
    (BookProcessingService.generateOverallSummary w fileName bookTitle chapters
       language bookType signal cb) st.
Proof.
  intros Hff Hnone Ha. unfold BookProcessingService.generateOverallSummary.
  apply (asks_once_after _ _ st None); [now apply getString_missing|].
  apply asks_once_bind.
  - apply overallSummary_once; [|exact Ha].
    intros onUpdate d l s. apply contentStreamUpdate_option_requests.
  - intros text. apply (keeps_bind same_requests same_requests_trans);
      [apply keeps_requests_notifyContent|].
    intros _. apply keeps_requests_stored.
Qed.

Lemma generateCharacterRelationship_once fileName chapters language bookType
    signal st :
  fault_free w ->
  store st !! generateKey fileName character_relationship None = None ->
  aborted signal (requests st) = false ->
  asks_once
    (BookProcessingService.generateCharacterRelationship w fileName chapters
       language bookType signal) st.
Proof.
  intros Hff Hnone Ha. unfold BookProcessingService.generateCharacterRelationship.
  apply (asks_once_after _ _ st None); [now apply getString_missing|].
  apply asks_once_bind; [now apply characterRelationship_once|].
  intros text. apply keeps_requests_stored.
Qed.

Lemma generateCombinedMindMap_once fileName bookTitle chapters customPrompt
    signal st :
  fault_free w ->
  store st !! generateKey fileName combined_mindmap None = None ->
  aborted signal (requests st) = false ->
  asks_once
    (BookProcessingService.generateCombinedMindMap w fileName bookTitle chapters
       customPrompt signal) st.
Proof.
  intros Hff Hnone Ha. unfold BookProcessingService.generateCombinedMindMap.
  apply (asks_once_after _ _ st None); [now apply getMindMap_missing|].
  apply asks_once_bind; [now apply combinedMindMap_once|].
  intros mindMap. apply keeps_requests_stored.
Qed.

Lemma mergeMindMaps_missing fileName bookTitle chapters st :
  fault_free w ->
  store st !! generateKey fileName merged_mindmap None = None ->
  snd (BookProcessingService.mergeMindMaps w fileName bookTitle chapters st)
  = with_store
      (<[generateKey fileName merged_mindmap None
         := BookProcessingService.mergedMindMap bookTitle chapters]> (store st)) st.
Proof.
  intros Hff Hnone. unfold BookProcessingService.mergeMindMaps.
  rewrite (bind_Return _ _ _ _ _ (getMindMap_missing _ _ _ st Hff Hnone)).
  unfold bind, CacheService.setCache, CacheService.setItem, ret. now rewrite Hff.
Qed.

End BookStageFacts.

(** X22. What [clearSpecificCache] of the page announces holds for each of
    its five kinds: when the store works, the entry of the book for the
    kind is removed and the cache is reported as cleared, nothing else of
    the store changes and no request is sent. The stage of the kind then
    produces the result again: for the connections, the overall summary,
    the character relationships and the mind map of the whole book it
    sends one request to the provider, however it ends, unless the run was
    cancelled before; the merged mind map is built from the chapters and
    stored again without a request. *)
Theorem cleared_result_is_generated_again (w : World) (ctx : PageContext)
    (fileName bookTitle : jsstring) (chapters : list Chapter)
    (customPrompt : jsstring) (signal : AbortSignal)
    (onStreamUpdate : option (jsstring -> PageState -> PageState))
    (cacheType : CacheKeyType) (st : State) :
  StoreSpec.fault_free w ->
  file ctx = Some fileName ->
  In cacheType [connections; overall_summary; character_relationship;
                combined_mindmap; merged_mindmap] ->
  let key := CacheKey.generateKey fileName cacheType None in
  let next :=
    Asking.afterStage w fileName bookTitle chapters (outputLanguage ctx) (bookType ctx)
      customPrompt signal onStreamUpdate cacheType in
  exists st1,
    PageActions.clearSpecificCache w ctx cacheType st = (Return (Some true), st1)
    /\ store st1 !! key = None
    /\ (forall other, other <> key -> store st1 !! other = store st !! other)
    /\ requests st1 = requests st
    /\ (cacheType <> merged_mindmap -> aborted signal (requests st1) = false ->
        requests (next st1) = S (requests st1))
    /\ (cacheType = merged_mindmap ->
        requests (next st1) = requests st1
        /\ store (next st1) !! key
           = Some (BookProcessingService.mergedMindMap bookTitle chapters)).
Proof.
  intros Hff Hfile Hin key next.
  unfold PageActions.clearSpecificCache. rewrite Hfile.
  unfold CacheService.clearSpecificCache, CacheService.deleteCache, bind, try_catch,
    CacheService.removeItem, ret.
  fold key. rewrite Hff.
  eexists. split; [reflexivity|]. cbn [store requests].
  split; [apply lookup_delete_eq|].
  split; [intros other Hne; now apply lookup_delete_ne|].
  split; [reflexivity|].
  match goal with
  | |- context [next ?s] => set (st1 := s)
  end.
  assert (store st1 !! key = None) as Hnone by apply lookup_delete_eq.
  change (requests st) with (requests st1).
  clearbody st1. subst key next.
  destruct Hin as [<-|[<-|[<-|[<-|[<-|[]]]]]]; (split; [intros Hk Ha|intros Hk]);
    try discriminate; try congruence; unfold Asking.afterStage.
  - eapply (generateConnections_once w); eauto using surjective_pairing.
  - eapply (generateOverallSummary_once w); eauto using surjective_pairing.
  - eapply (generateCharacterRelationship_once w); eauto using surjective_pairing.
  - eapply (generateCombinedMindMap_once w); eauto using surjective_pairing.
  - rewrite (mergeMindMaps_missing w _ _ _ st1 Hff Hnone). cbn [store requests StoreSpec.with_store].
    split; [reflexivity | apply lookup_insert_eq].
Qed.

(** The connections of the book are stored; after clearing, the stage asks
    the provider. *)
Lemma cleared_result_is_generated_again_witness :
  let w := StoreSpec.constant_world (js "S") (js "R") None in
  let ctx := Sample.context ModeSummary fiction in
  let st :=
    StoreSpec.with_store
      {[ CacheKey.generateKey Sample.fileName connections None := JStr (js "old") ]}
      StoreSpec.fresh in
  exists st1,
    PageActions.clearSpecificCache w ctx connections st = (Return (Some true), st1)
    /\ requests
         (snd (BookProcessingService.generateConnections w Sample.fileName []
                 (js "en") fiction StoreSpec.never_aborted None st1))
       = 1%nat.
Proof.
  intros w ctx st.
  destruct (cleared_result_is_generated_again w ctx Sample.fileName (js "Book") [] []
              StoreSpec.never_aborted None connections st)
    as (st1 & Hclear & _ & _ & Hreq & Hnext & _);
    [intros op key; reflexivity | reflexivity | now left |].
  exists st1. split; [exact Hclear|].
  change (requests st1 = 0%nat) in Hreq.
  etransitivity; [|exact (f_equal S Hreq)].
  apply Hnext; [discriminate | reflexivity].
Defined.

(** ** A whole-book map without a root, run again *)

Section RootlessRerun.
Import JsString CacheKey StoreSpec StageSpec RunSpec Asking.
Context (w : World) (ctx : PageContext) (fileName : jsstring) (book : BookData).
Context (customPrompt : jsstring) (useCustomOnly : bool) (params : RetryParams).
Context (Hmode : processingMode ctx = ModeCombinedMindmap).

Lemma asks_once_next {A B} (m : M A) (k : A -> M B) st a st1 :
  m st = (Return a, st1) -> requests st1 = requests st ->
  asks_once (k a) st1 -> asks_once (bind m k) st.
Proof.
  intros Hm Hr Hk o st' H. rewrite (bind_Return _ _ _ _ _ Hm) in H.
  rewrite <- Hr. exact (Hk o st' H).
Qed.

(** What is stored but is no mind map for [getMindMap] is asked for again. *)
Lemma generateCombinedMindMap_asks_again bookTitle chapters signal st v :
  store_fault w GetItem (generateKey fileName combined_mindmap None) = None ->
  store st !! generateKey fileName combined_mindmap None = Some v ->
  is_mindMap v = false ->
  aborted signal (requests st) = false ->
  asks_once
    (BookProcessingService.generateCombinedMindMap w fileName bookTitle chapters
       customPrompt signal) st.
Proof.
  intros Hf Hs Hv Ha. unfold BookProcessingService.generateCombinedMindMap.
  apply (asks_once_after _ _ st None).
  { rewrite getMindMap_eq, Hf.
    destruct (mindMap_at (store st) _) as [v'|] eqn:E; [|reflexivity].
    apply mindMap_at_Some in E as [E1 E2]. congruence. }
  apply asks_once_bind; [now apply combinedMindMap_once|].
  intros mindMap. apply keeps_requests_stored.
Qed.

(** The first run stores and shows what the provider answered. *)
Lemma processBook_combined_first signal chapters chapterTags st st1 :
  SummaryPage.processBook w ctx fileName book signal customPrompt useCustomOnly
    chapters chapterTags st = (Return tt, st1) ->
  page st = started params ->
  exists m v,
    store_fault w GetItem (generateKey fileName combined_mindmap None) = None
    /\ store st1 !! generateKey fileName combined_mindmap None = Some v
    /\ bookMindMap (page st1) = Some m
    /\ bm_combinedMindMap m = Some v.
Proof.
  intros H Hp. unfold SummaryPage.processBook in H.
  apply bind_Return_inv in H as ([] & sa & Ha & H).
  apply bind_Return_inv in H as ([pg1 pc1] & sb & Hloop & Hfin).
  unfold set_page in Ha. injection Ha as <-. simpl snd in Hfin.
  rewrite Hmode in Hloop.
  erewrite (processGroups_combined w ctx fileName customPrompt useCustomOnly
              params Hmode signal) in Hloop;
    [| simpl; rewrite Hp; reflexivity | reflexivity].
  injection Hloop as <- <- <-.
  eapply (finishBook_combined_first w ctx fileName book customPrompt params Hmode)
    in Hfin as (v & Hf & Hv & Hp1); [|reflexivity].
  eexists _, v. split; [exact Hf|]. split; [exact Hv|].
  rewrite Hp1. split; reflexivity.
Qed.

(** The body of the [try], run on a store that holds such a value. *)
Lemma processBook_combined_again signal chapters chapterTags st v :
  store_fault w GetItem (generateKey fileName combined_mindmap None) = None ->
  store st !! generateKey fileName combined_mindmap None = Some v ->
  is_mindMap v = false ->
  page st = started params ->
  aborted signal (requests st) = false ->
  asks_once
    (SummaryPage.processBook w ctx fileName book signal customPrompt useCustomOnly
       chapters chapterTags) st.
Proof.
  intros Hf Hs Hv Hp Ha. unfold SummaryPage.processBook.
  eapply asks_once_next; [reflexivity | reflexivity |].
  rewrite Hmode.
  eapply asks_once_next;
    [ apply (processGroups_combined w ctx fileName customPrompt useCustomOnly
               params Hmode signal);
      [simpl; rewrite Hp; reflexivity | reflexivity]
    | reflexivity |].
  simpl snd. unfold SummaryPage.finishBook. rewrite Hmode.
  apply asks_once_bind; [|intros x; apply keeps_requests_set_page].
  eapply generateCombinedMindMap_asks_again; [exact Hf | exact Hs | exact Hv | exact Ha].
Qed.

End RootlessRerun.

(** C1. In whole-book mode the second run is not served from the cache
    when the provider's answer has no [nodeData] member: the first run
    finishes, shows the answer and stores it, [getMindMap] does not take
    what is stored for a mind map, and the second run, with the same
    arguments and the cache untouched, sends a request to the provider
    again. [generateCombinedMindMap] does not make the test for [nodeData]
    that [processMindMapGroup] makes. *)
Theorem rootless_whole_book_map_is_asked_again (w : World) (ctx : PageContext)
    (signal1 signal2 : AbortSignal) (selectedChapters : gset jsstring)
    (chapterTags : gmap jsstring jsstring) (customPrompt : jsstring)
    (useCustomOnly : bool) (st st1 st2 : State) (o : Outcome RunStatus) :
  processingMode ctx = ModeCombinedMindmap ->
  SummaryPage.handleStartProcessing w ctx signal1 selectedChapters chapterTags
    customPrompt useCustomOnly st = (Return Finished, st1) ->
  (exists m v, bookMindMap (page st1) = Some m
               /\ bm_combinedMindMap m = Some v
               /\ StageSpec.is_mindMap v = false) ->
  aborted signal2 (requests st1) = false ->
  SummaryPage.handleStartProcessing w ctx signal2 selectedChapters chapterTags
    customPrompt useCustomOnly st1 = (o, st2) ->
  requests st2 = S (requests st1).
Proof.
  intros Hmode H (m & v & Hm & Hmv & Hv) Ha H2.
  unfold SummaryPage.handleStartProcessing in *.
  destruct (extractedChapters ctx) as [extracted|]; [|discriminate].
  destruct (bookData ctx) as [book|]; [|discriminate].
  destruct (file ctx) as [fileName|]; [|discriminate].
  destruct (negb (nonempty (apiKey ctx))); [discriminate|].
  destruct (bool_decide (size selectedChapters = 0%nat)); [discriminate|].
  apply bind_Return_inv in H as ([] & sa & Hsa & H).
  apply bind_Return_inv in H as (status & sb & Htry & H).
  apply bind_Return_inv in H as ([] & sc & Hc & H).
  unfold set_page in Hsa, Hc. injection Hsa as <-. injection Hc as <-.
  injection H as -> <-.
  apply try_catch_inv in Htry as [(a & Hrun & [= <-])|(e & sx & _ & Hh)].
  2: { destruct (decide _); [discriminate|].
       apply bind_Return_inv in Hh as ([] & sy & _ & Hh). discriminate. }
  apply bind_Return_inv in Hrun as ([] & sb' & Hrun & [= <-]).
  eapply (processBook_combined_first w ctx fileName book customPrompt useCustomOnly
            _ Hmode) in Hrun as (m' & v' & Hf & Hs & Hm' & Hmv'); [|reflexivity].
  simpl in Hm. rewrite Hm' in Hm. injection Hm as <-.
  rewrite Hmv' in Hmv. injection Hmv as <-.
  match type of H2 with
  | bind ?m ?k ?s = _ =>
      refine (asks_once_next m k s tt _ eq_refl eq_refl _ o st2 H2)
  end.
  apply asks_once_bind.
  - apply asks_once_try_catch.
    + apply asks_once_bind.
      * eapply (processBook_combined_again w ctx fileName book customPrompt
                  useCustomOnly _ Hmode);
          [exact Hf | simpl; exact Hs | exact Hv | reflexivity | exact Ha].
      * intros x. apply keeps_ret, same_requests_refl.
    + intros e. destruct (decide _); [apply keeps_ret, same_requests_refl|].
      apply (keeps_bind Asking.same_requests same_requests_trans);
        [apply keeps_requests_set_page|].
      intros x. apply keeps_ret, same_requests_refl.
  - intros status. apply (keeps_bind Asking.same_requests same_requests_trans);
      [apply keeps_requests_set_page|].
    intros x. apply keeps_ret, same_requests_refl.
Qed.

(** The provider answers [{}] to the request for the map of the whole book:
    the first run finishes with one request, the second sends another. *)
Lemma rootless_whole_book_map_witness :
  let w := StoreSpec.constant_world (js "{}") [] (Some (JObj [])) in
  let run :=
    SummaryPage.handleStartProcessing w
      (Sample.context ModeCombinedMindmap non_fiction)
      StoreSpec.never_aborted Sample.both ∅ [] false in
  let st1 := snd (run StoreSpec.fresh) in
  fst (run StoreSpec.fresh) = Return Finished
  /\ fst (run st1) = Return Finished
  /\ requests st1 = 1%nat
  /\ requests (snd (run st1)) = S (requests st1).
Proof.
  intros w run st1.
  split; [by_evaluation|]. split; [by_evaluation|]. split; [by_evaluation|].
  apply (rootless_whole_book_map_is_asked_again w
           (Sample.context ModeCombinedMindmap non_fiction)
           StoreSpec.never_aborted StoreSpec.never_aborted Sample.both ∅ [] false
           StoreSpec.fresh st1 (snd (run st1)) (fst (run st1))).
  - reflexivity.
  - by_evaluation.
  - vm_compute. eexists _, _. split; [reflexivity|]. split; reflexivity.
  - reflexivity.
  - apply surjective_pairing.
Defined.

(** ** The cache management page *)

Section ManagementFacts.
Import JsString CacheKey StoreSpec StageSpec KeyShape CacheShape CacheManagementPage.
Context (w : World).

Lemma byMode_loop (entries summaryEntries mindmapEntries : list BookEntry) :
  fold_left
    (fun '(summaryEntries, mindmapEntries) entry =>
       match getEntryMode (be_type entry) with
       | Some CacheSummary => (summaryEntries ++ [entry], mindmapEntries)
       | Some CacheMindmap => (summaryEntries, mindmapEntries ++ [entry])
       | None => (summaryEntries, mindmapEntries)
       end)
    entries (summaryEntries, mindmapEntries)
  = (summaryEntries
       ++ List.filter (fun entry => bool_decide (getEntryMode (be_type entry)
                                                 = Some CacheSummary)) entries,
     mindmapEntries
       ++ List.filter (fun entry => bool_decide (getEntryMode (be_type entry)
                                                 = Some CacheMindmap)) entries).
Proof.
  revert summaryEntries mindmapEntries.
  induction entries as [|entry entries IH]; intros summaryEntries mindmapEntries;
    cbn [fold_left List.filter].
  - now rewrite !app_nil_r.
  - destruct (getEntryMode (be_type entry)) as [[|]|]; rewrite IH; cbn [bool_decide];
      rewrite ?bool_decide_eq_true_2, ?bool_decide_eq_false_2 by congruence;
      now rewrite <- ?app_assoc.
Qed.

Lemma In_groupsOfBook book entries group :
  In group (groupsOfBook book entries) ->
  bmg_bookName group = book
  /\ bmg_entries group
     = List.filter (fun entry => bool_decide (getEntryMode (be_type entry)
                                              = Some (bmg_mode group))) entries
  /\ bmg_entries group <> [].
Proof.
  unfold groupsOfBook, byMode. rewrite byMode_loop. cbn [app].
  intros [H|H]%in_app_or.
  - destruct (List.filter _ entries) as [|e es] eqn:E; [destruct H|].
    destruct H as [<-|[]]. cbn. now rewrite E.
  - destruct (List.filter (fun entry => bool_decide (_ = Some CacheMindmap)) entries)
      as [|e es] eqn:E; [destruct H|].
    destruct H as [<-|[]]. cbn. now rewrite E.
Qed.

Lemma JsMap_get_In {V} key (v : V) (entries : list (jsstring * V)) :
  List.NoDup (map fst entries) -> In (key, v) entries ->
  JsMap.get key entries = Some v.
Proof.
  induction entries as [|[k x] rest IH]; intros Hnd Hin; [destruct Hin|].
  simpl in *. inversion Hnd as [|? ? Hk Hrest]; subst.
  destruct Hin as [[= -> ->]|Hin].
  - destruct (decide (key = key)); [reflexivity | congruence].
  - destruct (decide (k = key)) as [->|Hne]; [|now apply IH].
    exfalso. apply Hk. apply in_map_iff. now exists (key, v).
Qed.

Lemma deleteGroupEntries_fault_free entries n st :
  fault_free w ->
  deleteGroupEntries w entries n st
  = (Return (n + length entries)%nat,
     with_store (deleteKeys (map be_key entries) (store st)) st).
Proof.
  intros Hw. revert n st. induction entries as [|entry entries IH]; intros n st.
  - simpl. unfold ret, deleteKeys. simpl. rewrite with_store_same.
    f_equal. f_equal. lia.
  - cbn [deleteGroupEntries].
    unfold bind at 1, CacheService.counted, bind at 1.
    rewrite deleteCacheByKey_eq, (Hw RemoveItem). cbn [ret].
    rewrite IH. unfold deleteKeys. simpl. f_equal. f_equal. lia.
Qed.

(** The entries of a group that is listed for a store. *)
Lemma listed_group_entries st grouped group :
  store_fault w Keys [] = None ->
  CacheSettings.getCacheEntriesByBook w st = (Return grouped, st) ->
  In group (pushedGroups grouped) ->
  bmg_entries group
  = List.filter (fun entry => bool_decide (getEntryMode (be_type entry)
                                           = Some (bmg_mode group)))
      (map bookEntry
         (List.filter (of_book (bmg_bookName group)) (entriesOf (store st))))
  /\ bmg_entries group <> [].
Proof.
  intros Hk Hrun Hin.
  unfold CacheSettings.getCacheEntriesByBook, bind in Hrun.
  rewrite (getAllCacheEntries_eq w st Hk) in Hrun. injection Hrun as <-.
  destruct (grouping_loop (entriesOf (store st)) []) as (Hnd & _ & Hget).
  { constructor. }
  { intros book es H. discriminate H. }
  unfold pushedGroups in Hin. apply in_flat_map in Hin as ([book es] & Hbook & Hin).
  apply In_groupsOfBook in Hin as (Hname & Hentries & Hne).
  split; [|exact Hne]. rewrite Hentries at 1. rewrite Hname.
  specialize (Hget book). rewrite (JsMap_get_In _ _ _ Hnd Hbook) in Hget.
  simpl in Hget. now rewrite Hget.
Qed.

End ManagementFacts.

(** X23. On the cache management page a group of a book and a mode holds
    the stored keys that are read as keys of the book with a kind of the
    mode (summary: summary, connections, overall summary, character
    relationship; mind map: the four mind-map kinds), and it is not empty.
    Deleting the group removes these entries and no other, so the
    settings of the book and the entries of the other mode stay, and the
    count shown is the number of entries of the group. (The persistence
    layer is taken not to fail.) *)
Theorem group_delete_removes_its_entries (w : World) (st : State)
    (grouped : list (jsstring * list BookEntry)) (group : BookModeGroup) :
  StoreSpec.fault_free w ->
  CacheSettings.getCacheEntriesByBook w st = (Return grouped, st) ->
  In group (CacheManagementPage.pushedGroups grouped) ->
  bmg_entries group <> []
  /\ (forall key,
        key ∈ map be_key (bmg_entries group)
        <-> is_Some (store st !! key)
            /\ exists parsed,
                 CacheKey.parseKey key = Some parsed
                 /\ bookName parsed = bmg_bookName group
                 /\ CacheManagementPage.getEntryMode (type parsed)
                    = Some (bmg_mode group))
  /\ exists st',
       CacheManagementPage.deleteGroup w group st
       = (Return (length (bmg_entries group)), st')
       /\ forall key,
            store st' !! key
            = if bool_decide (key ∈ map be_key (bmg_entries group)) then None
              else store st !! key.
Proof.
  intros Hff Hrun Hin.
  destruct (listed_group_entries w st grouped group (Hff Keys []) Hrun Hin)
    as [Hentries Hne].
  split; [exact Hne|]. split.
  - intros key. rewrite Hentries, list_elem_of_In, in_map_iff. split.
    + intros (entry & <- & [Hin' Hmode]%filter_In).
      apply bool_decide_eq_true_1 in Hmode.
      apply in_map_iff in Hin' as (e & <- & [He Hbook]%filter_In).
      apply In_entriesOf in He as [Hsome Hparse].
      apply bool_decide_eq_true_1 in Hbook.
      split; [exact Hsome|]. exists (ce_parsed e). now repeat split.
    + intros (Hsome & parsed & Hparse & Hbook & Hmode).
      exists (CacheShape.bookEntry {| ce_key := key; ce_parsed := parsed |}).
      split; [reflexivity|]. apply filter_In. split.
      * apply in_map, filter_In. split.
        -- now apply In_entriesOf.
        -- now apply bool_decide_eq_true_2.
      * now apply bool_decide_eq_true_2.
  - unfold CacheManagementPage.deleteGroup.
    rewrite (deleteGroupEntries_fault_free w _ _ st Hff).
    eexists. split; [reflexivity|]. intros key. apply deleteKeys_lookup.
Qed.

(** Book [a] has its connections, the mind map of a chapter and its
    selection stored; the summary group holds the connections only. *)
Lemma group_delete_removes_its_entries_witness :
  let w := StoreSpec.constant_world [] [] None in
  let st :=
    StoreSpec.with_store
      {[ js "book_a_connections" := JStr (js "x");
         js "book_a_selected_chapters" := JArr [];
         js "book_a_chapter_2_mindmap" := JNull ]} StoreSpec.fresh in
  let group :=
    {| bmg_bookName := js "a"; bmg_mode := CacheSummary;
       bmg_entries := [ {| be_key := js "book_a_connections";
                           be_type := connections; be_chapterId := None |} ];
       bmg_displayName := js "a" |} in
  exists st',
    CacheManagementPage.deleteGroup w group st = (Return 1%nat, st')
    /\ forall key,
         store st' !! key
         = if bool_decide (key ∈ [js "book_a_connections"]) then None
           else store st !! key.
Proof.
  intros w st group.
  set (listing := CacheSettings.getCacheEntriesByBook w st).
  set (grouped := match fst listing with Return g => g | Throw _ => [] end).
  destruct (group_delete_removes_its_entries w st grouped group) as (_ & _ & H);
    [intros op key; reflexivity | vm_compute; reflexivity
     | vm_compute; left; reflexivity | exact H].
Defined.
